(* ===== verification/_CoqProject ===== *)
-Q . S2P
Prelude.v
CLibrary.v
NumberText.v
WallTime.v
FloatOrder.v
FloatScale.v
LineFilter.v
Secs2Item.v
Secs2Codec.v
Secs2Message.v
TextDump.v
HsmsFrame.v
HsmsConn.v
HsmsSession.v
ProcessFsm.v
Controller.v
MachineApi.v
GemMessages.v
GemService.v
HsmsServer.v
HostLink.v
ConfigFile.v
Queue.v
FitPool.v
WaferFit.v
WaferStress.v
WaferModel.v
FaultInjector.v
ScanThread.v
ScanProgress.v
SpscRing.v
EventBus.v
MachineRuntime.v
Shutdown.v
WaferPipeline.v
WaferRun.v
ResultFiles.v
WaferPicture.v
WaferMapWidget.v
SettingsDialog.v
EventBridge.v
WaferOutput.v
Logger.v
RuntimeLog.v
Panel.v
CliArguments.v
AppCli.v
PanelMain.v
HostPattern.v
HostScript.v
HostRunner.v
HostMachine.v
HostMain.v
