(* ===== verification/Prelude.v ===== *)
(** * StressScan-Sim: a verification development

    StressScan-Sim (src/) simulates a wafer metrology machine: a scan thread measures
    wafers line by line, a processing thread analyses them, a controller thread runs the
    process state machine, and an HSMS server speaks SECS-II/GEM with a factory host. A
    host simulator plays the other end of the wire. This library models that code as
    executable Rocq definitions and proves what makes it correct. A definition keeps the
    name of what it models; the comment above it says what is not obvious.

    ** Parts, files and what is proved

    Shared: [Prelude] (results as values, machine integers, bytes, tactics, list
    lemmas), [CLibrary] (the C and C++ library functions the sources call: character
    classes, strtoull, strtoll, strtod, printf, IEEE 754 numbers), [NumberText] (the
    characters of a number as text), [FloatOrder] (the value of a double as an integer:
    comparisons compare it, sums and differences round it, and operations do not tell the
    two zeros apart but by sign), [FloatScale] (products and quotients: monotone, and exact
    where the result is a number) and [WallTime] (the calendar, and the time stamps of
    logger.cpp and machine_runtime.cpp).

    The wire, src/secsgem/secs2 and src/secsgem/hsms:
    - [Secs2Item], [Secs2Codec] (item.cpp, codec.cpp): encode and decode are inverse on
      every item within the limits, decode is safe on arbitrary bytes, encode fails
      exactly outside the limits, and no proper prefix of an encoding is accepted;
    - [Secs2Message] (message_factory.cpp): the catalogue of messages and the
      classification behind the S9 errors; [TextDump] (text_dump.cpp): log text is one
      line of printable ASCII whatever a peer sends;
    - [HsmsFrame] (frame.cpp, frame_decoder.cpp, data_message.cpp): the stream decoder
      gives the same frames however TCP cuts a sound stream, and the same error for one
      that is not, buffers less than one frame, and reads back what [encode_frame] writes;
    - [HsmsConn], [HsmsSession] (connection_state.cpp, session.cpp): the state table as
      documented, an invariant of every reachable session, the exact effect of a tick on
      T3, T6, T7 and T8, no data outside SELECTED, and the matching of replies with
      requests end to end between two sessions;
    - [HsmsServer] (server.cpp): the I/O thread as steps over socket, session, write
      queue and notified state, with completions that may be stale, and their agreement
      in every history.

    The machine, src/core, src/hw, src/machine:
    - [ProcessFsm] (process_state_machine.cpp) against the table of docs/PRD.md 6.5;
    - [Controller] (controller.cpp, alarms.cpp, command.cpp, ui_rules.cpp): replaying
      the published events rebuilds the controller's state, commands without authority
      change nothing, the panel offers exactly what would be accepted;
    - [MachineApi] (machine_api.cpp): the interface [MachineOps] the GEM service is
      written against, its contract, and the implementation that meets it;
    - [GemMessages], [GemService] (messages.cpp, identifiers.cpp, gem_service.cpp): the
      parsers invert the builders, every request gets exactly one answer, or one S9,
      and nothing else is answered, the codes of a
      remote command tell what happened to the machine, the host cannot seize control,
      event reports have the layout of the catalogue;
    - [Queue], [SpscRing] (queue.hpp, spsc_ring_queue.hpp): the two queues as step
      relations over threads; both are first-in first-out buffers (class [Fifo]), no
      wake-up is lost, closing releases everybody;
    - [EventBus] (event_bus.cpp): after the unsubscribe that took a subscription out
      returns, no call of it is in flight, ever; a second unsubscribe promises nothing;
    - [MachineRuntime] (machine_runtime.cpp, scan_thread.cpp): controller, scan and
      processing threads over both queues; in orderly runs every wafer analysed is one that was
      scanned, whole and in order, and left to itself the machine comes to rest;
    - [Shutdown] (MachineRuntime::shutdown, Controller::stop): from every state of the
      machine with no start under way, under every schedule, shutting down ends with all its threads;
    - [RuntimeLog] (the subscriptions of machine_runtime.cpp): the lines of machine.log and
      the number of the next wafer; the log tells the state of the machine;
    - [HostLink] (MachineRuntime::Comm): through the forwarder the server and the GEM
      service behave as if the one were the handler of the other.

    - [ConfigFile] (config.cpp): a configuration that loads has every value that is checked
      in its range and exactly one warning for every unknown key, and every configuration in range can be
      written as JSON and loaded back;
    - [Logger] (logger.cpp): every record offered before stop is accepted in order or counted,
      in every interleaving, and on a log that can be opened the rotated files and the
      current one hold what was accepted.

    The simulated hardware, src/hw:
    - [WaferModel] (wafer_model.cpp): the shape of a wafer, over any arithmetic; over the
      reals, a clean wafer that is scanned, fitted and combined gives back its stress;
    - [FaultInjector] (fault_injector.cpp): a run of faults changes exactly the samples it
      should;
    - [ScanThread] (scan_thread.cpp, stage_sim.cpp, laser_sensor_sim.cpp,
      hardware_factory.cpp): a scan sample by sample, and what it hands over, complete or
      cut by an abort;
    - [ScanProgress]: in IEEE arithmetic, the progress of a completed scan rises to 100 and its
      positions cover the wafer from rim to rim without leaving it.

    The analysis, src/analysis:
    - [LineFilter] (edge_exclusion.cpp, outlier_rejection.cpp): the sliding-window outlier
      filter gives, bit for bit, the result of the filter it replaced, which the tests keep
      as a reference;
    - [FitPool] (fit_pool.cpp): a call of the thread pool returns under every
      interleaving, with the results of a serial loop and nothing left behind;
    - [WaferFit] (line_fit.cpp): the fit, written once over a class of arithmetic; over
      the reals it is the least-squares parabola, over doubles it is the program;
    - [WaferStress] (combine.cpp, stoney.cpp, uncertainty.cpp), over any arithmetic;
    - [WaferPipeline] (quality_gates.cpp, wafer_map.cpp, pipeline.cpp, and the verdict of
      process_wafer): threads make no difference to a result, and a number is reported
      exactly when nothing is wrong;
    - [WaferRun]: every wafer scanned to the end under an accepted configuration is
      analysed to the end, with a complete map.

    The output, src/analysis/writers and src/machine/machine_runtime.cpp:
    - [ResultFiles] (csv_writer.cpp): the CSV files read back as the rows that should be
      in them, and nothing is overwritten;
    - [WaferPicture] (png_writer.cpp): every pixel of the picture shows what it should;
    - [WaferOutput] (json_writer.cpp, create_run_dir and the end of process_wafer): the
      last event of a wafer says whether its files were newly opened, which then hold
      what the disk took of their texts, and the directory of a run is fresh.

    The operator panel, src/app_qt:
    - [WaferMapWidget] (wafer_map_widget.cpp): the image a map becomes, a colour for each
      finite cell and nothing elsewhere;
    - [SettingsDialog] (settings_dialog.cpp): an accepted dialog makes of a configuration
      in range one in range, whose specification is in order;
    - [EventBridge] (event_bridge.cpp): events become signals at once, but for progress and
      log lines, which wait for the timer and are emitted then, the latest and in order;
    - [Panel] (main_window.cpp): the window, its machine, the signals and commands under
      way as steps. Once the signals are delivered the window shows the machine as it is, but
      for the mode box and the menu while a command is under way,
      and a command always reaches the machine it was given to. The last lemmas show
      where a machine is replaced too early and what may be shown then.

    The programs:
    - [CliArguments], [AppCli] (src/app_cli/main.cpp, MachineRuntime::create and
      HsmsServer::start): command lines are read back, and every run of equipment_cli,
      from its arguments through scan, analysis and writers, ends with the exit code of
      its cause. Here everything above is put together;
    - [PanelMain] (src/app_qt/main.cpp): the panel's arguments, overrides and first machine,
      up to the event loop;
    - [HostMain] (src/host_sim/main.cpp): the same of the host simulator.

    The host simulator, src/host_sim:
    - [HostPattern] (pattern.cpp): the parser of items and patterns ends on every text,
      yields well-typed items, and reads back every pattern written as text;
    - [HostScript] (script.cpp): scripts parse to well-formed commands in order, or to
      the error of the first wrong line;
    - [HostRunner] (host_client.cpp, runner.cpp): every run of a script ends with a
      verdict, and a wait takes the first message that matches and loses none;
    - [HostMachine] puts the runner and the machine's session together: events are
      acknowledged and the select handshake succeeds exactly when it should.

    ** Conventions

    Integers are [Z] with their wrap-around written out ([wrap]), bytes are [Z] in range,
    strings are [string]. A record is a struct or a class with its members in order; an
    operation takes the state and returns it changed. Expected failures are values of
    [Result], as in the code. Lambdas posted to another thread are steps of that thread.
    A time point is a [Z] of milliseconds and is an argument, or the state of the
    environment: the clock never runs backwards inside a proof unless a theorem says so.

    Floating-point numbers are those of SpecFloat, rounding to nearest even at the
    precision of their type; items hold them as bit patterns. The sign and the payload of
    a NaN are not modelled.

    Concurrent parts (queues, bus, runtime) are step relations whose labels are the
    atomic actions of the code: a critical section, an atomic access, a wake-up. A run is
    any list of labels, so a theorem about runs holds for every interleaving. Condition
    variables may wake spuriously. The ring is modelled with its relaxed reads: an acquire
    load may return any value stored since the last one seen.

    ** Fuel

    Recursion that is not structural takes fuel, and a theorem shows the fuel given is
    enough, so that no result depends on it: the system-byte search by the number of open
    transactions plus three ([allocate_fresh]), the frame decoder by the length of its
    buffer ([feed_loop_fuel]), the pattern parser by twice the length of the text
    ([parser_total]), the words and variables of a script by their length, the waits of
    the runner by the number of arrivals left plus two ([wait_message_spec],
    [run_total]). The two loops of [normalize_angle] take as fuel the rounds they may go on
    for; one is enough for every angle the map is built from ([map_built]), and
    a map that would need more is [None], not a value.

    ** Parameters

    What is not in src/ is an argument: the answers of Asio (what arrives and when,
    errors of connecting and writing, the parsing of an address), the order in which a
    hash set is walked ([HashOrder]), the value of a conversion the C++ standard leaves
    undefined ([nan_cast], [undefined_int]), the JSON library (class [Json], with the
    laws of [JsonNumbers] and [JsonWriter], met by the documents [Value]), the text of a
    JSON value ([dump]), the PNG encoder ([encode]), and std::hypot, std::atan2 and
    std::sort for the map (class [MapLibrary]); cos and sin (class [Trig]); the random
    engine and the distributions of the C++ library, whose sequences its standard does not
    fix (classes [Random] and [Gaussian]); the clock; the errors of the file system,
    which files can be opened, and what of a text written to a result file is stored ([FileSystem]). A scan takes the abort flag as a function of the sample at
    which it is read. [MachineRuntime] takes the verdict on a wafer as an argument;
    [wafer_verdict] is the one the program gives it. [AppCli] runs the threads of a single
    wafer one after the other, which [MachineRuntime] and [WaferPipeline] justify. Of Qt: the
    text QString::arg makes (class [QtText]), the value a spin box holds once it is given one
    (class [SpinBox], with the documented [SpinBounded]), the colour of a hue, saturation and
    value (class [ColorLibrary]); signals of one thread are delivered in the order they were
    emitted.

    ** Not modelled

    The layout and painting of the panel, its event loop and what a widget makes of a value
    it cannot show are Qt's; the benchmarks (src/bench) measure and decide nothing. Asio's own
    threads and sockets, and the file system, are environment. The time stamps of samples,
    which nothing reads, and the log lines of the components other than the runtime's own
    subscriptions are left out. [Panel] takes the threads of its machine between two events
    as [MachineRuntime] proves them to be, and destroys a machine in one step, which
    [Shutdown] justifies. The stream of the log is taken to keep what it is given; the code does not
    look at it once it is open, as it does not look at those of the result files. Contracted
    floating-point operations (fused multiply-add) are not assumed. *)

From stdpp Require Export base tactics numbers list gmap strings sorting.
From Stdlib Require Export ZArith Lia Ascii.

#[global] Open Scope Z_scope.

(** ** Results

    [ssim::core::Error] and [ssim::core::Result<T>] of
    include/ssim/core/result.hpp: an expected failure is a value. *)

Record Error := mkError { code : Z; message : string }.

Inductive Result (A : Type) : Type :=
| Ok (a : A)
| Err (e : Error).
Arguments Ok {A} a.
Arguments Err {A} e.

#[global] Instance Error_eq_dec : EqDecision Error.
Proof. solve_decision. Defined.
#[global] Instance Result_eq_dec {A} `{EqDecision A} : EqDecision (Result A).
Proof. solve_decision. Defined.

(** [Result::has_value], and the error a failed result carries. *)
Definition has_value {A} (r : Result A) : bool :=
  match r with Ok _ => true | Err _ => false end.

Definition result_bind {A B} (r : Result A) (k : A -> Result B) : Result B :=
  match r with Ok a => k a | Err e => Err e end.

Declare Scope result_scope.
Delimit Scope result_scope with result.
Notation "'let?' x ':=' r 'in' k" := (result_bind r (fun x => k))
  (at level 200, x name, r at level 100, k at level 200, right associativity) : result_scope.
Notation "'let?' ' p ':=' r 'in' k" := (result_bind r (fun x => match x with p => k end))
  (at level 200, p pattern, r at level 100, k at level 200, right associativity) : result_scope.
#[global] Open Scope result_scope.

Lemma result_bind_Ok {A B} (r : Result A) (k : A -> Result B) b :
  result_bind r k = Ok b <-> exists a, r = Ok a /\ k a = Ok b.
Proof. destruct r; simpl; naive_solver. Qed.

Lemma result_bind_Err {A B} (r : Result A) (k : A -> Result B) e :
  result_bind r k = Err e <-> r = Err e \/ exists a, r = Ok a /\ k a = Err e.
Proof. destruct r; simpl; naive_solver. Qed.

Lemma has_value_true {A} (r : Result A) : has_value r = true <-> exists a, r = Ok a.
Proof. destruct r; simpl; naive_solver. Qed.

(** ** Automation *)

(** The lemmas about machine integers and bytes that close side conditions. *)
Create HintDb ssim.

(** Splits every [match] and [if] of the goal, keeping the equations. *)
Ltac split_matches :=
  repeat (case_match; simplify_eq/=; try done).

(** Inverts the successful binds of the hypotheses. *)
Ltac inv_result :=
  repeat match goal with
  | H : result_bind _ _ = Ok _ |- _ =>
      let x := fresh "x" in let Hx := fresh "Hx" in
      apply result_bind_Ok in H as (x & Hx & H)
  | H : Ok _ = Ok _ |- _ => injection H as H; subst
  | H : Err _ = Ok _ |- _ => discriminate H
  | H : Ok _ = Err _ |- _ => discriminate H
  end.

(** ** Machine integers and bytes *)

(** The value a [w]-bit unsigned C++ integer keeps of [v]. *)
Definition wrap (w v : Z) : Z := v mod 2 ^ w.

(** [v] is representable in an unsigned, or a two's complement, [w]-bit integer. *)
Definition uint_ok (w v : Z) : Prop := 0 <= v < 2 ^ w.
Definition sint_ok (w v : Z) : Prop := - 2 ^ (w - 1) <= v < 2 ^ (w - 1).

Abbreviation byte_ok := (uint_ok 8).
Abbreviation bytes_ok := (Forall byte_ok).

#[global] Instance uint_ok_dec w v : Decision (uint_ok w v).
Proof. unfold uint_ok. apply _. Defined.
#[global] Instance sint_ok_dec w v : Decision (sint_ok w v).
Proof. unfold sint_ok. apply _. Defined.

(** Linear arithmetic that sees through the range predicates. *)
Ltac int_lia := unfold uint_ok, sint_ok in *; lia.

Lemma byte_ok_iff b : byte_ok b <-> 0 <= b < 256.
Proof. done. Qed.

Lemma wrap_range w v : 0 <= w -> uint_ok w (wrap w v).
Proof. intros. unfold uint_ok, wrap. apply Z.mod_pos_bound. lia. Qed.

Lemma wrap_id w v : uint_ok w v -> wrap w v = v.
Proof. intros. unfold wrap. apply Z.mod_small. done. Qed.

Lemma land_255 v : Z.land v 255 = v mod 256.
Proof. change 255 with (Z.ones 8). by rewrite Z.land_ones by lia. Qed.

Lemma land_255_ok v : byte_ok (Z.land v 255).
Proof. rewrite land_255. apply byte_ok_iff. apply Z.mod_pos_bound. lia. Qed.

(** Putting a byte below a shifted value is an addition. *)
Lemma lor_shiftl_add a b k : 0 <= k -> 0 <= b < 2 ^ k -> Z.lor (Z.shiftl a k) b = a * 2 ^ k + b.
Proof.
  intros Hk Hb. rewrite <- Z.add_lor_land.
  - rewrite Z.shiftl_mul_pow2 by lia.
    enough (Z.land (a * 2 ^ k) b = 0) as ->; [lia|].
    apply Z.bits_inj'. intros i Hi. rewrite Z.land_spec, Z.bits_0.
    destruct (Z.eq_dec b 0) as [->|]; [by rewrite Z.bits_0, andb_false_r|].
    destruct (Z.lt_ge_cases i k).
    + by rewrite Z.mul_pow2_bits_low.
    + rewrite (Z.bits_above_log2 b i), andb_false_r; [done|lia|].
      apply Z.log2_lt_pow2; [lia|]. apply Z.lt_le_trans with (2 ^ k); [lia|].
      apply Z.pow_le_mono_r; lia.
Qed.

#[export] Hint Resolve wrap_range land_255_ok : ssim.

(** ** Big-endian byte strings

    The mathematical meaning of the shift-and-mask loops of codec.cpp and
    frame.cpp: [be_bytes n v] is [v] in [n] bytes, most significant first, and
    [be_value] reads such a string back. *)

Fixpoint be_bytes (n : nat) (v : Z) : list Z :=
  match n with
  | O => []
  | S i => (v / 256 ^ Z.of_nat i) mod 256 :: be_bytes i v
  end.

Definition be_value (bs : list Z) : Z := foldl (fun v b => v * 256 + b) 0 bs.

Lemma be_bytes_length n v : length (be_bytes n v) = n.
Proof. induction n; simpl; auto. Qed.

Lemma be_bytes_ok n v : bytes_ok (be_bytes n v).
Proof.
  induction n; simpl; constructor; auto.
  apply byte_ok_iff, Z.mod_pos_bound. lia.
Qed.

Lemma be_value_snoc bs b : be_value (bs ++ [b]) = be_value bs * 256 + b.
Proof. unfold be_value. by rewrite foldl_app. Qed.

Lemma be_value_range bs : bytes_ok bs -> 0 <= be_value bs < 256 ^ Z.of_nat (length bs).
Proof.
  induction bs as [|b bs IH] using rev_ind; intros Hok; [done|].
  apply Forall_app in Hok as [Hbs [Hb _]%Forall_cons_1].
  rewrite be_value_snoc, length_app, Nat.add_comm.
  change (length [b] + length bs)%nat with (S (length bs)).
  rewrite Nat2Z.inj_succ, Z.pow_succ_r by lia.
  specialize (IH Hbs). int_lia.
Qed.

(** One more byte at the least significant end. *)
Lemma be_bytes_snoc n v : be_bytes (S n) v = be_bytes n (v / 256) ++ [v mod 256].
Proof.
  induction n as [|n IH]; [simpl; by rewrite Z.div_1_r|].
  change (be_bytes (S (S n)) v) with ((v / 256 ^ Z.of_nat (S n)) mod 256 :: be_bytes (S n) v).
  rewrite IH. simpl. f_equal.
  rewrite Z.div_div by lia. by rewrite Nat2Z.inj_succ, Z.pow_succ_r by lia.
Qed.

Lemma be_value_bytes n v : be_value (be_bytes n v) = v mod 256 ^ Z.of_nat n.
Proof.
  revert v. induction n as [|n IH]; intros v; [by rewrite Z.mod_1_r|].
  rewrite be_bytes_snoc, be_value_snoc, IH.
  rewrite Nat2Z.inj_succ, Z.pow_succ_r, Z.rem_mul_r by lia. lia.
Qed.

Lemma be_bytes_value bs : bytes_ok bs -> be_bytes (length bs) (be_value bs) = bs.
Proof.
  induction bs as [|b bs IH] using rev_ind; intros Hok; [done|].
  apply Forall_app in Hok as [Hbs [Hb _]%Forall_cons_1].
  rewrite length_app, Nat.add_comm.
  change (length [b] + length bs)%nat with (S (length bs)).
  rewrite be_bytes_snoc, be_value_snoc.
  rewrite Z.div_add_l, Z.div_small, Z.add_0_r by int_lia. rewrite IH by done.
  f_equal. f_equal. rewrite Z.add_comm, Z.mod_add, Z.mod_small; int_lia.
Qed.

Lemma be_value_bytes_id n v : 0 <= v < 256 ^ Z.of_nat n -> be_value (be_bytes n v) = v.
Proof. intros. by rewrite be_value_bytes, Z.mod_small. Qed.

(** The byte the code extracts at a position: shift right, mask with 0xFF. *)
Lemma shiftr_land_255 v i :
  Z.land (Z.shiftr v (8 * Z.of_nat i)) 255 = (v / 256 ^ Z.of_nat i) mod 256.
Proof.
  rewrite land_255, Z.shiftr_div_pow2 by lia.
  by rewrite Z.pow_mul_r by lia.
Qed.

#[export] Hint Resolve be_bytes_ok be_value_range : ssim.
