(* ===== verification/CLibrary.v ===== *)
(** * The C and C++ library functions the sources call

    Character classes of the "C" locale, [strtoull] and [strtoll] with base 0,
    [strtod], the conversions of [printf] and [std::to_string], and IEEE 754
    numbers as the bit patterns the items hold. Floating-point numbers are those of
    SpecFloat: every operation rounds to nearest, ties to even, at the precision of
    its type. Sign and payload of a NaN are not modelled. *)

From Stdlib Require Export SpecFloat.
From stdpp Require Export pretty.
From S2P Require Import Prelude.

#[global] Open Scope Z_scope.

(** ** Characters *)

Definition char_code (c : ascii) : Z := Z.of_N (N_of_ascii c).

Definition code_between (lo hi : Z) (c : ascii) : bool := (lo <=? char_code c) && (char_code c <=? hi).

Definition isspace (c : ascii) : bool := code_between 9 13 c || (char_code c =? 32).
Definition isdigit (c : ascii) : bool := code_between 48 57 c.
Definition isupper (c : ascii) : bool := code_between 65 90 c.
Definition islower (c : ascii) : bool := code_between 97 122 c.
Definition isalnum (c : ascii) : bool := isdigit c || isupper c || islower c.

Definition tolower (c : ascii) : ascii :=
  if isupper c then ascii_of_N (N_of_ascii c + 32) else c.

(** ** Strings *)

(** The longest prefix of characters that satisfy [p], and the rest. *)
Fixpoint span (p : ascii -> bool) (s : string) : string * string :=
  match s with
  | EmptyString => (EmptyString, EmptyString)
  | String c s' => if p c then let '(a, b) := span p s' in (String c a, b) else (EmptyString, s)
  end.

Definition quote : ascii := "034"%char.

Fixpoint string_all (p : ascii -> bool) (s : string) : bool :=
  match s with EmptyString => true | String c s => p c && string_all p s end.

Definition skip_space (s : string) : string := (span isspace s).2.

(** [std::string::c_str] as a C function reads it: up to the first NUL. *)
Definition c_str (s : string) : string := (span (fun c => negb (char_code c =? 0)) s).1.

Definition at_char (c : ascii) (s : string) : bool :=
  match s with String d _ => bool_decide (c = d) | EmptyString => false end.

(** ** Integers *)

Definition digit_value (c : ascii) : option Z :=
  if isdigit c then Some (char_code c - 48)
  else if islower c then Some (char_code c - 87)
  else if isupper c then Some (char_code c - 55)
  else None.

Definition base_digit (base : Z) (c : ascii) : option Z :=
  match digit_value c with
  | Some d => if d <? base then Some d else None
  | None => None
  end.

(** The longest run of digits of the base, added to [v]. *)
Fixpoint read_digits (base v : Z) (s : string) : Z * string :=
  match s with
  | EmptyString => (v, s)
  | String c s' =>
      match base_digit base c with
      | Some d => read_digits base (v * base + d) s'
      | None => (v, s)
      end
  end.

Definition read_sign (s : string) : bool * string :=
  match s with
  | String c s' =>
      if bool_decide (c = "-"%char) then (true, s')
      else if bool_decide (c = "+"%char) then (false, s') else (false, s)
  | EmptyString => (false, s)
  end.

Definition is_hex_digit (c : ascii) : bool :=
  match base_digit 16 c with Some _ => true | None => false end.

(** "0x" or "0X", and what follows it. *)
Definition hex_prefix (s : string) : option string :=
  match s with
  | String z (String x s') =>
      if bool_decide (z = "0"%char) && bool_decide (tolower x = "x"%char) then Some s' else None
  | _ => None
  end.

(** The base that base 0 stands for, and the digits to read. *)
Definition read_base (s : string) : Z * string :=
  match hex_prefix s with
  | Some (String c s' as t) =>
      if is_hex_digit c then (16, t) else (8, s)
  | Some EmptyString => (8, s)
  | None => if at_char "0" s then (8, s) else (10, s)
  end.

(** A conversion: the value, [errno] set to [ERANGE], and the text from [end] on;
    [None] when no conversion is done, that is [end] is the start of the text. *)
Definition Conversion (A : Type) : Type := option (A * bool * string).

Definition read_integer (w : string) : option (bool * Z * string) :=
  let s := skip_space (c_str w) in
  let '(neg, s) := read_sign s in
  let '(base, s) := read_base s in
  let '(v, rest) := read_digits base 0 s in
  if bool_decide (rest = s) then None else Some (neg, v, rest).

Definition strtoull (w : string) : Conversion Z :=
  match read_integer w with
  | None => None
  | Some (neg, v, rest) =>
      if 2 ^ 64 <=? v then Some (2 ^ 64 - 1, true, rest)
      else Some (wrap 64 (if neg then - v else v), false, rest)
  end.

Definition strtoll (w : string) : Conversion Z :=
  match read_integer w with
  | None => None
  | Some (neg, v, rest) =>
      let z := if neg then - v else v in
      if z <? - 2 ^ 63 then Some (- 2 ^ 63, true, rest)
      else if 2 ^ 63 - 1 <? z then Some (2 ^ 63 - 1, true, rest)
      else Some (z, false, rest)
  end.

(** ** IEEE 754 numbers *)

Definition prec64 : Z := 53.
Definition emax64 : Z := 1024.
Definition prec32 : Z := 24.
Definition emax32 : Z := 128.

Abbreviation double := spec_float.

(** The bit pattern of a number with [prec] bits of mantissa; [ew] is the width of
    its exponent field. *)
Definition bits_of (prec emax : Z) (x : spec_float) : Z :=
  let top := 2 * emax - 1 in
  let pack (s : bool) (e m : Z) := ((if s then 2 * emax else 0) + e) * 2 ^ (prec - 1) + m in
  match x with
  | S754_zero s => pack s 0 0
  | S754_infinity s => pack s top 0
  | S754_nan => pack false top (2 ^ (prec - 2))
  | S754_finite s m e =>
      if Zpos m <? 2 ^ (prec - 1) then pack s 0 (Zpos m)
      else pack s (e - emin prec emax + 1) (Zpos m - 2 ^ (prec - 1))
  end.

Definition of_bits (prec emax : Z) (v : Z) : spec_float :=
  let m := v mod 2 ^ (prec - 1) in
  let e := v / 2 ^ (prec - 1) mod (2 * emax) in
  let s := 2 * emax <=? v / 2 ^ (prec - 1) in
  if e =? 0 then
    match m with Zpos p => S754_finite s p (emin prec emax) | _ => S754_zero s end
  else if e =? 2 * emax - 1 then
    if m =? 0 then S754_infinity s else S754_nan
  else
    match m + 2 ^ (prec - 1) with
    | Zpos p => S754_finite s p (e - 1 + emin prec emax)
    | _ => S754_nan
    end.

Definition double_bits : double -> Z := bits_of prec64 emax64.
Definition double_of_bits : Z -> double := of_bits prec64 emax64.
Definition float_bits : spec_float -> Z := bits_of prec32 emax32.
Definition float_of_bits : Z -> spec_float := of_bits prec32 emax32.

(** Conversion to another precision, and of an integer. *)
Definition convert (prec emax : Z) (x : spec_float) : spec_float :=
  match x with
  | S754_finite s m e => binary_round prec emax s m e
  | _ => x
  end.

Definition to_float (x : double) : spec_float := convert prec32 emax32 x.
Definition to_double (x : spec_float) : double := convert prec64 emax64 x.
Definition double_of_Z (v : Z) : double := binary_normalize prec64 emax64 v 0 false.

Definition dadd : double -> double -> double := SFadd prec64 emax64.
Definition dsub : double -> double -> double := SFsub prec64 emax64.
Definition dmul : double -> double -> double := SFmul prec64 emax64.
Definition ddiv : double -> double -> double := SFdiv prec64 emax64.

(** The double nearest to [num / den]. *)
Definition double_of_ratio (s : bool) (num den : Z) : double :=
  match num with
  | Zpos _ =>
      let '(q, e, l) := SFdiv_core_binary prec64 emax64 num 0 den 0 in
      binary_round_aux prec64 emax64 s q e l
  | _ => S754_zero s
  end.

(** Exactly [num / den], and not below the smallest normal number. *)
Definition ratio_exact (x : double) (num den : Z) : bool :=
  match x with
  | S754_finite _ m e =>
      if 0 <=? e then Zpos m * 2 ^ e * den =? num else Zpos m * den =? num * 2 ^ (- e)
  | S754_zero _ => num =? 0
  | _ => false
  end.

Definition is_normal (x : double) : bool :=
  match x with S754_finite _ m e => 2 ^ (prec64 - 1) <=? Zpos m | _ => false end.

(** [ERANGE]: the number overflows, or is inexact below the normal numbers. *)
Definition out_of_range (x : double) (num den : Z) : bool :=
  match x with
  | S754_infinity _ => true
  | S754_nan => false
  | _ => negb (is_normal x) && negb (ratio_exact x num den)
  end.

(** ** [strtod] *)

(** [pat] without regard to case; what follows it. *)
Fixpoint match_nocase (pat s : string) : option string :=
  match pat, s with
  | EmptyString, _ => Some s
  | String c pat, String d s => if bool_decide (c = tolower d) then match_nocase pat s else None
  | String _ _, EmptyString => None
  end.

(** The optional "(characters)" after "nan". *)
Definition nan_tail (s : string) : string :=
  match s with
  | String c s' =>
      if bool_decide (c = "("%char) then
        match (span (fun c => isalnum c || bool_decide (c = "_"%char)) s').2 with
        | String d rest => if bool_decide (d = ")"%char) then rest else s
        | EmptyString => s
        end
      else s
  | EmptyString => s
  end.

(** An exponent: a marker, an optional sign and digits, or nothing. *)
Definition read_exponent (marker : ascii) (s : string) : Z * string :=
  match s with
  | String c s' =>
      if bool_decide (tolower c = marker) then
        let '(neg, t) := read_sign s' in
        let '(v, rest) := read_digits 10 0 t in
        if bool_decide (rest = t) then (0, s) else (if neg then - v else v, rest)
      else (0, s)
  | EmptyString => (0, s)
  end.

(** Digits, an optional point and more digits: the digits as one number, how many of
    them follow the point, and the rest; [None] without a digit. *)
Definition read_mantissa (base : Z) (s : string) : option (Z * Z * string) :=
  let '(v, rest) := read_digits base 0 s in
  match rest with
  | String c t =>
      if bool_decide (c = "."%char) then
        let '(v', rest') := read_digits base v t in
        if bool_decide (rest = s) && bool_decide (rest' = t) then None
        else Some (v', Z.of_nat (String.length t) - Z.of_nat (String.length rest'), rest')
      else if bool_decide (rest = s) then None else Some (v, 0, rest)
  | EmptyString => if bool_decide (rest = s) then None else Some (v, 0, rest)
  end.

(** [v * base ^ x] as a fraction. *)
Definition scaled (v base x : Z) : Z * Z :=
  if 0 <=? x then (v * base ^ x, 1) else (v, base ^ (- x)).

Definition finite_number (s : bool) (ratio : Z * Z) (rest : string) : double * bool * string :=
  let '(num, den) := ratio in
  let x := double_of_ratio s num den in (x, out_of_range x num den, rest).

Definition strtod (w : string) : Conversion double :=
  let s := skip_space (c_str w) in
  let '(neg, s) := read_sign s in
  match match_nocase "inf" s with
  | Some t => Some (S754_infinity neg, false, default t (match_nocase "inity" t))
  | None =>
      match match_nocase "nan" s with
      | Some t => Some (S754_nan, false, nan_tail t)
      | None =>
          match hex_prefix s ≫= read_mantissa 16 with
          | Some (v, frac, rest) =>
              let '(x, rest) := read_exponent "p" rest in
              Some (finite_number neg (scaled v 2 (x - 4 * frac)) rest)
          | None =>
              match read_mantissa 10 s with
              | Some (v, frac, rest) =>
                  let '(x, rest) := read_exponent "e" rest in
                  Some (finite_number neg (scaled v 10 (x - frac)) rest)
              | None => None
              end
          end
      end
  end.

(** ** Printing *)

(** [std::to_string] of an integer, "%lld" and "%llu" are [pretty]. *)

Definition hex_char (d : Z) : ascii :=
  ascii_of_N (Z.to_N (if d <? 10 then 48 + d else 55 + d)).

(** "%02X". *)
Definition hex2 (v : Z) : string := String (hex_char (v / 16)) (String (hex_char (v mod 16)) EmptyString).

Definition div_half_even (a b : Z) : Z :=
  let q := a / b in
  match 2 * (a mod b) ?= b with
  | Lt => q
  | Gt => q + 1
  | Eq => if Z.even q then q else q + 1
  end.

Definition ratio_of (m e : Z) : Z * Z := scaled m 2 e.

Definition decimal_length (n : Z) : Z := Z.of_nat (String.length (pretty n)).

(** [X] with [10 ^ X <= num / den < 10 ^ (X + 1)]. *)
Definition decimal_exponent (num den : Z) : Z :=
  if den <=? num then decimal_length (num / den) - 1
  else - decimal_length ((den + num - 1) / num - 1).

Fixpoint zeros (n : nat) : string :=
  match n with O => EmptyString | S n => String "0" (zeros n) end.

(** Trailing zeros of a fraction go, and the point with them. *)
Fixpoint strip_zeros (s : string) : string :=
  match s with
  | EmptyString => EmptyString
  | String c s =>
      match strip_zeros s with
      | EmptyString => if bool_decide (c = "0"%char) then EmptyString else String c EmptyString
      | t => String c t
      end
  end.

Definition with_fraction (int frac : string) : string :=
  match strip_zeros frac with EmptyString => int | f => int +:+ "." +:+ f end.

Definition sign_string (s : bool) : string := if s then "-" else EmptyString.

(** "%.Pg". *)
Definition format_g (P : Z) (x : spec_float) : string :=
  match x with
  | S754_nan => "nan"
  | S754_infinity s => sign_string s +:+ "inf"
  | S754_zero s => sign_string s +:+ "0"
  | S754_finite s m e =>
      let '(num, den) := ratio_of (Zpos m) e in
      let X := decimal_exponent num den in
      let k := P - 1 - X in
      let D := if 0 <=? k then div_half_even (num * 10 ^ k) den
               else div_half_even num (den * 10 ^ (- k)) in
      let '(D, X) := if D =? 10 ^ P then (10 ^ (P - 1), X + 1) else (D, X) in
      let ds := pretty D in
      let body :=
        if (X <? -4) || (P <=? X) then
          with_fraction (String.substring 0 1 ds) (String.substring 1 (String.length ds) ds)
          +:+ "e" +:+ (if X <? 0 then "-" else "+")
          +:+ (if Z.abs X <? 10 then "0" else EmptyString) +:+ pretty (Z.abs X)
        else if 0 <=? X then
          let n := Z.to_nat (X + 1) in
          with_fraction (String.substring 0 n ds) (String.substring n (String.length ds) ds)
        else with_fraction "0" (zeros (Z.to_nat (- X - 1)) +:+ ds) in
      sign_string s +:+ body
  end.

(** [std::to_string] of a double: "%f". *)
Definition format_f (x : double) : string :=
  match x with
  | S754_nan => "nan"
  | S754_infinity s => sign_string s +:+ "inf"
  | S754_zero s => sign_string s +:+ "0.000000"
  | S754_finite s m e =>
      let '(num, den) := ratio_of (Zpos m) e in
      let D := div_half_even (num * 10 ^ 6) den in
      let frac := pretty (D mod 10 ^ 6) in
      sign_string s +:+ pretty (D / 10 ^ 6) +:+ "." +:+ zeros (6 - String.length frac) +:+ frac
  end.

(** ** Facts about strings *)

#[global] Arguments String.append !_ _ / : simpl nomatch.

Lemma string_app_nil_r (s : string) : s +:+ "" = s.
Proof. induction s as [|c s IH]; [done|]. simpl. by f_equal. Qed.

Lemma string_app_assoc (a b c : string) : (a +:+ b) +:+ c = a +:+ b +:+ c.
Proof. induction a as [|x a IH]; [done|]. simpl. by f_equal. Qed.

Lemma string_length_app (a b : string) :
  String.length (a +:+ b) = (String.length a + String.length b)%nat.
Proof. induction a as [|c a IH]; [done|]. simpl. by f_equal. Qed.

Lemma string_all_app p a b : string_all p (a +:+ b) = string_all p a && string_all p b.
Proof. induction a as [|c a IH]; simpl; [done|]. by rewrite IH, andb_assoc. Qed.

Lemma string_all_impl (p q : ascii -> bool) s :
  (forall c, p c = true -> q c = true) -> string_all p s = true -> string_all q s = true.
Proof.
  intros Hpq. induction s as [|c s IH]; simpl; [done|].
  intros [Hc Hs]%andb_prop. by rewrite (Hpq _ Hc), (IH Hs).
Qed.

(** [s] does not begin with a character of [p]. *)
Definition stops (p : ascii -> bool) (s : string) : bool :=
  match s with EmptyString => true | String c _ => negb (p c) end.

Lemma span_spec p s a b :
  span p s = (a, b) -> s = a +:+ b /\ string_all p a = true /\ stops p b = true.
Proof.
  revert a b. induction s as [|c s IH]; simpl; intros a b H; [by simplify_eq/=|].
  destruct (p c) eqn:Hc; simplify_eq/=; [|by rewrite Hc].
  destruct (span p s) as [a' b'] eqn:Hs. simplify_eq/=.
  destruct (IH a' b) as (-> & Ha & Hb); [done|]. by rewrite Hc, Ha.
Qed.

Lemma span_length p s : (String.length (span p s).2 <= String.length s)%nat.
Proof.
  destruct (span p s) as [a b] eqn:H. destruct (span_spec _ _ _ _ H) as (-> & _).
  simpl. rewrite string_length_app. lia.
Qed.

Lemma span_app p a b : string_all p a = true -> stops p b = true -> span p (a +:+ b) = (a, b).
Proof.
  intros Ha Hb. induction a as [|c a IH]; simpl in *.
  - destruct b as [|c b]; simpl in *; [done|]. by destruct (p c).
  - apply andb_prop in Ha as [-> Ha]. by rewrite IH.
Qed.

Lemma span_stops p s : stops p s = true -> span p s = (EmptyString, s).
Proof. by apply (span_app p EmptyString). Qed.

Lemma span_all p a : string_all p a = true -> span p a = (a, EmptyString).
Proof. intros H. rewrite <- (string_app_nil_r a) at 1. by apply span_app. Qed.

Lemma skip_space_stops s : stops isspace s = true -> skip_space s = s.
Proof. intros H. unfold skip_space. by rewrite span_stops. Qed.

Lemma skip_space_blank s : stops isspace s = true -> skip_space (String " " s) = s.
Proof. intros H. unfold skip_space. by rewrite (span_app isspace " " s eq_refl H : span _ (String " " s) = _). Qed.

Lemma c_str_all s : string_all (fun c => negb (char_code c =? 0)) s = true -> c_str s = s.
Proof. intros H. unfold c_str. by rewrite span_all. Qed.

(** ** Decimal numbers read back *)

Lemma isdigit_pretty_N_char n : isdigit (pretty_N_char n) = true.
Proof.
  unfold pretty_N_char. repeat case_match; reflexivity.
Qed.

Lemma digit_pretty_N_char n : (n < 10)%N -> base_digit 10 (pretty_N_char n) = Some (Z.of_N n).
Proof.
  intros Hn. destruct n as [|p]; [done|].
  do 4 (try (destruct p as [p|p|]; try reflexivity)); lia.
Qed.

Lemma pretty_go_digits n s : string_all isdigit s = true -> string_all isdigit (pretty_N_go n s) = true.
Proof.
  revert s. induction n as [n IH] using (well_founded_induction N.lt_wf_0). intros s Hs.
  destruct (decide (n = 0)%N) as [->|Hn]; [by rewrite pretty_N_go_0|].
  rewrite pretty_N_go_step by lia. apply IH; [apply N.div_lt; lia|].
  simpl. by rewrite isdigit_pretty_N_char, Hs.
Qed.

Lemma pretty_N_digits (n : N) : string_all isdigit (pretty n) = true.
Proof. unfold pretty, pretty_N. case_decide; [done|]. by apply pretty_go_digits. Qed.

Lemma read_pretty_go n : exists k, 0 <= k /\ forall v s,
  read_digits 10 v (pretty_N_go n s) = read_digits 10 (v * 10 ^ k + Z.of_N n) s.
Proof.
  induction n as [n IH] using (well_founded_induction N.lt_wf_0).
  destruct (decide (n = 0)%N) as [->|Hn].
  { exists 0. split; [lia|]. intros v s. rewrite pretty_N_go_0. f_equal. lia. }
  destruct (IH (n / 10)%N) as (k & Hk & H); [apply N.div_lt; lia|].
  exists (k + 1). split; [lia|]. intros v s.
  rewrite pretty_N_go_step, H by lia. simpl.
  rewrite digit_pretty_N_char by (apply N.mod_lt; lia). f_equal.
  rewrite Z.pow_add_r by lia. rewrite N2Z.inj_div, N2Z.inj_mod.
  pose proof (Z.div_mod (Z.of_N n) 10). lia.
Qed.

Lemma read_digits_app base v a b :
  string_all (fun c => bool_decide (is_Some (base_digit base c))) a = true ->
  read_digits base v (a +:+ b) = read_digits base (read_digits base v a).1 b.
Proof.
  revert v. induction a as [|c a IH]; intros v; simpl; [done|].
  intros [Hc Ha]%andb_prop. apply bool_decide_eq_true in Hc as [d Hd]. rewrite Hd. by apply IH.
Qed.

Lemma read_digits_stop base v s :
  stops (fun c => bool_decide (is_Some (base_digit base c))) s = true -> read_digits base v s = (v, s).
Proof.
  destruct s as [|c s]; simpl; [done|]. intros H%negb_true_iff.
  apply bool_decide_eq_false in H. destruct (base_digit base c) eqn:Hd; [|done].
  destruct H. by exists z.
Qed.

Lemma isdigit_base10 c : isdigit c = true -> is_Some (base_digit 10 c).
Proof.
  unfold base_digit, digit_value. intros H. rewrite H. unfold isdigit, code_between in H.
  destruct (_ <? 10) eqn:E; [by eexists|]. apply Z.ltb_ge in E. lia.
Qed.

Lemma read_pretty (n : N) v s :
  stops (fun c => bool_decide (is_Some (base_digit 10 c))) s = true ->
  exists k, 0 <= k /\ read_digits 10 v (pretty n +:+ s) = (v * 10 ^ k + Z.of_N n, s).
Proof.
  intros Hs. rewrite read_digits_app.
  2:{ eapply string_all_impl, pretty_N_digits. intros c Hc. by apply bool_decide_eq_true, isdigit_base10. }
  unfold pretty, pretty_N. case_decide as Hn.
  - subst. exists 1. split; [lia|]. rewrite read_digits_stop by done. simpl. f_equal; lia.
  - destruct (read_pretty_go n) as (k & Hk & H). exists k. split; [done|].
    rewrite H. simpl. by rewrite read_digits_stop.
Qed.

(** The decimal text of a positive number begins with a digit other than 0. *)
Lemma pretty_go_head n s : (0 < n)%N ->
  exists d t, (0 < d < 10)%N /\ pretty_N_go n s = String (pretty_N_char d) t.
Proof.
  revert s. induction n as [n IH] using (well_founded_induction N.lt_wf_0). intros s Hn.
  rewrite pretty_N_go_step by lia.
  destruct (decide (n < 10)%N) as [Hlt|Hge].
  - rewrite N.div_small, N.mod_small, pretty_N_go_0 by lia. eauto.
  - apply IH; [apply N.div_lt; lia|]. apply N.div_str_pos. lia.
Qed.

Lemma pretty_head (n : N) : (0 < n)%N ->
  exists d t, (0 < d < 10)%N /\ (pretty n : string) = String (pretty_N_char d) t.
Proof. intros Hn. unfold pretty, pretty_N. case_decide; [lia|]. by apply pretty_go_head. Qed.

Lemma pretty_Z_nonneg (v : Z) : 0 <= v -> (pretty v : string) = pretty (Z.to_N v).
Proof. destruct v; [done| |lia]. done. Qed.

Lemma pretty_Z_neg (v : Z) : v < 0 -> (pretty v : string) = String "-" (pretty (Z.to_N (- v))).
Proof. destruct v; [lia|lia|]. intros _. reflexivity. Qed.

Lemma isdigit_range c : isdigit c = true -> 48 <= char_code c <= 57.
Proof. unfold isdigit, code_between. lia. Qed.

Lemma isdigit_not_space c : isdigit c = true -> isspace c = false.
Proof. intros H%isdigit_range. unfold isspace, code_between. lia. Qed.

Definition not_nul (c : ascii) : bool := negb (char_code c =? 0).

Lemma digits_not_nul s : string_all isdigit s = true -> string_all not_nul s = true.
Proof.
  intros H. eapply string_all_impl, H. intros c Hc%isdigit_range.
  apply negb_true_iff, Z.eqb_neq. lia.
Qed.

Lemma read_base_pretty (n : N) : (0 < n)%N -> read_base (pretty n) = (10, pretty n).
Proof.
  intros Hn. destruct (pretty_head n Hn) as (d & t & Hd & ->).
  assert (pretty_N_char d <> "0"%char) as H0.
  { intros H%(pretty_N_char_inj d 0); lia. }
  unfold read_base. replace (hex_prefix _) with (@None string).
  - unfold at_char. rewrite bool_decide_eq_false_2; congruence.
  - unfold hex_prefix. destruct t; [done|]. by rewrite bool_decide_eq_false_2.
Qed.

(** The whole of a decimal number is read, whatever its sign. *)
Lemma read_integer_digits (n : N) neg s :
  s = (if neg : bool then String "-" (pretty n) else (pretty n : string)) ->
  read_integer s = Some (neg, Z.of_N n, "").
Proof.
  intros Hs. pose proof (pretty_N_digits n) as Hd.
  assert (read_integer s =
    let '(base, s) := read_base (pretty n) in
    let '(v, rest) := read_digits base 0 s in
    if bool_decide (rest = s) then None else Some (neg, v, rest)) as ->.
  { destruct (decide (n = 0)%N) as [->|Hn]; [by destruct neg; subst|].
    destruct (pretty_head n) as (d & t & Hd' & Ht); [lia|]. rewrite Ht in *.
    pose proof (isdigit_pretty_N_char d) as Hc.
    assert (c_str s = s) as Hcs.
    { apply digits_not_nul in Hd. destruct neg; subst; apply c_str_all; [|done].
      by apply andb_true_intro. }
    unfold read_integer. rewrite Hcs. destruct neg; subst.
    - by rewrite skip_space_stops.
    - rewrite skip_space_stops by (simpl; by rewrite isdigit_not_space).
      apply isdigit_range in Hc. unfold read_sign.
      rewrite !bool_decide_eq_false_2; [done|intros H; rewrite H in Hc; vm_compute in Hc; by destruct Hc..]. }
  destruct (decide (n = 0)%N) as [->|Hn]; [done|].
  rewrite read_base_pretty by lia.
  destruct (read_pretty n 0 EmptyString eq_refl) as (k & Hk & H).
  rewrite string_app_nil_r in H. rewrite H.
  destruct (pretty_head n) as (d & t & _ & ->); [lia|]. rewrite bool_decide_eq_false_2 by done.
  f_equal.
Qed.

Lemma strtoull_pretty v : uint_ok 64 v -> strtoull (pretty v) = Some (v, false, "").
Proof.
  intros Hv. rewrite pretty_Z_nonneg by int_lia. unfold strtoull.
  rewrite (read_integer_digits (Z.to_N v) false) by done. rewrite Z2N.id by int_lia.
  rewrite (proj2 (Z.leb_gt _ _)) by int_lia. by rewrite wrap_id.
Qed.

Lemma strtoll_pretty v : sint_ok 64 v -> strtoll (pretty v) = Some (v, false, "").
Proof.
  intros Hv. unfold strtoll.
  assert (exists neg n, read_integer (pretty v) = Some (neg, n, "") /\ (if neg then - n else n) = v)
    as (neg & n & -> & ->).
  { destruct (Z.lt_ge_cases v 0).
    - exists true, (- v). rewrite pretty_Z_neg by done.
      rewrite (read_integer_digits (Z.to_N (- v)) true) by done. rewrite Z2N.id by lia. split; [done|lia].
    - exists false, v. rewrite pretty_Z_nonneg by done.
      rewrite (read_integer_digits (Z.to_N v) false) by done. by rewrite Z2N.id. }
  unfold sint_ok in Hv. simpl in Hv. do 2 rewrite (proj2 (Z.ltb_ge _ _)) by lia. done.
Qed.

(** ** Rounding leaves representable numbers alone *)

Lemma digits2_spec p : 2 ^ (Zpos (digits2_pos p) - 1) <= Zpos p < 2 ^ Zpos (digits2_pos p).
Proof.
  induction p as [p IH|p IH|]; simpl digits2_pos; [| |done];
    rewrite Pos2Z.inj_succ, Z.pow_succ_r by lia;
    replace (Z.succ (Zpos (digits2_pos p)) - 1) with (Z.succ (Zpos (digits2_pos p) - 1)) by lia;
    rewrite Z.pow_succ_r by lia; lia.
Qed.

Lemma digits2_unique p d : 2 ^ (d - 1) <= Zpos p < 2 ^ d -> Zpos (digits2_pos p) = d.
Proof.
  intros [Hl Hu]. pose proof (digits2_spec p) as [Hl' Hu'].
  assert (0 < d) by (destruct (Z.lt_ge_cases 0 d); [done|]; destruct (Z.eq_dec d 0) as [->|];
    [simpl in Hu; lia|rewrite (Z.pow_neg_r 2 d) in Hu by lia; lia]).
  assert (d - 1 < Zpos (digits2_pos p)) by (apply (Z.pow_lt_mono_r_iff 2); lia).
  assert (Zpos (digits2_pos p) - 1 < d) by (apply (Z.pow_lt_mono_r_iff 2); lia). lia.
Qed.

Lemma Zdigits2_shift m k : 0 <= k -> Zdigits2 (Zpos m * 2 ^ k) = Zpos (digits2_pos m) + k.
Proof.
  intros Hk. assert (0 < 2 ^ k) by lia. destruct (Zpos m * 2 ^ k) as [|p|p] eqn:Hp; [lia| |lia].
  simpl. apply digits2_unique. rewrite <- Hp. pose proof (digits2_spec m).
  replace (Zpos (digits2_pos m) + k - 1) with (Zpos (digits2_pos m) - 1 + k) by lia.
  rewrite !Z.pow_add_r by lia. nia.
Qed.

Lemma iter_pos_nat {A} (f : A -> A) p x : SpecFloat.iter_pos f p x = Nat.iter (Pos.to_nat p) f x.
Proof.
  revert x. induction p as [p IH|p IH|]; intros x; simpl SpecFloat.iter_pos; [| |done]; rewrite !IH.
  - rewrite Pos2Nat.inj_xI, Nat.iter_succ_r. replace (2 * Pos.to_nat p)%nat
      with (Pos.to_nat p + Pos.to_nat p)%nat by lia. by rewrite Nat.iter_add.
  - rewrite Pos2Nat.inj_xO. replace (2 * Pos.to_nat p)%nat
      with (Pos.to_nat p + Pos.to_nat p)%nat by lia. by rewrite Nat.iter_add.
Qed.

Lemma shr_1_double m : 0 < m ->
  shr_1 (Build_shr_record (2 * m) false false) = Build_shr_record m false false.
Proof. by destruct m. Qed.

Lemma shr_exact m e k : 0 <= k -> 0 < m ->
  shr (Build_shr_record (m * 2 ^ k) false false) e k = (Build_shr_record m false false, e + k).
Proof.
  intros Hk Hm. destruct k as [|k|]; [simpl; by rewrite Z.mul_1_r, Z.add_0_r| |lia].
  simpl shr. f_equal. rewrite iter_pos_nat, <- (positive_nat_Z k).
  induction (Pos.to_nat k) as [|n IH]; [simpl; by rewrite Z.mul_1_r|].
  rewrite Nat2Z.inj_succ, Z.pow_succ_r by lia.
  replace (m * (2 * 2 ^ Z.of_nat n)) with (2 * (m * 2 ^ Z.of_nat n)) by lia.
  rewrite Nat.iter_succ_r, shr_1_double; [done|]. assert (0 < 2 ^ Z.of_nat n) by lia. nia.
Qed.

Section exact.
Context (prec emax : Z).

Lemma round_exact s m e k : 0 <= k -> bounded prec emax m e = true ->
  binary_round_aux prec emax s (Zpos m * 2 ^ k) (e - k) loc_Exact = S754_finite s m e.
Proof.
  intros Hk [Hc%Z.eqb_eq He]%andb_prop. unfold binary_round_aux, shr_fexp. simpl shr_record_of_loc.
  rewrite Zdigits2_shift by done.
  replace (Zpos (digits2_pos m) + k + (e - k)) with (Zpos (digits2_pos m) + e) by lia.
  rewrite Hc. replace (e - (e - k)) with k by lia. rewrite shr_exact by lia. cbn [shr_m].
  replace (e - k + k) with e by lia. simpl loc_of_shr_record. simpl round_nearest_even.
  simpl Zdigits2. rewrite Hc, Z.sub_diag. simpl. by rewrite He.
Qed.

Lemma convert_exact s m e k p : 0 <= k -> bounded prec emax m e = true -> Zpos p = Zpos m * 2 ^ k ->
  binary_round prec emax s p (e - k) = S754_finite s m e.
Proof.
  intros Hk Hb Hp. unfold binary_round.
  replace (shl_align _ _ _) with (p, e - k).
  - rewrite Hp. by apply round_exact.
  - unfold shl_align. pose proof (Zdigits2_shift m k Hk) as Hd. rewrite <- Hp in Hd. simpl in Hd.
    rewrite Hd. apply andb_prop in Hb as [Hc%Z.eqb_eq _].
    replace (Zpos (digits2_pos m) + k + (e - k)) with (Zpos (digits2_pos m) + e) by lia.
    rewrite Hc. replace (e - (e - k)) with k by lia. by destruct k.
Qed.

End exact.

Lemma double_of_ratio_exact s m e num den : 0 < den ->
  bounded prec64 emax64 m e = true -> ratio_exact (S754_finite s m e) num den = true ->
  double_of_ratio s num den = S754_finite s m e.
Proof.
  intros Hden Hb Hr. pose proof (digits2_spec m) as Hm.
  assert (0 < num) as Hnum.
  { cbn [ratio_exact] in Hr. destruct (0 <=? e) eqn:He; apply Z.eqb_eq in Hr; [nia|].
    assert (0 < 2 ^ (- e)) by lia. nia. }
  destruct num as [|num|]; [lia| |lia]. destruct den as [|den|]; [lia| |lia].
  pose proof (digits2_spec num) as Hn. pose proof (digits2_spec den) as Hd.
  pose proof Hb as [Hc%Z.eqb_eq _]%andb_prop.
  unfold double_of_ratio, SFdiv_core_binary. simpl Zdigits2.
  set (e' := Z.min _ _).
  assert (e' <= e /\ e' <= 0) as [He' He0].
  { split; [|unfold e'; lia]. rewrite <- Hc. unfold e', fexp.
    enough (Zpos (digits2_pos num) - Zpos (digits2_pos den) <= Zpos (digits2_pos m) + e) by lia.
    enough (Zpos (digits2_pos num) - 1 < Zpos (digits2_pos m) + e + Zpos (digits2_pos den)) by lia.
    cbn [ratio_exact] in Hr. destruct (0 <=? e) eqn:He.
    - apply Z.eqb_eq in Hr. apply (Z.pow_lt_mono_r_iff 2); [lia|lia|].
      eapply Z.le_lt_trans; [apply Hn|]. rewrite <- Hr, !Z.pow_add_r by lia.
      assert (0 < 2 ^ e) by lia. apply Z.mul_lt_mono_nonneg; [|nia|lia|lia]. nia.
    - apply Z.eqb_eq in Hr. enough (Zpos (digits2_pos num) - 1 + - e <
        Zpos (digits2_pos m) + Zpos (digits2_pos den)) by lia.
      apply (Z.pow_lt_mono_r_iff 2); [lia|lia|].
      rewrite !Z.pow_add_r by lia. assert (0 < 2 ^ (- e)) by lia.
      eapply Z.le_lt_trans; [apply Z.mul_le_mono_nonneg_r; [lia|apply Hn]|]. rewrite <- Hr.
      apply Z.mul_lt_mono_nonneg; lia. }
  assert (Zpos num * 2 ^ (- e') = Zpos den * (Zpos m * 2 ^ (e - e'))) as Hq.
  { cbn [ratio_exact] in Hr. destruct (0 <=? e) eqn:He; apply Z.eqb_eq in Hr.
    - rewrite <- Hr. replace (e - e') with (e + - e') by lia. rewrite Z.pow_add_r by lia. lia.
    - replace (- e') with (- e + (e - e')) by lia. rewrite Z.pow_add_r by lia.
      rewrite Z.mul_assoc, <- Hr. lia. }
  replace (match 0 - 0 - e' with Z0 => _ | Zpos _ => _ | Zneg _ => _ end) with (Zpos num * 2 ^ (- e')).
  2:{ replace (0 - 0 - e') with (- e') by lia. rewrite <- Z.shiftl_mul_pow2 by lia.
      destruct (- e') eqn:E; [done|done|lia]. }
  rewrite Hq. pose proof (Z.div_eucl_eq (Zpos den * (Zpos m * 2 ^ (e - e'))) (Zpos den)) as Hdiv.
  pose proof (Z.mod_pos_bound (Zpos den * (Zpos m * 2 ^ (e - e'))) (Zpos den)) as Hmod.
  unfold Z.modulo in Hmod. destruct (Z.div_eucl _ _) as [q r].
  assert (q = Zpos m * 2 ^ (e - e') /\ r = 0) as [-> ->].
  { destruct (Z.div_mod_unique (Zpos den) (Zpos m * 2 ^ (e - e')) q 0 r) as [<- <-]; [lia..| |done].
    specialize (Hdiv ltac:(lia)). lia. }
  replace (new_location _ _) with loc_Exact by (unfold new_location; by destruct (Z.even _)).
  replace e' with (e - (e - e')) at 2 by lia. apply round_exact; [lia|done].
Qed.

(** ** An exact decimal text of a floating-point number, and [strtod] on it *)

Definition shown_ratio (m e : Z) : Z * Z :=
  if 0 <=? e then (m * 2 ^ e, 1) else (m * 5 ^ (- e), 10 ^ (- e)).

Definition show_double (x : double) : string :=
  match x with
  | S754_nan => "nan"
  | S754_infinity s => sign_string s +:+ "inf"
  | S754_zero s => sign_string s +:+ "0"
  | S754_finite s m e =>
      sign_string s +:+ pretty (Z.to_N (shown_ratio (Zpos m) e).1) +:+
      (if 0 <=? e then "" else "e-" +:+ pretty (Z.to_N (- e)))
  end.

Lemma shown_ratio_exact s m e k p : 0 <= k -> Zpos p = Zpos m * 2 ^ k ->
  ratio_exact (S754_finite s p (e - k)) (shown_ratio (Zpos m) e).1 (shown_ratio (Zpos m) e).2 = true.
Proof.
  intros Hk Hp. unfold shown_ratio. cbn [ratio_exact]. rewrite Hp.
  destruct (0 <=? e) eqn:He, (0 <=? e - k) eqn:Hek; simpl fst; simpl snd; apply Z.eqb_eq; try lia.
  - replace e with (k + (e - k)) at 2 by lia. rewrite Z.pow_add_r by lia. lia.
  - replace k with (e + - (e - k)) at 1 by lia. rewrite Z.pow_add_r by lia. lia.
  - replace (- (e - k)) with (k + - e) by lia. rewrite Z.pow_add_r by lia.
    replace 10 with (2 * 5) by lia. rewrite Z.pow_mul_l by lia. lia.
Qed.

Lemma shown_ratio_pos m e : 0 < (shown_ratio (Zpos m) e).1 /\ 0 < (shown_ratio (Zpos m) e).2.
Proof.
  unfold shown_ratio. destruct (0 <=? e) eqn:He; simpl; split; try lia.
Qed.

(** What [strtod] does after the sign with a decimal number that has an exponent, or
    none. *)
Lemma read_mantissa_pretty (n : N) tail : (0 < n)%N ->
  stops (fun c => bool_decide (is_Some (base_digit 10 c))) tail = true -> at_char "." tail = false ->
  read_mantissa 10 (pretty n +:+ tail) = Some (Z.of_N n, 0, tail).
Proof.
  intros Hn Ht Hdot. unfold read_mantissa.
  destruct (read_pretty n 0 tail Ht) as (k & _ & ->).
  assert (bool_decide (tail = pretty n +:+ tail) = false) as Hne.
  { apply bool_decide_eq_false. intros H%(f_equal String.length).
    rewrite string_length_app in H. destruct (pretty_head n Hn) as (d & t & _ & Heq).
    rewrite Heq in H. simpl in H. lia. }
  rewrite Hne. replace (0 * 10 ^ k + Z.of_N n) with (Z.of_N n) by lia.
  destruct tail as [|c tail]; [done|]. unfold at_char in Hdot.
  apply bool_decide_eq_false in Hdot. by rewrite bool_decide_eq_false_2.
Qed.

Lemma read_exponent_pretty (n : N) :
  read_exponent "e" (String "e" (String "-" (pretty n))) = (- Z.of_N n, EmptyString).
Proof.
  unfold read_exponent. simpl. destruct (read_pretty n 0 EmptyString eq_refl) as (k & _ & H).
  rewrite string_app_nil_r in H. rewrite H. rewrite bool_decide_eq_false_2; [f_equal; lia|].
  destruct (decide (n = 0)%N) as [->|Hn]; [done|].
  destruct (pretty_head n) as (d & t & _ & ->); [lia|done].
Qed.

#[local] Arguments read_mantissa : simpl never.
#[local] Arguments read_exponent : simpl never.

Lemma strtod_digits s (n : N) tail : (0 < n)%N -> string_all not_nul tail = true ->
  stops (fun c => bool_decide (is_Some (base_digit 10 c))) tail = true -> at_char "." tail = false ->
  strtod (sign_string s +:+ pretty n +:+ tail) =
    let '(x, rest) := read_exponent "e" tail in
    Some (finite_number s (scaled (Z.of_N n) 10 (x - 0)) rest).
Proof.
  intros Hn Hnul Ht Hdot.
  pose proof (read_mantissa_pretty n tail Hn Ht Hdot) as Hm.
  pose proof (digits_not_nul _ (pretty_N_digits n)) as Hd.
  destruct (pretty_head n Hn) as (d & t & Hd' & Heq). rewrite Heq in *.
  assert (string_all not_nul (sign_string s +:+ String (pretty_N_char d) t +:+ tail) = true) as Hcs.
  { rewrite !string_all_app, Hnul, Hd. by destruct s. }
  unfold strtod. rewrite (c_str_all _ Hcs).
  assert (d = 1 \/ d = 2 \/ d = 3 \/ d = 4 \/ d = 5 \/ d = 6 \/ d = 7 \/ d = 8 \/ d = 9)%N as H by lia.
  repeat (destruct H as [->|H]);
    [..|rewrite H in Hm |- *]; simpl pretty_N_char in *; destruct s; simpl in Hm |- *;
    rewrite ?skip_space_stops by done; simpl;
    rewrite Hm; by destruct (t +:+ tail).
Qed.

Lemma strtod_show_finite s m e k p :
  0 <= k -> Zpos p = Zpos m * 2 ^ k -> bounded prec64 emax64 p (e - k) = true ->
  strtod (show_double (S754_finite s m e)) = Some (S754_finite s p (e - k), false, EmptyString).
Proof.
  intros Hk Hp Hb. destruct (shown_ratio_pos m e) as [Hnum Hden].
  pose proof (shown_ratio_exact s m e k p Hk Hp) as Hr.
  unfold show_double. rewrite strtod_digits; [|lia|case_match; [done|];
    exact (digits_not_nul _ (pretty_N_digits _))|by case_match|by case_match].
  assert (finite_number s (shown_ratio (Zpos m) e) EmptyString =
    (S754_finite s p (e - k), false, EmptyString)) as Hf.
  { unfold finite_number. destruct (shown_ratio (Zpos m) e) as [num den].
    cbn [fst snd] in *. rewrite (double_of_ratio_exact s p (e - k)) by done. unfold out_of_range. rewrite Hr.
    by rewrite andb_false_r. }
  rewrite <- Hf. rewrite Z2N.id by lia. unfold shown_ratio.
  destruct (0 <=? e) eqn:He; simpl.
  - unfold scaled. simpl. by rewrite Z.mul_1_r.
  - change ("e-" +:+ ?x) with (String "e" (String "-" x)). rewrite read_exponent_pretty.
    rewrite Z2N.id by lia. unfold scaled. rewrite Z.sub_0_r.
    destruct (0 <=? - - e) eqn:He'; [lia|]. by rewrite Z.opp_involutive.
Qed.

Lemma strtod_show x : valid_binary prec64 emax64 x = true ->
  strtod (show_double x) = Some (x, false, EmptyString).
Proof.
  intros Hv. destruct x as [[]|[]| |s m e]; [reflexivity..|].
  rewrite (strtod_show_finite s m e 0 m); [by rewrite Z.sub_0_r|lia|lia|by rewrite Z.sub_0_r].
Qed.

(** ** Bit patterns *)

Section bits.
Context (prec emax : Z) (Hprec : 1 < prec) (Hemax : 2 < emax).

Abbreviation top := (2 ^ (prec - 1)).

Lemma digits2_le p d : 0 <= d -> Zpos p < 2 ^ d -> Zpos (digits2_pos p) <= d.
Proof.
  intros Hd Hp. pose proof (digits2_spec p). enough (Zpos (digits2_pos p) - 1 < d) by lia.
  apply (Z.pow_lt_mono_r_iff 2); lia.
Qed.

Lemma of_bits_cases v : 0 <= v < 4 * emax * top ->
  exists s e m, 0 <= e < 2 * emax /\ 0 <= m < top /\
    v = ((if s : bool then 2 * emax else 0) + e) * top + m /\
    v mod top = m /\ (v / top) mod (2 * emax) = e /\ (2 * emax <=? v / top) = s.
Proof.
  intros Hv. assert (0 < top) by lia. set (q := v / top).
  assert (0 <= q < 4 * emax) as Hq by (split; [apply Z.div_pos; lia|apply Z.div_lt_upper_bound; lia]).
  assert (v = q * top + v mod top) as Heq by (pose proof (Z.div_mod v top); unfold q; lia).
  exists (2 * emax <=? q), (q mod (2 * emax)), (v mod top).
  pose proof (Z.mod_pos_bound q (2 * emax)). pose proof (Z.mod_pos_bound v top).
  repeat split; try lia. rewrite Heq at 1. f_equal. f_equal.
  destruct (Z.leb_spec (2 * emax) q).
  - replace q with (q - 2 * emax + 1 * (2 * emax)) at 2 by lia.
    rewrite Z.mod_add, Z.mod_small; lia.
  - rewrite Z.mod_small; lia.
Qed.

Lemma of_bits_valid v : 0 <= v < 4 * emax * top -> valid_binary prec emax (of_bits prec emax v) = true.
Proof.
  intros Hv. destruct (of_bits_cases v Hv) as (s & e & m & He & Hm & _ & E1 & E2 & E3).
  unfold of_bits. rewrite E1, E2, E3. assert (0 < top) by lia.
  destruct (Z.eqb_spec e 0); [|destruct (Z.eqb_spec e (2 * emax - 1)); [by case_match|]].
  - destruct m as [|m|m]; try done. simpl. unfold bounded, canonical_mantissa, fexp.
    pose proof (digits2_le m (prec - 1)). unfold emin in *.
    apply andb_true_intro; split; [apply Z.eqb_eq|apply Z.leb_le]; lia.
  - destruct (m + top) as [|p|p] eqn:Hp; try done. simpl. unfold bounded, canonical_mantissa, fexp.
    rewrite (digits2_unique p prec).
    2:{ rewrite <- Hp. assert (2 ^ prec = 2 * top) by (rewrite <- Z.pow_succ_r by lia; f_equal; lia). lia. }
    unfold emin. apply andb_true_intro; split; [apply Z.eqb_eq|apply Z.leb_le]; lia.
Qed.

Lemma bits_of_of_bits v : 0 <= v < 4 * emax * top -> of_bits prec emax v <> S754_nan ->
  bits_of prec emax (of_bits prec emax v) = v.
Proof.
  intros Hv. destruct (of_bits_cases v Hv) as (s & e & m & He & Hm & Heq & E1 & E2 & E3).
  unfold of_bits. rewrite E1, E2, E3. intros Hnan.
  destruct (Z.eqb_spec e 0) as [->|]; [|destruct (Z.eqb_spec e (2 * emax - 1)) as [->|]].
  - destruct m as [|m|m]; simpl; [by rewrite Heq| |lia].
    rewrite (proj2 (Z.ltb_lt _ _)) by lia. by rewrite Heq.
  - destruct (Z.eqb_spec m 0) as [->|]; [|done]. simpl. by rewrite Heq.
  - destruct (m + top) as [|p|p] eqn:Hp; try lia. unfold bits_of.
    rewrite (proj2 (Z.ltb_ge _ _)) by lia. rewrite Heq. f_equal; [|lia]. f_equal. f_equal. lia.
Qed.

End bits.

Lemma double_of_bits_valid v : uint_ok 64 v -> valid_binary prec64 emax64 (double_of_bits v) = true.
Proof. intros Hv. apply of_bits_valid; [done..|]. exact Hv. Qed.

Lemma float_of_bits_valid v : uint_ok 32 v -> valid_binary prec32 emax32 (float_of_bits v) = true.
Proof. intros Hv. apply of_bits_valid; [done..|]. exact Hv. Qed.

Lemma double_bits_of_bits v : uint_ok 64 v -> double_of_bits v <> S754_nan ->
  double_bits (double_of_bits v) = v.
Proof. intros Hv. apply bits_of_of_bits; [done..|]. exact Hv. Qed.

Lemma float_bits_of_bits v : uint_ok 32 v -> float_of_bits v <> S754_nan ->
  float_bits (float_of_bits v) = v.
Proof. intros Hv. apply bits_of_of_bits; [done..|]. exact Hv. Qed.

(** A float printed in full is read as a double that rounds to it. *)
Lemma strtod_show_float y : valid_binary prec32 emax32 y = true ->
  exists x, strtod (show_double y) = Some (x, false, EmptyString) /\ to_float x = y.
Proof.
  intros Hv. destruct y as [[]|[]| |s m e]; try by eexists.
  pose proof Hv as [Hc%Z.eqb_eq He%Z.leb_le]%andb_prop. pose proof (digits2_spec m) as Hm.
  set (d := Zpos (digits2_pos m)) in *. unfold fexp, emin, prec32, emax32 in Hc, He.
  set (k := 53 - d). assert (0 < d) by lia. assert (0 <= k) by lia.
  destruct (Zpos m * 2 ^ k) as [|p|p] eqn:Hp; [nia| |nia].
  assert (bounded prec64 emax64 p (e - k) = true) as Hb.
  { pose proof (Zdigits2_shift m k) as Hd. rewrite Hp in Hd. simpl in Hd.
    unfold bounded, canonical_mantissa, fexp, emin, prec64, emax64. rewrite Hd by lia.
    apply andb_true_intro; split; [apply Z.eqb_eq|apply Z.leb_le]; lia. }
  exists (S754_finite s p (e - k)). split; [by apply strtod_show_finite|].
  by apply (convert_exact prec32 emax32 s m e k p).
Qed.

(** ** Rounding yields numbers of the format *)

Lemma Zdigits2_bounds m : 0 < m -> 2 ^ (Zdigits2 m - 1) <= m < 2 ^ Zdigits2 m.
Proof. destruct m; [lia| |lia]. intros _. apply digits2_spec. Qed.

Lemma Zdigits2_unique m d : 0 < m -> 2 ^ (d - 1) <= m < 2 ^ d -> Zdigits2 m = d.
Proof. destruct m; [lia| |lia]. intros _. apply digits2_unique. Qed.

Lemma Zdigits2_nonneg m : 0 <= Zdigits2 m.
Proof. destruct m; simpl; lia. Qed.

Lemma Zdigits2_le m d : 0 <= d -> 0 <= m < 2 ^ d -> Zdigits2 m <= d.
Proof. intros Hd Hm. destruct m; [done| |lia]. apply digits2_le; lia. Qed.

Lemma shr_1_half r : 0 <= shr_m r -> shr_m (shr_1 r) = shr_m r / 2.
Proof.
  destruct r as [m r s]. cbn [shr_m]. intros Hm. destruct m as [|[p|p|]|]; try done; try lia; simpl.
  - rewrite Pos2Z.inj_xI. by rewrite <- (Z.div_unique (2 * Zpos p + 1) 2 (Zpos p) 1) by lia.
  - rewrite Pos2Z.inj_xO. by rewrite <- (Z.div_unique (2 * Zpos p) 2 (Zpos p) 0) by lia.
Qed.

Lemma shr_spec r e k : 0 <= shr_m r ->
  (shr r e k).2 = e + Z.max 0 k /\ shr_m (shr r e k).1 = shr_m r / 2 ^ Z.max 0 k.
Proof.
  intros Hr. destruct k as [|k|k]; [simpl; split; [lia|by rewrite Z.div_1_r]| |
    simpl; split; [lia|by rewrite Z.div_1_r]].
  simpl shr. split; [done|]. cbn [fst]. rewrite iter_pos_nat, Z.max_r, <- (positive_nat_Z k) by lia.
  induction (Pos.to_nat k) as [|n IH]; [by rewrite Z.div_1_r|].
  assert (0 < 2 ^ Z.of_nat n) by lia.
  change (Nat.iter (S n) shr_1 r) with (shr_1 (Nat.iter n shr_1 r)).
  rewrite shr_1_half by (rewrite IH; apply Z.div_pos; lia).
  rewrite IH, Nat2Z.inj_succ, Z.pow_succ_r, Z.div_div by lia. f_equal. lia.
Qed.

Lemma shr_m_of_loc m l : shr_m (shr_record_of_loc m l) = m.
Proof. by destruct l as [|[]]. Qed.

Lemma round_nearest_even_le m l : m <= round_nearest_even m l <= m + 1.
Proof. destruct l as [|[]]; simpl; try lia. destruct (Z.even m); lia. Qed.

Lemma of_bits_pack prec emax (s : bool) e m : 1 < prec -> 2 < emax ->
  0 <= e < 2 * emax -> 0 <= m < 2 ^ (prec - 1) ->
  let v := ((if s then 2 * emax else 0) + e) * 2 ^ (prec - 1) + m in
  v mod 2 ^ (prec - 1) = m /\ (v / 2 ^ (prec - 1)) mod (2 * emax) = e /\
  (2 * emax <=? v / 2 ^ (prec - 1)) = s.
Proof.
  intros Hp Hx He Hm v. unfold v. rewrite Z.add_comm, Z.mod_add, Z.div_add, Z.mod_small, Z.div_small by lia.
  split; [done|]. rewrite Z.add_0_l. destruct s.
  - split; [|apply Z.leb_le; lia]. replace (2 * emax + e) with (e + 1 * (2 * emax)) by lia.
    rewrite Z.mod_add, Z.mod_small; lia.
  - split; [|apply Z.leb_gt; lia]. rewrite Z.mod_small; lia.
Qed.

Lemma of_bits_bits_of prec emax x : 2 < prec -> 2 < emax -> valid_binary prec emax x = true ->
  of_bits prec emax (bits_of prec emax x) = x.
Proof.
  intros Hp Hx Hv. assert (0 < 2 ^ (prec - 1)) by lia.
  assert (0 < 2 ^ (prec - 2) < 2 ^ (prec - 1)) by (split; [|apply Z.pow_lt_mono_r]; lia).
  unfold of_bits. destruct x as [s|s| |s m e]; cbn [bits_of].
  - destruct (of_bits_pack prec emax s 0 0) as (-> & -> & ->); try lia. done.
  - destruct (of_bits_pack prec emax s (2 * emax - 1) 0) as (-> & -> & ->); try lia.
    rewrite Z.eqb_refl. by rewrite (proj2 (Z.eqb_neq _ _)) by lia.
  - destruct (of_bits_pack prec emax false (2 * emax - 1) (2 ^ (prec - 2))) as (-> & -> & ->); try lia.
    rewrite Z.eqb_refl. by rewrite !(proj2 (Z.eqb_neq _ _)) by lia.
  - apply andb_prop in Hv as [Hc%Z.eqb_eq He%Z.leb_le]. unfold fexp in Hc.
    pose proof (digits2_spec m) as Hm. destruct (Z.ltb_spec (Zpos m) (2 ^ (prec - 1))) as [Hlt|Hge].
    + destruct (of_bits_pack prec emax s 0 (Zpos m)) as (-> & -> & ->); try lia. simpl. f_equal.
      assert (Zpos (digits2_pos m) <= prec - 1) by (apply digits2_le; lia). unfold emin in *. lia.
    + assert (Zpos m < 2 ^ prec) by (eapply Z.lt_le_trans; [apply Hm|]; apply Z.pow_le_mono_r; lia).
      assert (2 ^ prec = 2 * 2 ^ (prec - 1)) by (rewrite <- Z.pow_succ_r by lia; f_equal; lia).
      assert (emin prec emax <= e) by lia.
      assert (0 <= e - emin prec emax + 1 < 2 * emax) by (unfold emin in *; lia).
      destruct (of_bits_pack prec emax s (e - emin prec emax + 1) (Zpos m - 2 ^ (prec - 1)))
        as (-> & -> & ->); try lia.
      rewrite (proj2 (Z.eqb_neq _ 0)) by lia.
      rewrite (proj2 (Z.eqb_neq _ _)) by (unfold emin in *; lia).
      replace (Zpos m - 2 ^ (prec - 1) + 2 ^ (prec - 1)) with (Zpos m) by lia. f_equal. lia.
Qed.

Section valid.
Context (prec emax : Z) (Hprec : 1 < prec) (Hemax : 2 < emax).

Lemma binary_round_aux_valid s m e l :
  0 <= m -> e <= fexp prec emax (Zdigits2 m + e) ->
  valid_binary prec emax (binary_round_aux prec emax s m e l) = true.
Proof.
  intros Hm He. unfold binary_round_aux, shr_fexp.
  destruct (shr _ e _) as [r1 e1] eqn:E1.
  pose proof (shr_spec (shr_record_of_loc m l) e (fexp prec emax (Zdigits2 m + e) - e)) as H1.
  rewrite shr_m_of_loc, E1 in H1. cbn [fst snd] in H1. destruct H1 as [He1 Hm1]; [done|].
  rewrite Z.max_r in He1, Hm1 by lia. set (k := fexp prec emax (Zdigits2 m + e) - e) in *.
  assert (0 <= k) by (unfold k; lia). assert (0 < 2 ^ k) by lia.
  assert (0 <= shr_m r1) as Hr1 by (rewrite Hm1; apply Z.div_pos; lia).
  assert (e1 = Z.max (Zdigits2 m + e - prec) (emin prec emax)) as Hmax.
  { rewrite He1. unfold k, fexp. lia. }
  assert (shr_m r1 < 2 ^ prec) as Hup.
  { rewrite Hm1. apply Z.div_lt_upper_bound; [done|]. rewrite <- Z.pow_add_r by lia.
    destruct (Z.eq_dec m 0) as [->|]; [lia|].
    apply Z.lt_le_trans with (2 ^ Zdigits2 m); [apply Zdigits2_bounds; lia|].
    apply Z.pow_le_mono_r; lia. }
  assert (emin prec emax < e1 -> 2 ^ (prec - 1) <= shr_m r1) as Hlow.
  { intros Hlt. rewrite Hm1. apply Z.div_le_lower_bound; [done|]. rewrite <- Z.pow_add_r by lia.
    destruct (Z.eq_dec m 0) as [->|]; [unfold emin in *; simpl in *; lia|].
    apply Z.le_trans with (2 ^ (Zdigits2 m - 1)); [apply Z.pow_le_mono_r; lia|].
    apply Zdigits2_bounds. lia. }
  pose proof (round_nearest_even_le (shr_m r1) (loc_of_shr_record r1)) as Hround.
  set (m2 := round_nearest_even _ _) in *. clearbody m2.
  destruct (shr _ e1 _) as [r2 e2] eqn:E2.
  pose proof (shr_spec (shr_record_of_loc m2 loc_Exact) e1 (fexp prec emax (Zdigits2 m2 + e1) - e1)) as H2.
  rewrite shr_m_of_loc, E2 in H2. cbn [fst snd] in H2. destruct H2 as [He2 Hm2]; [lia|].
  assert (2 ^ prec = 2 * 2 ^ (prec - 1)) as Hpow by (rewrite <- Z.pow_succ_r by lia; f_equal; lia).
  assert (0 < 2 ^ (prec - 1)) by lia.
  assert (Zdigits2 (shr_m r2) = 0 \/ fexp prec emax (Zdigits2 (shr_m r2) + e2) = e2) as Hc.
  { unfold fexp in He2, Hm2 |- *. destruct (Z.eq_dec m2 (2 ^ prec)) as [->|].
    - rewrite (Zdigits2_unique (2 ^ prec) (prec + 1)) in He2, Hm2
        by (try lia; rewrite Z.pow_add_r by lia; replace (prec + 1 - 1) with prec by lia; lia).
      replace (Z.max 0 _) with 1 in He2, Hm2 by lia. right.
      rewrite Hm2, Hpow. rewrite Z.pow_1_r, Z.mul_comm, Z.div_mul by lia.
      rewrite (Zdigits2_unique _ prec) by lia. lia.
    - assert (Zdigits2 m2 <= prec) by (apply Zdigits2_le; lia).
      replace (Z.max 0 _) with 0 in He2, Hm2 by lia. rewrite Z.pow_0_r, Z.div_1_r in Hm2. rewrite Hm2.
      destruct (Z.eq_dec m2 0) as [->|]; [by left|right].
      destruct (Z.lt_ge_cases (emin prec emax) e1); [|lia].
      rewrite (Zdigits2_unique m2 prec) by lia. lia. }
  destruct (shr_m r2) as [|p|p]; [done| |done]. destruct (Z.leb_spec e2 (emax - prec)); [|done].
  simpl. unfold bounded, canonical_mantissa. simpl in Hc. apply andb_true_intro.
  split; [apply Z.eqb_eq|apply Z.leb_le]; lia.
Qed.

Lemma binary_round_valid s m e : valid_binary prec emax (binary_round prec emax s m e) = true.
Proof.
  unfold binary_round, shl_align.
  set (f := fexp prec emax (Zpos (digits2_pos m) + e)).
  destruct (f - e) as [|d|d] eqn:E; apply binary_round_aux_valid; try lia; simpl Zdigits2; fold f; try lia.
  assert (Zdigits2 (Zpos (Pos.iter xO m d)) = Zpos (digits2_pos m) + Zpos d) as Hd.
  { rewrite <- Zdigits2_shift by lia. f_equal. rewrite <- Z.shiftl_mul_pow2 by lia.
    simpl Z.shiftl.
    apply (Pos.iter_swap_gen _ _ Zpos xO (Z.mul 2)). done. }
  simpl in Hd. rewrite Hd. replace (Zpos (digits2_pos m) + Zpos d + f) with (Zpos (digits2_pos m) + e) by lia.
  unfold f. lia.
Qed.

Lemma binary_normalize_valid m e s : valid_binary prec emax (binary_normalize prec emax m e s) = true.
Proof. destruct m; [done|apply binary_round_valid..]. Qed.

Lemma convert_valid x : valid_binary prec emax (convert prec emax x) = true.
Proof. destruct x; try done. apply binary_round_valid. Qed.

Lemma bits_of_range x : valid_binary prec emax x = true ->
  0 <= bits_of prec emax x < 4 * emax * 2 ^ (prec - 1).
Proof.
  assert (0 < 2 ^ (prec - 1)) by lia.
  assert (2 ^ (prec - 1) = 2 * 2 ^ (prec - 2)) by (rewrite <- Z.pow_succ_r by lia; f_equal; lia).
  assert (0 < 2 ^ (prec - 2)) by lia.
  intros Hv. destruct x as [s|s| |s m e]; cbn [bits_of]; try (destruct s; nia); [nia|].
  apply andb_prop in Hv as [Hc%Z.eqb_eq He%Z.leb_le]. unfold fexp in Hc.
  pose proof (digits2_spec m) as Hm. case_match eqn:Hlt; [apply Z.ltb_lt in Hlt; destruct s; nia|].
  apply Z.ltb_ge in Hlt.
  assert (Zpos (digits2_pos m) <= prec) by lia.
  assert (Zpos m < 2 ^ prec).
  { eapply Z.lt_le_trans; [apply Hm|]. apply Z.pow_le_mono_r; lia. }
  assert (2 ^ prec = 2 * 2 ^ (prec - 1)) by (rewrite <- Z.pow_succ_r by lia; f_equal; lia).
  unfold emin in *. assert (1 <= e - (3 - emax - prec) + 1 <= 2 * emax - 2) by lia.
  destruct s; nia.
Qed.

End valid.

Lemma double_bits_range x : valid_binary prec64 emax64 x = true -> uint_ok 64 (double_bits x).
Proof. intros Hv. apply (bits_of_range prec64 emax64); done. Qed.

Lemma float_bits_range x : valid_binary prec32 emax32 x = true -> uint_ok 32 (float_bits x).
Proof. intros Hv. apply (bits_of_range prec32 emax32); done. Qed.

Lemma double_of_ratio_valid s num den : 0 < den ->
  valid_binary prec64 emax64 (double_of_ratio s num den) = true.
Proof.
  intros Hden. destruct num as [|num|num]; [done| |done]. unfold double_of_ratio, SFdiv_core_binary.
  set (d1 := Zdigits2 (Zpos num)). set (d2 := Zdigits2 den). set (e' := Z.min _ _).
  assert (e' <= fexp prec64 emax64 (d1 - d2) /\ e' <= 0) as [He' He0].
  { unfold e'. rewrite !Z.add_0_r. lia. }
  replace (match 0 - 0 - e' with Z0 => _ | Zpos _ => _ | Zneg _ => _ end) with (Zpos num * 2 ^ (- e')).
  2:{ replace (0 - 0 - e') with (- e') by lia. rewrite <- Z.shiftl_mul_pow2 by lia.
      destruct (- e') eqn:E; [done|done|lia]. }
  assert (0 < 2 ^ (- e')) by lia.
  pose proof (Zdigits2_bounds (Zpos num)) as Hn. pose proof (Zdigits2_bounds den) as Hd.
  fold d1 in Hn. fold d2 in Hd.
  set (q := (Zpos num * 2 ^ (- e')) / den).
  replace (Z.div_eucl _ _) with (q, (Zpos num * 2 ^ (- e')) mod den).
  2:{ unfold q, Z.div, Z.modulo. by destruct (Z.div_eucl _ _). }
  assert (0 <= q) by (apply Z.div_pos; lia).
  apply binary_round_aux_valid; [done..|].
  enough (d1 - d2 <= Zdigits2 q + e') by (unfold fexp in *; lia).
  pose proof (Zdigits2_nonneg q).
  destruct (Z.lt_ge_cases (d1 - d2 - e' - 1) 0); [lia|].
  assert (2 ^ (d1 - d2 - e' - 1) <= q) as Hq.
  { apply Z.div_le_lower_bound; [done|].
    apply Z.le_trans with (2 ^ d2 * 2 ^ (d1 - d2 - e' - 1)); [apply Z.mul_le_mono_nonneg_r; lia|].
    rewrite <- Z.pow_add_r by (try lia; apply Zdigits2_nonneg).
    replace (d2 + (d1 - d2 - e' - 1)) with (d1 - 1 + - e') by lia.
    rewrite Z.pow_add_r by (try lia; unfold d1; simpl; lia). apply Z.mul_le_mono_nonneg_r; lia. }
  assert (0 < q) by (assert (0 < 2 ^ (d1 - d2 - e' - 1)) by lia; lia).
  pose proof (Zdigits2_bounds q) as Hq'.
  enough (d1 - d2 - e' - 1 < Zdigits2 q) by lia. apply (Z.pow_lt_mono_r_iff 2); lia.
Qed.

Lemma scaled_pos v base x : 0 < base -> 0 < (scaled v base x).2.
Proof. intros Hb. unfold scaled. case_match eqn:Hx; simpl; [lia|]. apply Z.pow_pos_nonneg; lia. Qed.

Lemma strtod_valid w x erange rest : strtod w = Some (x, erange, rest) ->
  valid_binary prec64 emax64 x = true.
Proof.
  assert (forall s v base e r, 0 < base -> finite_number s (scaled v base e) r = (x, erange, rest) ->
    valid_binary prec64 emax64 x = true) as Hf.
  { intros s v base e r Hb. unfold finite_number. pose proof (scaled_pos v base e Hb).
    destruct (scaled v base e) as [num den]. intros [= <- _ _]. by apply double_of_ratio_valid. }
  unfold strtod. intros H. repeat (case_match; simplify_eq; try done); by eapply Hf in H.
Qed.

Lemma double_of_double_bits x : valid_binary prec64 emax64 x = true ->
  double_of_bits (double_bits x) = x.
Proof. by apply of_bits_bits_of. Qed.

Lemma float_of_float_bits x : valid_binary prec32 emax32 x = true ->
  float_of_bits (float_bits x) = x.
Proof. by apply of_bits_bits_of. Qed.

Lemma to_float_valid x : valid_binary prec32 emax32 (to_float x) = true.
Proof. by apply convert_valid. Qed.

(** ** Rounding does not pass an integer *)

Lemma round_nearest_le m e k N : 0 <= m -> 0 <= k -> m <= N * 2 ^ k ->
  let r := (shr (Build_shr_record m false false) e k).1 in
  round_nearest_even (shr_m r) (loc_of_shr_record r) <= N.
Proof.
  intros Hm Hk Hle r. assert (0 < 2 ^ k) by lia.
  destruct (Z.eq_dec m (N * 2 ^ k)) as [->|Hne].
  - destruct (Z.eq_dec N 0) as [->|].
    + unfold r. rewrite Z.mul_0_l in *. destruct k as [|k|]; [done| |lia]. simpl. rewrite iter_pos_nat.
      assert (Nat.iter (Pos.to_nat k) shr_1 (Build_shr_record 0 false false) =
        Build_shr_record 0 false false) as ->; [|done].
      induction (Pos.to_nat k) as [|n IH]; [done|]. simpl. by rewrite IH.
    + unfold r. rewrite shr_exact by nia. simpl. lia.
  - destruct (shr_spec (Build_shr_record m false false) e k) as [_ Hq]; [done|].
    fold r in Hq. cbn [shr_m] in Hq. rewrite Z.max_r in Hq by lia.
    assert (shr_m r < N) by (rewrite Hq; apply Z.div_lt_upper_bound; lia).
    pose proof (round_nearest_even_le (shr_m r) (loc_of_shr_record r)). lia.
Qed.

Section round_le.
Context (prec emax : Z) (Hprec : 1 < prec) (Hemax : prec < emax).

Lemma binary_round_aux_le s m e B :
  0 < m -> e <= 0 -> 0 <= B < 2 ^ prec -> m <= B * 2 ^ (- e) ->
  e <= fexp prec emax (Zdigits2 m + e) ->
  match binary_round_aux prec emax s m e loc_Exact with
  | S754_zero _ => True
  | S754_finite s' p e2 => s' = s /\ e2 <= 0 /\ Zpos p <= B * 2 ^ (- e2)
  | S754_infinity _ | S754_nan => False
  end.
Proof.
  intros Hm He0 HB Hle He. unfold binary_round_aux, shr_fexp. simpl shr_record_of_loc.
  set (k := fexp prec emax (Zdigits2 m + e) - e). assert (0 <= k) by (unfold k; lia).
  assert (k + e <= 0) as Hke.
  { unfold k, fexp, emin. enough (Zdigits2 m + e <= prec) by lia.
    destruct (Z.le_gt_cases (Zdigits2 m + e) prec); [done|].
    pose proof (Zdigits2_bounds m Hm) as [Hd _].
    assert (2 ^ (prec + - e) <= 2 ^ (Zdigits2 m - 1)) by (apply Z.pow_le_mono_r; lia).
    rewrite Z.pow_add_r in * by lia. assert (0 < 2 ^ (- e)) by lia. nia. }
  assert (m <= B * 2 ^ (- (e + k)) * 2 ^ k) as Hle'.
  { rewrite <- Z.mul_assoc, <- Z.pow_add_r by lia. by replace (- (e + k) + k) with (- e) by lia. }
  pose proof (round_nearest_le m e k (B * 2 ^ (- (e + k))) ltac:(lia) ltac:(done) Hle') as Hr.
  pose proof (shr_spec (Build_shr_record m false false) e k ltac:(simpl; lia)) as [He1 Hq].
  destruct (shr _ e k) as [r1 e1]. cbn [fst snd shr_m] in *. rewrite Z.max_r in He1, Hq by lia.
  assert (0 <= shr_m r1) as H0 by (rewrite Hq; apply Z.div_pos; lia).
  pose proof (round_nearest_even_le (shr_m r1) (loc_of_shr_record r1)) as Hn.
  set (m2 := round_nearest_even _ _) in *. clearbody m2. subst e1.
  set (k2 := fexp prec emax (Zdigits2 m2 + (e + k)) - (e + k)).
  pose proof (shr_spec (Build_shr_record m2 false false) (e + k) k2 ltac:(simpl; lia)) as [He2 Hq2].
  destruct (shr _ (e + k) k2) as [r2 e2']. cbn [fst snd shr_m] in *.
  assert (0 <= shr_m r2) as Hr2 by (rewrite Hq2; apply Z.div_pos; lia).
  destruct (shr_m r2) as [|q|q] eqn:Hs2; [done| |lia].
  set (j := Z.max 0 k2) in *. assert (0 <= j) by lia.
  assert (Zpos q * 2 ^ j <= m2) as Hqm.
  { rewrite Hq2. rewrite Z.mul_comm. apply Z.mul_div_le. lia. }
  assert (e + k + j <= 0) as Hj.
  { destruct (Z.le_gt_cases (e + k + j) 0); [done|]. unfold j, k2, fexp, emin in *.
    assert (prec < Zdigits2 m2) as Hbig by lia.
    assert (0 < m2) by lia. pose proof (Zdigits2_bounds m2 ltac:(lia)) as [Hd _].
    assert (2 ^ (prec - (e + k)) <= m2) as Hm2.
    { eapply Z.le_trans; [|exact Hd]. apply Z.pow_le_mono_r; lia. }
    replace (prec - (e + k)) with (prec + - (e + k)) in Hm2 by lia.
    rewrite Z.pow_add_r in Hm2 by lia. assert (0 < 2 ^ (- (e + k))) by lia. nia. }
  subst e2'. rewrite (proj2 (Z.leb_le _ _)) by lia. split; [done|]. split; [done|].
  assert (2 ^ (- (e + k)) = 2 ^ (- (e + k + j)) * 2 ^ j) as Hp.
  { rewrite <- Z.pow_add_r by lia. f_equal. lia. }
  rewrite Hp in Hr. assert (0 < 2 ^ j) by lia. nia.
Qed.

End round_le.
