(* ===== verification/NumberText.v ===== *)
(** * The characters of printed numbers

    What [format_g], [format_f] and [pretty] can print: digits, signs, a point, an exponent
    and the names of the special values. Text made of separators and numbers can so be
    taken apart again. Nothing here models code of its own. *)

From S2P Require Import CLibrary Prelude.

Definition number_char (c : ascii) : bool :=
  isdigit c || existsb (Ascii.eqb c) (String.list_ascii_of_string "-+.einfa").

Abbreviation numeric s := (string_all number_char s = true).

(** A property of the digits and of the eight other characters holds of all. *)
Lemma number_char_cases (p : ascii -> bool) :
  (forall d, isdigit d = true -> p d = true) ->
  forallb p (String.list_ascii_of_string "-+.einfa") = true ->
  forall c, number_char c = true -> p c = true.
Proof.
  intros Hd Hall c Hc. unfold number_char in Hc. apply orb_true_iff in Hc as [Hc|Hc]; [by apply Hd|].
  apply existsb_exists in Hc as (x & Hx & E). apply Ascii.eqb_eq in E as ->.
  rewrite forallb_forall in Hall. by apply Hall.
Qed.

Lemma numeric_app a b : numeric a -> numeric b -> numeric (a +:+ b).
Proof. intros Ha Hb. by rewrite string_all_app, Ha. Qed.

Lemma numeric_cons c s : number_char c = true -> numeric s -> numeric (String c s).
Proof. intros Hc Hs. simpl. by rewrite Hc. Qed.

Lemma numeric_pretty_N (n : N) : numeric (pretty n).
Proof.
  eapply string_all_impl, pretty_N_digits. intros c Hc. unfold number_char. by rewrite Hc.
Qed.

Lemma numeric_pretty_Z (v : Z) : numeric (pretty v).
Proof.
  destruct (Z.lt_ge_cases v 0).
  - rewrite pretty_Z_neg by done. apply numeric_cons; [done|apply numeric_pretty_N].
  - rewrite pretty_Z_nonneg by done. apply numeric_pretty_N.
Qed.

Lemma numeric_pretty_nat (n : nat) : numeric (pretty n).
Proof. apply numeric_pretty_N. Qed.

Lemma numeric_sign s : numeric (sign_string s).
Proof. by destruct s. Qed.

Lemma numeric_zeros n : numeric (zeros n).
Proof. by induction n. Qed.

Lemma numeric_substring n m s : numeric s -> numeric (String.substring n m s).
Proof.
  revert n m. induction s as [|c s IH]; intros n m Hs; [by destruct n, m|].
  cbn [string_all] in Hs. apply andb_prop in Hs as [Hc Hs].
  destruct n; [destruct m; [done|]|]; cbn [String.substring]; [apply numeric_cons; [done|]|]; by apply IH.
Qed.

Lemma numeric_strip_zeros s : numeric s -> numeric (strip_zeros s).
Proof.
  induction s as [|c s IH]; [done|]. cbn [string_all strip_zeros]. intros [Hc Hs]%andb_prop.
  specialize (IH Hs). destruct (strip_zeros s); [case_bool_decide; [done|]|]; by apply numeric_cons.
Qed.

Lemma numeric_with_fraction i f : numeric i -> numeric f -> numeric (with_fraction i f).
Proof.
  intros Hi Hf%numeric_strip_zeros. unfold with_fraction. destruct (strip_zeros f); [done|].
  apply numeric_app; [done|]. by apply numeric_app.
Qed.

Create HintDb numeric.
#[export] Hint Resolve numeric_app numeric_cons numeric_pretty_N numeric_pretty_Z numeric_pretty_nat
  numeric_sign numeric_zeros numeric_substring numeric_with_fraction : numeric.

Lemma numeric_format_g P x : numeric (format_g P x).
Proof.
  destruct x as [s|s| |s m e]; unfold format_g; auto with numeric. destruct (ratio_of _ _) as [num den].
  destruct (_ =? 10 ^ P); cbv zeta; destruct (_ || _); [|destruct (0 <=? _)| |destruct (0 <=? _)];
    repeat (apply numeric_app; auto with numeric); destruct (_ <? _); auto with numeric.
Qed.

Lemma numeric_format_f x : numeric (format_f x).
Proof.
  destruct x as [s|s| |s m e]; unfold format_f; auto with numeric. destruct (ratio_of _ _) as [num den].
  repeat (apply numeric_app; auto with numeric).
Qed.
