(* ===== verification/WallTime.v ===== *)
(** * Wall-clock time as text

    [format_wall_time] of src/core/logger.cpp and [make_run_id] of
    src/machine/machine_runtime.cpp, with the [gmtime], [strftime] and [std::put_time] of the
    C and C++ libraries they call: the Gregorian calendar of UTC, without leap seconds. *)

From stdpp Require Import strings.
From S2P Require Import CLibrary Prelude.

(** ** The calendar *)

(** Year, month and day. *)
Definition Date : Type := Z * Z * Z.

(** [gmtime]: the date of a day counted from 1970-01-01. The year begins in March here, so
    that the day that comes and goes is its last, and 400 years, of 146097 days, are an era. *)
Definition year_of_era (doe : Z) : Z := (doe - doe / 1460 + doe / 36524 - doe / 146096) / 365.
Definition days_before (yoe : Z) : Z := 365 * yoe + yoe / 4 - yoe / 100.
Definition month_from_march (doy : Z) : Z := (5 * doy + 2) / 153.
Definition month_of (doy : Z) : Z := let mp := month_from_march doy in if mp <? 10 then mp + 3 else mp - 9.
Definition day_of (doy : Z) : Z := doy - (153 * month_from_march doy + 2) / 5 + 1.
Definition carry (doy : Z) : Z := if month_of doy <=? 2 then 1 else 0.

Definition civil_of_days (days : Z) : Date :=
  let z := days + 719468 in
  let era := z / 146097 in
  let doe := z mod 146097 in
  let yoe := year_of_era doe in
  let doy := doe - days_before yoe in
  (yoe + era * 400 + carry doy, month_of doy, day_of doy).

Definition leap_year (y : Z) : bool := (y mod 4 =? 0) && (negb (y mod 100 =? 0) || (y mod 400 =? 0)).

Definition month_length (leap : bool) (m : Z) : Z :=
  if m =? 2 then (if leap then 29 else 28)
  else if (m =? 4) || (m =? 6) || (m =? 9) || (m =? 11) then 30 else 31.

(** The day after a date. *)
Definition next_day (d : Date) : Date :=
  let '(y, m, d) := d in
  if d <? month_length (leap_year y) m then (y, m, d + 1) else if m <? 12 then (y, m + 1, 1) else (y + 1, 1, 1).

(** *** The year of a day *)

#[local] Ltac div_lia := Z.div_mod_to_equations; lia.

Lemma year_of_era_mono a b : 0 <= a <= b -> b < 146097 -> year_of_era a <= year_of_era b.
Proof.
  intros Ha Hb. unfold year_of_era. apply Z.div_le_mono; [lia|].
  assert (b / 1460 - a / 1460 <= b - a) by div_lia.
  destruct (Z.eq_dec b 146096) as [->|].
  - change (146096 / 1460) with 100. change (146096 / 36524) with 4. change (146096 / 146096) with 1.
    assert (a / 36524 <= 4) by div_lia. destruct (Z.eq_dec a 146096) as [->|]; [done|].
    rewrite (Z.div_small a 146096) by lia.
    assert (a / 1460 >= 100 - (146096 - a)) by div_lia. div_lia.
  - rewrite (Z.div_small a 146096), (Z.div_small b 146096) by lia.
    assert (a / 36524 <= b / 36524) by div_lia. lia.
Qed.

(** The days of each year, and whether it has the day that comes and goes. *)
Lemma years_checked yoe : 0 <= yoe < 400 ->
  year_of_era (days_before yoe) = yoe /\
  year_of_era (days_before yoe + 364 + (if leap_year (yoe + 1) then 1 else 0)) = yoe /\
  days_before yoe + 365 + (if leap_year (yoe + 1) then 1 else 0) = if yoe =? 399 then 146097 else days_before (yoe + 1).
Proof.
  intros Hy.
  assert (H : forallb (fun y => (year_of_era (days_before y) =? y) &&
    (year_of_era (days_before y + 364 + (if leap_year (y + 1) then 1 else 0)) =? y) &&
    (days_before y + 365 + (if leap_year (y + 1) then 1 else 0) =? (if y =? 399 then 146097 else days_before (y + 1))))
    (seqZ 0 400) = true) by (vm_compute; reflexivity).
  rewrite forallb_forall in H. specialize (H yoe ltac:(apply list_elem_of_In, elem_of_seqZ; lia)).
  rewrite !andb_true_iff, !Z.eqb_eq in H. tauto.
Qed.

Abbreviation year_length yoe := (365 + (if leap_year (yoe + 1) then 1 else 0)).

Lemma year_found doe : 0 <= doe < 146097 ->
  let yoe := year_of_era doe in 0 <= yoe < 400 /\ 0 <= doe - days_before yoe < year_length yoe.
Proof.
  intros Hd yoe.
  assert (Hy : 0 <= yoe < 400).
  { pose proof (year_of_era_mono 0 doe ltac:(lia) ltac:(lia)) as H1.
    pose proof (year_of_era_mono doe 146096 ltac:(lia) ltac:(lia)) as H2.
    change (year_of_era 0) with 0 in H1. change (year_of_era 146096) with 399 in H2. unfold yoe. lia. }
  assert (Hb : forall y, 0 <= y < 400 -> 0 <= days_before y /\ days_before y + 365 <= 146097).
  { intros y Hy'. pose proof (years_checked y Hy') as (_ & _ & H). split; [unfold days_before; div_lia|].
    destruct (leap_year (y + 1)), (Z.eqb_spec y 399); try lia; unfold days_before in *; div_lia. }
  split; [done|]. destruct (years_checked yoe Hy) as (H1 & H2 & H3). split.
  - apply Z.nlt_ge. intros Hlt. assert (0 < yoe) by (destruct (Z.eq_dec yoe 0) as [E|]; [rewrite E in Hlt; change (days_before 0) with 0 in Hlt; lia|lia]).
    destruct (years_checked (yoe - 1) ltac:(lia)) as (_ & H4 & H5). destruct (Z.eqb_spec (yoe - 1) 399); [lia|].
    replace (yoe - 1 + 1) with yoe in * by lia. destruct (Hb (yoe - 1) ltac:(lia)).
    pose proof (year_of_era_mono doe (days_before (yoe - 1) + 364 + (if leap_year yoe then 1 else 0)) ltac:(lia)) as Hm.
    specialize (Hm ltac:(destruct (Hb yoe Hy); lia)). fold yoe in Hm. lia.
  - apply Z.nle_gt. intros Hge. destruct (Z.eqb_spec yoe 399); [lia|].
    destruct (years_checked (yoe + 1) ltac:(lia)) as (H4 & _).
    pose proof (year_of_era_mono (days_before (yoe + 1)) doe) as Hm. destruct (Hb (yoe + 1) ltac:(lia)).
    specialize (Hm ltac:(lia) ltac:(lia)). fold yoe in Hm. lia.
Qed.

(** *** The month of a day *)

(** Through a year from March on, with and without the day that comes and goes. *)
Definition months_ok (b : bool) (doy : Z) : bool :=
  let m := month_of doy in let d := day_of doy in
  let m' := month_of (doy + 1) in let d' := day_of (doy + 1) in
  (1 <=? m) && (m <=? 12) && (1 <=? d) && (d <=? month_length b m) &&
  (if doy + 1 <? 365 + (if b then 1 else 0) then
     if d <? month_length b m then (m' =? m) && (d' =? d + 1) && (carry (doy + 1) =? carry doy)
     else if m <? 12 then (m' =? m + 1) && (d' =? 1) && (carry (doy + 1) =? carry doy)
     else (m' =? 1) && (d' =? 1) && (carry (doy + 1) =? carry doy + 1)
   else (m =? 2) && (d =? month_length b m)) &&
  (Bool.eqb (m =? 2) ((m =? 2) && (carry doy =? 1))).

Lemma months_checked b doy : 0 <= doy < 365 + (if b : bool then 1 else 0) -> months_ok b doy = true.
Proof.
  intros Hd.
  assert (H : forallb (months_ok b) (seqZ 0 (365 + (if b then 1 else 0))) = true) by (destruct b; vm_compute; reflexivity).
  rewrite forallb_forall in H. apply H, list_elem_of_In, elem_of_seqZ. lia.
Qed.

Lemma leap_period y eras : leap_year (y + eras * 400) = leap_year y.
Proof.
  unfold leap_year. replace (y + eras * 400) with (y + (100 * eras) * 4) at 1 by lia.
  replace (y + eras * 400) with (y + (4 * eras) * 100) at 1 by lia. by rewrite !Z_mod_plus_full.
Qed.

Definition valid_date (d : Date) : Prop :=
  let '(y, m, d) := d in 1 <= m <= 12 /\ 1 <= d <= month_length (leap_year y) m.

(** [civil_of_days] is the calendar: it starts in 1970, and from each day to the next it goes
    by the lengths of the months and the rule of leap years. *)
Lemma civil_is_calendar days :
  civil_of_days 0 = (1970, 1, 1) /\ valid_date (civil_of_days days) /\
  civil_of_days (days + 1) = next_day (civil_of_days days).
Proof.
  split; [done|]. unfold civil_of_days. set (z := days + 719468).
  replace (days + 1 + 719468) with (z + 1) by lia. cbv zeta.
  pose proof (Z.mod_pos_bound z 146097 ltac:(lia)) as Hdoe. pose proof (Z.div_mod z 146097 ltac:(lia)) as Ez.
  set (era := z / 146097) in *. set (doe := z mod 146097) in *.
  destruct (year_found doe Hdoe) as [Hy Hdoy]. set (yoe := year_of_era doe) in *. set (doy := doe - days_before yoe) in *.
  set (b := leap_year (yoe + 1)) in *. pose proof (months_checked b doy Hdoy) as Hm.
  assert (Hlen : month_length (leap_year (yoe + era * 400 + carry doy)) (month_of doy) = month_length b (month_of doy)).
  { unfold months_ok in Hm. rewrite !andb_true_iff in Hm. destruct Hm as [_ Hc].
    destruct (Z.eqb_spec (month_of doy) 2) as [E|Hne]; simpl in Hc.
    - destruct (Z.eqb_spec (carry doy) 1) as [->|]; [|done].
      replace (yoe + era * 400 + 1) with (yoe + 1 + era * 400) by lia. by rewrite leap_period.
    - unfold month_length. by rewrite (proj2 (Z.eqb_neq _ _) Hne). }
  unfold valid_date, next_day. rewrite Hlen. unfold months_ok in Hm. cbv zeta in Hm.
  rewrite !andb_true_iff, !Z.leb_le in Hm. destruct Hm as (((((? & ?) & ?) & ?) & Hn) & _). split; [lia|].
  destruct (Z.ltb_spec (doy + 1) (365 + (if b then 1 else 0))) as [Hin|Hend].
  - assert (Hnext : (z + 1) / 146097 = era /\ (z + 1) mod 146097 = doe + 1 /\ year_of_era (doe + 1) = yoe).
    { destruct (years_checked yoe Hy) as (Y1 & Y2 & Y3). fold b in Y2, Y3.
      assert (days_before yoe + 365 + (if b then 1 else 0) <= 146097).
      { rewrite Y3. destruct (Z.eqb_spec yoe 399); [done|]. unfold days_before. div_lia. }
      split_and!; [symmetry; apply (Z.div_unique _ _ _ (doe + 1)); lia|symmetry; apply (Z.mod_unique _ _ era); lia|].
      pose proof (year_of_era_mono doe (doe + 1) ltac:(lia) ltac:(lia)).
      pose proof (year_of_era_mono (doe + 1) (days_before yoe + 364 + (if b then 1 else 0)) ltac:(lia) ltac:(lia)). lia. }
    destruct Hnext as (-> & -> & ->). replace (doe + 1 - days_before yoe) with (doy + 1) by lia.
    repeat case_match; rewrite !andb_true_iff, !Z.eqb_eq in Hn; destruct Hn as ((-> & ->) & ->); f_equal; f_equal; lia.
  - assert (Hnext : civil_of_days (days + 1) = (yoe + 1 + era * 400, 3, 1)).
    { destruct (years_checked yoe Hy) as (_ & _ & H3). fold b in H3. unfold civil_of_days. cbv zeta.
      replace (days + 1 + 719468) with (z + 1) by lia. destruct (Z.eqb_spec yoe 399) as [->|Hne].
      - replace ((z + 1) / 146097) with (era + 1) by (apply (Z.div_unique _ _ _ 0); lia).
        replace ((z + 1) mod 146097) with 0 by (apply (Z.mod_unique _ _ (era + 1)); lia).
        change (year_of_era 0) with 0. change (0 - days_before 0) with 0.
        change (carry 0) with 0. change (month_of 0) with 3. change (day_of 0) with 1. f_equal. f_equal. lia.
      - destruct (years_checked (yoe + 1) ltac:(lia)) as (H4 & _).
        assert (Hlt : doe + 1 < 146097).
        { enough (days_before (yoe + 1) < 146097) by lia. unfold days_before. div_lia. }
        replace ((z + 1) / 146097) with era by (apply (Z.div_unique _ _ _ (doe + 1)); lia).
        replace ((z + 1) mod 146097) with (days_before (yoe + 1)) by (apply (Z.mod_unique _ _ era); lia).
        rewrite H4, Z.sub_diag. change (carry 0) with 0. change (month_of 0) with 3. change (day_of 0) with 1.
        f_equal. f_equal. lia. }
    unfold civil_of_days in Hnext. cbv zeta in Hnext. replace (days + 1 + 719468) with (z + 1) in Hnext by lia.
    rewrite Hnext. rewrite !andb_true_iff, !Z.eqb_eq in Hn. destruct Hn as [E1 E2].
    rewrite E2, Z.ltb_irrefl, E1. change (2 <? 12) with true. cbv iota.
    unfold carry. rewrite E1. f_equal. f_equal. simpl. lia.
Qed.

(** *** Back from a date to its day *)

Definition days_of_civil (date : Date) : Z :=
  let '(y, m, d) := date in
  let y := if m <=? 2 then y - 1 else y in
  let doy := (153 * (if 2 <? m then m - 3 else m + 9) + 2) / 5 + d - 1 in
  (y / 400) * 146097 + days_before (y mod 400) + doy - 719468.

Lemma days_of_civil_of_days days : days_of_civil (civil_of_days days) = days.
Proof.
  unfold civil_of_days, days_of_civil. set (z := days + 719468). cbv zeta.
  pose proof (Z.mod_pos_bound z 146097 ltac:(lia)) as Hdoe. pose proof (Z.div_mod z 146097 ltac:(lia)) as Ez.
  set (era := z / 146097) in *. set (doe := z mod 146097) in *.
  destruct (year_found doe Hdoe) as [Hy Hdoy]. set (yoe := year_of_era doe) in *. set (doy := doe - days_before yoe) in *.
  assert (Hd : 0 <= doy <= 365) by (destruct (leap_year (yoe + 1)); lia).
  replace (if month_of doy <=? 2 then yoe + era * 400 + carry doy - 1 else yoe + era * 400 + carry doy)
    with (yoe + era * 400) by (unfold carry; destruct (_ <=? 2); lia).
  rewrite Z.div_add, Z_mod_plus_full, (Z.div_small yoe), (Z.mod_small yoe) by lia.
  replace (if 2 <? month_of doy then month_of doy - 3 else month_of doy + 9) with (month_from_march doy).
  2:{ unfold month_of. assert (0 <= month_from_march doy <= 11) by (unfold month_from_march; div_lia).
      destruct (Z.ltb_spec (month_from_march doy) 10);
        match goal with |- context [2 <? ?m] => destruct (Z.ltb_spec 2 m) end; lia. }
  unfold day_of. lia.
Qed.

Lemma civil_of_days_inj a b : civil_of_days a = civil_of_days b -> a = b.
Proof. intros E. rewrite <- (days_of_civil_of_days a), <- (days_of_civil_of_days b). by rewrite E. Qed.

(** ** Stamps *)

(** Broken-down time: the date, and hours, minutes and seconds. *)
Record BrokenTime := mkBroken { tm_date : Date; tm_hour : Z; tm_min : Z; tm_sec : Z }.

Definition gmtime (seconds : Z) : BrokenTime :=
  let s := seconds mod 86400 in
  mkBroken (civil_of_days (seconds / 86400)) (s / 3600) (s mod 3600 / 60) (s mod 60).

(** A number with at least [w] digits. *)
Definition padded (w : nat) (n : Z) : string := let s := pretty n in zeros (w - String.length s) +:+ s.

(** [std::chrono::system_clock::to_time_t], from nanoseconds since 1970. *)
Definition to_time_t (now_ns : Z) : Z := Z.quot now_ns 1000000000.

(** "%Y%m%d-%H%M%S" *)
Definition make_run_id (now_ns : Z) : string :=
  let tm := gmtime (to_time_t now_ns) in
  let '(y, m, d) := tm_date tm in
  pretty y +:+ padded 2 m +:+ padded 2 d +:+ "-" +:+ padded 2 (tm_hour tm) +:+ padded 2 (tm_min tm) +:+ padded 2 (tm_sec tm).

(** "%Y-%m-%dT%H:%M:%S", a point and the milliseconds with three digits. *)
Definition format_wall_time (tp_ns : Z) : string :=
  let ms := Z.rem (Z.quot tp_ns 1000000) 1000 in
  let tm := gmtime (to_time_t tp_ns) in
  let '(y, m, d) := tm_date tm in
  pretty y +:+ "-" +:+ padded 2 m +:+ "-" +:+ padded 2 d +:+ "T" +:+ padded 2 (tm_hour tm) +:+ ":" +:+
  padded 2 (tm_min tm) +:+ ":" +:+ padded 2 (tm_sec tm) +:+ "." +:+ padded 3 ms +:+ "Z".

Example stamps :
  make_run_id 951827696789000000 = "20000229-123456"%string /\
  format_wall_time 951827696789000000 = "2000-02-29T12:34:56.789Z"%string.
Proof. done. Qed.

(** Equal texts with parts of equal length have equal parts. *)
Lemma string_app_split (a b x y : string) : String.length a = String.length b -> a +:+ x = b +:+ y -> a = b /\ x = y.
Proof.
  revert b. induction a as [|c a IH]; intros [|d b] Hl E; try done.
  simpl in E. injection E as -> E. injection Hl as Hl. destruct (IH b Hl E) as [-> ->]. done.
Qed.

Lemma zeros_length n : String.length (zeros n) = n.
Proof. induction n as [|n IH]; simpl; by f_equal. Qed.

Lemma read_padded w n : 0 <= n -> read_digits 10 0 (padded w n) = (n, EmptyString).
Proof.
  intros Hn. unfold padded. assert (Hz : forall k s, read_digits 10 0 (zeros k +:+ s) = read_digits 10 0 s)
    by (intros k s; induction k as [|k IH]; [done|exact IH]).
  rewrite Hz, pretty_Z_nonneg by done. destruct (read_pretty (Z.to_N n) 0 EmptyString eq_refl) as (k & _ & H).
  rewrite string_app_nil_r in H. rewrite H. f_equal. lia.
Qed.

Lemma padded_inj w a b : 0 <= a -> 0 <= b -> padded w a = padded w b -> a = b.
Proof. intros Ha Hb E. pose proof (read_padded w a Ha) as H. rewrite E, read_padded in H by done. by injection H. Qed.

Lemma padded_length n : (0 <= n < 100 -> String.length (padded 2 n) = 2%nat) /\
  (0 <= n < 1000 -> String.length (padded 3 n) = 3%nat).
Proof.
  assert (H : forallb (fun n => (String.length (padded 3 n) =? 3)%nat &&
    (negb (n <? 100) || (String.length (padded 2 n) =? 2)%nat)) (seqZ 0 1000) = true) by (vm_compute; reflexivity).
  rewrite forallb_forall in H.
  split; intros Hn; specialize (H n ltac:(apply list_elem_of_In, elem_of_seqZ; lia));
    apply andb_prop in H as [H3 H2]; apply Nat.eqb_eq in H3; [|done].
  rewrite (proj2 (Z.ltb_lt n 100)) in H2 by lia. by apply Nat.eqb_eq in H2.
Qed.

(** Fields of two digits, one after the other. *)
Lemma padded_split a b x y : 0 <= a < 100 -> 0 <= b < 100 -> padded 2 a +:+ x = padded 2 b +:+ y -> a = b /\ x = y.
Proof.
  intros Ha Hb E. apply string_app_split in E as [E1 E2]; [|by rewrite !(proj1 (padded_length _))].
  split; [|done]. by apply padded_inj in E1; try lia.
Qed.

Lemma gmtime_fields s : let tm := gmtime s in
  valid_date (tm_date tm) /\ 0 <= tm_hour tm < 24 /\ 0 <= tm_min tm < 60 /\ 0 <= tm_sec tm < 60 /\
  s = days_of_civil (tm_date tm) * 86400 + tm_hour tm * 3600 + tm_min tm * 60 + tm_sec tm.
Proof.
  unfold gmtime. cbn [tm_date tm_hour tm_min tm_sec]. rewrite days_of_civil_of_days.
  split; [apply civil_is_calendar|]. split_and!; div_lia.
Qed.

Lemma month_length_range b m : 0 <= month_length b m < 32.
Proof. unfold month_length. repeat case_match; lia. Qed.

(** A stamp tells its second. *)
Lemma make_run_id_inj a b : make_run_id a = make_run_id b -> to_time_t a = to_time_t b.
Proof.
  unfold make_run_id. destruct (gmtime_fields (to_time_t a)) as (Va & Ha & Ma & Sa & Ea).
  destruct (gmtime_fields (to_time_t b)) as (Vb & Hb & Mb & Sb & Eb).
  destruct (gmtime (to_time_t a)) as [[[y m] d] H M S0], (gmtime (to_time_t b)) as [[[y' m'] d'] H' M' S'].
  cbn [tm_date tm_hour tm_min tm_sec valid_date] in *. destruct Va, Vb.
  pose proof (month_length_range (leap_year y) m). pose proof (month_length_range (leap_year y') m').
  intros E. pose proof (f_equal String.length E) as El. rewrite !string_length_app in El.
  rewrite !(proj1 (padded_length _)) in El by lia.
  apply string_app_split in E as [Ey E]; [|lia]. apply (inj pretty) in Ey.
  apply padded_split in E as [Em E]; [|lia..]. apply padded_split in E as [Ed E]; [|lia..].
  injection E as E. apply padded_split in E as [EH E]; [|lia..]. apply padded_split in E as [EM E]; [|lia..].
  apply padded_inj in E; [|lia..]. rewrite Ea, Eb, Ey, Em, Ed, EH, EM, E. done.
Qed.

(** The time in the log and in the names of runs. The calendar is the Gregorian one:
    it starts with 1970-01-01, and each day is the next after the one before. Two runs have
    the same name exactly when they begin in the same second, and two log lines the same
    time exactly when they are of the same millisecond, whatever the year; every stamp has
    a valid date in it. *)
Theorem stamps_tell_time a b : 0 <= a -> 0 <= b ->
  (make_run_id a = make_run_id b <-> a / 1000000000 = b / 1000000000) /\
  (format_wall_time a = format_wall_time b <-> a / 1000000 = b / 1000000) /\
  valid_date (tm_date (gmtime (to_time_t a))) /\
  civil_of_days 0 = (1970, 1, 1) /\ (forall days, civil_of_days (days + 1) = next_day (civil_of_days days)).
Proof.
  intros Ha Hb.
  assert (Hq : forall x, 0 <= x -> to_time_t x = x / 1000000000 /\ Z.quot x 1000000 = x / 1000000).
  { intros x Hx. unfold to_time_t. rewrite !Z.quot_div_nonneg by lia. done. }
  destruct (Hq a Ha) as [Ea Ea'], (Hq b Hb) as [Eb Eb']. split; [|split; [|split; [apply gmtime_fields|split; [done|apply civil_is_calendar]]]].
  - split; intros E; [apply make_run_id_inj in E; congruence|]. unfold make_run_id. by rewrite Ea, Eb, E.
  - assert (Hms : forall x, 0 <= x -> 0 <= Z.rem (x / 1000000) 1000 < 1000 /\
      x / 1000000 = x / 1000000000 * 1000 + Z.rem (x / 1000000) 1000).
    { intros x Hx. rewrite Z.rem_mod_nonneg by (try apply Z.div_pos; lia). div_lia. }
    destruct (Hms a Ha) as [Ra Sa], (Hms b Hb) as [Rb Sb].
    split; intros E.
    + unfold format_wall_time in E. rewrite Ea', Eb' in E.
      destruct (gmtime_fields (to_time_t a)) as (Va & HHa & Ma & Sca & Eqa).
      destruct (gmtime_fields (to_time_t b)) as (Vb & HHb & Mb & Scb & Eqb).
      destruct (gmtime (to_time_t a)) as [[[y m] d] H M S0], (gmtime (to_time_t b)) as [[[y' m'] d'] H' M' S'].
      cbn [tm_date tm_hour tm_min tm_sec valid_date] in *. destruct Va, Vb.
      pose proof (month_length_range (leap_year y) m). pose proof (month_length_range (leap_year y') m').
      pose proof (f_equal String.length E) as El. rewrite !string_length_app in El.
      rewrite !(proj1 (padded_length _)), !(proj2 (padded_length _)) in El by lia.
      apply string_app_split in E as [Ey E]; [|lia]. apply (inj pretty) in Ey. injection E as E.
      apply padded_split in E as [Em E]; [|lia..]. injection E as E.
      apply padded_split in E as [Ed E]; [|lia..]. injection E as E.
      apply padded_split in E as [EH E]; [|lia..]. injection E as E.
      apply padded_split in E as [EM E]; [|lia..]. injection E as E.
      apply padded_split in E as [ES E]; [|lia..]. injection E as E.
      apply string_app_split in E as [E _]; [|by rewrite !(proj2 (padded_length _))].
      apply padded_inj in E; [|lia..]. subst. lia.
    + unfold format_wall_time. rewrite Ea', Eb', E.
      replace (to_time_t a) with (to_time_t b); [done|]. rewrite Ea, Eb.
      assert (Hd : forall x, 0 <= x -> x / 1000000000 = x / 1000000 / 1000) by (intros x Hx; by rewrite Z.div_div by lia).
      by rewrite !Hd, E by done.
Qed.

Lemma stamps_tell_time_witness :
  (make_run_id 951827696789000000 = make_run_id 951827697000000000 <->
     951827696789000000 / 1000000000 = 951827697000000000 / 1000000000).
Proof. apply (stamps_tell_time 951827696789000000 951827697000000000); lia. Defined.
