(* ===== verification/FloatOrder.v ===== *)
(** * Doubles in order

    The order of floating-point numbers and how subtraction respects it. A finite number
    is an integer multiple of the smallest one, its [key]; comparing numbers is comparing
    keys, and the key of a difference is the difference of the keys, rounded by a
    monotone function. Nothing here models code of its own. *)

From S2P Require Import CLibrary Prelude.

(** ** Division rounded to nearest, ties to even *)

Lemma div_half_even_bounds a b : 0 < b -> a / b <= div_half_even a b <= a / b + 1.
Proof. intros Hb. unfold div_half_even. repeat case_match; lia. Qed.

Lemma div_half_even_upper a b N : 0 < b -> a <= N * b -> div_half_even a b <= N.
Proof.
  intros Hb Ha. destruct (Z.eq_dec a (N * b)) as [->|Hne].
  - unfold div_half_even. rewrite Z.mod_mul, Z.div_mul by lia. destruct b; try lia; simpl; lia.
  - assert (a / b < N) by (apply Z.div_lt_upper_bound; lia).
    pose proof (div_half_even_bounds a b Hb). lia.
Qed.

Lemma div_half_even_lower a b N : 0 < b -> N * b <= a -> N <= div_half_even a b.
Proof.
  intros Hb Ha. assert (N <= a / b) by (apply Z.div_le_lower_bound; lia).
  pose proof (div_half_even_bounds a b Hb). lia.
Qed.

Lemma div_half_even_exact N b : 0 < b -> div_half_even (N * b) b = N.
Proof.
  intros Hb. apply Z.le_antisymm; [apply div_half_even_upper|apply div_half_even_lower]; lia.
Qed.

Lemma div_half_even_mono a a' b : 0 < b -> a <= a' -> div_half_even a b <= div_half_even a' b.
Proof.
  intros Hb Ha. destruct (Z.lt_ge_cases (a / b) (a' / b)) as [Hq|Hq].
  - pose proof (div_half_even_bounds a b Hb). pose proof (div_half_even_bounds a' b Hb). lia.
  - assert (a / b = a' / b) as Heq by (apply Z.le_antisymm; [by apply Z.div_le_mono|done]).
    assert (a mod b <= a' mod b) as Hr by (rewrite !Z.mod_eq by lia; rewrite Heq; lia).
    unfold div_half_even. rewrite Heq.
    destruct (Z.compare_spec (2 * (a mod b)) b), (Z.compare_spec (2 * (a' mod b)) b);
      try destruct (Z.even _); lia.
Qed.

Lemma div_half_even_scale a b c : 0 < b -> 0 < c -> div_half_even (a * c) (b * c) = div_half_even a b.
Proof.
  intros Hb Hc. unfold div_half_even. rewrite Z.div_mul_cancel_r, Z.mul_mod_distr_r by lia.
  replace (2 * (a mod b * c)) with (2 * (a mod b) * c) by lia.
  by rewrite <- (Zmult_compare_compat_r _ _ c) by lia.
Qed.

(** ** What shifting keeps of the bits it drops *)

(** Where [m / b] lies above its integer part. *)
Definition place (m b : Z) : location :=
  if m mod b =? 0 then loc_Exact else loc_Inexact (2 * (m mod b) ?= b).

Lemma shr_loc n m b : 0 <= m -> 0 < b ->
  let r := Nat.iter n shr_1 (shr_record_of_loc (m / b) (place m b)) in
  let rest := m mod (b * 2 ^ Z.of_nat n) in
  shr_m r = m / (b * 2 ^ Z.of_nat n) /\
  (shr_r r || shr_s r = negb (rest =? 0)) /\
  loc_of_shr_record r = place m (b * 2 ^ Z.of_nat n).
Proof.
  intros Hm Hb. unfold place. induction n as [|n IH].
  { rewrite Z.mul_1_r. cbn [Nat.iter]. destruct (m mod b =? 0); [done|]. by destruct (2 * (m mod b) ?= b). }
  cbv zeta in *. change (Nat.iter (S n) shr_1 ?x) with (shr_1 (Nat.iter n shr_1 x)).
  set (r := Nat.iter n shr_1 _) in *. destruct IH as (Hq & Hrs & _).
  rewrite Nat2Z.inj_succ, Z.pow_succ_r by lia.
  replace (b * (2 * 2 ^ Z.of_nat n)) with (2 * (b * 2 ^ Z.of_nat n)) by lia.
  set (P := b * 2 ^ Z.of_nat n) in *.
  assert (0 < P) as HP by (unfold P; lia).
  assert (Hm' : m = P * (m / P) + m mod P) by (apply Z.div_mod; lia).
  assert (HR : 0 <= m mod P < P) by (apply Z.mod_pos_bound; lia).
  set (q := m / P) in *. set (rho := m mod P) in *.
  assert (H0 : 0 <= q) by (apply Z.div_pos; lia).
  assert (Hdiv : m / (2 * P) = q / 2 /\ m mod (2 * P) = (q mod 2) * P + rho).
  { assert (Hq2 : q = 2 * (q / 2) + q mod 2) by (apply Z.div_mod; lia).
    assert (0 <= q mod 2 < 2) by (apply Z.mod_pos_bound; lia).
    assert (Heq : m = 2 * P * (q / 2) + (q mod 2 * P + rho)) by (rewrite Hm'; nia).
    assert (Hlt : 0 <= q mod 2 * P + rho < 2 * P) by nia.
    split; symmetry; [apply (Z.div_unique _ _ _ _ (or_introl Hlt) Heq)|
                      apply (Z.mod_unique _ _ _ _ (or_introl Hlt) Heq)]. }
  destruct Hdiv as [-> ->].
  assert (Hq2 : q = 2 * (q / 2) + q mod 2) by (apply Z.div_mod; lia).
  assert (Hodd : q mod 2 = 0 \/ q mod 2 = 1) by (pose proof (Z.mod_pos_bound q 2); lia).
  assert (Hstep : shr_1 r = Build_shr_record (q / 2) (q mod 2 =? 1) (negb (rho =? 0))).
  { destruct r as [rm rr rs]. cbn [shr_m shr_r shr_s] in *. subst rm. rewrite <- Hrs.
    unfold shr_1. cbn [shr_m shr_r shr_s].
    clearbody q. destruct q as [|[p|p|]|]; try lia; f_equal;
      first [done | symmetry; apply Z.eqb_eq; lia | symmetry; apply Z.eqb_neq; lia | lia]. }
  rewrite Hstep. cbn [shr_m shr_r shr_s]. split; [done|].
  destruct Hodd as [-> | ->]; cbn [Z.eqb Z.mul Pos.eqb orb loc_of_shr_record].
  - rewrite Z.add_0_l. split; [done|]. destruct (Z.eqb_spec rho 0); [done|].
    cbn [negb]. by rewrite (proj2 (Z.compare_lt_iff _ _)) by lia.
  - rewrite (proj2 (Z.eqb_neq (1 * P + rho) 0)) by lia. split; [done|].
    destruct (Z.eqb_spec rho 0); cbn [negb].
    + by rewrite (proj2 (Z.compare_eq_iff _ _)) by lia.
    + by rewrite (proj2 (Z.compare_gt_iff _ _)) by lia.
Qed.

Lemma round_shr a b e k : 0 <= a -> 0 < b -> 0 <= k ->
  let r := (shr (shr_record_of_loc (a / b) (place a b)) e k).1 in
  round_nearest_even (shr_m r) (loc_of_shr_record r) = div_half_even a (b * 2 ^ k).
Proof.
  intros Ha Hb Hk r.
  assert (Hr : r = Nat.iter (Z.to_nat k) shr_1 (shr_record_of_loc (a / b) (place a b))).
  { unfold r. destruct k as [|k|k]; [done| |lia]. simpl. by rewrite iter_pos_nat. }
  pose proof (shr_loc (Z.to_nat k) a b Ha Hb) as (Hq & _ & Hl).
  rewrite <- Hr, Z2Nat.id in * by done. rewrite Hq, Hl. unfold div_half_even, place.
  assert (0 < b * 2 ^ k) by nia.
  assert (0 <= a mod (b * 2 ^ k) < b * 2 ^ k) by (apply Z.mod_pos_bound; lia).
  destruct (Z.eqb_spec (a mod (b * 2 ^ k)) 0) as [->|]; cbn [round_nearest_even].
  - by rewrite (proj2 (Z.compare_lt_iff _ _)) by lia.
  - done.
Qed.

(** ** Rounding an integer number of units *)

Section rounding.
Context (prec emax : Z) (Hprec : 1 < prec) (Hemax : prec < emax).

(** [n] units, rounded to [prec] bits. *)
Definition rounded (n : Z) : Z :=
  let k := Z.max 0 (Zdigits2 n - prec) in div_half_even n (2 ^ k) * 2 ^ k.

Lemma rounded_nonneg n : 0 <= n -> 0 <= rounded n.
Proof.
  intros Hn. unfold rounded. set (k := Z.max _ _). assert (0 < 2 ^ k) by lia.
  pose proof (div_half_even_lower n (2 ^ k) 0). nia.
Qed.

Lemma rounded_id n j : 0 <= n < 2 ^ prec -> 0 <= j -> rounded (n * 2 ^ j) = n * 2 ^ j.
Proof.
  intros Hn Hj. unfold rounded. assert (0 < 2 ^ j) by lia.
  destruct (Z.eq_dec n 0) as [->|]; [by rewrite Z.mul_0_l, Z.max_l by (simpl; lia)|].
  assert (Hd : Zdigits2 (n * 2 ^ j) = Zdigits2 n + j).
  { destruct n as [|n|]; [lia| |lia]. rewrite Zdigits2_shift by done. done. }
  assert (Zdigits2 n <= prec) by (apply Zdigits2_le; lia). rewrite Hd.
  set (k := Z.max 0 _). assert (Hk : 0 <= k <= j) by lia.
  replace j with (j - k + k) by lia. rewrite Z.pow_add_r, Z.mul_assoc by lia.
  by rewrite div_half_even_exact by lia.
Qed.

Lemma rounded_mono n n' : 0 <= n <= n' -> rounded n <= rounded n'.
Proof.
  intros Hn. destruct (Z.eq_dec n 0) as [->|].
  { change 0 with (0 * 2 ^ 0) at 1. rewrite rounded_id by lia. apply rounded_nonneg. lia. }
  assert (Hd : Zdigits2 n <= Zdigits2 n').
  { apply Zdigits2_le; [apply Zdigits2_nonneg|]. pose proof (Zdigits2_bounds n'). lia. }
  unfold rounded. set (k := Z.max 0 (Zdigits2 n - prec)). set (k' := Z.max 0 (Zdigits2 n' - prec)).
  assert (Hk : k = k' \/ k < k') by lia. destruct Hk as [->|Hk].
  - apply Z.mul_le_mono_nonneg_r; [lia|]. apply div_half_even_mono; lia.
  - assert (Hk' : k' = Zdigits2 n' - prec) by lia.
    pose proof (Zdigits2_bounds n ltac:(lia)) as [_ Hn1].
    pose proof (Zdigits2_bounds n' ltac:(lia)) as [Hn2 _].
    transitivity (2 ^ (Zdigits2 n' - 1)).
    + transitivity (2 ^ prec * 2 ^ k); [|rewrite <- Z.pow_add_r by lia; apply Z.pow_le_mono_r; lia].
      apply Z.mul_le_mono_nonneg_r; [lia|]. apply div_half_even_upper; [lia|].
      rewrite <- Z.pow_add_r by lia. transitivity (2 ^ Zdigits2 n); [lia|].
      apply Z.pow_le_mono_r; lia.
    + replace (2 ^ (Zdigits2 n' - 1)) with (2 ^ (prec - 1) * 2 ^ k')
        by (rewrite <- Z.pow_add_r by lia; f_equal; lia).
      apply Z.mul_le_mono_nonneg_r; [lia|]. apply div_half_even_lower; [lia|].
      rewrite <- Z.pow_add_r by lia. replace (prec - 1 + k') with (Zdigits2 n' - 1) by lia. lia.
Qed.

(** The value of a number in units of the smallest one, [2 ^ emin]; an infinity counts
    as the first power of two out of range. *)
Definition largest : Z := 2 ^ (emax - emin prec emax).

Definition magnitude (m e : Z) : Z := m * 2 ^ (e - emin prec emax).

Definition signed (s : bool) (v : Z) : Z := if s then - v else v.

Definition value (x : spec_float) : Z :=
  match x with
  | S754_zero _ | S754_nan => 0
  | S754_infinity s => signed s largest
  | S754_finite s m e => signed s (magnitude (Zpos m) e)
  end.

(** The second half of [binary_round_aux]: a mantissa that may have grown to a power of
    two is put back in form. *)
Lemma round_again s m2 e' :
  emin prec emax <= e' -> 0 <= m2 <= 2 ^ prec -> (emin prec emax < e' -> 2 ^ (prec - 1) <= m2) ->
  let '(mrs, e'') := shr_fexp prec emax m2 e' loc_Exact in
  let r := match shr_m mrs with
           | Z0 => S754_zero s
           | Zpos m => if e'' <=? emax - prec then S754_finite s m e'' else S754_infinity s
           | _ => S754_nan
           end in
  value r = signed s (Z.min largest (m2 * 2 ^ (e' - emin prec emax))) /\ r <> S754_nan.
Proof.
  intros He [Hm2 Hup] Hlow. unfold shr_fexp. simpl shr_record_of_loc.
  assert (Hsplit : exists j, 0 <= j <= 1 /\ fexp prec emax (Zdigits2 m2 + e') - e' <= j /\
    exists q, m2 = q * 2 ^ j /\ (emin prec emax < e' + j -> 2 ^ (prec - 1) <= q) /\
    0 <= q < 2 ^ prec /\
    shr (Build_shr_record m2 false false) e'
      (fexp prec emax (Zdigits2 m2 + e') - e') = (Build_shr_record q false false, e' + j)).
  { assert (Hpow : 2 ^ prec = 2 * 2 ^ (prec - 1)) by (rewrite <- Z.pow_succ_r by lia; f_equal; lia).
    destruct (Z.eq_dec m2 (2 ^ prec)) as [E|E].
    - exists 1. rewrite (Zdigits2_unique m2 (prec + 1)) by
        (try lia; rewrite E; replace (prec + 1 - 1) with prec by lia; rewrite Z.pow_add_r by lia; lia).
      unfold fexp. split; [lia|]. replace (Z.max _ _ - e') with 1 by lia. split; [done|].
      exists (2 ^ (prec - 1)). rewrite Z.pow_1_r, E, Hpow, Z.mul_comm. split_and!; try lia.
      rewrite <- (Z.pow_1_r 2) at 2. apply shr_exact; lia.
    - exists 0. assert (Hd : Zdigits2 m2 <= prec) by (apply Zdigits2_le; lia).
      assert (fexp prec emax (Zdigits2 m2 + e') - e' <= 0) as Hz by (unfold fexp; lia).
      split; [lia|]. split; [done|]. exists m2. rewrite Z.mul_1_r, Z.add_0_r.
      split_and!; try lia. set (d := fexp _ _ _ - _) in *. clearbody d. by destruct d. }
  destruct Hsplit as (j & Hj & _ & q & -> & Hq & Hq' & ->).
  assert (H2 : 2 ^ (e' + j - emin prec emax) = 2 ^ j * 2 ^ (e' - emin prec emax))
    by (rewrite <- Z.pow_add_r by lia; f_equal; lia).
  rewrite <- Z.mul_assoc, <- H2. cbn [shr_m].
  assert (0 < 2 ^ (e' + j - emin prec emax)) by lia.
  assert (0 < largest) by (unfold largest, emin; lia).
  destruct q as [|p|p]; [split; [destruct s; simpl; lia|done]| |lia].
  destruct (Z.leb_spec (e' + j) (emax - prec)) as [Hle|Hle]; (split; [|done]); cbn [value].
  - rewrite Z.min_r; [done|]. unfold largest.
    replace (emax - emin prec emax) with (prec + (emax - prec - emin prec emax)) by lia.
    rewrite Z.pow_add_r by (unfold emin; lia). apply Z.mul_le_mono_nonneg; try lia.
    apply Z.pow_le_mono_r; lia.
  - rewrite Z.min_l; [done|]. unfold largest.
    replace (emax - emin prec emax) with (prec - 1 + (emax - prec + 1 - emin prec emax)) by lia.
    rewrite Z.pow_add_r by (unfold emin; lia). apply Z.mul_le_mono_nonneg; try lia.
    + apply Hq. unfold emin in *. lia.
    + apply Z.pow_le_mono_r; lia.
Qed.

(** [a / b] units, rounded to [prec] bits. *)
Definition rounded_ratio (a b : Z) : Z :=
  let k := Z.max 0 (Zdigits2 (a / b) - prec) in div_half_even a (b * 2 ^ k) * 2 ^ k.

Lemma rounded_ratio_1 n : rounded_ratio n 1 = rounded n.
Proof. unfold rounded_ratio, rounded. by rewrite Z.div_1_r, Z.mul_1_l. Qed.

Lemma Zdigits2_ratio_up a b j : 0 < b -> b <= a -> 0 <= j ->
  Zdigits2 (a * 2 ^ j / b) = Zdigits2 (a / b) + j.
Proof.
  intros Hb Ha Hj. assert (1 <= a / b) by (apply Z.div_le_lower_bound; lia).
  pose proof (Zdigits2_bounds (a / b) ltac:(lia)) as [H1 H2].
  assert (0 < Zdigits2 (a / b)).
  { pose proof (Zdigits2_nonneg (a / b)). destruct (Z.eq_dec (Zdigits2 (a / b)) 0) as [E|]; [|lia].
    rewrite E in H2. simpl in H2. lia. }
  assert (0 < 2 ^ j) by lia.
  assert (Hm : b * (a / b) <= a < b * (a / b + 1)) by (pose proof (Z.div_mod a b); pose proof (Z.mod_pos_bound a b); lia).
  apply Zdigits2_unique.
  - enough (1 <= a * 2 ^ j / b) by lia. apply Z.div_le_lower_bound; [done|].
    transitivity (a * 1); [lia|]. apply Z.mul_le_mono_nonneg_l; lia.
  - replace (Zdigits2 (a / b) + j - 1) with (Zdigits2 (a / b) - 1 + j) by lia.
    rewrite !Z.pow_add_r by lia.
    assert (Hlo : b * 2 ^ (Zdigits2 (a / b) - 1) <= a).
    { transitivity (b * (a / b)); [|lia]. apply Z.mul_le_mono_nonneg_l; lia. }
    assert (Hhi : a < b * 2 ^ Zdigits2 (a / b)).
    { apply Z.lt_le_trans with (b * (a / b + 1)); [lia|]. apply Z.mul_le_mono_nonneg_l; lia. }
    split.
    + apply Z.div_le_lower_bound; [lia|]. rewrite Z.mul_assoc. apply Z.mul_le_mono_nonneg_r; lia.
    + apply Z.div_lt_upper_bound; [lia|]. rewrite Z.mul_assoc. apply Z.mul_lt_mono_pos_r; lia.
Qed.

Lemma Zdigits2_div_pow m i : 0 <= m -> 0 <= i -> Zdigits2 (m / 2 ^ i) = Z.max 0 (Zdigits2 m - i).
Proof.
  intros Hm Hi. destruct (Z.eq_dec m 0) as [->|]; [by rewrite Z.div_0_l by lia; simpl; lia|].
  pose proof (Zdigits2_bounds m ltac:(lia)) as [H1 H2]. pose proof (Zdigits2_nonneg m).
  destruct (Z.le_gt_cases (Zdigits2 m) i).
  - rewrite Z.div_small; [simpl; lia|]. split; [lia|].
    assert (2 ^ Zdigits2 m <= 2 ^ i) by (apply Z.pow_le_mono_r; lia). lia.
  - rewrite Z.max_r by lia. apply Zdigits2_unique.
    + assert (1 <= m / 2 ^ i); [|lia]. apply Z.div_le_lower_bound; [lia|].
      assert (2 ^ i <= 2 ^ (Zdigits2 m - 1)) by (apply Z.pow_le_mono_r; lia). lia.
    + split.
      * apply Z.div_le_lower_bound; [lia|]. rewrite <- Z.pow_add_r by lia.
        by replace (i + (Zdigits2 m - i - 1)) with (Zdigits2 m - 1) by lia.
      * apply Z.div_lt_upper_bound; [lia|]. rewrite <- Z.pow_add_r by lia.
        by replace (i + (Zdigits2 m - i)) with (Zdigits2 m) by lia.
Qed.

(** [a / b] at exponent [e], in units. *)
Lemma rounded_ratio_at a b e : 0 <= a -> 0 < b ->
  e <= fexp prec emax (Zdigits2 (a / b) + e) ->
  let k := fexp prec emax (Zdigits2 (a / b) + e) - e in
  rounded_ratio (a * 2 ^ Z.max 0 (e - emin prec emax)) (b * 2 ^ Z.max 0 (emin prec emax - e)) =
    div_half_even a (b * 2 ^ k) * 2 ^ (e + k - emin prec emax).
Proof.
  intros Ha Hb He k. assert (Hk : 0 <= k) by (unfold k; lia).
  pose proof (Zdigits2_nonneg (a / b)) as Hd0. unfold rounded_ratio.
  destruct (Z.le_gt_cases (emin prec emax) e) as [Hge|Hlt].
  - rewrite (Z.max_r 0 (e - _)), (Z.max_l 0 (_ - e)) by lia. set (j := e - emin prec emax) in *.
    assert (Hj : 0 <= j) by (unfold j; lia). change (2 ^ 0) with 1. rewrite Z.mul_1_r.
    assert (Hk' : Z.max 0 (Zdigits2 (a * 2 ^ j / b) - prec) = k + j \/ a < b /\ e = emin prec emax /\ k = 0).
    { destruct (Z.le_gt_cases b a) as [Hab|Hab].
      - left. rewrite Zdigits2_ratio_up by done. unfold k, j, fexp. lia.
      - right. split; [done|]. assert (E : a / b = 0) by (apply Z.div_small; lia).
        unfold k, fexp, emin in *. rewrite E in *. simpl Zdigits2 in *. lia. }
    destruct Hk' as [->|(Hab & -> & ->)].
    + replace (b * 2 ^ (k + j)) with (b * 2 ^ k * 2 ^ j) by (rewrite Z.pow_add_r; lia).
      rewrite div_half_even_scale by nia. do 2 f_equal. unfold j. lia.
    + assert (Ej : j = 0) by (unfold j; lia). rewrite Ej, Z.mul_1_r, (Z.div_small a b) by lia. simpl Zdigits2.
      rewrite Z.max_l by lia. do 2 f_equal. lia.
  - rewrite (Z.max_l 0 (e - _)), (Z.max_r 0 (_ - e)) by lia. set (i := emin prec emax - e) in *.
    assert (Hi : 0 < i) by (unfold i; lia). change (2 ^ 0) with 1. rewrite Z.mul_1_r.
    rewrite <- Z.div_div, Zdigits2_div_pow by (try lia; apply Z.div_pos; lia).
    replace (Z.max 0 (Z.max 0 (Zdigits2 (a / b) - i) - prec)) with (k - i) by (unfold k, i, fexp; lia).
    rewrite <- Z.mul_assoc, <- Z.pow_add_r by (unfold k, i, fexp; lia).
    replace (i + (k - i)) with k by lia. replace (e + k - emin prec emax) with (k - i) by (unfold i; lia).
    done.
Qed.

(** A ratio [a / b] at exponent [e] after rounding. *)
Lemma binary_round_aux_ratio s a b e : 0 <= a -> 0 < b ->
  e <= fexp prec emax (Zdigits2 (a / b) + e) ->
  value (binary_round_aux prec emax s (a / b) e (place a b)) =
    signed s (Z.min largest (rounded_ratio (a * 2 ^ Z.max 0 (e - emin prec emax))
                                           (b * 2 ^ Z.max 0 (emin prec emax - e)))) /\
  binary_round_aux prec emax s (a / b) e (place a b) <> S754_nan.
Proof.
  intros Ha Hb He. pose proof (rounded_ratio_at a b e Ha Hb He) as Hval. cbv zeta in Hval. rewrite Hval.
  unfold binary_round_aux. unfold shr_fexp at 1 3.
  set (k := fexp prec emax (Zdigits2 (a / b) + e) - e) in *. assert (0 <= k) by (unfold k; lia).
  assert (Hq : 0 <= a / b) by (apply Z.div_pos; lia).
  pose proof (round_shr a b e k Ha Hb ltac:(done)) as Hround.
  pose proof (shr_spec (shr_record_of_loc (a / b) (place a b)) e k) as [He1 _]; [by rewrite shr_m_of_loc|].
  destruct (shr _ e k) as [r1 e1]. cbn [fst snd] in *. cbv zeta in Hround. rewrite Hround. subst e1.
  rewrite Z.max_r by lia. set (m2 := div_half_even a (b * 2 ^ k)).
  assert (0 < 2 ^ k) by lia. assert (0 < b * 2 ^ k) by nia.
  pose proof (Zdigits2_nonneg (a / b)).
  assert (Hlt : a < b * 2 ^ Zdigits2 (a / b)).
  { destruct (Z.eq_dec (a / b) 0) as [E|]; [rewrite E; simpl; apply Z.div_small_iff in E; lia|].
    pose proof (Zdigits2_bounds (a / b) ltac:(lia)).
    pose proof (Z.div_mod a b ltac:(lia)). pose proof (Z.mod_pos_bound a b Hb). nia. }
  pose proof (round_again s m2 (e + k)) as Hr. unfold shr_fexp in *.
  destruct (shr _ (e + k) _) as [r2 e2]. apply Hr; [unfold k, fexp; lia| |].
  - split; [apply div_half_even_lower; lia|]. apply div_half_even_upper; [done|].
    replace (2 ^ prec * (b * 2 ^ k)) with (b * 2 ^ (prec + k)) by (rewrite Z.pow_add_r; lia).
    assert (2 ^ Zdigits2 (a / b) <= 2 ^ (prec + k)) by (apply Z.pow_le_mono_r; unfold k, fexp; lia). nia.
  - intros Hlow. apply div_half_even_lower; [done|].
    replace (2 ^ (prec - 1) * (b * 2 ^ k)) with (b * 2 ^ (prec - 1 + k)) by (rewrite Z.pow_add_r; lia).
    assert (Hd : e + k = Zdigits2 (a / b) + e - prec) by (unfold k, fexp in *; lia).
    destruct (Z.eq_dec (a / b) 0) as [E|]; [rewrite E in Hd; simpl Zdigits2 in Hd; lia|].
    pose proof (Zdigits2_bounds (a / b) ltac:(lia)) as [Hb1 _].
    replace (prec - 1 + k) with (Zdigits2 (a / b) - 1) by lia.
    pose proof (Z.div_mod a b ltac:(lia)). pose proof (Z.mod_pos_bound a b Hb). nia.
Qed.

(** An exact [m * 2 ^ e] after rounding. *)
Lemma binary_round_aux_value s m e :
  0 <= m -> emin prec emax <= e -> e <= fexp prec emax (Zdigits2 m + e) ->
  value (binary_round_aux prec emax s m e loc_Exact) =
    signed s (Z.min largest (rounded (magnitude m e))) /\
  binary_round_aux prec emax s m e loc_Exact <> S754_nan.
Proof.
  intros Hm Hmin He. pose proof (binary_round_aux_ratio s m 1 e) as H.
  assert (Hp : place m 1 = loc_Exact) by (unfold place; by rewrite Z.mod_1_r).
  rewrite Z.div_1_r, Hp, (Z.max_r 0), (Z.max_l 0), rounded_ratio_1 in H by lia. by apply H.
Qed.

(** ** Comparing *)

Abbreviation valid x := (valid_binary prec emax x = true).

Record canonical (m e : Z) : Prop := mkCanonical {
  canonical_pos : 0 < m < 2 ^ prec;
  canonical_exp : emin prec emax <= e <= emax - prec;
  canonical_full : emin prec emax < e -> 2 ^ (prec - 1) <= m
}.

Lemma valid_canonical s m e : valid (S754_finite s m e) -> canonical (Zpos m) e.
Proof.
  intros [Hc%Z.eqb_eq He%Z.leb_le]%andb_prop. unfold fexp in Hc. pose proof (digits2_spec m) as Hm.
  constructor; [split; [lia|]|lia|].
  - apply Z.lt_le_trans with (2 ^ Zpos (digits2_pos m)); [lia|]. apply Z.pow_le_mono_r; lia.
  - intros Hlt. transitivity (2 ^ (Zpos (digits2_pos m) - 1)); [|lia]. apply Z.pow_le_mono_r; lia.
Qed.

Lemma magnitude_pos m e : canonical m e -> 0 < magnitude m e < largest.
Proof.
  intros [Hm He _]. unfold magnitude, largest. assert (0 < 2 ^ (e - emin prec emax)) by lia.
  split; [nia|]. replace (emax - emin prec emax) with (prec + (emax - prec - emin prec emax)) by lia.
  rewrite Z.pow_add_r by lia.
  apply Z.lt_le_trans with (2 ^ prec * 2 ^ (e - emin prec emax)); [nia|].
  apply Z.mul_le_mono_nonneg_l; [lia|]. apply Z.pow_le_mono_r; lia.
Qed.

Lemma magnitude_lt m1 e1 m2 e2 :
  canonical m1 e1 -> canonical m2 e2 -> e1 < e2 -> magnitude m1 e1 < magnitude m2 e2.
Proof.
  intros [Hm1 He1 _] [Hm2 He2 Hf2] He. unfold magnitude.
  specialize (Hf2 ltac:(lia)). assert (0 < 2 ^ (e1 - emin prec emax)) by lia.
  apply Z.lt_le_trans with (2 ^ prec * 2 ^ (e1 - emin prec emax)); [nia|].
  replace prec with (prec - 1 + 1) at 1 by lia. rewrite Z.pow_add_r, <- Z.mul_assoc by lia.
  rewrite <- (Z.pow_add_r 2 1) by lia.
  apply Z.mul_le_mono_nonneg; try lia. apply Z.pow_le_mono_r; lia.
Qed.

Lemma magnitude_compare m1 e1 m2 e2 :
  canonical m1 e1 -> canonical m2 e2 ->
  match e1 ?= e2 with Eq => m1 ?= m2 | c => c end = (magnitude m1 e1 ?= magnitude m2 e2).
Proof.
  intros H1 H2. destruct (Z.compare_spec e1 e2) as [->|He|He].
  - unfold magnitude. destruct H1 as [_ [] _].
    apply Zmult_compare_compat_r. apply Z.lt_gt. lia.
  - symmetry. apply Z.compare_lt_iff, magnitude_lt; done.
  - symmetry. apply Z.compare_gt_iff, magnitude_lt; done.
Qed.

Lemma value_bound x : valid x -> - largest <= value x <= largest.
Proof.
  assert (0 < largest) by (unfold largest, emin; lia). intros Hv.
  destruct x as [| s| |s m e]; simpl; try lia; [destruct s; simpl; lia|].
  apply valid_canonical, magnitude_pos in Hv. destruct s; simpl; lia.
Qed.

Lemma compare_value x y :
  valid x -> valid y -> x <> S754_nan -> y <> S754_nan -> SFcompare x y = Some (value x ?= value y).
Proof.
  intros Hx Hy Nx Ny. assert (0 < largest) by (unfold largest, emin; lia).
  destruct x as [z1|s1| |s1 m1 e1]; try done; destruct y as [z2|s2| |s2 m2 e2]; try done;
    try apply valid_canonical in Hx; try apply valid_canonical in Hy;
    try pose proof (magnitude_pos _ _ Hx); try pose proof (magnitude_pos _ _ Hy).
  8: { pose proof (magnitude_compare _ _ _ _ Hx Hy) as Hc. simpl SFcompare.
    destruct s1, s2; cbn [value signed]; f_equal.
    + rewrite Z.compare_opp, (Z.compare_antisym (magnitude (Zpos m1) e1)), <- Hc.
      by destruct (e1 ?= e2).
    + symmetry. apply Z.compare_lt_iff. lia.
    + symmetry. apply Z.compare_gt_iff. lia.
    + by rewrite <- Hc. }
  all: repeat match goal with s : bool |- _ => destruct s end;
    cbn [SFcompare value signed]; f_equal; symmetry;
    first [apply Z.compare_eq_iff; lia | apply Z.compare_lt_iff; lia | apply Z.compare_gt_iff; lia].
Qed.

(** Numbers of equal value are equal, but for the sign of a zero. *)
Inductive same : spec_float -> spec_float -> Prop :=
| same_eq x : same x x
| same_zero s s' : same (S754_zero s) (S754_zero s').

#[global] Instance same_equiv : Equivalence same.
Proof.
  split; [constructor|by intros ? ? []; constructor|].
  intros x y z [] H; [done|]. by inversion H; constructor.
Qed.

Lemma same_value x y :
  valid x -> valid y -> x <> S754_nan -> y <> S754_nan -> value x = value y -> same x y.
Proof.
  intros Hx Hy Nx Ny Heq. pose proof (compare_value x y Hx Hy Nx Ny) as Hc.
  rewrite Heq, Z.compare_refl in Hc.
  assert (Hm : forall m1 m2, Pos.compare_cont Eq m1 m2 = Eq -> m1 = m2)
    by (intros m1 m2; apply Pos.compare_eq).
  destruct x as [z1|s1| |s1 m1 e1], y as [z2|s2| |s2 m2 e2]; try done; [constructor|..];
    cbn [SFcompare] in Hc; injection Hc as Hc;
    repeat match goal with s : bool |- _ => destruct s end; try done; try constructor;
    destruct (Z.compare_spec e1 e2) as [->| |]; try done;
    destruct (Pos.compare_cont Eq m1 m2) eqn:E; try done; apply Hm in E as ->; constructor.
Qed.

(** ** Subtracting *)

Definition saturated (v : Z) : Z := signed (v <? 0) (Z.min largest (rounded (Z.abs v))).

Lemma rounded_0 : rounded 0 = 0.
Proof. change 0 with (0 * 2 ^ 0) at 1. by rewrite rounded_id by lia. Qed.

Lemma saturated_opp v : saturated (- v) = - saturated v.
Proof.
  unfold saturated. rewrite Z.abs_opp.
  destruct (Z.ltb_spec v 0), (Z.ltb_spec (- v) 0); simpl; try lia.
  replace v with 0 by lia. change (Z.abs 0) with 0. rewrite rounded_0.
  assert (0 < largest) by (unfold largest, emin; lia). lia.
Qed.

Lemma saturated_mono v v' : v <= v' -> saturated v <= saturated v'.
Proof.
  intros Hv. assert (0 < largest) by (unfold largest, emin; lia). unfold saturated.
  pose proof (rounded_nonneg (Z.abs v) ltac:(lia)). pose proof (rounded_nonneg (Z.abs v') ltac:(lia)).
  destruct (Z.ltb_spec v 0), (Z.ltb_spec v' 0); simpl; try lia.
  - pose proof (rounded_mono (Z.abs v') (Z.abs v)). lia.
  - pose proof (rounded_mono (Z.abs v) (Z.abs v')). lia.
Qed.

Lemma saturated_value x : valid x -> saturated (value x) = value x.
Proof.
  assert (Hl : 0 < largest) by (unfold largest, emin; lia). intros Hv. unfold saturated.
  assert (Hr : rounded (Z.abs (value x)) = Z.abs (value x)).
  { destruct x as [s|s| |s m e]; cbn [value]; try apply rounded_0.
    - replace (Z.abs (signed s largest)) with (1 * 2 ^ (emax - emin prec emax))
        by (destruct s; simpl; unfold largest in *; lia).
      apply rounded_id; [|unfold emin; lia]. split; [lia|]. apply (Z.pow_gt_1 2); lia.
    - apply valid_canonical in Hv as [Hm He _]. unfold magnitude.
      replace (Z.abs _) with (Zpos m * 2 ^ (e - emin prec emax)) by (destruct s; simpl signed; lia).
      apply rounded_id; lia. }
  rewrite Hr. pose proof (value_bound x Hv).
  rewrite Z.min_r by lia. destruct (Z.ltb_spec (value x) 0); simpl; lia.
Qed.

Lemma shl_align_value m e e' :
  Zpos (shl_align m e e').1 * 2 ^ ((shl_align m e e').2 - Z.min e e') = Zpos m * 2 ^ (e - Z.min e e') /\
  (shl_align m e e').2 = Z.min e e'.
Proof.
  unfold shl_align. destruct (e' - e) as [|d|d] eqn:E; cbn [fst snd]; [split; [done|lia]..|].
  replace (Z.min e e') with e' by lia. split; [|done].
  rewrite Z.sub_diag, Z.mul_1_r. replace (e - e') with (Zpos d) by lia.
  rewrite <- Z.shiftl_mul_pow2 by lia. simpl Z.shiftl.
  apply (Pos.iter_swap_gen _ _ Zpos xO (Z.mul 2)). done.
Qed.

Lemma shl_align_mantissa m e e' : e' <= e -> Zpos (shl_align m e e').1 = Zpos m * 2 ^ (e - e').
Proof.
  intros He. destruct (shl_align_value m e e') as [H1 H2]. rewrite H2, Z.sub_diag, Z.mul_1_r in H1.
  by rewrite Z.min_r in H1 by lia.
Qed.

Lemma binary_round_value s m e : emin prec emax <= e ->
  value (binary_round prec emax s m e) = signed s (Z.min largest (rounded (magnitude (Zpos m) e))) /\
  binary_round prec emax s m e <> S754_nan.
Proof.
  intros He. unfold binary_round. set (f := fexp prec emax (Zpos (digits2_pos m) + e)).
  assert (Hf : emin prec emax <= f) by (unfold f, fexp; lia).
  destruct (shl_align_value m e f) as [H1 H2]. destruct (shl_align m e f) as [mz ez].
  cbn [fst snd] in *. rewrite H2, Z.sub_diag, Z.mul_1_r in H1. subst ez.
  destruct (binary_round_aux_value s (Zpos mz) (Z.min e f)) as [Hv Hn]; [lia..| |].
  - rewrite H1. pose proof (Zdigits2_shift m (e - Z.min e f) ltac:(lia)) as Hd. rewrite Hd.
    replace (_ + Z.min e f) with (Zpos (digits2_pos m) + e) by lia. fold f. lia.
  - rewrite Hv. split; [|done]. do 3 f_equal. unfold magnitude. rewrite H1, <- Z.mul_assoc.
    rewrite <- Z.pow_add_r by lia. do 2 f_equal. lia.
Qed.

Lemma binary_normalize_value m e s : emin prec emax <= e ->
  value (binary_normalize prec emax m e s) = saturated (m * 2 ^ (e - emin prec emax)) /\
  binary_normalize prec emax m e s <> S754_nan.
Proof.
  intros He. assert (0 < 2 ^ (e - emin prec emax)) by lia.
  destruct m as [|m|m]; cbn [binary_normalize].
  - split; [|done]. rewrite Z.mul_0_l. unfold saturated. change (Z.abs 0) with 0. rewrite rounded_0.
    cbn [Z.ltb Z.compare signed value]. assert (0 < largest) by (unfold largest, emin; lia). lia.
  - destruct (binary_round_value false m e He) as [-> Hn]. split; [|done]. unfold saturated, magnitude.
    rewrite (proj2 (Z.ltb_ge _ _)), Z.abs_eq by lia. done.
  - destruct (binary_round_value true m e He) as [-> Hn]. split; [|done]. unfold saturated, magnitude.
    rewrite (proj2 (Z.ltb_lt _ _)), Z.abs_neq by nia. simpl. do 3 f_equal. nia.
Qed.

Definition is_finite (x : spec_float) : bool :=
  match x with S754_zero _ | S754_finite _ _ _ => true | _ => false end.

Lemma value_opp s m e : value (S754_finite (negb s) m e) = - value (S754_finite s m e).
Proof. destruct s; simpl; lia. Qed.

(** The difference of two finite numbers is the difference of their values, rounded. *)
Lemma sub_value x y :
  valid x -> valid y -> is_finite x = true -> is_finite y = true ->
  value (SFsub prec emax x y) = saturated (value x - value y) /\
  SFsub prec emax x y <> S754_nan /\ valid (SFsub prec emax x y).
Proof.
  intros Hx Hy Fx Fy.
  destruct x as [z1|s1| |s1 m1 e1]; try done; destruct y as [z2|s2| |s2 m2 e2]; try done.
  - assert (value (SFsub prec emax (S754_zero z1) (S754_zero z2)) = 0 /\
            SFsub prec emax (S754_zero z1) (S754_zero z2) <> S754_nan /\
            valid (SFsub prec emax (S754_zero z1) (S754_zero z2))) as (-> & ? & ?)
      by (by destruct z1, z2).
    split; [|done]. symmetry. by apply (saturated_value (S754_zero false)).
  - cbn [SFsub]. split_and!; [|done|done]. rewrite value_opp. simpl (value (S754_zero _)).
    rewrite <- (saturated_value _ Hy) at 1. by rewrite <- saturated_opp.
  - cbn [SFsub]. split_and!; [|done|done]. simpl (value (S754_zero _)).
    by rewrite Z.sub_0_r, saturated_value.
  - cbn [SFsub]. set (ez := Z.min e1 e2).
    destruct (valid_canonical _ _ _ Hx) as [_ He1 _]. destruct (valid_canonical _ _ _ Hy) as [_ He2 _].
    match goal with |- context [binary_normalize _ _ ?v _ _] => set (M := v) end.
    destruct (binary_normalize_value M ez false ltac:(lia)) as [Hv Hn].
    split_and!; [|done|by apply binary_normalize_valid; lia]. rewrite Hv. f_equal. unfold M.
    rewrite !shl_align_mantissa by lia.
    assert (Hmag : forall s m e, ez <= e -> cond_Zopp s (Zpos m * 2 ^ (e - ez)) *
              2 ^ (ez - emin prec emax) = value (S754_finite s m e)).
    { intros s m e He. assert (Zpos m * 2 ^ (e - ez) * 2 ^ (ez - emin prec emax) =
                               magnitude (Zpos m) e) as Hm.
      { unfold magnitude. rewrite <- Z.mul_assoc, <- Z.pow_add_r by lia. do 2 f_equal. lia. }
      destruct s; simpl cond_Zopp; cbn [value signed]; rewrite <- Hm; lia. }
    rewrite <- (Hmag s1 m1 e1), <- (Hmag s2 m2 e2) by lia. lia.
Qed.

Lemma add_as_sub x y : is_finite x = true -> is_finite y = true ->
  SFadd prec emax x y = SFsub prec emax x (SFopp y).
Proof.
  destruct x as [z1|s1| |s1 m1 e1], y as [z2|s2| |s2 m2 e2]; try done; intros _ _.
  - by destruct z1, z2.
  - by destruct s2.
  - cbn [SFadd SFsub SFopp]. f_equal. destruct s2; simpl; lia.
Qed.

(** The sum likewise. *)
Lemma add_value x y :
  valid x -> valid y -> is_finite x = true -> is_finite y = true ->
  value (SFadd prec emax x y) = saturated (value x + value y) /\
  SFadd prec emax x y <> S754_nan /\ valid (SFadd prec emax x y).
Proof.
  intros Hx Hy Fx Fy. rewrite add_as_sub by done.
  destruct (sub_value x (SFopp y)) as (Hv & Hn); [done|by destruct y|done|by destruct y|].
  split; [|done]. rewrite Hv. f_equal. destruct y as [| | |s m e]; try done.
  cbn [SFopp]. rewrite value_opp. lia.
Qed.

(** ** Other operations *)

Lemma binary_round_aux_not_nan s m e l : 0 <= m -> binary_round_aux prec emax s m e l <> S754_nan.
Proof.
  intros Hm. unfold binary_round_aux, shr_fexp.
  pose proof (shr_spec (shr_record_of_loc m l) e (fexp prec emax (Zdigits2 m + e) - e)) as [_ H1];
    [by rewrite shr_m_of_loc|].
  destruct (shr _ e _) as [r1 e1]. rewrite shr_m_of_loc in H1. cbn [fst] in H1.
  assert (Hr1 : 0 <= shr_m r1) by (rewrite H1; apply Z.div_pos; lia).
  pose proof (round_nearest_even_le (shr_m r1) (loc_of_shr_record r1)) as Hn.
  set (m2 := round_nearest_even _ _) in *. clearbody m2.
  pose proof (shr_spec (shr_record_of_loc m2 loc_Exact) e1 (fexp prec emax (Zdigits2 m2 + e1) - e1))
    as [_ H2]; [by rewrite shr_m_of_loc; lia|].
  destruct (shr _ e1 _) as [r2 e2]. rewrite shr_m_of_loc in H2. cbn [fst] in H2.
  assert (0 <= shr_m r2) by (rewrite H2; apply Z.div_pos; lia).
  destruct (shr_m r2); [done| |lia]. by case_match.
Qed.

Lemma add_number x y : valid x -> valid y -> is_finite x = true -> is_finite y = true ->
  valid (SFadd prec emax x y) /\ SFadd prec emax x y <> S754_nan.
Proof.
  intros Hx Hy Fx Fy.
  destruct x as [z1|s1| |s1 m1 e1]; try done; destruct y as [z2|s2| |s2 m2 e2]; try done.
  - by destruct z1, z2.
  - destruct (valid_canonical _ _ _ Hx) as [_ He1 _]. destruct (valid_canonical _ _ _ Hy) as [_ He2 _].
    cbn [SFadd]. split; [by apply binary_normalize_valid; lia|].
    apply binary_normalize_value. lia.
Qed.

(** Multiplying by a full mantissa, such as that of one half, keeps a number a number. *)
Lemma mul_number s m e x : 2 ^ (prec - 1) <= Zpos m ->
  valid x -> x <> S754_nan ->
  valid (SFmul prec emax (S754_finite s m e) x) /\ SFmul prec emax (S754_finite s m e) x <> S754_nan.
Proof.
  intros Hm Hx Nx. destruct x as [z|z| |s2 m2 e2]; try done.
  cbn [SFmul]. split; [|apply binary_round_aux_not_nan; lia].
  apply binary_round_aux_valid; [lia..|]. unfold fexp.
  enough (prec <= Zdigits2 (Zpos (m * m2))) by lia.
  pose proof (Zdigits2_bounds (Zpos (m * m2)) ltac:(lia)) as [_ Hb].
  destruct (Z.le_gt_cases prec (Zdigits2 (Zpos (m * m2)))); [done|].
  assert (2 ^ Zdigits2 (Zpos (m * m2)) <= 2 ^ (prec - 1)) by (apply Z.pow_le_mono_r; lia). nia.
Qed.

Lemma value_abs x : value (SFabs x) = Z.abs (value x).
Proof.
  assert (0 < largest) by (unfold largest, emin; lia).
  destruct x as [| s| |s m e]; cbn [SFabs value]; try done; [destruct s; simpl; lia|].
  unfold magnitude. assert (0 <= 2 ^ (e - emin prec emax)) by lia. destruct s; simpl signed; lia.
Qed.

Lemma value_infinity s : value (S754_infinity s) = signed s largest.
Proof. done. Qed.

End rounding.

(** ** Operations do not tell numbers apart that are the same *)

#[global] Instance SFadd_proper prec emax : Proper (same ==> same ==> same) (SFadd prec emax).
Proof.
  intros x x' Hx y y' Hy. destruct Hx as [x|s s'], Hy as [y|t t']; try done;
    repeat match goal with
    | s : bool |- _ => destruct s
    | x : spec_float |- _ => destruct x as [[]|[]| |[]]
    end; constructor.
Qed.

#[global] Instance SFsub_proper prec emax : Proper (same ==> same ==> same) (SFsub prec emax).
Proof.
  intros x x' Hx y y' Hy. destruct Hx as [x|s s'], Hy as [y|t t']; try done;
    repeat match goal with
    | s : bool |- _ => destruct s
    | x : spec_float |- _ => destruct x as [[]|[]| |[]]
    end; constructor.
Qed.

#[global] Instance SFmul_proper prec emax : Proper (same ==> same ==> same) (SFmul prec emax).
Proof.
  intros x x' Hx y y' Hy. destruct Hx as [x|s s'], Hy as [y|t t']; try done;
    repeat match goal with
    | s : bool |- _ => destruct s
    | x : spec_float |- _ => destruct x as [[]|[]| |[]]
    end; constructor.
Qed.

#[global] Instance SFabs_proper : Proper (same ==> same) SFabs.
Proof. intros x x' []; constructor. Qed.

#[global] Instance SFltb_proper : Proper (same ==> same ==> eq) SFltb.
Proof.
  intros x x' Hx y y' Hy. destruct Hx as [x|s s'], Hy as [y|t t']; try done;
    repeat match goal with
    | s : bool |- _ => destruct s
    | x : spec_float |- _ => destruct x as [[]|[]| |[]]
    end; done.
Qed.
