(* ===== verification/FloatScale.v ===== *)
(** * Doubles scaled

    Products and quotients of the floating-point numbers that are not negative, after
    [FloatOrder]: each is the exact ratio in units of the smallest number, rounded by one
    function of the ratio that respects its order. So a product or a quotient grows with
    its operands, whatever the rounding. Nothing here models code of its own. *)

From S2P Require Import CLibrary FloatOrder Prelude.

Section scale.
Context (prec emax : Z) (Hprec : 1 < prec) (Hemax : prec < emax).

Abbreviation valid x := (valid_binary prec emax x = true).
Abbreviation E0 := (emin prec emax).
Abbreviation value := (value prec emax).
Abbreviation largest := (largest prec emax).
Abbreviation rounded_ratio := (rounded_ratio prec).
Abbreviation rounded := (rounded prec).

(** One, in units of the smallest number. *)
Definition unit_value : Z := 2 ^ (- E0).

(** A finite number without a sign. *)
Definition nonneg (x : spec_float) : bool :=
  match x with S754_zero false | S754_finite false _ _ => true | _ => false end.

(** ** Rounded ratios *)

Lemma rounded_ratio_scale a b c : 0 < b -> 0 < c -> rounded_ratio (a * c) (b * c) = rounded_ratio a b.
Proof.
  intros Hb Hc. unfold FloatOrder.rounded_ratio. rewrite Z.div_mul_cancel_r by lia.
  set (k := Z.max 0 _). assert (0 < 2 ^ k) by lia.
  replace (b * c * 2 ^ k) with (b * 2 ^ k * c) by lia. by rewrite div_half_even_scale by nia.
Qed.

Lemma rounded_ratio_eq a b c d : 0 < b -> 0 < d -> a * d = c * b -> rounded_ratio a b = rounded_ratio c d.
Proof.
  intros Hb Hd H. rewrite <- (rounded_ratio_scale a b d), <- (rounded_ratio_scale c d b) by done.
  by rewrite H, (Z.mul_comm b d).
Qed.

Lemma rounded_ratio_whole n b : 0 < b -> rounded_ratio (n * b) b = rounded n.
Proof.
  intros Hb. rewrite <- rounded_ratio_1. apply rounded_ratio_eq; lia.
Qed.

Lemma rounded_ratio_nonneg a b : 0 <= a -> 0 < b -> 0 <= rounded_ratio a b.
Proof.
  intros Ha Hb. unfold FloatOrder.rounded_ratio. set (k := Z.max _ _). assert (0 < 2 ^ k) by lia.
  pose proof (div_half_even_lower a (b * 2 ^ k) 0). nia.
Qed.

(** The binade of a rounded ratio. *)
Lemma rounded_ratio_binade a b d : 0 <= a -> 0 < b -> d = Zdigits2 (a / b) -> prec < d ->
  2 ^ (d - 1) <= rounded_ratio a b.
Proof.
  intros Ha Hb -> Hd. unfold FloatOrder.rounded_ratio. rewrite Z.max_r by lia.
  set (d := Zdigits2 (a / b)) in *. assert (0 < 2 ^ (d - prec)) by lia.
  replace (2 ^ (d - 1)) with (2 ^ (prec - 1) * 2 ^ (d - prec)) by (rewrite <- Z.pow_add_r by lia; f_equal; lia).
  apply Z.mul_le_mono_nonneg_r; [lia|]. apply div_half_even_lower; [nia|].
  assert (Hq : 0 < a / b).
  { assert (0 <= a / b) by (apply Z.div_pos; lia). destruct (Z.eq_dec (a / b) 0) as [Ez|]; [|lia].
    unfold d in Hd. rewrite Ez in Hd. simpl in Hd. lia. }
  pose proof (Zdigits2_bounds (a / b) Hq) as [Hlo _]. fold d in Hlo.
  replace (2 ^ (prec - 1) * (b * 2 ^ (d - prec))) with (b * 2 ^ (d - 1)).
  2:{ replace (d - 1) with (prec - 1 + (d - prec)) by lia. rewrite Z.pow_add_r by lia. lia. }
  transitivity (b * (a / b)); [apply Z.mul_le_mono_nonneg_l; lia|]. by apply Z.mul_div_le.
Qed.

Lemma ratio_digits_bound a b : 0 <= a -> 0 < b -> a < b * 2 ^ Zdigits2 (a / b).
Proof.
  intros Ha Hb. pose proof (Z.div_mod a b ltac:(lia)). pose proof (Z.mod_pos_bound a b Hb).
  assert (0 <= a / b) by (apply Z.div_pos; lia). destruct (Z.eq_dec (a / b) 0) as [Ez|].
  - rewrite Ez in *. simpl. lia.
  - pose proof (Zdigits2_bounds (a / b) ltac:(lia)) as [_ Hhi].
    apply Z.lt_le_trans with (b * (a / b + 1)); [lia|]. apply Z.mul_le_mono_nonneg_l; lia.
Qed.

Lemma rounded_ratio_mono a a' b : 0 <= a <= a' -> 0 < b -> rounded_ratio a b <= rounded_ratio a' b.
Proof.
  intros Ha Hb. assert (Hq : 0 <= a / b <= a' / b) by (split; [apply Z.div_pos|apply Z.div_le_mono]; lia).
  assert (Hd : Zdigits2 (a / b) <= Zdigits2 (a' / b)).
  { apply Zdigits2_le; [apply Zdigits2_nonneg|].
    destruct (Z.eq_dec (a' / b) 0) as [Ez|]; [assert (a / b = 0) as -> by lia; rewrite Ez; simpl; lia|].
    pose proof (Zdigits2_bounds (a' / b)). lia. }
  pose proof (Zdigits2_nonneg (a / b)).
  destruct (Z.le_gt_cases (Zdigits2 (a' / b)) prec).
  { unfold FloatOrder.rounded_ratio. rewrite !Z.max_l by lia. rewrite !Z.mul_1_r. apply div_half_even_mono; lia. }
  destruct (Z.eq_dec (Zdigits2 (a / b)) (Zdigits2 (a' / b))) as [Ed|Ed].
  { unfold FloatOrder.rounded_ratio. rewrite Ed. set (k := Z.max _ _). assert (0 < 2 ^ k) by lia.
    apply Z.mul_le_mono_nonneg_r; [lia|]. apply div_half_even_mono; nia. }
  transitivity (2 ^ (Zdigits2 (a' / b) - 1)); [|apply rounded_ratio_binade; lia].
  pose proof (ratio_digits_bound a b ltac:(lia) Hb) as Hhi. unfold FloatOrder.rounded_ratio.
  set (k := Z.max 0 (Zdigits2 (a / b) - prec)). assert (0 < 2 ^ k) by lia.
  set (d := Zdigits2 (a / b)) in *. set (d' := Zdigits2 (a' / b)) in *.
  assert (Hk : 0 <= d' - 1 - k /\ d <= d' - 1) by (unfold k; lia).
  replace (2 ^ (d' - 1)) with (2 ^ (d' - 1 - k) * 2 ^ k) by (rewrite <- Z.pow_add_r by lia; f_equal; lia).
  apply Z.mul_le_mono_nonneg_r; [lia|]. apply div_half_even_upper; [nia|].
  replace (2 ^ (d' - 1 - k) * (b * 2 ^ k)) with (b * 2 ^ (d' - 1)).
  2:{ replace (d' - 1) with (d' - 1 - k + k) at 1 by lia. rewrite Z.pow_add_r by lia. lia. }
  assert (2 ^ d <= 2 ^ (d' - 1)) by (apply Z.pow_le_mono_r; lia). nia.
Qed.

(** Units that make up a number are not rounded. *)
Lemma rounded_ratio_number x b : 0 < b -> valid x -> nonneg x = true -> rounded_ratio (value x * b) b = value x.
Proof.
  intros Hb Hv Hx. rewrite rounded_ratio_whole by done.
  pose proof (saturated_value prec emax Hprec Hemax x Hv) as Hs. unfold saturated in Hs.
  assert (H0 : 0 <= value x < largest).
  { destruct x as [[]| | |[] m e]; try done.
    - simpl. unfold FloatOrder.largest, emin. lia.
    - apply valid_canonical in Hv; [|done..]. apply magnitude_pos in Hv; [|done..]. simpl. lia. }
  rewrite (proj2 (Z.ltb_ge _ _)), Z.abs_eq in Hs by lia. cbn [signed] in Hs. lia.
Qed.

(** ** Products *)

Lemma canonical_digits m e : canonical prec emax (Zpos m) e -> E0 < e -> Zdigits2 (Zpos m) = prec.
Proof. intros [Hm _ Hf] He. apply Zdigits2_unique; [lia|]. specialize (Hf He). lia. Qed.

Lemma Zdigits2_mul_ge m m' d : 2 ^ (d - 1) <= Zpos m -> d <= Zdigits2 (Zpos m * Zpos m').
Proof.
  intros Hm. pose proof (Zdigits2_bounds (Zpos m * Zpos m') ltac:(lia)) as [_ Hb].
  destruct (Z.le_gt_cases d (Zdigits2 (Zpos m * Zpos m'))); [done|].
  assert (2 ^ Zdigits2 (Zpos m * Zpos m') <= 2 ^ (d - 1)) by (apply Z.pow_le_mono_r; lia). nia.
Qed.

Lemma mul_exponent m1 e1 m2 e2 : canonical prec emax (Zpos m1) e1 -> canonical prec emax (Zpos m2) e2 ->
  e1 + e2 <= fexp prec emax (Zdigits2 (Zpos m1 * Zpos m2) + (e1 + e2)).
Proof.
  intros H1 H2. unfold fexp.
  destruct (Z.eq_dec e1 E0) as [->|]; [destruct (Z.eq_dec e2 E0) as [->|]; [unfold emin; lia|]|].
  - destruct H2 as [_ He Hf]. pose proof (Zdigits2_mul_ge m2 m1 prec (Hf ltac:(lia))).
    rewrite (Z.mul_comm (Zpos m1)). lia.
  - destruct H1 as [_ He Hf]. pose proof (Zdigits2_mul_ge m1 m2 prec (Hf ltac:(lia))). lia.
Qed.

Lemma value_finite m e : value (S754_finite false m e) = Zpos m * 2 ^ (e - E0).
Proof. done. Qed.

Lemma signed_plus v : signed false v = v. Proof. done. Qed.

Lemma min_nonneg a b : 0 <= a -> 0 < b -> 0 <= Z.min largest (rounded_ratio a b).
Proof.
  intros Ha Hb. pose proof (rounded_ratio_nonneg a b Ha Hb). unfold FloatOrder.largest.
  assert (0 < 2 ^ (emax - E0)) by (unfold emin; lia). lia.
Qed.

Record rounds_to (x : spec_float) (v : Z) : Prop := mkRounds {
  rounds_value : value x = Z.min largest v;
  rounds_valid : valid x;
  rounds_nonneg : value x < largest -> nonneg x = true
}.

Lemma rounds_zero : rounds_to (S754_zero false) 0.
Proof.
  constructor; [|done..]. change (0 = Z.min largest 0). unfold FloatOrder.largest, emin. lia.
Qed.

Lemma aux_sign m e l x : 0 <= m ->
  x = binary_round_aux prec emax false m e l -> x <> S754_nan -> value x < largest -> nonneg x = true.
Proof.
  intros Hm -> Hn Hv. unfold binary_round_aux in *. repeat case_match; try done; simpl in Hv; lia.
Qed.

Lemma mul_rounds x y : valid x -> valid y -> nonneg x = true -> nonneg y = true ->
  rounds_to (SFmul prec emax x y) (rounded_ratio (value x * value y) unit_value).
Proof.
  intros Hx Hy Px Py. assert (Hu : 0 < unit_value) by (unfold unit_value, emin; lia).
  assert (Hz : rounded_ratio 0 unit_value = 0).
  { change 0 with (0 * unit_value) at 1. rewrite rounded_ratio_whole by done. by apply rounded_0. }
  destruct x as [[]| | |[] m1 e1], y as [[]| | |[] m2 e2]; try done;
    try (cbn [SFmul xorb]; rewrite ?Z.mul_0_l, ?Z.mul_0_r; simpl (value (S754_zero _));
         rewrite ?Z.mul_0_l, ?Z.mul_0_r, Hz; apply rounds_zero).
  apply valid_canonical in Hx, Hy; [|done..]. cbn [SFmul xorb].
  pose proof (mul_exponent m1 e1 m2 e2 Hx Hy) as He.
  pose proof (binary_round_aux_ratio prec emax Hprec Hemax false (Zpos m1 * Zpos m2) 1 (e1 + e2)) as H.
  assert (Hp : place (Zpos m1 * Zpos m2) 1 = loc_Exact) by (unfold place; by rewrite Z.mod_1_r).
  rewrite Hp, Z.div_1_r in H. destruct H as [Hv Hn]; [lia..|done|].
  change (Zpos m1 * Zpos m2) with (Zpos (m1 * m2)) in *. constructor.
  - rewrite Hv, signed_plus. f_equal. rewrite !value_finite. destruct Hx as [_ He1 _], Hy as [_ He2 _].
    apply rounded_ratio_eq; [lia|done|]. rewrite Z.mul_1_l. unfold unit_value.
    change (Zpos (m1 * m2)) with (Zpos m1 * Zpos m2).
    replace (Zpos m1 * 2 ^ (e1 - E0) * (Zpos m2 * 2 ^ (e2 - E0)) * 2 ^ Z.max 0 (E0 - (e1 + e2)))
      with (Zpos m1 * Zpos m2 * (2 ^ (e1 - E0) * 2 ^ (e2 - E0) * 2 ^ Z.max 0 (E0 - (e1 + e2)))) by lia.
    rewrite <- !Z.pow_add_r, <- Z.mul_assoc, <- Z.pow_add_r by (unfold emin in *; lia).
    do 2 f_equal. unfold emin in *. lia.
  - apply binary_round_aux_valid; [lia..|done].
  - by apply (aux_sign (Zpos (m1 * m2)) (e1 + e2) loc_Exact).
Qed.

(** ** Quotients *)

Lemma new_location_place a b : 0 < b -> new_location b (a mod b) = place a b.
Proof.
  intros Hb. unfold new_location, place, new_location_even, new_location_odd.
  destruct (Z.even b) eqn:Ev; [done|]. destruct (Z.eqb_spec (a mod b) 0); [done|]. f_equal.
  assert (Hodd : Z.odd b = true) by (by rewrite <- Z.negb_even, Ev).
  apply Z.odd_spec in Hodd as [c ->].
  destruct (Z.compare_spec (2 * (a mod (2 * c + 1)) + 1) (2 * c + 1)),
    (Z.compare_spec (2 * (a mod (2 * c + 1))) (2 * c + 1)); try done; lia.
Qed.

Lemma div_core m1 e1 m2 e2 :
  let e' := Z.min (fexp prec emax (Zdigits2 (Zpos m1) + e1 - (Zdigits2 (Zpos m2) + e2))) (e1 - e2) in
  let a := Zpos m1 * 2 ^ (e1 - e2 - e') in
  SFdiv_core_binary prec emax (Zpos m1) e1 (Zpos m2) e2 = (a / Zpos m2, e', place a (Zpos m2)) /\
  e' <= fexp prec emax (Zdigits2 (a / Zpos m2) + e') /\ e' <= e1 - e2.
Proof.
  intros e' a. assert (Hs : 0 <= e1 - e2 - e') by (unfold e'; lia). split.
  - unfold SFdiv_core_binary. fold e'.
    replace (match e1 - e2 - e' with Z0 => _ | Zpos _ => _ | Zneg _ => _ end) with a.
    2:{ unfold a. rewrite <- Z.shiftl_mul_pow2 by lia. destruct (e1 - e2 - e'); [done|done|lia]. }
    replace (Z.div_eucl a (Zpos m2)) with (a / Zpos m2, a mod Zpos m2).
    2:{ unfold Z.div, Z.modulo. by destruct (Z.div_eucl _ _). }
    by rewrite new_location_place.
  - split; [|unfold e'; lia]. set (d1 := Zdigits2 (Zpos m1)) in *. set (d2 := Zdigits2 (Zpos m2)) in *.
    enough (d1 + (e1 - e2 - e') - d2 <= Zdigits2 (a / Zpos m2)) by (unfold e', fexp in *; lia).
    pose proof (Zdigits2_nonneg (a / Zpos m2)). set (n := d1 + (e1 - e2 - e') - d2) in *.
    destruct (Z.le_gt_cases n 0); [lia|].
    pose proof (Zdigits2_bounds (Zpos m1) ltac:(lia)) as [Hn _]. fold d1 in Hn.
    pose proof (Zdigits2_bounds (Zpos m2) ltac:(lia)) as [_ Hd]. fold d2 in Hd.
    assert (0 <= d2) by apply Zdigits2_nonneg. assert (1 <= d1) by (unfold d1; simpl; lia).
    assert (Hq : 2 ^ (n - 1) <= a / Zpos m2).
    { apply Z.div_le_lower_bound; [lia|].
      transitivity (2 ^ d2 * 2 ^ (n - 1)); [apply Z.mul_le_mono_nonneg_r; lia|].
      rewrite <- Z.pow_add_r by lia. replace (d2 + (n - 1)) with (d1 - 1 + (e1 - e2 - e')) by (unfold n; lia).
      rewrite Z.pow_add_r by lia. unfold a. apply Z.mul_le_mono_nonneg_r; lia. }
    assert (0 < 2 ^ (n - 1)) by lia. pose proof (Zdigits2_bounds (a / Zpos m2) ltac:(lia)) as [_ Hb].
    enough (n - 1 < Zdigits2 (a / Zpos m2)) by lia. apply (Z.pow_lt_mono_r_iff 2); lia.
Qed.

Lemma div_rounds x y : valid x -> valid y -> nonneg x = true -> nonneg y = true -> 0 < value y ->
  rounds_to (SFdiv prec emax x y) (rounded_ratio (value x * unit_value) (value y)).
Proof.
  intros Hx Hy Px Py Hpos. assert (Hu : 0 < unit_value) by (unfold unit_value, emin; lia).
  destruct y as [| | |[] m2 e2]; try done. destruct x as [[]| | |[] m1 e1]; try done.
  { cbn [SFdiv xorb]. simpl (value (S754_zero _)). rewrite Z.mul_0_l.
    assert (Hz : rounded_ratio 0 (value (S754_finite false m2 e2)) = 0); [|rewrite Hz; apply rounds_zero].
    set (v := value _) in *. change 0 with (0 * v) at 1. rewrite rounded_ratio_whole by done. by apply rounded_0. }
  apply valid_canonical in Hx, Hy; [|done..]. cbn [SFdiv xorb].
  destruct (div_core m1 e1 m2 e2) as (-> & He & Hle). set (e' := Z.min _ _) in *.
  set (a := Zpos m1 * 2 ^ (e1 - e2 - e')) in *. assert (Ha : 0 <= a) by (unfold a; lia).
  destruct (binary_round_aux_ratio prec emax Hprec Hemax false a (Zpos m2) e' Ha ltac:(done) He) as [Hv Hn].
  assert (Hq : 0 <= a / Zpos m2) by (apply Z.div_pos; lia). constructor.
  - rewrite Hv, signed_plus. f_equal. destruct Hx as [_ He1 _], Hy as [_ He2 _]. rewrite !value_finite in *.
    apply rounded_ratio_eq; [lia|done|]. unfold unit_value, a.
    replace (Zpos m1 * 2 ^ (e1 - e2 - e') * 2 ^ Z.max 0 (e' - E0) * (Zpos m2 * 2 ^ (e2 - E0)))
      with (Zpos m1 * Zpos m2 * (2 ^ (e1 - e2 - e') * 2 ^ Z.max 0 (e' - E0) * 2 ^ (e2 - E0))) by lia.
    replace (Zpos m1 * 2 ^ (e1 - E0) * 2 ^ (- E0) * (Zpos m2 * 2 ^ Z.max 0 (E0 - e')))
      with (Zpos m1 * Zpos m2 * (2 ^ (e1 - E0) * 2 ^ (- E0) * 2 ^ Z.max 0 (E0 - e'))) by lia.
    rewrite <- !Z.pow_add_r by (unfold emin in *; lia). do 2 f_equal. unfold emin in *. lia.
  - by apply binary_round_aux_valid.
  - by apply (aux_sign (a / Zpos m2) e' (place a (Zpos m2))).
Qed.

End scale.
