(* ===== verification/LineFilter.v ===== *)
(** * Filtering a scan line

    include/ssim/analysis/types.hpp, src/analysis/edge_exclusion.cpp and
    src/analysis/outlier_rejection.cpp: the samples near the edge and the outliers of one
    line. The outlier filter slides a sorted window along the line; the reference it
    replaced, from tests/unit/analysis/outlier_equivalence_test.cpp, sorts every window
    afresh, and the two are proved to give the same result. *)

From S2P Require Import CLibrary FloatOrder Prelude.

(** ** Data (types.hpp) *)

Inductive SampleFlag := kKept | kEdgeExcluded | kOutlier | kDropped.

#[global] Instance SampleFlag_eq_dec : EqDecision SampleFlag.
Proof. solve_decision. Defined.

Record LineSamples := mkLine { line_angle_rad : double; line_s_m : list double; line_z_m : list double }.

Record FilteredSample := mkSample { s_m : double; z_m : double; flag : SampleFlag }.

Record FilterResult := mkFilter {
  angle_rad : double;
  samples : list FilteredSample;
  removed_count : Z;
  removed_fraction : double
}.

Definition dzero : double := S754_zero false.
Definition half : double := S754_finite false 4503599627370496 (-53).

Definition is_kept (s : FilteredSample) : bool := bool_decide (flag s = kKept).

Definition set_flag (f : SampleFlag) (s : FilteredSample) : FilteredSample := mkSample (s_m s) (z_m s) f.

(** The counts both filters end with. *)
Definition with_counts (r : FilterResult) : FilterResult :=
  let removed := Z.of_nat (length (List.filter (fun s => negb (is_kept s)) (samples r))) in
  mkFilter (angle_rad r) (samples r) removed
    (ddiv (double_of_Z removed) (double_of_Z (Z.of_nat (length (samples r))))).

(** ** Edge exclusion *)

(** [std::minmax_element]: the first smallest and the last largest element. *)
Definition min_element (x : double) (l : list double) : double :=
  foldl (fun m y => if SFltb y m then y else m) x l.
Definition max_element (x : double) (l : list double) : double :=
  foldl (fun m y => if SFltb y m then m else y) x l.

Definition isnan (x : double) : bool := match x with S754_nan => true | _ => false end.

Definition edge_sample (lo hi s z : double) : FilteredSample :=
  mkSample s z
    (if isnan z then kDropped
     else if SFltb s lo || SFltb hi s then kEdgeExcluded
     else kKept).

(** The literal 1e-3. *)
Definition milli : double := S754_finite false 4611686018427388 (-62).

(** [line_z_m] has an element for every position. *)
Definition apply_edge_exclusion (line : LineSamples) (edge_exclusion_mm : double) : FilterResult :=
  match line_s_m line with
  | [] => mkFilter (line_angle_rad line) [] 0 dzero
  | x :: l =>
      let edge_exclusion_m := dmul edge_exclusion_mm milli in
      let lo := dadd (min_element x l) edge_exclusion_m in
      let hi := dsub (max_element x l) edge_exclusion_m in
      with_counts
        (mkFilter (line_angle_rad line)
           (zip_with (edge_sample lo hi) (line_s_m line) (line_z_m line)) 0 dzero)
  end.

(** ** Order statistics of a sorted window *)

(** The element at an index the code knows to be in range. *)
Definition at_index (l : list double) (i : nat) : double := nth i l S754_nan.

Definition sorted_median (sorted : list double) : double :=
  let mid := (length sorted / 2)%nat in
  if (length sorted mod 2 =? 0)%nat then dmul half (dadd (at_index sorted mid) (at_index sorted (mid - 1)))
  else at_index sorted mid.

(** [std::lower_bound] and [std::upper_bound] on a sorted range, as indices. *)
Fixpoint lower_bound (l : list double) (v : double) : nat :=
  match l with [] => O | x :: l => if SFltb x v then S (lower_bound l v) else O end.
Fixpoint upper_bound (l : list double) (v : double) : nat :=
  match l with [] => O | x :: l => if SFltb v x then O else S (upper_bound l v) end.

(** The loop of [median_abs_deviation], [steps] rounds of it. *)
Fixpoint merge_deviations (steps : nat) (sorted : list double) (med : double) (left_ right_ : nat)
    (previous current : double) : double * double :=
  match steps with
  | O => (previous, current)
  | S steps =>
      let have_left := (0 <? left_)%nat in
      let have_right := (right_ <? length sorted)%nat in
      let dev_left := if have_left then dsub med (at_index sorted (left_ - 1)) else dzero in
      let dev_right := if have_right then dsub (at_index sorted right_) med else dzero in
      if have_left && (negb have_right || SFleb dev_left dev_right)
      then merge_deviations steps sorted med (left_ - 1) right_ current dev_left
      else merge_deviations steps sorted med left_ (S right_) current dev_right
  end.

Definition median_abs_deviation (sorted : list double) (med : double) : double :=
  let size := length sorted in
  let mid := (size / 2)%nat in
  let split := lower_bound sorted med in
  let '(previous, current) := merge_deviations (S mid) sorted med split split dzero dzero in
  if (size mod 2 =? 0)%nat then dmul half (dadd current previous) else current.

(** ** Outlier rejection *)

(** The indices of the kept samples, counted from [i]. *)
Fixpoint kept_indices (i : nat) (l : list FilteredSample) : list nat :=
  match l with
  | [] => []
  | s :: l => if is_kept s then i :: kept_indices (S i) l else kept_indices (S i) l
  end.

Definition height (l : list FilteredSample) (i : nat) : double :=
  match l !! i with Some s => z_m s | None => S754_nan end.

Definition window_insert (v : double) (window : list double) : list double :=
  let i := upper_bound window v in take i window ++ v :: drop i window.

Definition window_erase (v : double) (window : list double) : list double :=
  delete (lower_bound window v) window.

(** "Exceeds k times the median absolute deviation." *)
Definition exceeds (mad_k z med mad : double) : bool :=
  let threshold := dmul mad_k mad in
  SFltb dzero threshold && SFltb threshold (SFabs (dsub z med)).

Record Sliding := mkSliding {
  out_samples : list FilteredSample;
  window : list double;
  window_lo : nat;
  window_end : nat
}.

Definition slide (mad_k : double) (radius : nat) (kept : list nat) (kept_z : list double)
    (st : Sliding) (k : nat) : Sliding :=
  let n := length kept in
  let lo := if (radius <? k)%nat then (k - radius)%nat else O in
  let end_ := Nat.min n (k + radius + 1) in
  let w := foldl (fun w i => window_erase (at_index kept_z i) w) (window st)
             (seq (window_lo st) (lo - window_lo st)) in
  let w := foldl (fun w i => window_insert (at_index kept_z i) w) w
             (seq (window_end st) (end_ - window_end st)) in
  let med := sorted_median w in
  let mad := median_abs_deviation w med in
  mkSliding
    (if exceeds mad_k (at_index kept_z k) med mad
     then alter (set_flag kOutlier) (nth k kept O) (out_samples st) else out_samples st)
    w (Nat.max (window_lo st) lo) (Nat.max (window_end st) end_).

Definition apply_outlier_rejection (input : FilterResult) (mad_k : double)
    (window_radius_samples : Z) : FilterResult :=
  let kept := kept_indices 0 (samples input) in
  let kept_z := map (height (samples input)) kept in
  if (length kept <? 2)%nat then input
  else
    let radius := Z.to_nat (Z.max 1 window_radius_samples) in
    let st := foldl (slide mad_k radius kept kept_z) (mkSliding (samples input) [] 0 0)
                (seq 0 (length kept)) in
    with_counts (mkFilter (angle_rad input) (out_samples st) (removed_count input)
                   (removed_fraction input)).

(** ** The reference *)

(** [x] may come before [y] in a range sorted with [operator<]. *)
Definition not_above (x y : double) : Prop := SFltb y x = false.

#[global] Instance not_above_dec : RelDecision not_above.
Proof. intros x y. unfold not_above. apply _. Defined.

#[global] Instance not_above_total : Total not_above.
Proof.
  intros x y. unfold not_above. unfold SFltb.
  destruct (SFcompare y x) as [[]|] eqn:E; auto; right.
  destruct x as [| | |sx mx ex], y as [| | |sy my ey]; try done; simpl in *;
    repeat match goal with s : bool |- _ => destruct s end; try done;
    rewrite (Z.compare_antisym ey ex); destruct (Z.compare ey ex) eqn:Ee; try done; simpl;
    change (Pos.compare_cont Eq ?a ?b) with (Pos.compare a b) in *;
    rewrite (Pos.compare_antisym my mx); destruct (Pos.compare my mx); done.
Qed.

(** What [std::nth_element] puts at an index is what sorting would. *)
Definition reference_median (values : list double) : double :=
  let sorted := merge_sort not_above values in
  let mid := (length values / 2)%nat in
  match values with
  | [] => dzero
  | _ =>
      if (length values mod 2 =? 0)%nat
      then dmul half (dadd (at_index sorted mid) (at_index sorted (mid - 1)))
      else at_index sorted mid
  end.

Definition reference_step (mad_k : double) (radius : nat) (kept : list nat)
    (out : list FilteredSample) (k : nat) : list FilteredSample :=
  let n := length kept in
  let lo := if (radius <? k)%nat then (k - radius)%nat else O in
  let hi := Nat.min (n - 1) (k + radius) in
  let window_z := map (fun w => height out (nth w kept O)) (seq lo (S hi - lo)) in
  let med := reference_median window_z in
  let mad := reference_median (map (fun z => SFabs (dsub z med)) window_z) in
  if exceeds mad_k (height out (nth k kept O)) med mad
  then alter (set_flag kOutlier) (nth k kept O) out else out.

Definition reference_outlier_rejection (input : FilterResult) (mad_k : double)
    (window_radius_samples : Z) : FilterResult :=
  let kept := kept_indices 0 (samples input) in
  if (length kept <? 2)%nat then input
  else
    let radius := Z.to_nat (Z.max 1 window_radius_samples) in
    with_counts (mkFilter (angle_rad input)
      (foldl (reference_step mad_k radius kept) (samples input) (seq 0 (length kept)))
      (removed_count input) (removed_fraction input)).

(** Three heights near 0, one at 1 and a gap: the spike is flagged. *)
Example spike_flagged :
  let s z f := mkSample dzero z f in
  let one := double_of_Z 1 in
  let eps := double_of_ratio false 1 1000 in
  map flag (samples (apply_outlier_rejection
    (mkFilter dzero [s dzero kKept; s eps kKept; s S754_nan kDropped; s one kKept;
                     s (SFopp eps) kKept; s eps kKept] 0 dzero) (double_of_Z 6) 3)) =
  [kKept; kKept; kDropped; kOutlier; kKept; kKept].
Proof. vm_compute. reflexivity. Qed.

(** ** The window *)

Abbreviation val := (value prec64 emax64).
Abbreviation valid64 x := (valid_binary prec64 emax64 x = true).

(** A number that can be compared. *)
Definition number (x : double) : Prop := valid64 x /\ x <> S754_nan.
Definition finite (x : double) : Prop := valid64 x /\ is_finite x = true.

Lemma finite_number x : finite x -> number x.
Proof. intros [Hv Hf]. split; [done|]. by destruct x. Qed.

Lemma SFltb_val x y : number x -> number y -> SFltb x y = (val x <? val y).
Proof.
  intros [] []. unfold SFltb. rewrite (compare_value prec64 emax64) by done.
  unfold Z.ltb. by destruct (_ ?= _).
Qed.

Lemma SFleb_val x y : number x -> number y -> SFleb x y = (val x <=? val y).
Proof.
  intros [] []. unfold SFleb. rewrite (compare_value prec64 emax64) by done.
  unfold Z.leb. by destruct (_ ?= _).
Qed.

Lemma same_val x y : number x -> number y -> val x = val y -> same x y.
Proof. intros [] []. by apply (same_value prec64 emax64). Qed.

Abbreviation in_order l := (StronglySorted Z.le (map val l)).

Lemma lower_bound_spec l v : Forall number l -> number v -> in_order l ->
  Forall (fun x => val x < val v) (take (lower_bound l v) l) /\
  Forall (fun x => val v <= val x) (drop (lower_bound l v) l).
Proof.
  intros Hl Hv Hs. induction Hl as [|x l Hx Hl IH]; [done|]. simpl in *.
  inversion Hs as [|?? Hs' Hle]; subst. rewrite SFltb_val by done.
  destruct (Z.ltb_spec (val x) (val v)) as [Hlt|Hge]; simpl.
  - destruct (IH Hs') as [IH1 IH2]. split; [by constructor|done].
  - split; [done|]. constructor; [done|]. rewrite Forall_map in Hle.
    eapply Forall_impl; [exact Hle|]. simpl. intros; lia.
Qed.

Lemma upper_bound_spec l v : Forall number l -> number v -> in_order l ->
  Forall (fun x => val x <= val v) (take (upper_bound l v) l) /\
  Forall (fun x => val v < val x) (drop (upper_bound l v) l).
Proof.
  intros Hl Hv Hs. induction Hl as [|x l Hx Hl IH]; [done|]. simpl in *.
  inversion Hs as [|?? Hs' Hle]; subst. rewrite SFltb_val by done.
  destruct (Z.ltb_spec (val v) (val x)) as [Hlt|Hge]; simpl.
  - split; [done|]. constructor; [done|]. rewrite Forall_map in Hle.
    eapply Forall_impl; [exact Hle|]. simpl. intros; lia.
  - destruct (IH Hs') as [IH1 IH2]. split; [by constructor|done].
Qed.

Lemma window_insert_spec v l : Forall number l -> number v -> in_order l ->
  window_insert v l ≡ₚ v :: l /\ in_order (window_insert v l).
Proof.
  intros Hl Hv Hs. destruct (upper_bound_spec l v Hl Hv Hs) as [H1 H2].
  unfold window_insert. set (i := upper_bound l v) in *. split.
  - by rewrite <- Permutation_middle, take_drop.
  - rewrite map_app, map_cons. rewrite <- (take_drop i l), map_app in Hs.
    apply StronglySorted_app in Hs as (Hlt & Hs1 & Hs2).
    apply StronglySorted_app; split_and!; [|done|].
    + intros x y Hx Hy. apply list_elem_of_fmap in Hx as (x' & -> & Hx).
      rewrite Forall_forall in H1. specialize (H1 _ Hx).
      apply elem_of_cons in Hy as [->|Hy]; [done|]. apply list_elem_of_fmap in Hy as (y' & -> & Hy).
      rewrite Forall_forall in H2. specialize (H2 _ Hy). lia.
    + constructor; [done|]. rewrite Forall_map. eapply Forall_impl; [exact H2|]. simpl. intros; lia.
Qed.

Lemma window_erase_spec v l : Forall finite l -> finite v -> in_order l -> val v ∈ map val l ->
  map val l ≡ₚ val v :: map val (window_erase v l) /\ in_order (window_erase v l) /\
  Forall finite (window_erase v l).
Proof.
  intros Hl Hv Hs Hin.
  assert (Hl' : Forall number l) by (eapply Forall_impl; [exact Hl|apply finite_number]).
  destruct (lower_bound_spec l v Hl' (finite_number v Hv) Hs) as [H1 H2].
  unfold window_erase. set (i := lower_bound l v) in *.
  rewrite <- (take_drop i l) in Hs, Hin, Hl. rewrite delete_take_drop, map_app in *.
  apply StronglySorted_app in Hs as (Hlt & Hs1 & Hs2).
  assert (Hd : val v ∈ map val (drop i l)).
  { apply elem_of_app in Hin as [Hin|Hin]; [|done].
    apply list_elem_of_fmap in Hin as (x & Hx & Hin). rewrite Forall_forall in H1.
    specialize (H1 _ Hin). lia. }
  replace (drop (S i) l) with (drop 1 (drop i l)) by (rewrite drop_drop; f_equal; lia).
  destruct (drop i l) as [|x rest] eqn:E; [by apply not_elem_of_nil in Hd|]. cbn [drop skipn].
  assert (Hx : val x = val v).
  { inversion H2 as [|?? Hge H2']; subst. apply elem_of_cons in Hd as [Hd|Hd]; [done|].
    inversion Hs2 as [|?? _ Hall]; subst. rewrite Forall_forall in Hall.
    specialize (Hall _ Hd). lia. }
  apply Forall_app in Hl as [Hl1 Hl2]. inversion Hl2; subst. inversion Hs2 as [|?? Hs3 Hall]; subst.
  split_and!.
  - rewrite <- (take_drop i l) at 1. rewrite E, map_app, map_cons, Hx.
    by rewrite <- Permutation_middle.
  - apply StronglySorted_app. split_and!; [|done|done]. intros a b Ha Hb. apply Hlt; [done|by right].
  - apply Forall_app. done.
Qed.

(** The elements of [l] from [a] up to [b]. *)
Definition slice {A} (a b : nat) (l : list A) : list A := take (b - a) (drop a l).

Lemma slice_cons a b (l : list double) : (a < b)%nat -> (b <= length l)%nat ->
  slice a b l = at_index l a :: slice (S a) b l.
Proof.
  intros Hab Hb. unfold slice, at_index. destruct (lookup_lt_is_Some_2 l a) as [x Hx]; [lia|].
  rewrite (drop_S l x a Hx). replace (b - a)%nat with (S (b - S a)) by lia. simpl.
  by rewrite (nth_lookup_Some _ _ _ _ Hx).
Qed.

Lemma slice_snoc a b (l : list double) : (a <= b)%nat -> (b < length l)%nat ->
  slice a (S b) l = slice a b l ++ [at_index l b].
Proof.
  intros Hab Hb. unfold slice, at_index. destruct (lookup_lt_is_Some_2 l b) as [x Hx]; [lia|].
  replace (S b - a)%nat with (S (b - a)) by lia.
  rewrite (take_S_r _ _ x); [by rewrite (nth_lookup_Some _ _ _ _ Hx)|].
  rewrite lookup_drop. by replace (a + (b - a))%nat with b by lia.
Qed.

Lemma at_index_finite l i : Forall finite l -> (i < length l)%nat -> finite (at_index l i).
Proof. intros Hl Hi. apply (proj1 (Forall_nth finite S754_nan l) Hl i Hi). Qed.

(** [w] holds the heights from [lo] up to [hi], sorted. *)
Record window_of (z : list double) (lo hi : nat) (w : list double) : Prop := mkWindowOf {
  window_range : (lo <= hi <= length z)%nat;
  window_finite : Forall finite w;
  window_order : in_order w;
  window_content : map val w ≡ₚ map val (slice lo hi z)
}.

Lemma window_leave z lo hi w : Forall finite z -> window_of z lo hi w -> (lo < hi)%nat ->
  window_of z (S lo) hi (window_erase (at_index z lo) w).
Proof.
  intros Hz [Hr Hf Ho Hc] Hlt. rewrite slice_cons in Hc by lia. cbn [map] in Hc.
  destruct (window_erase_spec (at_index z lo) w) as (Hp & Ho' & Hf'); try done;
    [by apply at_index_finite; [|lia]|rewrite Hc; left|].
  constructor; [lia|done|done|]. rewrite Hp in Hc. by apply Permutation_cons_inv in Hc.
Qed.

Lemma window_enter z lo hi w : Forall finite z -> window_of z lo hi w -> (hi < length z)%nat ->
  window_of z lo (S hi) (window_insert (at_index z hi) w).
Proof.
  intros Hz [Hr Hf Ho Hc] Hlt. pose proof (at_index_finite z hi Hz Hlt) as Hv.
  destruct (window_insert_spec (at_index z hi) w) as (Hp & Ho'); try done;
    [by eapply Forall_impl; [exact Hf|apply finite_number]|by apply finite_number|].
  constructor; [lia|rewrite Hp; by constructor|done|].
  rewrite Hp, slice_snoc, map_app by lia. cbn [map]. rewrite Hc. by rewrite Permutation_app_comm.
Qed.

Lemma window_leaves z lo hi w m : Forall finite z -> window_of z lo hi w -> (lo + m <= hi)%nat ->
  window_of z (lo + m) hi (foldl (fun w i => window_erase (at_index z i) w) w (seq lo m)).
Proof.
  intros Hz. revert lo w. induction m as [|m IH]; intros lo w Hw Hm; simpl.
  - by rewrite Nat.add_0_r.
  - rewrite Nat.add_succ_r. apply (IH (S lo)); [|lia]. apply window_leave; [done..|lia].
Qed.

Lemma window_enters z lo hi w m : Forall finite z -> window_of z lo hi w -> (hi + m <= length z)%nat ->
  window_of z lo (hi + m) (foldl (fun w i => window_insert (at_index z i) w) w (seq hi m)).
Proof.
  intros Hz. revert hi w. induction m as [|m IH]; intros hi w Hw Hm; simpl.
  - by rewrite Nat.add_0_r.
  - rewrite Nat.add_succ_r. apply (IH (S hi)); [|lia]. apply window_enter; [done..|lia].
Qed.

(** ** Medians *)

#[global] Instance dadd_proper : Proper (same ==> same ==> same) dadd := SFadd_proper _ _.
#[global] Instance dsub_proper : Proper (same ==> same ==> same) dsub := SFsub_proper _ _.
#[global] Instance dmul_proper : Proper (same ==> same ==> same) dmul := SFmul_proper _ _.

Lemma val_same x y : same x y -> val x = val y.
Proof. by intros []. Qed.

Lemma number_half x : number x -> number (dmul half x).
Proof. intros []. apply (mul_number prec64 emax64); done. Qed.

Lemma number_sum x y : finite x -> finite y -> number (dadd x y).
Proof. intros [] []. by apply (add_number prec64 emax64). Qed.

Lemma val_at l i : val (at_index l i) = nth i (map val l) 0.
Proof. unfold at_index. change 0 with (val S754_nan). by rewrite map_nth. Qed.

Lemma at_index_number l i : Forall number l -> (i < length l)%nat -> number (at_index l i).
Proof. intros Hl Hi. apply (proj1 (Forall_nth number S754_nan l) Hl i Hi). Qed.

Lemma at_same l l' i : Forall number l -> Forall number l' -> map val l = map val l' ->
  (i < length l)%nat -> same (at_index l i) (at_index l' i).
Proof.
  intros Hl Hl' Heq Hi. assert (Hlen : length l = length l').
  { rewrite <- (length_map val l), Heq. by rewrite length_map. }
  apply same_val; [by apply at_index_number|apply at_index_number; [done|lia]|].
  by rewrite !val_at, Heq.
Qed.

Lemma sorted_median_same l l' : Forall number l -> Forall number l' -> map val l = map val l' ->
  l <> [] -> same (sorted_median l) (sorted_median l').
Proof.
  intros Hl Hl' Heq Hne. assert (Hlen : length l = length l').
  { rewrite <- (length_map val l), Heq. by rewrite length_map. }
  assert (0 < length l)%nat by (destruct l; simpl; [done|lia]).
  assert (length l / 2 < length l)%nat by (apply Nat.div_lt; lia).
  unfold sorted_median. rewrite <- Hlen. destruct (_ =? 0)%nat; [|by apply at_same].
  apply dmul_proper; [done|]. apply dadd_proper; apply at_same; (done || lia).
Qed.

Lemma sorted_median_number l : Forall finite l -> l <> [] -> number (sorted_median l).
Proof.
  intros Hl Hne. assert (0 < length l)%nat by (destruct l; simpl; [done|lia]).
  assert (length l / 2 < length l)%nat by (apply Nat.div_lt; lia).
  unfold sorted_median. destruct (_ =? 0)%nat.
  - apply number_half, number_sum; apply at_index_finite; (done || lia).
  - apply finite_number, at_index_finite; done.
Qed.

Lemma merge_sort_in_order l : Forall number l -> in_order (merge_sort not_above l).
Proof.
  intros Hl. assert (Hl' : Forall number (merge_sort not_above l)) by by rewrite merge_sort_Permutation.
  pose proof (Sorted_merge_sort not_above l) as Hs.
  apply Sorted_StronglySorted; [apply _|]. induction Hs as [|x s Hs IH Hd]; [constructor|].
  inversion Hl' as [|?? Hx Hs']; subst. simpl. constructor; [by apply IH|].
  destruct Hd as [|y s Hxy]; constructor. inversion Hs'; subst.
  unfold not_above in Hxy. rewrite SFltb_val in Hxy by done. lia.
Qed.

Lemma in_order_unique l l' : in_order l -> in_order l' -> map val l ≡ₚ map val l' -> map val l = map val l'.
Proof. intros. by apply (StronglySorted_unique Z.le). Qed.

Lemma reference_median_sorted values : values <> [] ->
  reference_median values = sorted_median (merge_sort not_above values).
Proof.
  intros Hne. unfold reference_median, sorted_median.
  rewrite (Permutation_length (merge_sort_Permutation not_above values)). by destruct values.
Qed.

Abbreviation sat := (saturated prec64 emax64).
Abbreviation top := (largest prec64 emax64).

Lemma dsub_val x y : finite x -> finite y -> val (dsub x y) = sat (val x - val y) /\ number (dsub x y).
Proof.
  intros [] []. destruct (sub_value prec64 emax64 ltac:(done) ltac:(done) x y) as (? & ? & ?); done.
Qed.

Lemma sat_mono v v' : v <= v' -> sat v <= sat v'.
Proof. by apply saturated_mono. Qed.

Lemma sat_opp v : sat (- v) = - sat v.
Proof. by apply saturated_opp. Qed.

Lemma sat_0 : sat 0 = 0.
Proof. done. Qed.

(** ** Deviations

    The absolute deviation from [med] depends on the value of a height only. *)
Section deviations.
Context (med : double) (Hmed : number med).

Definition deviation (v : Z) : Z := if is_finite med then Z.abs (sat (v - val med)) else top.

Lemma med_cases : (is_finite med = true /\ finite med) \/
  (is_finite med = false /\ exists s, med = S754_infinity s).
Proof. destruct Hmed as [Hv Hn]. destruct med; try done; [left..|right|left]; eauto; by split. Qed.

Lemma dev_number x : finite x -> number (dsub x med) /\ number (dsub med x).
Proof.
  intros Fx. destruct med_cases as [[_ Fm]|(_ & s & ->)]; [split; by apply dsub_val|].
  destruct Fx as [_ Fx]. by destruct x.
Qed.

Lemma dev_abs x : finite x -> val (SFabs (dsub x med)) = deviation (val x).
Proof.
  intros Fx. rewrite value_abs by done. unfold deviation.
  destruct med_cases as [[-> Fm]|(-> & s & ->)].
  - by destruct (dsub_val x med Fx Fm) as [-> _].
  - destruct Fx as [_ Fx]. by destruct x, s.
Qed.

Lemma finite_val x : finite x -> - top < val x < top.
Proof.
  intros [Hx Fx]. destruct x as [|s| |s m e]; try done.
  apply valid_canonical, magnitude_pos in Hx; [|done..].
  destruct s; cbn [value signed]; lia.
Qed.

Lemma dev_left x : finite x -> val x <= val med -> val (dsub med x) = deviation (val x).
Proof.
  intros Fx Hle. pose proof (finite_val x Fx) as Hb. unfold deviation.
  destruct med_cases as [[-> Fm]|(-> & s & ->)].
  - destruct (dsub_val med x Fm Fx) as [-> _].
    replace (val x - val med) with (- (val med - val x)) by lia.
    rewrite sat_opp, Z.abs_opp, Z.abs_eq; [done|]. rewrite <- sat_0. apply sat_mono. lia.
  - destruct Fx as [_ Fx]. destruct s; [cbn [value signed] in Hle; lia|by destruct x].
Qed.

Lemma dev_right x : finite x -> val med <= val x -> val (dsub x med) = deviation (val x).
Proof.
  intros Fx Hle. pose proof (finite_val x Fx) as Hb. unfold deviation.
  destruct med_cases as [[-> Fm]|(-> & s & ->)].
  - destruct (dsub_val x med Fx Fm) as [-> _].
    rewrite Z.abs_eq; [done|]. rewrite <- sat_0. apply sat_mono. lia.
  - destruct Fx as [_ Fx]. destruct s; [by destruct x|cbn [value signed] in Hle; lia].
Qed.

Lemma deviation_mono v v' : val med <= v <= v' \/ v' <= v <= val med -> deviation v <= deviation v'.
Proof.
  intros Hv. unfold deviation. destruct (is_finite med); [|done]. pose proof sat_0.
  destruct Hv as [Hv|Hv].
  - pose proof (sat_mono 0 (v - val med)). pose proof (sat_mono (v - val med) (v' - val med)). lia.
  - pose proof (sat_mono (v - val med) 0). pose proof (sat_mono (v' - val med) (v - val med)). lia.
Qed.

End deviations.

(** ** Merging the two sides of a window *)
Section merging.
Context (w : list double) (med : double).
Context (Hw : Forall finite w) (Ho : in_order w) (Hmed : number med).

Definition split_at : nat := lower_bound w med.

Lemma number_w : Forall number w.
Proof. eapply Forall_impl; [exact Hw|apply finite_number]. Qed.

Definition left_devs (n : nat) : list Z := reverse (map (fun x => deviation med (val x)) (take n w)).
Definition right_devs (n : nat) : list Z := map (fun x => deviation med (val x)) (drop n w).

Lemma left_devs_S n : (n < split_at)%nat ->
  left_devs (S n) = val (dsub med (at_index w n)) :: left_devs n /\ (n < length w)%nat /\
  number (dsub med (at_index w n)).
Proof.
  intros Hn. destruct (lower_bound_spec w med number_w Hmed Ho) as [Hlt _]. fold split_at in Hlt.
  assert (Hlen : (n < length w)%nat).
  { apply Nat.lt_le_trans with split_at; [done|]. unfold split_at. clear.
    induction w as [|x l IH]; simpl; [done|]. case_match; lia. }
  pose proof (at_index_finite w n Hw Hlen) as Hf. split_and!; [|done|by apply (dev_number med Hmed)].
  unfold left_devs. destruct (lookup_lt_is_Some_2 w n Hlen) as [x Hx].
  rewrite (take_S_r _ _ x Hx), map_app, reverse_app. simpl. f_equal.
  unfold at_index in *. rewrite (nth_lookup_Some _ _ _ _ Hx) in *. symmetry. apply dev_left; [done..|].
  rewrite Forall_lookup in Hlt. enough (val x < val med) by lia. apply (Hlt n).
  by rewrite lookup_take_lt.
Qed.

Lemma right_devs_S n : (split_at <= n)%nat -> (n < length w)%nat ->
  right_devs n = val (dsub (at_index w n) med) :: right_devs (S n) /\
  number (dsub (at_index w n) med).
Proof.
  intros Hs Hlen. destruct (lower_bound_spec w med number_w Hmed Ho) as [_ Hge]. fold split_at in Hge.
  pose proof (at_index_finite w n Hw Hlen) as Hf. split; [|by apply (dev_number med Hmed)].
  unfold right_devs. destruct (lookup_lt_is_Some_2 w n Hlen) as [x Hx].
  rewrite (drop_S _ _ _ Hx). simpl. f_equal.
  unfold at_index in *. rewrite (nth_lookup_Some _ _ _ _ Hx) in *. symmetry. apply dev_right; [done..|].
  rewrite Forall_lookup in Hge. apply (Hge (n - split_at)%nat).
  rewrite lookup_drop. by replace (split_at + (n - split_at))%nat with n by lia.
Qed.

(** The deviations still to come, in order, when [l] are left on one side and all from
    [r] on the other. *)
Definition merged_devs (l r : nat) : list Z := list_merge Z.le (left_devs l) (right_devs r).

Lemma merge_deviations_spec steps l r previous current :
  (l <= split_at)%nat -> (split_at <= r)%nat -> (r <= length w)%nat ->
  (steps <= l + (length w - r))%nat -> number current ->
  let '(p, c) := merge_deviations steps w med l r previous current in
  match steps with
  | O => p = previous /\ c = current
  | S t => number c /\ nth t (merged_devs l r) 0 = val c /\
      match t with
      | O => p = current
      | S t => number p /\ nth t (merged_devs l r) 0 = val p
      end
  end.
Proof.
  revert l r previous current.
  induction steps as [|steps IH]; intros l r previous current Hl Hr Hlen Hs Hc; [done|].
  cbn [merge_deviations].
  assert (Hnext : forall l' r' dev, number dev -> merged_devs l r = val dev :: merged_devs l' r' ->
    (l' <= split_at)%nat -> (split_at <= r')%nat -> (r' <= length w)%nat ->
    (steps <= l' + (length w - r'))%nat ->
    let '(p, c) := merge_deviations steps w med l' r' current dev in
    number c /\ nth steps (merged_devs l r) 0 = val c /\
    match steps with
    | O => p = current
    | S t => number p /\ nth t (merged_devs l r) 0 = val p
    end).
  { intros l' r' dev Hd Hrem H1 H2 H3 H4. specialize (IH l' r' current dev H1 H2 H3 H4 Hd).
    destruct (merge_deviations steps w med l' r' current dev) as [p c].
    rewrite Hrem. destruct steps as [|t]; [by destruct IH as [-> ->]|].
    destruct IH as (Hnc & Hnt & Hp). split; [done|]. split; [done|].
    destruct t as [|t]; [by subst p|done]. }
  destruct l as [|l].
  - rewrite (proj2 (Nat.ltb_lt r _)) by lia. cbn [Nat.ltb Nat.leb andb negb orb].
    destruct (right_devs_S r) as [Hd Hn]; [done|lia|].
    apply Hnext; [done| |lia..]. unfold merged_devs. change (left_devs 0) with (@nil Z).
    by rewrite !list_merge_nil_l, Hd.
  - destruct (left_devs_S l) as (Hd & Hll & Hn); [lia|].
    replace (S l - 1)%nat with l by lia. change (0 <? S l)%nat with true. cbn [andb].
    destruct (Nat.ltb_spec r (length w)) as [Hlt|Hge]; cbn [negb orb].
    + destruct (right_devs_S r) as [Hd' Hn']; [done..|]. rewrite SFleb_val by done.
      destruct (Z.leb_spec (val (dsub med (at_index w l))) (val (dsub (at_index w r) med))).
      * apply Hnext; [done| |lia..]. unfold merged_devs. rewrite Hd, Hd', list_merge_cons.
        by rewrite decide_True.
      * apply Hnext; [done| |lia..]. unfold merged_devs. rewrite Hd, Hd', list_merge_cons.
        by rewrite decide_False by lia.
    + apply Hnext; [done| |lia..]. unfold merged_devs.
      assert (right_devs r = []) as -> by (unfold right_devs; by rewrite drop_ge).
      by rewrite Hd, !list_merge_nil_r.
Qed.

Lemma merged_devs_sorted : StronglySorted Z.le (merged_devs split_at split_at).
Proof.
  destruct (lower_bound_spec w med number_w Hmed Ho) as [Hlt Hge]. fold split_at in Hlt, Hge.
  pose proof Ho as Hs. rewrite <- (take_drop split_at w), map_app in Hs.
  apply StronglySorted_app in Hs as (_ & H1 & H2).
  apply Sorted_StronglySorted; [apply _|]. apply Sorted_list_merge; [apply _|..];
    apply StronglySorted_Sorted.
  - unfold left_devs. clear H2 Hge. induction (take split_at w) as [|x l IH]; simpl; [constructor|].
    inversion Hlt; subst. inversion H1; subst. rewrite reverse_cons. apply StronglySorted_app.
    split_and!; [|by apply IH|by repeat constructor].
    intros a b Ha Hb. apply list_elem_of_singleton in Hb as ->.
    apply elem_of_reverse, list_elem_of_fmap in Ha as (y & -> & Hy).
    apply deviation_mono. right.
    rewrite Forall_map, Forall_forall in H5. specialize (H5 y Hy).
    rewrite Forall_forall in H3. specialize (H3 y Hy). simpl in *. lia.
  - unfold right_devs. clear H1 Hlt. induction (drop split_at w) as [|x l IH]; simpl; [constructor|].
    inversion Hge; subst. inversion H2; subst. constructor; [by apply IH|].
    rewrite Forall_map in *. eapply Forall_impl; [done|]. simpl. intros y Hy.
    apply deviation_mono. left. lia.
Qed.

Lemma remaining_content :
  merged_devs split_at split_at ≡ₚ map (fun x => deviation med (val x)) w.
Proof.
  unfold merged_devs. rewrite merge_Permutation. unfold left_devs, right_devs.
  rewrite reverse_Permutation, <- map_app. by rewrite take_drop.
Qed.

End merging.

Lemma number_abs x : number x -> number (SFabs x).
Proof. intros [Hv Hn]. by destruct x. Qed.

Lemma same_number x y : same x y -> number x -> number y.
Proof. by intros []. Qed.

Lemma number_dev med x : number med -> finite x -> number (SFabs (dsub x med)).
Proof. intros Hm Hx. apply number_abs. exact (proj1 (dev_number med Hm x Hx)). Qed.

(** Merging the deviations and sorting them afresh give the same median. *)
Lemma median_abs_deviation_same w l med med' :
  Forall finite w -> in_order w -> w <> [] -> Forall finite l -> map val w ≡ₚ map val l ->
  number med -> same med med' ->
  same (median_abs_deviation w med) (reference_median (map (fun z => SFabs (dsub z med')) l)).
Proof.
  intros Hw Ho Hne Hl Hp Hmed Hsame. pose proof (same_number _ _ Hsame Hmed) as Hmed'.
  assert (Hlen : length w = length l) by (rewrite <- (length_map val w), Hp; apply length_map).
  set (devs := map _ l). set (R := merge_sort not_above devs).
  assert (Hdevs : Forall number devs).
  { apply Forall_map. eapply Forall_impl; [exact Hl|]. intros x. by apply number_dev. }
  assert (HR : Forall number R) by (unfold R; by rewrite merge_sort_Permutation).
  assert (HlenR : length R = length w)
    by (unfold R; rewrite merge_sort_Permutation; unfold devs; by rewrite length_map).
  set (M := merged_devs w med (split_at w med) (split_at w med)).
  assert (HM : map val R = M).
  { apply (StronglySorted_unique Z.le); [by apply merge_sort_in_order|by apply merged_devs_sorted|].
    unfold M. rewrite remaining_content. unfold R. rewrite merge_sort_Permutation. unfold devs.
    rewrite map_map. transitivity (map (deviation med) (map val l)); [|by rewrite <- Hp, map_map].
    rewrite map_map. match goal with |- ?a ≡ₚ ?b => assert (a = b) as ->; [|done] end.
    apply map_ext_Forall. eapply Forall_impl; [exact Hl|].
    intros x Hx. rewrite <- (dev_abs med Hmed x Hx). apply val_same. by rewrite Hsame. }
  assert (Hpos : (0 < length w)%nat) by (destruct w; simpl; [done|lia]).
  rewrite reference_median_sorted by (unfold devs; destruct l; [by destruct w|done]). fold R.
  unfold median_abs_deviation, sorted_median. fold (split_at w med). rewrite HlenR.
  assert (Hmid : (length w / 2 < length w)%nat) by (apply Nat.div_lt; lia).
  set (mid := (length w / 2)%nat) in *.
  assert (Hsplit : (split_at w med <= length w)%nat).
  { unfold split_at. clear. induction w as [|x l IH]; simpl; [done|]. case_match; lia. }
  pose proof (merge_deviations_spec w med Hw Ho Hmed (S mid) (split_at w med) (split_at w med)
    dzero dzero ltac:(done) ltac:(done) Hsplit ltac:(lia) ltac:(done)) as Hspec.
  destruct (merge_deviations _ _ _ _ _ _ _) as [p c]. destruct Hspec as (Hc & Hcv & Hpv).
  assert (Hcs : same c (at_index R mid)).
  { apply same_val; [done|apply at_index_number; [done|lia]|]. by rewrite <- Hcv, val_at, HM. }
  destruct (Nat.eqb_spec (length w mod 2) 0) as [Hev|Hodd]; [|done].
  destruct mid as [|mid'] eqn:Emid.
  { exfalso. pose proof (Nat.div_mod_eq (length w) 2). unfold mid in Emid. lia. }
  destruct Hpv as [Hp1 Hp2]. replace (S mid' - 1)%nat with mid' by lia.
  apply dmul_proper; [done|]. apply dadd_proper; [done|].
  apply same_val; [done|apply at_index_number; [done|lia]|]. by rewrite <- Hp2, val_at, HM.
Qed.

(** ** The sliding window and the reference agree *)

Lemma exceeds_same mad_k z med med' mad mad' :
  same med med' -> same mad mad' -> exceeds mad_k z med mad = exceeds mad_k z med' mad'.
Proof. intros Hm Hd. unfold exceeds. by rewrite Hm, Hd. Qed.

Lemma height_set_flag f i l j : height (alter (set_flag f) i l) j = height l j.
Proof.
  unfold height. destruct (decide (i = j)) as [->|Hne].
  - rewrite list_lookup_alter_eq. by destruct (l !! j).
  - by rewrite list_lookup_alter_ne.
Qed.

Lemma slice_heights samples kept a b : (b <= length kept)%nat ->
  map (fun w => height samples (nth w kept O)) (seq a (b - a)) = slice a b (map (height samples) kept).
Proof.
  intros Hb. remember (b - a)%nat as d eqn:Ed. revert a Ed.
  induction d as [|d IH]; intros a Ed; simpl.
  - unfold slice. by rewrite <- Ed.
  - rewrite slice_cons by (rewrite ?length_map; lia). f_equal; [|apply IH; lia].
    unfold at_index. rewrite <- (map_nth (height samples)).
    apply nth_indep. rewrite length_map. lia.
Qed.

Lemma kept_indices_spec i l k : k ∈ kept_indices i l ->
  (i <= k)%nat /\ exists s, l !! (k - i)%nat = Some s /\ flag s = kKept.
Proof.
  revert i. induction l as [|s l IH]; intros i Hk; simpl in Hk; [by apply not_elem_of_nil in Hk|].
  assert (Hrest : k ∈ kept_indices (S i) l -> (i <= k)%nat /\
            exists s', (s :: l) !! (k - i)%nat = Some s' /\ flag s' = kKept).
  { intros H. apply IH in H as (Hi & s' & Hs' & Hf). split; [lia|]. exists s'.
    replace (k - i)%nat with (S (k - S i)) by lia. done. }
  unfold is_kept in Hk. case_bool_decide as Hs; [|by apply Hrest].
  apply elem_of_cons in Hk as [->|Hk]; [|by apply Hrest].
  split; [done|]. exists s. by rewrite Nat.sub_diag.
Qed.

(** The kept heights are finite numbers. *)
Definition heights_ok (r : FilterResult) : Prop :=
  Forall (fun s => flag s = kKept -> finite (z_m s)) (samples r).

Lemma kept_heights_finite r : heights_ok r ->
  Forall finite (map (height (samples r)) (kept_indices 0 (samples r))).
Proof.
  intros Hr. apply Forall_map, Forall_forall. intros i Hi.
  apply kept_indices_spec in Hi as (_ & s & Hs & Hf). rewrite Nat.sub_0_r in Hs.
  unfold height. rewrite Hs. unfold heights_ok in Hr. rewrite Forall_lookup in Hr. by apply (Hr i).
Qed.

Section agreement.
Context (input : list FilteredSample) (mad_k : double) (radius : nat) (kept : list nat).
Let kept_z := map (height input) kept.
Context (Hradius : (1 <= radius)%nat) (Hz : Forall finite kept_z).

Definition lo_of (k : nat) : nat := if (radius <? k)%nat then (k - radius)%nat else O.
Definition end_of (k : nat) : nat := Nat.min (length kept) (k + radius + 1).

(** The two loops after [k] rounds. *)
Record in_step (k : nat) (st : Sliding) (out : list FilteredSample) : Prop := mkInStep {
  step_out : out_samples st = out;
  step_heights : forall i, height out i = height input i;
  step_lo : window_lo st = match k with O => O | S j => lo_of j end;
  step_end : window_end st = match k with O => O | S j => end_of j end;
  step_window : window_of kept_z (window_lo st) (window_end st) (window st)
}.

Lemma one_step k st out : in_step k st out -> (k < length kept)%nat ->
  in_step (S k) (slide mad_k radius kept kept_z st k) (reference_step mad_k radius kept out k).
Proof.
  intros [Hout Hh Hlo Hend Hw] Hk. assert (Hlen : length kept_z = length kept) by apply length_map.
  assert (Hr : (window_lo st <= lo_of k /\ lo_of k <= window_end st \/ lo_of k = 0 /\ window_lo st = 0)%nat /\
               (window_end st <= end_of k <= length kept)%nat /\ (lo_of k < end_of k)%nat).
  { rewrite Hlo, Hend. unfold lo_of, end_of. destruct k as [|k];
      repeat match goal with |- context [(?a <? ?b)%nat] => destruct (Nat.ltb_spec a b) end; lia. }
  destruct Hr as (Hr1 & Hr2 & Hr3).
  unfold slide. fold (lo_of k) (end_of k).
  set (w1 := foldl _ (window st) _). set (w := foldl _ w1 _).
  assert (Hw1 : window_of kept_z (lo_of k) (window_end st) w1).
  { replace (lo_of k) with (window_lo st + (lo_of k - window_lo st))%nat by lia.
    apply window_leaves; [done..|]. destruct Hw. lia. }
  assert (Hww : window_of kept_z (lo_of k) (end_of k) w).
  { replace (end_of k) with (window_end st + (end_of k - window_end st))%nat by lia.
    apply window_enters; [done..|lia]. }
  assert (Hsi : S (Nat.min (length kept - 1) (k + radius)) = end_of k) by (unfold end_of; lia).
  assert (Href : map (fun w => height out (nth w kept O))
            (seq (lo_of k) (S (Nat.min (length kept - 1) (k + radius)) - lo_of k)) =
          slice (lo_of k) (end_of k) kept_z).
  { rewrite Hsi. unfold kept_z. rewrite <- slice_heights by lia. apply map_ext. intros j. apply Hh. }
  destruct Hww as [Hwr Hwf Hwo Hwc]. set (s := slice (lo_of k) (end_of k) kept_z) in *.
  assert (Hsf : Forall finite s) by by apply Forall_take, Forall_drop.
  assert (Hsl : length s = (end_of k - lo_of k)%nat)
    by (unfold s, slice; rewrite length_take, length_drop; lia).
  assert (Hlw : length w = length s) by (rewrite <- (length_map val w), Hwc; apply length_map).
  assert (Hwne : w <> []) by (destruct w; simpl in *; [lia|done]).
  assert (Hsne : s <> []) by (destruct s; simpl in *; [lia|done]).
  assert (Hnum : forall l, Forall finite l -> Forall number l)
    by (intros l Hl; eapply Forall_impl; [exact Hl|apply finite_number]).
  assert (Hmed : same (sorted_median w) (reference_median s)).
  { rewrite reference_median_sorted by done. apply sorted_median_same; [by apply Hnum|..|done].
    - rewrite merge_sort_Permutation. by apply Hnum.
    - apply in_order_unique; [done|apply merge_sort_in_order; by apply Hnum|].
      by rewrite merge_sort_Permutation. }
  pose proof (median_abs_deviation_same w s _ _ Hwf Hwo Hwne Hsf Hwc
    (sorted_median_number w Hwf Hwne) Hmed) as Hmad.
  unfold reference_step. fold (lo_of k). rewrite Href.
  assert (Hzk : at_index kept_z k = height out (nth k kept O)).
  { rewrite Hh. unfold at_index, kept_z. rewrite <- (map_nth (height input)).
    apply nth_indep. by rewrite length_map. }
  rewrite Hzk, (exceeds_same _ _ _ _ _ _ Hmed Hmad), Hout.
  constructor; cbn [out_samples window window_lo window_end].
  - done.
  - intros i. destruct (exceeds _ _ _ _); [by rewrite height_set_flag|done].
  - lia.
  - lia.
  - replace (Nat.max _ (lo_of k)) with (lo_of k) by lia.
    replace (Nat.max _ (end_of k)) with (end_of k) by lia. done.
Qed.

Lemma all_steps k : (k <= length kept)%nat ->
  in_step k (foldl (slide mad_k radius kept kept_z) (mkSliding input [] 0 0) (seq 0 k))
    (foldl (reference_step mad_k radius kept) input (seq 0 k)).
Proof.
  induction k as [|k IH]; intros Hk.
  - constructor; try done. constructor; simpl; [lia|done|constructor|done].
  - rewrite seq_S, !foldl_app. apply one_step; [apply IH; lia|lia].
Qed.

End agreement.

(** What the edge filter keeps is a height of the line, so its result is ready for the
    outlier filter when every height that was received is finite. *)
Lemma edge_exclusion_heights line edge_exclusion_mm :
  Forall (fun z => isnan z = false -> finite z) (line_z_m line) ->
  heights_ok (apply_edge_exclusion line edge_exclusion_mm).
Proof.
  intros Hz. unfold apply_edge_exclusion. destruct (line_s_m line) as [|x l]; [constructor|].
  unfold heights_ok. cbn [samples with_counts]. set (lo := dadd _ _). set (hi := dsub _ _). clearbody lo hi.
  generalize (x :: l). intros ss. revert ss. induction Hz as [|z zs Hz _ IH].
  - intros [|s ss]; apply Forall_nil_2.
  - intros [|s ss]; [apply Forall_nil_2|]. apply Forall_cons_2; [|apply IH].
    cbn. intros Hk. apply Hz. by destruct z.
Qed.

(** [C9] The outlier filter with its sliding sorted window and merged deviations gives
    exactly the result of the straightforward version it replaced, which sorts every
    window and its deviations afresh: every flag, the removed count and the removed
    fraction, for every line of finite heights, every threshold factor and every
    window radius, infinite intermediate sums and both zeros included. *)
Theorem outlier_rejection_equivalence input mad_k window_radius_samples :
  heights_ok input ->
  apply_outlier_rejection input mad_k window_radius_samples =
  reference_outlier_rejection input mad_k window_radius_samples.
Proof.
  intros Hok. unfold apply_outlier_rejection, reference_outlier_rejection.
  destruct (_ <? 2)%nat; [done|]. do 2 f_equal.
  apply (all_steps (samples input) mad_k _ (kept_indices 0 (samples input))); [lia| |done].
  by apply kept_heights_finite.
Qed.

(** Ties, both zeros, a gap and a spike. *)
Definition sample_line : FilterResult :=
  let s z f := mkSample dzero z f in
  let one := double_of_Z 1 in
  let eps := double_of_ratio false 1 1000 in
  mkFilter dzero [s dzero kKept; s (S754_zero true) kKept; s eps kKept; s S754_nan kDropped;
                  s one kKept; s (SFopp eps) kKept; s eps kKept; s eps kKept] 0 dzero.

Lemma outlier_rejection_equivalence_witness :
  apply_outlier_rejection sample_line (double_of_Z 6) 2 =
    reference_outlier_rejection sample_line (double_of_Z 6) 2 /\
  map flag (samples (apply_outlier_rejection sample_line (double_of_Z 6) 3)) =
    [kKept; kKept; kKept; kDropped; kOutlier; kKept; kKept; kKept].
Proof.
  split; [|vm_compute; reflexivity]. apply outlier_rejection_equivalence.
  unfold heights_ok. simpl. repeat constructor; simpl; intros; done.
Defined.
