(* ===== verification/Secs2Item.v ===== *)
(** * SECS-II data items

    include/ssim/secsgem/secs2/item.hpp and src/secsgem/secs2/item.cpp: the
    format codes, the item value type with its constructors and accessors, and
    the properties of an item the codec and the parsers rely on. *)

From S2P Require Import Prelude.

#[local] Set Warnings "-register-all".

(** ** Formats *)

(** [enum class Format]; [format_code] gives each constructor's value. *)
Inductive Format :=
| kList | kBinary | kBoolean | kAscii | kJis8
| kI8 | kI1 | kI2 | kI4 | kF8 | kF4 | kU8 | kU1 | kU2 | kU4.

#[global] Instance Format_eq_dec : EqDecision Format.
Proof. solve_decision. Defined.

Definition format_code (f : Format) : Z :=
  match f with
  | kList => 0x00 | kBinary => 0x08 | kBoolean => 0x09 | kAscii => 0x10 | kJis8 => 0x11
  | kI8 => 0x18 | kI1 => 0x19 | kI2 => 0x1A | kI4 => 0x1C
  | kF8 => 0x20 | kF4 => 0x24
  | kU8 => 0x28 | kU1 => 0x29 | kU2 => 0x2A | kU4 => 0x2C
  end.

Definition format_to_string (f : Format) : string :=
  match f with
  | kList => "L" | kBinary => "B" | kBoolean => "BOOLEAN" | kAscii => "A" | kJis8 => "J"
  | kI8 => "I8" | kI1 => "I1" | kI2 => "I2" | kI4 => "I4"
  | kF8 => "F8" | kF4 => "F4"
  | kU8 => "U8" | kU1 => "U1" | kU2 => "U2" | kU4 => "U4"
  end%string.

Definition element_size (f : Format) : nat :=
  match f with
  | kList => 0
  | kBinary | kBoolean | kAscii | kJis8 | kI1 | kU1 => 1
  | kI2 | kU2 => 2
  | kI4 | kU4 | kF4 => 4
  | kI8 | kU8 | kF8 => 8
  end%nat.

Definition is_supported (f : Format) : bool := negb (bool_decide (f = kJis8)).

(** ** Items

    One constructor per factory function of [class Item]: the constructor
    [Item(Format, Storage)] is private, so a format and its storage always go
    together. An F4 or F8 element is its IEEE bit pattern, the only view of it
    the codec takes ([memcpy] into an integer of equal size). *)
Inductive Item :=
| list_ (items : list Item)
| binary (values : list Z)
| boolean (values : list Z)
| ascii_ (text : string)
| i1 (values : list Z)
| i2 (values : list Z)
| i4 (values : list Z)
| i8 (values : list Z)
| u1 (values : list Z)
| u2 (values : list Z)
| u4 (values : list Z)
| u8 (values : list Z)
| f4 (values : list Z)
| f8 (values : list Z).

(** The induction principle that reaches the entries of a list. *)
Section item_ind.
  Variable P : Item -> Prop.
  Hypothesis Hlist : forall items, Forall P items -> P (list_ items).
  Hypothesis Hother : forall it, (forall items, it <> list_ items) -> P it.

Fixpoint item_ind' (it : Item) : P it.
Proof.
  destruct it as [items| | | | | | | | | | | | |]; try (apply Hother; congruence).
  apply Hlist. induction items; constructor; auto.
Defined.
End item_ind.

Fixpoint item_eq_dec (x y : Item) : {x = y} + {x <> y}.
Proof.
  destruct x as [a|a|a|a|a|a|a|a|a|a|a|a|a|a], y as [b|b|b|b|b|b|b|b|b|b|b|b|b|b];
    try (right; discriminate);
    first [destruct (List.list_eq_dec item_eq_dec a b) | destruct (decide (a = b))];
    (left; congruence) || (right; congruence).
Defined.

#[global] Instance Item_eq_dec : EqDecision Item := item_eq_dec.

(** [Item()] is an empty list. *)
#[global] Instance Item_inhabited : Inhabited Item := populate (list_ []).

Definition format (it : Item) : Format :=
  match it with
  | list_ _ => kList | binary _ => kBinary | boolean _ => kBoolean | ascii_ _ => kAscii
  | i1 _ => kI1 | i2 _ => kI2 | i4 _ => kI4 | i8 _ => kI8
  | u1 _ => kU1 | u2 _ => kU2 | u4 _ => kU4 | u8 _ => kU8
  | f4 _ => kF4 | f8 _ => kF8
  end.

Definition is_list (it : Item) : bool := bool_decide (format it = kList).

(** [Item::count]: entries, array elements or characters. *)
Definition count (it : Item) : nat :=
  match it with
  | list_ l => length l
  | ascii_ s => String.length s
  | binary v | boolean v | i1 v | i2 v | i4 v | i8 v
  | u1 v | u2 v | u4 v | u8 v | f4 v | f8 v => length v
  end.

(** The accessors throw on the wrong alternative ([std::get]); the model
    returns [None] there. *)
Definition as_list (it : Item) : option (list Item) :=
  match it with list_ l => Some l | _ => None end.

Definition as_ascii (it : Item) : option string :=
  match it with ascii_ s => Some s | _ => None end.

Definition as_array (it : Item) : option (list Z) :=
  match it with
  | binary v | boolean v | i1 v | i2 v | i4 v | i8 v
  | u1 v | u2 v | u4 v | u8 v | f4 v | f8 v => Some v
  | list_ _ | ascii_ _ => None
  end.

(** ** Well-formed items

    What the C++ types guarantee: every element fits its element type. *)
Fixpoint item_ok (it : Item) : Prop :=
  match it with
  | list_ l => fold_right (fun i acc => item_ok i /\ acc) True l
  | binary v | boolean v | u1 v => Forall (uint_ok 8) v
  | ascii_ _ => True
  | i1 v => Forall (sint_ok 8) v
  | i2 v => Forall (sint_ok 16) v
  | i4 v => Forall (sint_ok 32) v
  | i8 v => Forall (sint_ok 64) v
  | u2 v => Forall (uint_ok 16) v
  | u4 v | f4 v => Forall (uint_ok 32) v
  | u8 v | f8 v => Forall (uint_ok 64) v
  end.

Lemma item_ok_list l : item_ok (list_ l) <-> Forall item_ok l.
Proof.
  simpl. induction l as [|i l IH]; simpl; [by split; constructor|].
  rewrite Forall_cons. by rewrite IH.
Qed.

#[global] Instance item_ok_dec it : Decision (item_ok it).
Proof.
  revert it. fix F 1. intros []; try (simpl; apply _).
  induction items as [|i l IH]; [by left|]. simpl.
  destruct (F i) as [Hi|Hi]; [|right; tauto]. destruct IH as [Hl|Hl]; [left|right]; simpl in *; tauto.
Defined.

(** How many lists are nested inside one another: 0 for an array. *)
Fixpoint depth (it : Item) : nat :=
  match it with
  | list_ l => S (fold_right (fun i acc => Nat.max (depth i) acc) 0%nat l)
  | _ => 0%nat
  end.

Lemma depth_list l n : (depth (list_ l) <= S n)%nat <-> Forall (fun i => (depth i <= n)%nat) l.
Proof.
  simpl. induction l as [|i l IH]; simpl; [by split; [constructor|lia]|].
  rewrite Forall_cons, <- IH. lia.
Qed.

(** The number of bytes the item's data takes on the wire, after its header. *)
Definition data_bytes (it : Item) : nat := count it * element_size (format it).

(** BOOLEAN elements are sent as 0 or 1; every other item is unchanged. *)
Fixpoint normalize (it : Item) : Item :=
  match it with
  | list_ l => list_ (map normalize l)
  | boolean v => boolean (map (fun b => if b =? 0 then 0 else 1) v)
  | _ => it
  end.

Lemma element_size_pos it : is_list it = false -> (0 < element_size (format it))%nat.
Proof. destruct it; simpl; try done; lia. Qed.

Lemma format_code_range f : 0 <= format_code f < 64.
Proof. destruct f; simpl; lia. Qed.

Lemma is_supported_item it : is_supported (format it) = true.
Proof. by destruct it. Qed.

Lemma is_list_false it : is_list it = false <-> forall l, it <> list_ l.
Proof. destruct it; unfold is_list; simpl; split; try done. intros H. by destruct (H items). Qed.

#[export] Hint Resolve element_size_pos format_code_range : ssim.
