(* ===== verification/Secs2Codec.v ===== *)
(** * The SECS-II codec

    include/ssim/secsgem/secs2/codec.hpp and src/secsgem/secs2/codec.cpp: the
    encoder, the bounds-checked reader and the decoder, with the round trip,
    the decoder's safety on arbitrary bytes, and the exact conditions under
    which encoding fails. *)

From S2P Require Import Prelude Secs2Item.

(** ** Reason codes and limits (codec.hpp) *)

Definition kErrTruncated : Z := 300.
Definition kErrBadLengthBytes : Z := 301.
Definition kErrUnsupportedFormat : Z := 302.
Definition kErrBadLength : Z := 303.
Definition kErrListCountTooLarge : Z := 304.
Definition kErrTooDeep : Z := 305.
Definition kErrTrailingBytes : Z := 306.
Definition kErrTooLong : Z := 307.
Definition kMaxNestingDepth : nat := 32.
Definition kMaxItemLength : Z := 0xFFFFFF.

(** ** Big-endian helpers *)

(** [load_be<UInt>] for a [UInt] of [n] bytes: shift in one byte at a time, the
    accumulator kept at the width of [UInt]. *)
Definition load_be (n : nat) (p : list Z) : Z :=
  foldl (fun v b => wrap (8 * Z.of_nat n) (Z.lor (Z.shiftl v 8) b)) 0 (take n p).

(** [store_be<UInt>]: the bytes it appends to [out]. *)
Fixpoint store_be (n : nat) (v : Z) : list Z :=
  match n with
  | O => []
  | S i => Z.land (Z.shiftr v (8 * Z.of_nat i)) 255 :: store_be i v
  end.

(** The signed element types; the others are unsigned or a bit pattern. *)
Definition elem_signed (f : Format) : bool :=
  match f with kI1 | kI2 | kI4 | kI8 => true | _ => false end.

Definition elem_bits (f : Format) : Z := 8 * Z.of_nat (element_size f).

(** [element_from_bytes<T>]: unsigned twin, then the two's complement cast. *)
Definition element_from_bytes (f : Format) (p : list Z) : Z :=
  let v := load_be (element_size f) p in
  if elem_signed f && (2 ^ (elem_bits f - 1) <=? v) then v - 2 ^ elem_bits f else v.

(** [element_to_bytes<T>]: [static_cast<make_unsigned_t<T>>], or the bit pattern. *)
Definition element_to_bytes (f : Format) (v : Z) : list Z :=
  store_be (element_size f) (wrap (elem_bits f) v).

(** [std::string(p, p + byte_len)] and the bytes of a string. *)
Definition byte_to_char (b : Z) : ascii := ascii_of_N (Z.to_N b).
Definition char_to_byte (c : ascii) : Z := Z.of_N (N_of_ascii c).
Definition string_of_bytes (p : list Z) : string := String.string_of_list_ascii (map byte_to_char p).
Definition bytes_of_string (s : string) : list Z := map char_to_byte (String.list_ascii_of_string s).

(** ** The bounds-checked reader

    [class Reader]: the bytes from the current position to the end, and the
    position. *)
Record Reader := mkReader { rest : list Z; position : nat }.

Definition remaining (r : Reader) : Z := Z.of_nat (length (rest r)).

(** [Reader::take]: the next [n] bytes and the advanced reader, or nothing when
    fewer than [n] remain. *)
Definition reader_take (n : Z) (r : Reader) : option (list Z * Reader) :=
  if remaining r <? n then None
  else Some (take (Z.to_nat n) (rest r),
             mkReader (drop (Z.to_nat n) (rest r)) (position r + Z.to_nat n)).

Definition parse_format (c : Z) : Result Format :=
  match c with
  | 0x00 => Ok kList
  | 0x08 => Ok kBinary
  | 0x09 => Ok kBoolean
  | 0x10 => Ok kAscii
  | 0x18 => Ok kI8
  | 0x19 => Ok kI1
  | 0x1A => Ok kI2
  | 0x1C => Ok kI4
  | 0x20 => Ok kF8
  | 0x24 => Ok kF4
  | 0x28 => Ok kU8
  | 0x29 => Ok kU1
  | 0x2A => Ok kU2
  | 0x2C => Ok kU4
  | _ =>
      if c =? 0x11 then Err (mkError kErrUnsupportedFormat "JIS-8 items are not supported")
      else Err (mkError kErrUnsupportedFormat "unknown SECS-II format code")
  end.

(** ** Decoding *)

(** The [collect] lambda: [n] elements, each at the next multiple of its size. *)
Fixpoint collect (f : Format) (n : nat) (p : list Z) : list Z :=
  match n with
  | O => []
  | S n' => element_from_bytes f p :: collect f n' (drop (element_size f) p)
  end.

Definition build_array (f : Format) (p : list Z) : Item :=
  let n := (length p / element_size f)%nat in
  match f with
  | kBinary => binary p
  | kBoolean => boolean p
  | kAscii => ascii_ (string_of_bytes p)
  | kU1 => u1 p
  | kI1 => i1 (collect f n p)
  | kI2 => i2 (collect f n p)
  | kI4 => i4 (collect f n p)
  | kI8 => i8 (collect f n p)
  | kU2 => u2 (collect f n p)
  | kU4 => u4 (collect f n p)
  | kU8 => u8 (collect f n p)
  | kF4 => f4 (collect f n p)
  | kF8 => f8 (collect f n p)
  | kList | kJis8 => list_ []
  end.

(** The first half of [decode_at_depth]: format byte, format code and length. *)
Definition decode_header (r : Reader) : Result (Format * Z * Reader) :=
  match reader_take 1 r with
  | None => Err (mkError kErrTruncated "no item header")
  | Some (header, r1) =>
      let format_byte := nth 0 header 0 in
      let length_bytes := Z.land format_byte 3 in
      if length_bytes =? 0 then
        Err (mkError kErrBadLengthBytes "item header has zero length bytes")
      else
        let? f := parse_format (Z.shiftr format_byte 2) in
        match reader_take length_bytes r1 with
        | None => Err (mkError kErrTruncated "item length is cut off")
        | Some (length_field, r2) =>
            Ok (f, foldl (fun l b => Z.lor (Z.shiftl l 8) b) 0 length_field, r2)
        end
  end.

(** The child loop of a list: [n] items, stopping at the first error. *)
Fixpoint decode_items (decode : Reader -> Result (Item * Reader)) (n : nat) (r : Reader)
    : Result (list Item * Reader) :=
  match n with
  | O => Ok ([], r)
  | S n' =>
      let? ' (child, r1) := decode r in
      let? ' (items, r2) := decode_items decode n' r1 in
      Ok (child :: items, r2)
  end.

(** [decode_at_depth(reader, depth)] with [room = kMaxNestingDepth - depth]: the
    test [depth >= kMaxNestingDepth] is [room = 0]. *)
Fixpoint decode_at_depth (room : nat) (r : Reader) : Result (Item * Reader) :=
  let? ' (f, len, r2) := decode_header r in
  match f with
  | kList =>
      match room with
      | O => Err (mkError kErrTooDeep "list nesting deeper than 32")
      | S room' =>
          if remaining r2 / 2 <? len then
            Err (mkError kErrListCountTooLarge "list count exceeds the bytes that remain")
          else
            let? ' (items, r3) := decode_items (decode_at_depth room') (Z.to_nat len) r2 in
            Ok (list_ items, r3)
      end
  | _ =>
      if remaining r2 <? len then Err (mkError kErrTruncated "item data is cut off")
      else if negb (len mod Z.of_nat (element_size f) =? 0) then
        Err (mkError kErrBadLength "item length is not a multiple of its element size")
      else
        match reader_take len r2 with
        | Some (data, r3) => Ok (build_array f data, r3)
        | None => Ok (build_array f [], r2)  (* not reached: len <= remaining *)
        end
  end.

(** [decode_item]: the first item and how many bytes it used. *)
Definition decode_item (bytes : list Z) : Result (Item * nat) :=
  let? ' (item, r) := decode_at_depth kMaxNestingDepth (mkReader bytes 0) in
  Ok (item, position r).

(** [decode_body]: exactly one item, no bytes left over. *)
Definition decode_body (bytes : list Z) : Result Item :=
  let? ' (item, consumed) := decode_item bytes in
  if bool_decide (consumed = length bytes) then Ok item
  else Err (mkError kErrTrailingBytes "bytes left after the item").

(** ** Encoding *)

(** [encode_header]: the bytes it appends. *)
Definition encode_header (f : Format) (len : Z) : Result (list Z) :=
  if kMaxItemLength <? len then
    Err (mkError kErrTooLong "item too long for three length bytes")
  else
    let length_bytes := if 0xFFFF <? len then 3%nat else if 0xFF <? len then 2%nat else 1%nat in
    Ok (wrap 8 (Z.lor (Z.shiftl (format_code f) 2) (Z.of_nat length_bytes))
          :: store_be length_bytes len).

(** The data part the [switch] of [encode_at_depth] appends. *)
Definition encode_data (it : Item) : list Z :=
  match it with
  | ascii_ s => bytes_of_string s
  | binary v | u1 v => v
  | boolean v => map (fun b => if b =? 0 then 0 else 1) v
  | i1 v | i2 v | i4 v | i8 v | u2 v | u4 v | u8 v | f4 v | f8 v =>
      concat (map (element_to_bytes (format it)) v)
  | list_ _ => []
  end.

(** [encode_at_depth]: the bytes it appends to [out]. *)
Fixpoint encode_at_depth (it : Item) (d : nat) : Result (list Z) :=
  match it with
  | list_ items =>
      if (kMaxNestingDepth <=? d)%nat then
        Err (mkError kErrTooDeep "list nesting deeper than 32")
      else
        let? header := encode_header kList (Z.of_nat (length items)) in
        let? body :=
          (fix go (l : list Item) : Result (list Z) :=
             match l with
             | [] => Ok []
             | child :: l' =>
                 let? b := encode_at_depth child (S d) in
                 let? bs := go l' in
                 Ok (b ++ bs)
             end) items in
        Ok (header ++ body)
  | _ =>
      if negb (is_supported (format it)) then
        Err (mkError kErrUnsupportedFormat "cannot encode this format")
      else
        let? header := encode_header (format it)
                         (Z.of_nat (count it) * Z.of_nat (element_size (format it))) in
        Ok (header ++ encode_data it)
  end.

Definition encode (it : Item) : Result (list Z) := encode_at_depth it 0.

(** The children loop of [encode_at_depth], by name. *)
Fixpoint encode_items (l : list Item) (d : nat) : Result (list Z) :=
  match l with
  | [] => Ok []
  | child :: l' =>
      let? b := encode_at_depth child d in
      let? bs := encode_items l' d in
      Ok (b ++ bs)
  end.

Lemma encode_at_depth_list items d :
  encode_at_depth (list_ items) d =
    if (kMaxNestingDepth <=? d)%nat then Err (mkError kErrTooDeep "list nesting deeper than 32")
    else
      let? header := encode_header kList (Z.of_nat (length items)) in
      let? body := encode_items items (S d) in
      Ok (header ++ body).
Proof.
  simpl. case_match; [done|]. destruct (encode_header _ _); [|done]. simpl.
  f_equal. induction items as [|c l IH]; simpl; [done|]. by rewrite IH.
Qed.

Lemma encode_at_depth_array it d :
  is_list it = false ->
  encode_at_depth it d =
    let? header := encode_header (format it)
                     (Z.of_nat (count it) * Z.of_nat (element_size (format it))) in
    Ok (header ++ encode_data it).
Proof. by destruct it. Qed.

#[global] Arguments encode_at_depth : simpl never.

Lemma decode_at_depth_array room r f len r2 :
  decode_header r = Ok (f, len, r2) -> f <> kList ->
  decode_at_depth room r =
    if remaining r2 <? len then Err (mkError kErrTruncated "item data is cut off")
    else if negb (len mod Z.of_nat (element_size f) =? 0) then
      Err (mkError kErrBadLength "item length is not a multiple of its element size")
    else
      match reader_take len r2 with
      | Some (data, r3) => Ok (build_array f data, r3)
      | None => Ok (build_array f [], r2)
      end.
Proof. intros H Hf. destruct room; simpl; rewrite H; simpl; by destruct f. Qed.

Lemma decode_at_depth_list room r len r2 :
  decode_header r = Ok (kList, len, r2) ->
  decode_at_depth room r =
    match room with
    | O => Err (mkError kErrTooDeep "list nesting deeper than 32")
    | S room' =>
        if remaining r2 / 2 <? len then
          Err (mkError kErrListCountTooLarge "list count exceeds the bytes that remain")
        else
          let? ' (items, r3) := decode_items (decode_at_depth room') (Z.to_nat len) r2 in
          Ok (list_ items, r3)
    end.
Proof. intros H. destruct room; simpl; by rewrite H. Qed.

Lemma decode_at_depth_header room r it r' :
  decode_at_depth room r = Ok (it, r') -> exists f len r2, decode_header r = Ok (f, len, r2).
Proof.
  destruct (decode_header r) as [[[f len] r2]|] eqn:E; [by eauto|].
  destruct room; simpl; by rewrite E.
Qed.

#[global] Arguments decode_at_depth : simpl never.

(** ** Elements *)

Lemma store_be_spec n v : store_be n v = be_bytes n v.
Proof. induction n; simpl; [done|]. by rewrite shiftr_land_255, IHn. Qed.

(** A fold that shifts bytes in, from any accumulator. *)
Lemma shift_in_spec p acc :
  bytes_ok p ->
  foldl (fun v b => Z.lor (Z.shiftl v 8) b) acc p = acc * 256 ^ Z.of_nat (length p) + be_value p.
Proof.
  unfold be_value. induction p as [|b p IH] using rev_ind; intros Hok; [simpl; lia|].
  apply Forall_app in Hok as [Hp [Hb _]%Forall_cons_1].
  rewrite !foldl_app, IH, length_app, Nat.add_comm by done. simpl foldl.
  rewrite lor_shiftl_add by int_lia. change (length [b] + length p)%nat with (S (length p)).
  rewrite Nat2Z.inj_succ, Z.pow_succ_r by lia. change (2 ^ 8) with 256. lia.
Qed.

Lemma load_be_spec n p :
  bytes_ok p -> (n <= length p)%nat -> load_be n p = be_value (take n p).
Proof.
  intros Hok Hn. unfold load_be.
  assert (Htl : length (take n p) = n) by (rewrite length_take; lia).
  assert (Hbk : bytes_ok (take n p)) by (by apply Forall_take).
  revert Htl Hbk. generalize (take n p) as q. clear p Hok Hn. intros q Hq Hok.
  enough (H : forall k, (k <= n)%nat ->
    foldl (fun v b => wrap (8 * Z.of_nat n) (Z.lor (Z.shiftl v 8) b)) 0 (take k q)
      = be_value (take k q)).
  { specialize (H n). rewrite take_ge in H by lia. auto. }
  induction k as [|k IH]; intros Hk; [done|].
  destruct (lookup_lt_is_Some_2 q k) as [b Hb]; [lia|].
  rewrite (take_S_r _ _ _ Hb), foldl_app, IH, be_value_snoc by lia. simpl.
  pose proof (be_value_range (take k q) (Forall_take _ _ _ Hok)) as Hr.
  pose proof (Forall_lookup_1 _ _ _ _ Hok Hb) as Hbb.
  rewrite lor_shiftl_add by int_lia. apply wrap_id. unfold uint_ok in *.
  rewrite length_take in Hr. replace (k `min` length q)%nat with k in Hr by lia.
  rewrite Z.pow_mul_r by lia. change (2 ^ 8) with 256 in *.
  split; [lia|].
  apply Z.lt_le_trans with (256 ^ Z.of_nat (S k)).
  - rewrite Nat2Z.inj_succ, Z.pow_succ_r by lia. lia.
  - apply Z.pow_le_mono_r; lia.
Qed.

(** The range of an element of format [f]. *)
Definition elem_ok (f : Format) (v : Z) : Prop :=
  if elem_signed f then sint_ok (elem_bits f) v else uint_ok (elem_bits f) v.

Lemma element_to_bytes_length f v : length (element_to_bytes f v) = element_size f.
Proof. unfold element_to_bytes. by rewrite store_be_spec, be_bytes_length. Qed.

Lemma element_to_bytes_ok f v : bytes_ok (element_to_bytes f v).
Proof. unfold element_to_bytes. rewrite store_be_spec. apply be_bytes_ok. Qed.

Lemma elem_bits_pow f : 256 ^ Z.of_nat (element_size f) = 2 ^ elem_bits f.
Proof. unfold elem_bits. by rewrite Z.pow_mul_r by lia. Qed.

Lemma elem_pow_half f : f <> kList -> 2 ^ elem_bits f = 2 * 2 ^ (elem_bits f - 1).
Proof. intros. rewrite <- Z.pow_succ_r by (destruct f; done). f_equal. lia. Qed.

Lemma element_roundtrip f v tl :
  f <> kList -> elem_ok f v -> bytes_ok tl ->
  element_from_bytes f (element_to_bytes f v ++ tl) = v.
Proof.
  intros Hf Hv Htl. unfold element_from_bytes.
  rewrite load_be_spec, take_app_length'.
  2: by rewrite element_to_bytes_length.
  2: by apply Forall_app; split; [apply element_to_bytes_ok|].
  2: rewrite length_app, element_to_bytes_length; lia.
  unfold element_to_bytes. rewrite store_be_spec, be_value_bytes, elem_bits_pow.
  pose proof (elem_pow_half f Hf) as Hhalf.
  pose proof (Z.pow_pos_nonneg 2 (elem_bits f - 1) ltac:(lia) ltac:(destruct f; done)) as Hpos.
  unfold wrap. rewrite Z.mod_mod by lia. unfold elem_ok in Hv.
  destruct (elem_signed f); simpl; unfold sint_ok, uint_ok in Hv.
  - destruct (Z.lt_ge_cases v 0) as [Hneg|Hneg].
    + rewrite <- (Z.mod_add v 1), Z.mod_small by lia.
      case_match eqn:E; [|apply Z.leb_gt in E]; lia.
    + rewrite Z.mod_small by lia.
      case_match eqn:E; [apply Z.leb_le in E|]; lia.
  - by rewrite Z.mod_small.
Qed.

Lemma collect_roundtrip f v tl :
  f <> kList -> Forall (elem_ok f) v -> bytes_ok tl ->
  collect f (length v) (concat (map (element_to_bytes f) v) ++ tl) = v.
Proof.
  intros Hf Hv Htl. induction Hv as [|x v Hx Hv IH]; simpl; [done|].
  rewrite <- app_assoc, element_roundtrip, drop_app_length', IH;
    try done; [by rewrite element_to_bytes_length|].
  apply Forall_app. split; [|done]. apply Forall_concat, Forall_map, Forall_forall.
  intros. apply element_to_bytes_ok.
Qed.

Lemma concat_elements_length f v :
  length (concat (map (element_to_bytes f) v)) = (length v * element_size f)%nat.
Proof.
  induction v as [|x v IH]; simpl; [done|].
  by rewrite length_app, element_to_bytes_length, IH.
Qed.

(** ** Strings as bytes *)

Lemma byte_char_byte b : byte_ok b -> char_to_byte (byte_to_char b) = b.
Proof.
  intros Hb. unfold char_to_byte, byte_to_char.
  rewrite N_ascii_embedding by int_lia. int_lia.
Qed.

Lemma char_byte_char c : byte_to_char (char_to_byte c) = c.
Proof. unfold char_to_byte, byte_to_char. by rewrite N2Z.id, ascii_N_embedding. Qed.

Lemma char_to_byte_ok c : byte_ok (char_to_byte c).
Proof. unfold char_to_byte. pose proof (N_ascii_bounded c). int_lia. Qed.

Lemma string_bytes_string s : string_of_bytes (bytes_of_string s) = s.
Proof.
  unfold string_of_bytes, bytes_of_string. rewrite map_map.
  rewrite (map_ext _ id), map_id by (intros; apply char_byte_char).
  apply String.string_of_list_ascii_of_string.
Qed.

Lemma bytes_string_bytes p : bytes_ok p -> bytes_of_string (string_of_bytes p) = p.
Proof.
  intros Hp. unfold string_of_bytes, bytes_of_string.
  rewrite String.list_ascii_of_string_of_list_ascii, map_map.
  induction Hp as [|b p Hb Hp IH]; simpl; [done|]. by rewrite IH, byte_char_byte.
Qed.

Lemma bytes_of_string_ok s : bytes_ok (bytes_of_string s).
Proof. apply Forall_map, Forall_forall. intros. apply char_to_byte_ok. Qed.

Lemma bytes_of_string_length s : length (bytes_of_string s) = String.length s.
Proof.
  unfold bytes_of_string. rewrite length_map.
  induction s; simpl; congruence.
Qed.

Lemma string_of_bytes_length p : String.length (string_of_bytes p) = length p.
Proof.
  unfold string_of_bytes. induction p; simpl; congruence.
Qed.

#[export] Hint Resolve element_to_bytes_ok bytes_of_string_ok char_to_byte_ok : ssim.

(** ** Arrays: the data part *)

Lemma encode_data_length it :
  is_list it = false -> length (encode_data it) = data_bytes it.
Proof.
  intros H. unfold data_bytes.
  destruct it; simpl; rewrite ?concat_elements_length, ?length_map, ?bytes_of_string_length;
    simpl; try lia.
Qed.

Lemma encode_data_ok it : item_ok it -> is_list it = false -> bytes_ok (encode_data it).
Proof.
  intros Hok Hl. destruct it; simpl in *; try done; try apply bytes_of_string_ok.
  all: try (apply Forall_concat, Forall_map, Forall_forall; intros; apply element_to_bytes_ok).
  apply Forall_map, Forall_forall. intros x _. simpl. case_match; int_lia.
Qed.

Lemma item_ok_elems it v :
  item_ok it -> as_array it = Some v -> Forall (elem_ok (format it)) v.
Proof. by destruct it; intros; simplify_eq/=. Qed.

Lemma collect_encode it v :
  item_ok it -> as_array it = Some v ->
  collect (format it) (length (concat (map (element_to_bytes (format it)) v))
                        / element_size (format it))
    (concat (map (element_to_bytes (format it)) v)) = v.
Proof.
  intros Hok Hv.
  assert (Hnl : format it <> kList) by (by destruct it).
  rewrite concat_elements_length, Nat.div_mul by (by destruct it).
  rewrite <- (app_nil_r (concat _)). apply collect_roundtrip; [done| |constructor].
  by apply item_ok_elems.
Qed.

Lemma build_array_encode it :
  item_ok it -> is_list it = false -> build_array (format it) (encode_data it) = normalize it.
Proof.
  intros Hok Hl.
  destruct it as [|v|v|s|v|v|v|v|v|v|v|v|v|v] eqn:E; try done.
  { simpl. by rewrite string_bytes_string. }
  all: rewrite <- E in Hok;
    pose proof (collect_encode it v Hok ltac:(by subst it)) as Hc; subst it;
    cbn [build_array encode_data format normalize] in *; by rewrite Hc.
Qed.

(** ** Headers *)

Lemma reader_take_app a b pos :
  reader_take (Z.of_nat (length a)) (mkReader (a ++ b) pos) =
    Some (a, mkReader b (pos + length a)).
Proof.
  unfold reader_take, remaining. simpl. rewrite length_app.
  rewrite (proj2 (Z.ltb_ge _ _)) by lia. by rewrite Nat2Z.id, take_app_length, drop_app_length.
Qed.

(** The format byte: the code above two bits of length-byte count. *)
Lemma format_byte_split f n :
  1 <= n <= 3 ->
  let b := wrap 8 (Z.lor (Z.shiftl (format_code f) 2) n) in
  Z.land b 3 = n /\ Z.shiftr b 2 = format_code f.
Proof.
  intros Hn. pose proof (format_code_range f) as Hr. simpl.
  rewrite lor_shiftl_add by lia. rewrite wrap_id by int_lia.
  change (2 ^ 2) with 4. split.
  - change 3 with (Z.ones 2) at 1. rewrite Z.land_ones by lia. change (2 ^ 2) with 4.
    rewrite Z.add_comm, Z.mod_add, Z.mod_small; lia.
  - rewrite Z.shiftr_div_pow2 by lia. change (2 ^ 2) with 4.
    rewrite Z.div_add_l, Z.div_small; lia.
Qed.

Lemma parse_format_code f : f <> kJis8 -> parse_format (format_code f) = Ok f.
Proof. by destruct f. Qed.

Lemma parse_format_Ok c f : parse_format c = Ok f -> c = format_code f /\ f <> kJis8.
Proof. unfold parse_format. intros H. split_matches; by split. Qed.

Lemma encode_header_Ok f len h :
  0 <= len -> encode_header f len = Ok h ->
  exists n : nat, (1 <= n <= 3)%nat /\ len < 256 ^ Z.of_nat n /\ len <= kMaxItemLength /\
    h = wrap 8 (Z.lor (Z.shiftl (format_code f) 2) (Z.of_nat n)) :: be_bytes n len.
Proof.
  unfold encode_header. intros Hlen H. case_match eqn:E; [done|].
  apply Z.ltb_ge in E. simplify_eq. unfold kMaxItemLength in *.
  destruct (Z.ltb_spec 0xFFFF len); [|destruct (Z.ltb_spec 0xFF len)];
    [exists 3%nat|exists 2%nat|exists 1%nat]; rewrite store_be_spec; simpl Z.of_nat;
    (repeat split; try lia).
Qed.

Lemma encode_header_length f len h :
  0 <= len -> encode_header f len = Ok h -> (2 <= length h <= 4)%nat.
Proof.
  intros Hlen (n & Hn & _ & _ & ->)%encode_header_Ok; [|done].
  simpl. rewrite be_bytes_length. lia.
Qed.

Lemma decode_encode_header f len h tl pos :
  0 <= len -> f <> kJis8 -> encode_header f len = Ok h ->
  decode_header (mkReader (h ++ tl) pos) = Ok (f, len, mkReader tl (pos + length h)).
Proof.
  intros Hlen Hf (n & Hn & Hlt & _ & ->)%encode_header_Ok; [|done].
  unfold decode_header.
  set (b := wrap 8 _). change 1 with (Z.of_nat (length [b])).
  rewrite <- app_comm_cons. change (b :: be_bytes n len ++ tl) with ([b] ++ be_bytes n len ++ tl).
  rewrite reader_take_app. simpl nth.
  destruct (format_byte_split f (Z.of_nat n)) as [Hland Hshift]; [lia|].
  fold b in Hland, Hshift. rewrite Hland, Hshift.
  rewrite (proj2 (Z.eqb_neq _ _)) by lia. rewrite parse_format_code by done. simpl.
  pose proof (reader_take_app (be_bytes n len) tl (pos + 1)) as Htake.
  rewrite be_bytes_length in Htake. rewrite Htake.
  rewrite shift_in_spec, be_value_bytes_id by auto with ssim.
  rewrite be_bytes_length. do 3 f_equal. lia.
Qed.

(** ** The round trip *)

Lemma encode_length it d bs : encode_at_depth it d = Ok bs -> (2 <= length bs)%nat.
Proof.
  destruct (is_list it) eqn:El.
  - destruct it; try done. rewrite encode_at_depth_list. case_match; [done|].
    intros Henc. inv_result. apply encode_header_length in Hx; [|lia]. rewrite length_app. lia.
  - rewrite encode_at_depth_array by done. intros H. inv_result.
    apply encode_header_length in Hx; [|lia]. rewrite length_app. lia.
Qed.

Lemma encode_items_length l d bs : encode_items l d = Ok bs -> (2 * length l <= length bs)%nat.
Proof.
  revert bs. induction l as [|c l IH]; simpl; intros bs H; inv_result; [simpl; lia|].
  apply encode_length in Hx. apply IH in Hx0. rewrite length_app. lia.
Qed.

(** What the decoder does on the bytes of one encoded item, whatever follows. *)
Definition decodes_at (room d : nat) (it : Item) : Prop :=
  forall bs tl pos,
    encode_at_depth it d = Ok bs ->
    decode_at_depth room (mkReader (bs ++ tl) pos) =
      Ok (normalize it, mkReader tl (pos + length bs)).

Lemma decode_encode_items room d l bs tl pos :
  Forall (decodes_at room d) l ->
  encode_items l d = Ok bs ->
  decode_items (decode_at_depth room) (length l) (mkReader (bs ++ tl) pos) =
    Ok (map normalize l, mkReader tl (pos + length bs)).
Proof.
  intros Hl. revert bs pos. induction Hl as [|c l Hc Hl IH]; simpl; intros bs pos H; inv_result.
  - by rewrite Nat.add_0_r.
  - rewrite <- app_assoc, (Hc _ _ _ Hx). simpl. rewrite (IH _ _ Hx0). simpl.
    rewrite length_app. do 3 f_equal. lia.
Qed.

Lemma decode_encode_array room d it :
  is_list it = false -> item_ok it -> decodes_at room d it.
Proof.
  intros Hl Hok bs tl pos H. rewrite encode_at_depth_array in H by done. inv_result.
  rewrite <- app_assoc.
  assert (Hdec : decode_header (mkReader (x ++ encode_data it ++ tl) pos) =
    Ok (format it, Z.of_nat (length (encode_data it)),
        mkReader (encode_data it ++ tl) (pos + length x))).
  { rewrite encode_data_length by done. unfold data_bytes. rewrite Nat2Z.inj_mul.
    apply decode_encode_header; [lia| |done]. by destruct it. }
  assert (Hnl : format it <> kList) by (by destruct it).
  assert (Hmod : (Z.of_nat (length (encode_data it)) mod Z.of_nat (element_size (format it)) =? 0)
    = true).
  { rewrite encode_data_length by done. unfold data_bytes. rewrite Nat2Z.inj_mul.
    apply Z.eqb_eq, Z.mod_mul. by destruct it. }
  assert (Hrem : (remaining (mkReader (encode_data it ++ tl) (pos + length x)) <?
    Z.of_nat (length (encode_data it))) = false).
  { apply Z.ltb_ge. unfold remaining. simpl. rewrite length_app. lia. }
  rewrite <- (build_array_encode it Hok Hl).
  rewrite (decode_at_depth_array _ _ _ _ _ Hdec Hnl), Hrem, Hmod, reader_take_app. simpl.
  rewrite length_app. do 3 f_equal. lia.
Qed.

Lemma decode_encode_at it room d :
  item_ok it -> (room + d = kMaxNestingDepth)%nat -> decodes_at room d it.
Proof.
  revert room d. induction it as [items IH|it Hit] using item_ind'; intros room d Hok Hd.
  2: { apply decode_encode_array; [|done]. by apply is_list_false. }
  intros bs tl pos H. rewrite encode_at_depth_list in H.
  destruct (_ <=? d)%nat eqn:E in H; [done|]. apply Nat.leb_gt in E. inv_result.
  destruct room as [|room]; [lia|].
  assert (Hl : Forall (decodes_at room (S d)) items).
  { apply item_ok_list in Hok. rewrite Forall_forall in *. intros i Hi.
    apply IH; [done|by apply Hok|lia]. }
  rewrite <- app_assoc.
  rewrite (decode_at_depth_list _ _ _ _
    (decode_encode_header kList _ _ _ _ (Nat2Z.is_nonneg _) ltac:(done) Hx)).
  pose proof (encode_items_length _ _ _ Hx0) as Hlen.
  rewrite (proj2 (Z.ltb_ge _ _)).
  2: { unfold remaining. simpl. rewrite length_app.
       apply Z.div_le_lower_bound; lia. }
  rewrite Nat2Z.id, (decode_encode_items _ _ _ _ _ _ Hl Hx0). simpl.
  rewrite length_app. do 3 f_equal. lia.
Qed.

Lemma decode_item_encode it bs tl :
  item_ok it -> encode it = Ok bs -> decode_item (bs ++ tl) = Ok (normalize it, length bs).
Proof.
  intros Hok Henc. unfold decode_item.
  by rewrite (decode_encode_at it kMaxNestingDepth 0 Hok eq_refl _ _ _ Henc).
Qed.

Lemma decode_body_encode it bs :
  item_ok it -> encode it = Ok bs -> decode_body bs = Ok (normalize it).
Proof.
  intros Hok Henc. unfold decode_body. pose proof (decode_item_encode it bs [] Hok Henc) as H.
  rewrite app_nil_r in H. rewrite H. simpl. by rewrite bool_decide_eq_true_2.
Qed.

Lemma encode_nonempty it bs : encode it = Ok bs -> bs <> [].
Proof.
  intros Henc ->. unfold encode in Henc. destruct (is_list it) eqn:E.
  - destruct it as [l| | | | | | | | | | | | |]; try done. rewrite encode_at_depth_list in Henc.
    case_match; [done|]. inv_result. apply app_eq_nil in Henc as [-> _].
    apply encode_header_length in Hx; simpl in Hx; lia.
  - rewrite encode_at_depth_array in Henc by done.
    inv_result. apply app_eq_nil in Henc as [-> _].
    apply encode_header_length in Hx; simpl in Hx; lia.
Qed.

(** [C4] Round trip of the SECS-II codec: whenever [encode] produces bytes for an
    item whose elements fit their types, [decode_body] reads back the same item,
    BOOLEAN bytes normalised to 0 or 1, and [decode_item] reads it back from any
    longer buffer, using exactly those bytes. *)
Theorem decode_encode it bs :
  item_ok it -> encode it = Ok bs ->
  decode_body bs = Ok (normalize it) /\
  forall tl, decode_item (bs ++ tl) = Ok (normalize it, length bs).
Proof.
  intros Hok Henc. split; [by apply decode_body_encode|].
  intros tl. by apply decode_item_encode.
Qed.

Definition sample_item : Item :=
  list_ [ascii_ "START"; list_ [list_ [ascii_ "WAFER_ID"; ascii_ "W042"]];
         i2 [-3; 4]; u4 [2005]; boolean [7; 0]; f4 [0x3F800000]].

Lemma decode_encode_witness :
  exists bs, encode sample_item = Ok bs /\ decode_body bs = Ok (normalize sample_item).
Proof.
  eexists. split; [vm_compute; reflexivity|].
  apply (decode_encode sample_item); [|vm_compute; reflexivity].
  simpl. repeat split; repeat (constructor; [vm_compute; split; congruence|]); constructor.
Defined.

(** ** The decoder on arbitrary bytes *)

Lemma reader_take_inv n r p r' :
  0 <= n -> reader_take n r = Some (p, r') ->
  rest r = p ++ rest r' /\ position r' = (position r + length p)%nat /\ Z.of_nat (length p) = n.
Proof.
  unfold reader_take, remaining. intros Hn H. case_match eqn:E; [done|]. apply Z.ltb_ge in E.
  simplify_eq. simpl. rewrite length_take, take_drop. repeat split; lia.
Qed.

Lemma decode_header_inv r f len r2 :
  bytes_ok (rest r) -> decode_header r = Ok (f, len, r2) ->
  exists hdr, rest r = hdr ++ rest r2 /\ position r2 = (position r + length hdr)%nat /\
    f <> kJis8 /\ (2 <= length hdr <= 4)%nat /\ 0 <= len < 256 ^ (Z.of_nat (length hdr) - 1).
Proof.
  intros Hok. unfold decode_header.
  destruct (reader_take 1 r) as [[h r1]|] eqn:H1; [|done].
  apply reader_take_inv in H1 as (Hr & Hp & Hl); [|lia]. cbv zeta.
  set (lb := Z.land (nth 0 h 0) 3). case_match eqn:E; [done|]. apply Z.eqb_neq in E.
  intros H. inv_result. apply parse_format_Ok in Hx as [_ Hx].
  assert (Hlb : 1 <= lb <= 3).
  { assert (0 <= lb < 4); [|lia]. unfold lb. change 3 with (Z.ones 2).
    rewrite Z.land_ones by lia. apply Z.mod_pos_bound. lia. }
  destruct (reader_take lb r1) as [[p r3]|] eqn:H2; [|done]. inv_result.
  apply reader_take_inv in H2 as (Hr' & Hp' & Hl'); [|lia]. simplify_eq.
  rewrite Hr, Hr' in Hok. apply Forall_app in Hok as [_ [Hok _]%Forall_app].
  rewrite shift_in_spec by done. pose proof (be_value_range p Hok).
  exists (h ++ p). rewrite length_app, Hr, Hr', app_assoc.
  split; [done|]. split; [lia|]. split; [done|]. split; [lia|].
  replace (Z.of_nat (length h + length p) - 1) with (Z.of_nat (length p)) by lia. lia.
Qed.

Lemma encode_header_fits f len k :
  (1 <= k <= 3)%nat -> 0 <= len < 256 ^ Z.of_nat k ->
  exists h, encode_header f len = Ok h /\ (length h <= S k)%nat.
Proof.
  intros Hk Hlen. unfold encode_header, kMaxItemLength.
  assert (Hcase : k = 1%nat \/ k = 2%nat \/ k = 3%nat) by lia.
  assert (len < 256 ^ 3).
  { apply Z.lt_le_trans with (256 ^ Z.of_nat k); [lia|]. apply Z.pow_le_mono_r; lia. }
  rewrite (proj2 (Z.ltb_ge _ _)) by lia. eexists. split; [done|].
  rewrite store_be_spec. simpl. rewrite be_bytes_length.
  destruct (Z.ltb_spec 0xFFFF len); [|destruct (Z.ltb_spec 0xFF len)];
    destruct Hcase as [-> | [-> | ->]]; simpl Z.of_nat in *; lia.
Qed.

Lemma element_from_bytes_ok f p :
  f <> kList -> bytes_ok p -> (element_size f <= length p)%nat -> elem_ok f (element_from_bytes f p).
Proof.
  intros Hf Hp Hl. unfold element_from_bytes. rewrite load_be_spec by done.
  pose proof (be_value_range (take (element_size f) p) (Forall_take _ _ _ Hp)) as Hr.
  rewrite length_take_le, elem_bits_pow in Hr by lia.
  pose proof (elem_pow_half f Hf) as Hhalf. unfold elem_ok.
  destruct (elem_signed f); simpl; [|done]. unfold sint_ok.
  destruct (Z.leb_spec (2 ^ (elem_bits f - 1)) (be_value (take (element_size f) p))); lia.
Qed.

Lemma collect_ok f n p :
  f <> kList -> bytes_ok p -> (n * element_size f <= length p)%nat ->
  length (collect f n p) = n /\ Forall (elem_ok f) (collect f n p).
Proof.
  intros Hf. revert p. induction n as [|n IH]; intros p Hp Hl; [by split|]. simpl in *.
  destruct (IH (drop (element_size f) p)) as [IH1 IH2].
  - by apply Forall_drop.
  - rewrite length_drop. lia.
  - split; [by rewrite IH1|]. constructor; [|done]. apply element_from_bytes_ok; auto. lia.
Qed.

(** An array built from [len] bytes: the format asked for, well formed, and
    taking exactly those bytes again. *)
Lemma build_array_ok f p :
  f <> kList -> f <> kJis8 -> bytes_ok p -> (length p mod element_size f = 0)%nat ->
  let it := build_array f p in
  format it = f /\ is_list it = false /\ item_ok it /\ data_bytes it = length p.
Proof.
  intros Hl Hj Hp Hmod. cbv zeta.
  assert (Hsz : (element_size f <> 0)%nat) by (by destruct f).
  assert (Hn : (length p / element_size f * element_size f = length p)%nat).
  { pose proof (Nat.div_mod_eq (length p) (element_size f)). lia. }
  destruct (collect_ok f (length p / element_size f) p) as [Hc1 Hc2]; [done|done|lia|].
  unfold data_bytes.
  destruct f; try done; cbn [build_array format item_ok count is_list];
    rewrite ?string_of_bytes_length, ?Hc1;
    (split; [done|split; [done|split; [done|simpl element_size in *; lia]]]).
Qed.

(** What a successful decode from [r] to [r'] guarantees about the item: it used
    a prefix of the input, it is well formed and shallow enough, and encoding it
    again succeeds in no more bytes than were used. *)
Definition decoded_from (room d : nat) (it : Item) (r r' : Reader) : Prop :=
  exists used, rest r = used ++ rest r' /\ position r' = (position r + length used)%nat /\
    item_ok it /\ (depth it <= room)%nat /\
    exists bs, encode_at_depth it d = Ok bs /\ (length bs <= length used)%nat.

Lemma decode_items_sound room d n r l r' :
  (forall r it r', bytes_ok (rest r) -> decode_at_depth room r = Ok (it, r') ->
     decoded_from room d it r r') ->
  bytes_ok (rest r) ->
  decode_items (decode_at_depth room) n r = Ok (l, r') ->
  exists used, rest r = used ++ rest r' /\ position r' = (position r + length used)%nat /\
    length l = n /\ Forall item_ok l /\ Forall (fun i => (depth i <= room)%nat) l /\
    exists bs, encode_items l d = Ok bs /\ (length bs <= length used)%nat.
Proof.
  intros Hdec. revert r l. induction n as [|n IH]; simpl; intros r l Hok H; inv_result.
  - exists []. simpl. rewrite Nat.add_0_r. repeat split; try constructor. by exists [].
  - destruct x as [c r1]. inv_result. destruct x as [l' r2]. inv_result.
    destruct (Hdec _ _ _ Hok Hx) as (u1 & Hr1 & Hp1 & Hi1 & Hd1 & b1 & He1 & Hl1).
    assert (Hok1 : bytes_ok (rest r1)).
    { rewrite Hr1 in Hok. by apply Forall_app in Hok as [_ ?]. }
    destruct (IH _ _ Hok1 Hx0) as (u2 & Hr2 & Hp2 & Hn & Hi2 & Hd2 & b2 & He2 & Hl2).
    exists (u1 ++ u2). rewrite Hr1, Hr2, app_assoc, length_app. simpl.
    rewrite He1. simpl. rewrite He2. simpl.
    repeat split; try constructor; auto; try lia.
    exists (b1 ++ b2). rewrite length_app. split; [done|lia].
Qed.

Lemma decode_array_sound room d f len r r2 r3 hdr p :
  bytes_ok (rest r) -> f <> kList -> f <> kJis8 ->
  rest r = hdr ++ rest r2 -> position r2 = (position r + length hdr)%nat ->
  (2 <= length hdr <= 4)%nat -> 0 <= len < 256 ^ (Z.of_nat (length hdr) - 1) ->
  len mod Z.of_nat (element_size f) = 0 ->
  reader_take len r2 = Some (p, r3) ->
  decoded_from room d (build_array f p) r r3.
Proof.
  intros Hok Hl Hj Hr2 Hp2 Hlen Hrange Hmod Htake.
  apply reader_take_inv in Htake as (Hr3 & Hp3 & Hlp); [|lia].
  assert (Hpok : bytes_ok p).
  { rewrite Hr2, Hr3 in Hok. by apply Forall_app in Hok as [_ [? _]%Forall_app]. }
  destruct (build_array_ok f p) as (Hf & Hnl & Hiok & Hdb); try done.
  { rewrite <- Hlp, <- Nat2Z.inj_mod in Hmod. lia. }
  destruct (encode_header_fits f len (length hdr - 1)) as (h & Hh & Hhl); [lia| |].
  { by rewrite Nat2Z.inj_sub by lia. }
  exists (hdr ++ p). rewrite Hr2, Hr3, app_assoc, length_app.
  split; [done|]. split; [lia|]. split; [done|]. split.
  { destruct (build_array f p); simpl in *; try lia. done. }
  exists (h ++ encode_data (build_array f p)). rewrite encode_at_depth_array by done. rewrite Hf.
  split.
  - replace (Z.of_nat (count _) * Z.of_nat (element_size f)) with len; [by rewrite Hh|].
    unfold data_bytes in Hdb. rewrite Hf in Hdb. rewrite <- Nat2Z.inj_mul. lia.
  - rewrite length_app, encode_data_length by done. lia.
Qed.

Lemma decode_sound room d r it r' :
  (room + d = kMaxNestingDepth)%nat -> bytes_ok (rest r) ->
  decode_at_depth room r = Ok (it, r') -> decoded_from room d it r r'.
Proof.
  revert d r it r'. induction room as [room IH] using lt_wf_ind. intros d r it r' Hd Hok H.
  destruct (decode_at_depth_header _ _ _ _ H) as (f & len & r2 & Hdh).
  destruct (decode_header_inv _ _ _ _ Hok Hdh) as (hdr & Hr2 & Hp2 & Hj & Hlen & Hrange).
  destruct (decide (f = kList)) as [->|Hnl].
  2: { rewrite (decode_at_depth_array _ _ _ _ _ Hdh Hnl) in H.
       case_match eqn:E1; [done|]. apply Z.ltb_ge in E1.
       case_match eqn:E2; [done|]. apply negb_false_iff, Z.eqb_eq in E2.
       case_match eqn:E3; [case_match; inv_result; eauto using decode_array_sound|].
       unfold reader_take in E3. by rewrite (proj2 (Z.ltb_ge _ _)) in E3. }
  rewrite (decode_at_depth_list _ _ _ _ Hdh) in H. destruct room as [|room]; [done|].
  case_match eqn:E; [done|]. inv_result. destruct x as [l r3]. inv_result.
  assert (Hok2 : bytes_ok (rest r2)) by (rewrite Hr2 in Hok; by apply Forall_app in Hok as [_ ?]).
  destruct (decode_items_sound room (S d) (Z.to_nat len) r2 l r')
    as (used & Hr3 & Hp3 & Hn & Hi & Hdl & bs & Hbs & Hbl); [|done|done|].
  { intros. apply IH; [lia|lia|done|done]. }
  destruct (encode_header_fits kList len (length hdr - 1)) as (h & Hh & Hhl); [lia| |].
  { by rewrite Nat2Z.inj_sub by lia. }
  exists (hdr ++ used). rewrite Hr2, Hr3, app_assoc, length_app.
  split; [done|]. split; [lia|]. split; [by apply item_ok_list|]. split; [by apply depth_list|].
  exists (h ++ bs). rewrite encode_at_depth_list, Hn, Z2Nat.id, Hh, Hbs by lia.
  rewrite (proj2 (Nat.leb_gt _ _)) by lia. rewrite length_app. split; [done|lia].
Qed.

(** [C5] The decoder is safe on any bytes, hostile ones included: when
    [decode_item] accepts, it has used at least two and at most all of the input
    bytes, every element fits its type, lists are nested at most 32 deep, and the
    item encodes again into no more bytes than it was read from, so nothing it
    allocated exceeds what the peer really sent. *)
Theorem decode_item_safe bytes it n :
  bytes_ok bytes -> decode_item bytes = Ok (it, n) ->
  (2 <= n <= length bytes)%nat /\ item_ok it /\ (depth it <= kMaxNestingDepth)%nat /\
  exists bs, encode it = Ok bs /\ (length bs <= n)%nat.
Proof.
  intros Hok H. unfold decode_item in H. inv_result. destruct x as [i r]. inv_result.
  destruct (decode_sound kMaxNestingDepth 0 (mkReader bytes 0) _ _ eq_refl Hok Hx)
    as (used & Hr & Hp & Hi & Hd & bs & Hbs & Hbl). simpl in *.
  pose proof (encode_length _ _ _ Hbs). rewrite Hr, length_app.
  repeat split; auto; try lia. exists bs. split; [done|lia].
Qed.

Lemma decode_item_safe_witness :
  exists it n, decode_item [0x01; 0x02; 0xA5; 0x01; 0x07; 0x42; 0x00; 0x01; 0x4D; 0xFF] = Ok (it, n)
    /\ (depth it <= kMaxNestingDepth)%nat.
Proof.
  do 2 eexists. split; [vm_compute; reflexivity|].
  apply (decode_item_safe [0x01; 0x02; 0xA5; 0x01; 0x07; 0x42; 0x00; 0x01; 0x4D; 0xFF] _ 9).
  - repeat (constructor; [vm_compute; split; congruence|]). constructor.
  - vm_compute. reflexivity.
Defined.

(** ** Self-delimiting encodings *)

(** Bytes added behind a reader's input. *)
Definition extend (r : Reader) (tl : list Z) : Reader := mkReader (rest r ++ tl) (position r).

Lemma reader_take_extend n r p r' tl :
  reader_take n r = Some (p, r') -> reader_take n (extend r tl) = Some (p, extend r' tl).
Proof.
  unfold reader_take, remaining, extend. intros H. case_match eqn:E; [done|].
  apply Z.ltb_ge in E. simplify_eq. simpl. rewrite length_app.
  rewrite (proj2 (Z.ltb_ge _ _)) by lia.
  by rewrite take_app_le, drop_app_le by lia.
Qed.

Lemma decode_header_extend r f len r2 tl :
  decode_header r = Ok (f, len, r2) -> decode_header (extend r tl) = Ok (f, len, extend r2 tl).
Proof.
  unfold decode_header. destruct (reader_take 1 r) as [[h r1]|] eqn:E1; [|done].
  rewrite (reader_take_extend _ _ _ _ _ E1). case_match; [done|]. intros Hb. inv_result.
  rewrite Hx. simpl. destruct (reader_take _ r1) as [[p r3]|] eqn:E2 in Hb; [|done]. inv_result.
  by rewrite (reader_take_extend _ _ _ _ _ E2).
Qed.

Lemma decode_extend room r it r' tl :
  decode_at_depth room r = Ok (it, r') -> decode_at_depth room (extend r tl) = Ok (it, extend r' tl).
Proof.
  revert r it r'. induction room as [room IH] using lt_wf_ind. intros r it r' H.
  destruct (decode_at_depth_header _ _ _ _ H) as (f & len & r2 & Hdh).
  pose proof (decode_header_extend _ _ _ _ tl Hdh) as Hdh'.
  assert (Hrem : remaining r2 <= remaining (extend r2 tl)).
  { unfold remaining, extend. simpl. rewrite length_app. lia. }
  destruct (decide (f = kList)) as [->|Hf].
  - rewrite (decode_at_depth_list _ _ _ _ Hdh) in H.
    rewrite (decode_at_depth_list _ _ _ _ Hdh'). destruct room as [|room]; [done|].
    case_match eqn:E; [done|]. apply Z.ltb_ge in E. inv_result. destruct x as [l r3]. inv_result.
    rewrite (proj2 (Z.ltb_ge _ _)).
    2: { etransitivity; [done|]. apply Z.div_le_mono; lia. }
    enough (Hl : forall n r l r3, decode_items (decode_at_depth room) n r = Ok (l, r3) ->
      decode_items (decode_at_depth room) n (extend r tl) = Ok (l, extend r3 tl)).
    { by rewrite (Hl _ _ _ _ Hx). }
    clear -IH. induction n as [|n IHn]; simpl; intros r l r3 H; inv_result; [done|].
    destruct x as [c r1]. inv_result. destruct x as [l' r2]. inv_result.
    rewrite (IH room ltac:(lia) _ _ _ Hx). simpl. by rewrite (IHn _ _ _ Hx0).
  - rewrite (decode_at_depth_array _ _ _ _ _ Hdh Hf) in H.
    rewrite (decode_at_depth_array _ _ _ _ _ Hdh' Hf).
    case_match eqn:E1; [done|]. apply Z.ltb_ge in E1. rewrite (proj2 (Z.ltb_ge _ _)) by lia.
    case_match; [done|]. destruct (reader_take len r2) as [[p r3]|] eqn:E3.
    + inv_result. by rewrite (reader_take_extend _ _ _ _ _ E3).
    + unfold reader_take in E3. by rewrite (proj2 (Z.ltb_ge _ _)) in E3.
Qed.

Lemma decode_item_extend bytes tl it n :
  decode_item bytes = Ok (it, n) -> decode_item (bytes ++ tl) = Ok (it, n).
Proof.
  unfold decode_item. intros H. inv_result. destruct x as [i r]. inv_result.
  change (mkReader (bytes ++ tl) 0) with (extend (mkReader bytes 0) tl).
  by rewrite (decode_extend _ _ _ _ _ Hx).
Qed.

Lemma encode_header_ok f len h : 0 <= len -> encode_header f len = Ok h -> bytes_ok h.
Proof.
  intros Hlen (n & _ & _ & _ & ->)%encode_header_Ok; [|done].
  constructor; auto with ssim. apply wrap_range. lia.
Qed.

Lemma encode_bytes_ok it d bs : item_ok it -> encode_at_depth it d = Ok bs -> bytes_ok bs.
Proof.
  revert d bs. induction it as [l IH|it Hit] using item_ind'; intros d bs Hok H.
  - rewrite encode_at_depth_list in H. case_match; [done|]. inv_result.
    apply Forall_app. split; [by eapply encode_header_ok; [|done]; lia|].
    apply item_ok_list in Hok. clear -IH Hok Hx0. revert x0 Hx0.
    induction l as [|c l IHl]; simpl; intros bs H; inv_result; [constructor|].
    apply Forall_cons in IH as [IHc IH]. apply Forall_cons in Hok as [Hc Hok].
    apply Forall_app. split; [by eapply IHc|by apply IHl].
  - apply is_list_false in Hit. rewrite encode_at_depth_array in H by done. inv_result.
    apply Forall_app. split; [by eapply encode_header_ok; [|done]; lia|by apply encode_data_ok].
Qed.

(** Encodings are self-delimiting: no proper prefix of an encoded item decodes
    as an item, so a message cut short anywhere is always reported as an error and
    is never mistaken for a shorter message. *)
Theorem truncated_encoding_rejected it bs k :
  item_ok it -> encode it = Ok bs -> (k < length bs)%nat ->
  exists e, decode_item (take k bs) = Err e /\ decode_body (take k bs) = Err e.
Proof.
  intros Hok Henc Hk. destruct (decode_item (take k bs)) as [[i n]|e] eqn:E.
  2: { exists e. unfold decode_body. by rewrite E. }
  exfalso. pose proof (decode_item_extend _ (drop k bs) _ _ E) as Hfull.
  rewrite take_drop in Hfull. unfold decode_item in Hfull, E.
  pose proof (decode_encode_at it kMaxNestingDepth 0 Hok eq_refl bs [] 0%nat Henc) as Hrt.
  rewrite app_nil_r in Hrt. rewrite Hrt in Hfull. simpl in Hfull. inv_result.
  destruct x as [i' r]. inv_result.
  destruct (decode_sound kMaxNestingDepth 0 (mkReader (take k bs) 0) (normalize it) r)
    as (u & Hu & Hp & _);
    [done|apply Forall_take; by eapply encode_bytes_ok|done|].
  simpl in *. apply (f_equal length) in Hu. rewrite length_take, length_app in Hu. lia.
Qed.

Lemma truncated_encoding_rejected_witness :
  exists e, decode_item (take 5 [0x01; 0x01; 0xA5; 0x02; 0x07; 0x08]) = Err e.
Proof.
  destruct (truncated_encoding_rejected (list_ [u1 [7; 8]])
              [0x01; 0x01; 0xA5; 0x02; 0x07; 0x08] 5) as (e & He & _).
  - simpl. repeat split; repeat (constructor; [vm_compute; split; congruence|]); constructor.
  - vm_compute. reflexivity.
  - simpl. lia.
  - exists e. exact He.
Defined.

(** ** When encoding fails *)

(** Every length of the item fits three length bytes. *)
Fixpoint lengths_ok (it : Item) : bool :=
  match it with
  | list_ l => (Z.of_nat (length l) <=? kMaxItemLength) && forallb lengths_ok l
  | _ => Z.of_nat (data_bytes it) <=? kMaxItemLength
  end.

Lemma encode_header_iff f len :
  if len <=? kMaxItemLength
  then exists h, encode_header f len = Ok h
  else encode_header f len = Err (mkError kErrTooLong "item too long for three length bytes").
Proof.
  unfold encode_header. rewrite Z.leb_antisym.
  destruct (kMaxItemLength <? len); simpl; eauto.
Qed.

Definition encode_fails (r : Result (list Z)) : Prop :=
  exists e, r = Err e /\ (code e = kErrTooDeep \/ code e = kErrTooLong).

Lemma encode_array_iff it d :
  is_list it = false ->
  if lengths_ok it then exists bs, encode_at_depth it d = Ok bs
  else encode_fails (encode_at_depth it d).
Proof.
  intros Hit. rewrite encode_at_depth_array by done.
  pose proof (encode_header_iff (format it)
    (Z.of_nat (count it) * Z.of_nat (element_size (format it)))) as Hh.
  replace (lengths_ok it) with (Z.of_nat (count it) * Z.of_nat (element_size (format it))
    <=? kMaxItemLength) by (destruct it; simpl; unfold data_bytes; simpl; try done; f_equal; lia).
  case_match; [destruct Hh as [h ->]; simpl; eauto|]. rewrite Hh. eexists. simpl. eauto.
Qed.

Lemma encode_items_iff l d :
  Forall (fun i => if (depth i + d <=? kMaxNestingDepth)%nat && lengths_ok i
                   then exists bs, encode_at_depth i d = Ok bs
                   else encode_fails (encode_at_depth i d)) l ->
  if forallb (fun i => (depth i + d <=? kMaxNestingDepth)%nat && lengths_ok i) l
  then exists bs, encode_items l d = Ok bs
  else encode_fails (encode_items l d).
Proof.
  induction 1 as [|c l Hc Hl IH]; simpl; [eauto|].
  destruct ((depth c + d <=? kMaxNestingDepth)%nat && lengths_ok c); simpl.
  - destruct Hc as [b ->]. simpl. case_match.
    + destruct IH as [bs ->]. simpl. eauto.
    + destruct IH as (e & -> & He). exists e. eauto.
  - destruct Hc as (e & -> & He). exists e. eauto.
Qed.

Lemma depth_list_forallb l d :
  (d < kMaxNestingDepth)%nat ->
  (depth (list_ l) + d <=? kMaxNestingDepth)%nat && forallb lengths_ok l =
    forallb (fun i => (depth i + S d <=? kMaxNestingDepth)%nat && lengths_ok i) l.
Proof.
  intros Hd. induction l as [|c l IH].
  { cbn [depth fold_right forallb]. rewrite andb_true_r. apply Nat.leb_le. lia. }
  cbn [forallb]. rewrite <- IH. cbn [depth fold_right].
  destruct (lengths_ok c); rewrite ?andb_false_r; simpl; [|done].
  destruct (forallb lengths_ok l); rewrite ?andb_false_r; simpl; [|done].
  rewrite !andb_true_r. apply eq_true_iff_eq. rewrite andb_true_iff, !Nat.leb_le.
  unfold kMaxNestingDepth. lia.
Qed.

Lemma encode_at_depth_iff it d :
  (d <= kMaxNestingDepth)%nat ->
  if (depth it + d <=? kMaxNestingDepth)%nat && lengths_ok it
  then exists bs, encode_at_depth it d = Ok bs
  else encode_fails (encode_at_depth it d).
Proof.
  revert d. induction it as [l IH|it Hit] using item_ind'; intros d Hd.
  2: { apply is_list_false in Hit. replace (depth it) with 0%nat by (by destruct it).
       rewrite (proj2 (Nat.leb_le _ _)) by lia. by apply encode_array_iff. }
  rewrite encode_at_depth_list. cbn [lengths_ok].
  destruct (kMaxNestingDepth <=? d)%nat eqn:E.
  { apply Nat.leb_le in E. rewrite (proj2 (Nat.leb_gt _ _)) by (simpl; lia).
    simpl. eexists. simpl. eauto. }
  apply Nat.leb_gt in E.
  pose proof (encode_header_iff kList (Z.of_nat (length l))) as Hh.
  destruct (Z.of_nat (length l) <=? kMaxItemLength) eqn:El;
    rewrite ?andb_false_r, ?andb_true_l.
  2: { rewrite Hh. simpl andb. rewrite ?andb_false_r. eexists. simpl. eauto. }
  destruct Hh as [h ->]. rewrite depth_list_forallb by done.
  assert (Hi := encode_items_iff l (S d)). ospecialize (Hi _).
  { eapply Forall_impl; [exact IH|]. simpl. intros i Hc. apply Hc. lia. }
  case_match; [destruct Hi as [b Hb]|destruct Hi as (e & Hb & He)]; simpl; rewrite Hb; simpl; eauto.
  exists e. eauto.
Qed.

(** Encoding is total up to the format's two limits: [encode] produces bytes
    exactly when no more than 32 lists are nested and every list count and data
    length fits in three length bytes; otherwise it returns [kErrTooDeep] or
    [kErrTooLong], and no other error. *)
Theorem encode_succeeds_iff it :
  (has_value (encode it) = true <-> (depth it <= kMaxNestingDepth)%nat /\ lengths_ok it = true) /\
  forall e, encode it = Err e -> code e = kErrTooDeep \/ code e = kErrTooLong.
Proof.
  pose proof (encode_at_depth_iff it 0 ltac:(lia)) as H. rewrite Nat.add_0_r in H.
  unfold encode. rewrite <- Nat.leb_le, <- andb_true_iff.
  case_match eqn:E; [destruct H as [bs ->]|destruct H as (e & -> & He)]; simpl; naive_solver.
Qed.
