(* ===== verification/Secs2Message.v ===== *)
(** * SECS-II messages and the message factory

    include/ssim/secsgem/secs2/message.hpp, message_factory.hpp and
    src/secsgem/secs2/message_factory.cpp: the (stream, function) registry that
    answers which of the three S9 situations a message is in. *)

From S2P Require Import Prelude Secs2Item.

(** [struct Message]. *)
Record Message := mkMessage {
  stream : Z;
  function : Z;
  w_bit : bool;
  body : option Item
}.

#[global] Instance Message_eq_dec : EqDecision Message.
Proof. solve_decision. Defined.

(** [enum class Validation]. *)
Inductive Validation := kOk | kUnknownStream | kUnknownFunction | kIllegalData.

#[global] Instance Validation_eq_dec : EqDecision Validation.
Proof. solve_decision. Defined.

(** [MessageFactory::Entry]; an empty [std::function] is [None]. *)
Definition BodyCheck : Type := option Item -> bool.
Record Entry := mkEntry { entry_name : string; entry_check : option BodyCheck }.

(** [std::map<std::pair<uint8_t, uint8_t>, Entry>]: a list sorted by the
    lexicographic order of its keys, each key once. *)
Definition Key : Type := Z * Z.
Definition key_lt (a b : Key) : bool := (a.1 <? b.1) || ((a.1 =? b.1) && (a.2 <? b.2)).

Definition MessageFactory : Type := list (Key * Entry).

(** [entries_[key] = entry]: insert in order, or replace. *)
Fixpoint map_assign (k : Key) (e : Entry) (m : MessageFactory) : MessageFactory :=
  match m with
  | [] => [(k, e)]
  | (k', e') :: m' =>
      if key_lt k k' then (k, e) :: m
      else if key_lt k' k then (k', e') :: map_assign k e m'
      else (k, e) :: m'
  end.

(** [entries_.lower_bound(key)]: the first entry not before [key], or the end. *)
Fixpoint map_lower_bound (k : Key) (m : MessageFactory) : option (Key * Entry) :=
  match m with
  | [] => None
  | (k', e') :: m' => if key_lt k' k then map_lower_bound k m' else Some (k', e')
  end.

(** [entries_.find(key)]. *)
Definition map_find (k : Key) (m : MessageFactory) : option Entry :=
  match map_lower_bound k m with
  | Some (k', e) => if key_lt k k' then None else Some e
  | None => None
  end.

Definition register_message (s f : Z) (name : string) (check : BodyCheck) (m : MessageFactory)
    : MessageFactory :=
  map_assign (s, f) (mkEntry name (Some check)) m.

(** [MessageFactory::check]. *)
Definition factory_check (m : MessageFactory) (msg : Message) : Validation :=
  match map_find (stream msg, function msg) m with
  | Some e =>
      let legal := match entry_check e with None => true | Some c => c (body msg) end in
      if legal then kOk else kIllegalData
  | None =>
      let stream_known :=
        match map_lower_bound (stream msg, 0) m with
        | Some (k, _) => k.1 =? stream msg
        | None => false
        end in
      if stream_known then kUnknownFunction else kUnknownStream
  end.

(** [MessageFactory::name]. *)
Definition factory_name (m : MessageFactory) (s f : Z) : string :=
  match map_find (s, f) m with Some e => entry_name e | None => ""%string end.

(** ** The registry as a partial function *)

(** The abstract view: the entry, if any, registered for a key. *)
Fixpoint lookup_key (k : Key) (m : MessageFactory) : option Entry :=
  match m with
  | [] => None
  | (k', e) :: m' => if decide (k' = k) then Some e else lookup_key k m'
  end.

Definition sorted_keys (m : MessageFactory) : Prop :=
  StronglySorted (fun a b => key_lt a.1 b.1 = true) m.

(** Stream and function numbers are bytes. *)
Definition factory_ok (m : MessageFactory) : Prop :=
  sorted_keys m /\ Forall (fun p => 0 <= p.1.2) m.

Lemma key_lt_spec a b : key_lt a b = true <-> a.1 < b.1 \/ (a.1 = b.1 /\ a.2 < b.2).
Proof. unfold key_lt. rewrite orb_true_iff, andb_true_iff, !Z.ltb_lt, Z.eqb_eq. done. Qed.

Lemma key_lt_false a b : key_lt a b = false <-> ~ (a.1 < b.1 \/ (a.1 = b.1 /\ a.2 < b.2)).
Proof. rewrite <- key_lt_spec. by destruct (key_lt a b). Qed.

Lemma key_antisym a b : key_lt a b = false -> key_lt b a = false -> a = b.
Proof.
  rewrite !key_lt_false. intros. destruct a, b. simpl in *. f_equal; lia.
Qed.

Lemma lookup_key_elem k m e : lookup_key k m = Some e -> (k, e) ∈ m.
Proof.
  induction m as [|[k' e'] m IH]; simpl; [done|]. case_decide; intros; simplify_eq;
    [left|right; auto].
Qed.

Lemma lookup_key_None k m : lookup_key k m = None <-> forall e, (k, e) ∉ m.
Proof.
  induction m as [|[k' e'] m IH]; simpl; [set_solver|]. case_decide; set_solver.
Qed.

Lemma sorted_keys_cons p m :
  sorted_keys (p :: m) <-> Forall (fun q => key_lt p.1 q.1 = true) m /\ sorted_keys m.
Proof.
  split; [intros H; by inversion H|]. intros [? ?]. by constructor.
Qed.

(** A key below every entry is not in the map. *)
Lemma lookup_key_below k m : Forall (fun q => key_lt k q.1 = true) m -> lookup_key k m = None.
Proof.
  induction 1 as [|[k' e] m H _ IH]; simpl; [done|]. case_decide; [|done].
  subst. apply key_lt_spec in H. simpl in H. lia.
Qed.

Lemma key_lt_trans a b c : key_lt a b = true -> key_lt b c = true -> key_lt a c = true.
Proof. rewrite !key_lt_spec. lia. Qed.

Lemma below_trans k k' m :
  key_lt k k' = true -> Forall (fun q : Key * Entry => key_lt k' q.1 = true) m ->
  Forall (fun q => key_lt k q.1 = true) m.
Proof. intros Hk Hf. eapply Forall_impl; [exact Hf|]. intros. by eapply key_lt_trans. Qed.

(** [lower_bound] drops exactly the entries before the key. *)
Lemma map_lower_bound_spec k m :
  sorted_keys m ->
  match map_lower_bound k m with
  | Some (k', e) => key_lt k' k = false /\ lookup_key k' m = Some e /\
      forall j e', lookup_key j m = Some e' -> key_lt j k = false -> j = k' \/ key_lt k' j = true
  | None => forall j e', lookup_key j m = Some e' -> key_lt j k = true
  end.
Proof.
  induction m as [|[k' e] m IH]; simpl; [done|]. rewrite sorted_keys_cons. intros [Hb Hs].
  specialize (IH Hs). destruct (key_lt k' k) eqn:E.
  - case_match; [case_match|].
    + destruct IH as (? & Hl & IH). split; [done|]. split.
      * rewrite decide_False; [done|]. intros ->. congruence.
      * intros j e'. case_decide; [intros; simplify_eq; congruence|apply IH].
    + intros j e'. case_decide; [by intros; subst|apply IH].
  - split; [done|]. rewrite decide_True by done. split; [done|].
    intros j e'. case_decide; [by left|]. intros Hj _. right.
    apply lookup_key_elem in Hj. rewrite Forall_forall in Hb. apply (Hb _ Hj).
Qed.

Lemma map_find_spec k m : sorted_keys m -> map_find k m = lookup_key k m.
Proof.
  intros Hs. unfold map_find. pose proof (map_lower_bound_spec k m Hs) as H.
  destruct (map_lower_bound k m) as [[k' e]|].
  - destruct H as (Hk & Hl & H). destruct (key_lt k k') eqn:E.
    + destruct (lookup_key k m) as [e'|] eqn:E'; [|done]. exfalso.
      assert (Hkk : key_lt k k = false) by (apply key_lt_false; lia).
      destruct (H _ _ E' Hkk) as [-> | H']; [congruence|].
      apply key_lt_spec in E, H'. lia.
    + by rewrite (key_antisym _ _ E Hk).
  - destruct (lookup_key k m) as [e'|] eqn:E'; [|done]. apply H in E'.
    apply key_lt_spec in E'. lia.
Qed.

Lemma map_assign_below k e p m :
  key_lt p k = true -> Forall (fun q : Key * Entry => key_lt p q.1 = true) m ->
  Forall (fun q => key_lt p q.1 = true) (map_assign k e m).
Proof.
  intros Hk. induction 1 as [|[k' e'] m H Hm IH]; simpl; [by repeat constructor|].
  repeat case_match; repeat constructor; auto.
Qed.

Lemma map_assign_sorted k e m : sorted_keys m -> sorted_keys (map_assign k e m).
Proof.
  induction m as [|[k' e'] m IH]; simpl; [by repeat constructor|].
  rewrite sorted_keys_cons. intros [Hb Hs]. destruct (key_lt k k') eqn:E1.
  - apply sorted_keys_cons. split; [|by apply sorted_keys_cons].
    constructor; [done|]. by eapply below_trans.
  - destruct (key_lt k' k) eqn:E2.
    + apply sorted_keys_cons. split; [by apply map_assign_below|auto].
    + apply sorted_keys_cons. by rewrite (key_antisym _ _ E1 E2).
Qed.

Lemma map_assign_lookup k e m j :
  sorted_keys m ->
  lookup_key j (map_assign k e m) = if decide (j = k) then Some e else lookup_key j m.
Proof.
  induction m as [|[k' e'] m IH]; simpl.
  { intros _. repeat case_decide; congruence. }
  rewrite sorted_keys_cons. intros [Hb Hs]. specialize (IH Hs).
  destruct (key_lt k k') eqn:E1; simpl.
  { repeat case_decide; congruence. }
  destruct (key_lt k' k) eqn:E2; simpl.
  - rewrite IH. repeat case_decide; subst; try congruence.
  - pose proof (key_antisym _ _ E1 E2) as ->. repeat case_decide; congruence.
Qed.

(** ** The factory's answers *)

Lemma register_message_ok s f nm check m :
  0 <= f -> factory_ok m -> factory_ok (register_message s f nm check m).
Proof.
  intros Hf [Hs Hp]. split; [by apply map_assign_sorted|].
  unfold register_message. clear Hs.
  induction Hp as [|[k' e'] m H Hm IH]; simpl; [by repeat constructor|].
  repeat case_match; repeat constructor; auto.
Qed.

(** Whether some function of a stream is registered. *)
Definition stream_registered (s : Z) (m : MessageFactory) : Prop :=
  exists f, is_Some (lookup_key (s, f) m).

Lemma lower_bound_stream s m :
  factory_ok m ->
  match map_lower_bound (s, 0) m with
  | Some (k, _) => (k.1 =? s) = true <-> stream_registered s m
  | None => ~ stream_registered s m
  end.
Proof.
  intros [Hs Hp]. pose proof (map_lower_bound_spec (s, 0) m Hs) as H.
  assert (Hnn : forall f e, lookup_key (s, f) m = Some e -> key_lt (s, f) (s, 0) = false).
  { intros f e He%lookup_key_elem. rewrite Forall_forall in Hp. specialize (Hp _ He).
    apply key_lt_false. simpl in *. lia. }
  destruct (map_lower_bound (s, 0) m) as [[k e]|].
  - destruct H as (Hk & Hl & H). rewrite Z.eqb_eq. split.
    + intros <-. exists k.2. destruct k. by exists e.
    + intros [f [e' He']]. destruct (H _ _ He' (Hnn _ _ He')) as [<-|Hlt]; [done|].
      apply key_lt_spec in Hlt. apply key_lt_false in Hk. simpl in *. lia.
  - intros [f [e' He']]. pose proof (H _ _ He'). rewrite (Hnn _ _ He') in *. done.
Qed.

(** [factory_check] by a lookup and a search for the stream. *)
Lemma factory_check_lookup m msg :
  factory_ok m ->
  factory_check m msg =
    match lookup_key (stream msg, function msg) m with
    | Some e => if match entry_check e with None => true | Some c => c (body msg) end
                then kOk else kIllegalData
    | None => if existsb (fun p => p.1.1 =? stream msg) m then kUnknownFunction
              else kUnknownStream
    end.
Proof.
  intros Hok. unfold factory_check. rewrite map_find_spec by apply Hok.
  destruct (lookup_key _ m) as [e|]; [done|].
  pose proof (lower_bound_stream (stream msg) m Hok) as Hb.
  assert (Hreg : existsb (fun p => p.1.1 =? stream msg) m = true <->
                 stream_registered (stream msg) m).
  { rewrite existsb_exists. split.
    - intros ([[s f] e] & Hin%list_elem_of_In & Hs%Z.eqb_eq). simpl in Hs. subst s. exists f.
      destruct (lookup_key _ m) as [e'|] eqn:E; [eauto|].
      exfalso. by eapply lookup_key_None in E.
    - intros (f & e & He%lookup_key_elem%list_elem_of_In). exists ((stream msg, f), e).
      split; [done|]. apply Z.eqb_refl. }
  destruct (existsb (fun p => p.1.1 =? stream msg) m), (map_lower_bound _ m) as [[k e]|].
  - by rewrite (proj2 Hb (proj1 Hreg eq_refl)).
  - destruct Hb. by apply Hreg.
  - destruct (k.1 =? stream msg); [|done]. by discriminate (proj2 Hreg (proj1 Hb eq_refl)).
  - done.
Qed.

(** The factory answers the question the S9 errors need: for every factory
    built by [register_message], a message is [kOk] or [kIllegalData] exactly when
    its (stream, function) pair is registered, according to the registered body
    check; an unregistered pair is [kUnknownFunction] exactly when some function of
    its stream is registered, and [kUnknownStream] otherwise. *)
Theorem factory_check_spec m msg :
  factory_ok m ->
  match lookup_key (stream msg, function msg) m with
  | Some e =>
      factory_check m msg =
        if match entry_check e with None => true | Some c => c (body msg) end
        then kOk else kIllegalData
  | None =>
      (factory_check m msg = kUnknownFunction <-> stream_registered (stream msg) m) /\
      (factory_check m msg = kUnknownStream <-> ~ stream_registered (stream msg) m)
  end.
Proof.
  intros Hok. unfold factory_check. rewrite map_find_spec by apply Hok.
  destruct (lookup_key _ m) as [e|] eqn:E; [done|].
  pose proof (lower_bound_stream (stream msg) m Hok) as H.
  destruct (map_lower_bound _ m) as [[k e]|]; [|by split].
  destruct (k.1 =? stream msg); naive_solver.
Qed.

Definition sample_factory : MessageFactory :=
  register_message 1 13 "S1F13" (fun _ => true)
    (register_message 1 1 "S1F1" (fun b => bool_decide (b = None)) []).

Lemma factory_check_spec_witness :
  factory_check sample_factory (mkMessage 1 1 true None) = kOk /\
  (factory_check sample_factory (mkMessage 1 2 true None) = kUnknownFunction <->
     stream_registered 1 sample_factory).
Proof.
  assert (Hok : factory_ok sample_factory).
  { repeat apply register_message_ok; try lia. split; constructor. }
  split.
  - exact (factory_check_spec sample_factory (mkMessage 1 1 true None) Hok).
  - exact (proj1 (factory_check_spec sample_factory (mkMessage 1 2 true None) Hok)).
Defined.
