(* ===== verification/TextDump.v ===== *)
(** * Readable text of items and messages

    include/ssim/secsgem/secs2/text_dump.hpp and src/secsgem/secs2/text_dump.cpp: the
    text of log lines and message traces. Each [append_] function of the code is the
    text it appends. *)

From S2P Require Import CLibrary NumberText Prelude Secs2Item Secs2Message.

Definition kDumpMaxElements : nat := 16.
Definition kDumpMaxChars : nat := 64.

Definition backslash : ascii := "\"%char.

(** One character of a string. *)
Definition dump_char (c : ascii) : string :=
  if bool_decide (c = quote) || bool_decide (c = backslash) then String backslash (String c EmptyString)
  else if code_between 0x20 0x7E c then String c EmptyString
  else "\x" +:+ hex2 (char_code c).

Fixpoint dump_chars (n : nat) (text : string) : string :=
  match n, text with
  | S n, String c text => dump_char c +:+ dump_chars n text
  | _, _ => EmptyString
  end.

Definition append_ascii (text : string) : string :=
  String quote
    (dump_chars kDumpMaxChars text
     +:+ (if (kDumpMaxChars <? String.length text)%nat then "..." else EmptyString)
     +:+ String quote EmptyString).

Definition concat_map {A} (f : A -> string) (l : list A) : string :=
  foldr (fun x s => f x +:+ s) EmptyString l.

(** The note after the elements shown. *)
Definition cut_note {A} (what : string) (l : list A) : string :=
  if (kDumpMaxElements <? length l)%nat
  then " ... (" +:+ pretty (length l) +:+ " " +:+ what +:+ ")" else EmptyString.

Definition append_array (show : Z -> string) (values : list Z) : string :=
  concat_map (fun v => String " " (show v)) (take kDumpMaxElements values)
  +:+ cut_note "total" values.

Fixpoint append_item (it : Item) : string :=
  "<" +:+ format_to_string (format it) +:+
  match it with
  | list_ children =>
      " [" +:+ pretty (length children) +:+ "]" +:+
      (fix go (n : nat) (l : list Item) : string :=
         match n, l with
         | S n, i :: l => String " " (append_item i) +:+ go n l
         | _, _ => EmptyString
         end) kDumpMaxElements children
      +:+ cut_note "entries" children
  | ascii_ text => String " " (append_ascii text)
  | binary v => append_array (fun b => "0x" +:+ hex2 b) v
  | boolean v => concat_map (fun b => if b =? 0 then " false" else " true") v
  | i1 v | i2 v | i4 v | i8 v | u1 v | u2 v | u4 v | u8 v => append_array pretty v
  | f4 v => append_array (fun b => format_g 9 (to_double (float_of_bits b))) v
  | f8 v => append_array (fun b => format_g 17 (double_of_bits b)) v
  end +:+ ">".

Definition to_text (it : Item) : string := append_item it.

(** [to_text] of a message. *)
Definition message_text (m : Message) : string :=
  "S" +:+ pretty (stream m) +:+ "F" +:+ pretty (function m) +:+
  (if w_bit m then " W" else EmptyString) +:+
  match body m with Some it => String " " (append_item it) | None => EmptyString end.

(** ** The text is one line of printable characters *)

Definition printable (c : ascii) : bool := code_between 0x20 0x7E c.
Abbreviation clean s := (string_all printable s = true).

Lemma clean_app a b : clean a -> clean b -> clean (a +:+ b).
Proof. intros Ha Hb. by rewrite string_all_app, Ha. Qed.

Lemma clean_cons c s : printable c = true -> clean s -> clean (String c s).
Proof. intros Hc Hs. simpl. by rewrite Hc. Qed.

Lemma clean_digits s : string_all isdigit s = true -> clean s.
Proof.
  apply string_all_impl. intros c Hc%isdigit_range. unfold printable, code_between. lia.
Qed.

Lemma clean_pretty_N (n : N) : clean (pretty n).
Proof. apply clean_digits, pretty_N_digits. Qed.

Lemma clean_pretty_Z (v : Z) : clean (pretty v).
Proof.
  destruct (Z.lt_ge_cases v 0).
  - rewrite pretty_Z_neg by done. apply clean_cons; [done|apply clean_pretty_N].
  - rewrite pretty_Z_nonneg by done. apply clean_pretty_N.
Qed.

Lemma clean_pretty_nat (n : nat) : clean (pretty n).
Proof. apply clean_pretty_N. Qed.

Create HintDb clean.
#[local] Hint Resolve clean_app clean_cons clean_pretty_N clean_pretty_Z clean_pretty_nat : clean.

Lemma clean_format_g P x : clean (format_g P x).
Proof.
  eapply string_all_impl, numeric_format_g. intros c. apply number_char_cases; [|done].
  intros d Hd%isdigit_range. unfold printable, code_between. lia.
Qed.

Lemma hex_char_printable d : 0 <= d < 16 -> printable (hex_char d) = true.
Proof.
  intros Hd. assert (d = 0 \/ d = 1 \/ d = 2 \/ d = 3 \/ d = 4 \/ d = 5 \/ d = 6 \/ d = 7 \/ d = 8 \/
    d = 9 \/ d = 10 \/ d = 11 \/ d = 12 \/ d = 13 \/ d = 14 \/ d = 15) as H by lia.
  by repeat (destruct H as [->|H]; [reflexivity|]); subst.
Qed.

Lemma clean_hex2 v : uint_ok 8 v -> clean (hex2 v).
Proof.
  intros Hv. unfold hex2. repeat apply clean_cons; [| |done]; apply hex_char_printable.
  - split; [apply Z.div_pos; int_lia|apply Z.div_lt_upper_bound; int_lia].
  - apply Z.mod_pos_bound. lia.
Qed.

Lemma char_code_range c : uint_ok 8 (char_code c).
Proof. destruct c as [[] [] [] [] [] [] [] []]; vm_compute; split; congruence. Qed.

Lemma clean_dump_char c : clean (dump_char c).
Proof.
  unfold dump_char. destruct (_ || _) eqn:H.
  - apply orb_prop in H as [->%bool_decide_eq_true | ->%bool_decide_eq_true]; done.
  - destruct (code_between _ _ c) eqn:Hc; [by apply clean_cons|].
    apply clean_app; [done|]. apply clean_hex2, char_code_range.
Qed.

Lemma clean_dump_chars n s : clean (dump_chars n s).
Proof.
  revert s. induction n as [|n IH]; intros [|c s]; try done. apply clean_app; [apply clean_dump_char|done].
Qed.

Lemma clean_concat_map {A} (f : A -> string) l :
  Forall (fun x => clean (f x)) l -> clean (concat_map f l).
Proof. induction 1; [done|]. by apply clean_app. Qed.

Lemma clean_cut_note {A} what (l : list A) : clean what -> clean (cut_note what l).
Proof. intros Hw. unfold cut_note. destruct (_ <? _)%nat; auto 8 with clean. Qed.

Lemma clean_append_array show values : Forall (fun v => clean (show v)) values ->
  clean (append_array show values).
Proof.
  intros Hs. apply clean_app; [|by apply clean_cut_note]. apply clean_concat_map, Forall_take.
  eapply Forall_impl; [exact Hs|]. intros v Hv. by apply clean_cons.
Qed.

Lemma clean_append_item it : item_ok it -> clean (append_item it).
Proof.
  induction it as [l IH|it Hl] using item_ind'; intros Hok.
  - apply item_ok_list in Hok. cbn [append_item]. do 2 (apply clean_app; [done|]).
    apply clean_app; [|done]. do 3 (apply clean_app; [first [done|apply clean_pretty_nat]|]).
    apply clean_app; [|by apply clean_cut_note]. generalize kDumpMaxElements as n.
    induction Hok as [|i l Hi Hok IHl]; intros [|n]; try done. apply Forall_cons in IH as [Hp IH].
    apply clean_app; [apply clean_cons; auto|]. by apply IHl.
  - assert (clean (format_to_string (format it))) as Hf by (by destruct it).
    destruct it; simpl in Hok; try (by destruct (Hl items));
      cbn [append_item]; (apply clean_app; [done|]); (apply clean_app; [exact Hf|]);
      (apply clean_app; [|done]);
      try (apply clean_append_array; apply Forall_true; intros;
           first [apply clean_pretty_Z | apply clean_format_g]).
    + apply clean_append_array. eapply Forall_impl; [exact Hok|]. intros v Hv.
      apply clean_app; [done|by apply clean_hex2].
    + apply clean_concat_map, Forall_true. intros x. by destruct (x =? 0).
    + apply clean_cons; [done|]. unfold append_ascii. apply clean_cons; [done|].
      apply clean_app; [apply clean_dump_chars|]. apply clean_app; [|done].
      by destruct (_ <? _)%nat.
Qed.

(** Whatever the peer sent, the text of a message or item is one line of printable
    ASCII: no line break, control or escape character of a received string reaches the
    log, and a quote or backslash inside a string is escaped. *)
Theorem dump_is_printable m :
  (forall it, body m = Some it -> item_ok it) ->
  clean (message_text m) /\ (forall it, body m = Some it -> clean (to_text it)).
Proof.
  intros Hok. split.
  - unfold message_text. do 5 (apply clean_app; [first [done|apply clean_pretty_Z|by destruct (w_bit m)]|]).
    destruct (body m) as [it|]; [|done]. apply clean_cons; [done|]. by apply clean_append_item, Hok.
  - intros it Hit. by apply clean_append_item, Hok.
Qed.

Lemma dump_is_printable_witness :
  message_text (mkMessage 5 1 true (Some (ascii_ (String "010" (String quote "x"))))) =
    "S5F1 W <A " +:+ String quote ("\x0A\" +:+ String quote ("x" +:+ String quote ">")) /\
  clean (message_text (mkMessage 5 1 true (Some (ascii_ (String "010" (String quote "x")))))).
Proof.
  split; [vm_compute; reflexivity|].
  apply (dump_is_printable (mkMessage 5 1 true (Some (ascii_ (String "010" (String quote "x")))))).
  intros it [= <-]. exact I.
Defined.

(** The text of a BOOLEAN array is not cut: it grows with the array. *)
Lemma boolean_dump_unbounded n :
  (5 * n <= String.length (to_text (boolean (replicate n 1%Z))))%nat.
Proof.
  unfold to_text. cbn [append_item]. rewrite !string_length_app.
  enough (5 * n <= String.length
    (concat_map (fun b : Z => if (b =? 0)%Z then " false" else " true") (replicate n 1%Z)))%nat by lia.
  induction n as [|n IH]; [done|]. simpl in *. lia.
Qed.

(** Any other array shows at most sixteen elements. *)
Lemma array_dump_cut show values extra : (kDumpMaxElements <= length values)%nat ->
  append_array show (values ++ extra) =
    concat_map (fun v => String " " (show v)) (take kDumpMaxElements values)
    +:+ cut_note "total" (values ++ extra).
Proof. intros Hl. unfold append_array. by rewrite take_app_le. Qed.
