(* ===== verification/HsmsFrame.v ===== *)
(** * HSMS frames

    include/ssim/secsgem/hsms/frame.hpp, frame_decoder.hpp, data_message.hpp and
    src/secsgem/hsms/frame.cpp, frame_decoder.cpp, data_message.cpp: the frame
    format, the stream decoder and the step from a data frame to a SECS-II
    message. *)

From S2P Require Import Prelude Secs2Item Secs2Codec Secs2Message.

(** ** Frames (frame.hpp) *)

Definition kLengthFieldSize : nat := 4.
Definition kHeaderSize : nat := 10.
Definition kControlSessionId : Z := 0xFFFF.

Definition kErrFrameTooShort : Z := 400.
Definition kErrFrameTooLong : Z := 401.
Definition kErrFrameTooBig : Z := 402.
Definition kErrNotADataFrame : Z := 403.

(** [enum class SType] and its values. *)
Inductive SType :=
| kData | kSelectReq | kSelectRsp | kDeselectReq | kDeselectRsp
| kLinktestReq | kLinktestRsp | kRejectReq | kSeparateReq.

#[global] Instance SType_eq_dec : EqDecision SType.
Proof. solve_decision. Defined.

Definition stype_code (t : SType) : Z :=
  match t with
  | kData => 0 | kSelectReq => 1 | kSelectRsp => 2 | kDeselectReq => 3 | kDeselectRsp => 4
  | kLinktestReq => 5 | kLinktestRsp => 6 | kRejectReq => 7 | kSeparateReq => 9
  end.

Definition stype_to_string (t : SType) : string :=
  match t with
  | kData => "Data" | kSelectReq => "Select.req" | kSelectRsp => "Select.rsp"
  | kDeselectReq => "Deselect.req" | kDeselectRsp => "Deselect.rsp"
  | kLinktestReq => "Linktest.req" | kLinktestRsp => "Linktest.rsp"
  | kRejectReq => "Reject.req" | kSeparateReq => "Separate.req"
  end%string.

Definition stype_from_byte (b : Z) : option SType :=
  match b with
  | 0 => Some kData
  | 1 => Some kSelectReq
  | 2 => Some kSelectRsp
  | 3 => Some kDeselectReq
  | 4 => Some kDeselectRsp
  | 5 => Some kLinktestReq
  | 6 => Some kLinktestRsp
  | 7 => Some kRejectReq
  | 9 => Some kSeparateReq
  | _ => None
  end.

(** [struct Header] and [struct Frame]. *)
Record Header := mkHeader {
  session_id : Z; byte2 : Z; byte3 : Z; ptype : Z; stype : Z; system_bytes : Z
}.
Record Frame := mkFrame { header : Header; frame_body : list Z }.

#[global] Instance Header_eq_dec : EqDecision Header.
Proof. solve_decision. Defined.
#[global] Instance Frame_eq_dec : EqDecision Frame.
Proof. solve_decision. Defined.

Definition header_w_bit (h : Header) : bool := negb (Z.land (byte2 h) 0x80 =? 0).
Definition header_stream (h : Header) : Z := Z.land (byte2 h) 0x7F.
Definition header_function (h : Header) : Z := byte3 h.

(** What the field types of [Header] and [Frame] guarantee. *)
Definition header_ok (h : Header) : Prop :=
  uint_ok 16 (session_id h) /\ byte_ok (byte2 h) /\ byte_ok (byte3 h) /\
  byte_ok (ptype h) /\ byte_ok (stype h) /\ uint_ok 32 (system_bytes h).
Definition frame_ok (f : Frame) : Prop := header_ok (header f) /\ bytes_ok (frame_body f).

Definition put_be16 (v : Z) : list Z := [wrap 8 (Z.shiftr v 8); Z.land v 0xFF].

(** [put_be32]: the loop over the shifts 24, 16, 8, 0. *)
Definition put_be32 (v : Z) : list Z :=
  map (fun shift => Z.land (Z.shiftr v shift) 0xFF) [24; 16; 8; 0].

Definition make_control_frame (t : SType) (sys b2 b3 : Z) : Frame :=
  mkFrame (mkHeader kControlSessionId b2 b3 0 (stype_code t) sys) [].

Definition make_data_frame (session stream function : Z) (w : bool) (sys : Z) (bd : list Z) : Frame :=
  mkFrame (mkHeader session (Z.lor (Z.land stream 0x7F) (if w then 0x80 else 0)) function 0
             (stype_code kData) sys) bd.

Definition header_bytes (h : Header) : list Z :=
  put_be16 (session_id h) ++ [byte2 h; byte3 h; ptype h; stype h] ++ put_be32 (system_bytes h).

Definition encode_frame (f : Frame) : Result (list Z) :=
  let len := Z.of_nat (kHeaderSize + length (frame_body f)) in
  if 2 ^ 32 - 1 <? len then Err (mkError kErrFrameTooBig "frame does not fit a 32-bit length")
  else Ok (put_be32 len ++ put_be16 (session_id (header f)) ++
           [byte2 (header f); byte3 (header f); ptype (header f); stype (header f)] ++
           put_be32 (system_bytes (header f)) ++ frame_body f).

(** ** The stream decoder (frame_decoder.cpp) *)

Definition load_be32 (p : list Z) : Z :=
  Z.lor (Z.lor (Z.lor (Z.shiftl (nth 0 p 0) 24) (Z.shiftl (nth 1 p 0) 16))
           (Z.shiftl (nth 2 p 0) 8)) (nth 3 p 0).
Definition load_be16 (p : list Z) : Z :=
  wrap 16 (Z.lor (Z.shiftl (nth 0 p 0) 8) (nth 1 p 0)).

(** The frame at the front of [p], whose length field is [len]. *)
Definition read_frame (len : Z) (p : list Z) : Frame :=
  let h := drop kLengthFieldSize p in
  mkFrame (mkHeader (load_be16 h) (nth 2 h 0) (nth 3 h 0) (nth 4 h 0) (nth 5 h 0)
             (load_be32 (drop 6 h)))
          (drop kHeaderSize (take (Z.to_nat len) h)).

Record FrameDecoder := mkDecoder {
  max_frame_bytes : Z;
  buffer : list Z;
  failed : bool;
  error : Error
}.

Definition new_decoder (max : Z) : FrameDecoder := mkDecoder max [] false (mkError 0 "").

Definition has_partial (d : FrameDecoder) : bool := bool_decide (buffer d <> []).

(** The [while] loop of [feed] on the bytes from [offset] on: the frames they
    complete and the bytes left over. Every turn drops at least 14 bytes, so the
    number of bytes is more than enough fuel ([feed_loop_fuel]). *)
Fixpoint feed_loop (fuel : nat) (max : Z) (p : list Z) : Result (list Frame * list Z) :=
  match fuel with
  | O => Ok ([], p)
  | S fuel' =>
      if (length p <? kLengthFieldSize)%nat then Ok ([], p)
      else
        let len := load_be32 p in
        if len <? Z.of_nat kHeaderSize then
          Err (mkError kErrFrameTooShort "frame length is below the 10-byte header")
        else if max <? len then
          Err (mkError kErrFrameTooLong "frame length is above the configured maximum")
        else if Z.of_nat (length p) <? Z.of_nat kLengthFieldSize + len then Ok ([], p)
        else
          let? ' (frames, q) := feed_loop fuel' max (drop (kLengthFieldSize + Z.to_nat len) p) in
          Ok (read_frame len p :: frames, q)
  end.

(** [FrameDecoder::feed]. A framing error leaves the buffer as it is and makes
    every later call report the same error. *)
Definition feed (d : FrameDecoder) (bytes : list Z) : Result (list Frame) * FrameDecoder :=
  if failed d then (Err (error d), d)
  else
    let buf := buffer d ++ bytes in
    match feed_loop (length buf) (max_frame_bytes d) buf with
    | Ok (frames, q) => (Ok frames, mkDecoder (max_frame_bytes d) q false (error d))
    | Err e => (Err e, mkDecoder (max_frame_bytes d) buf true e)
    end.

(** A connection's reads one after another, up to the first error (where the
    session closes it): frames delivered, error if any, decoder. *)
Fixpoint feed_all (d : FrameDecoder) (chunks : list (list Z))
    : list Frame * option Error * FrameDecoder :=
  match chunks with
  | [] => ([], None, d)
  | c :: cs =>
      match feed d c with
      | (Err e, d') => ([], Some e, d')
      | (Ok frames, d') =>
          let '(more, e, d'') := feed_all d' cs in (frames ++ more, e, d'')
      end
  end.

(** [to_message] (data_message.cpp). *)
Definition to_message (f : Frame) : Result Message :=
  let h := header f in
  if negb (stype h =? stype_code kData) then
    Err (mkError kErrNotADataFrame "frame is not a data message")
  else
    let msg b := mkMessage (header_stream h) (header_function h) (header_w_bit h) b in
    match frame_body f with
    | [] => Ok (msg None)
    | _ => let? b := decode_body (frame_body f) in Ok (msg (Some b))
    end.

(** ** Fields *)

Lemma put_be16_spec v : uint_ok 16 v -> put_be16 v = be_bytes 2 v.
Proof.
  intros Hv. unfold put_be16. simpl. rewrite land_255, Z.div_1_r.
  rewrite Z.shiftr_div_pow2 by lia. done.
Qed.

Lemma put_be32_spec v : put_be32 v = be_bytes 4 v.
Proof.
  unfold put_be32. cbn [map be_bytes]. rewrite !land_255, !Z.shiftr_div_pow2 by lia. done.
Qed.

Lemma load_be32_spec a b c d tl :
  bytes_ok [a; b; c; d] -> load_be32 (a :: b :: c :: d :: tl) = be_value [a; b; c; d].
Proof.
  intros H. repeat (apply Forall_cons in H as [? H]). unfold load_be32, be_value. simpl.
  replace (Z.lor (Z.lor (Z.shiftl a 24) (Z.shiftl b 16)) (Z.shiftl c 8))
    with (Z.shiftl (Z.lor (Z.shiftl (Z.lor (Z.shiftl a 8) b) 8) c) 8).
  2: { by rewrite !Z.shiftl_lor, !Z.shiftl_shiftl by lia. }
  rewrite !lor_shiftl_add by int_lia. lia.
Qed.

Lemma load_be32_put v tl : uint_ok 32 v -> load_be32 (put_be32 v ++ tl) = v.
Proof.
  intros Hv. rewrite put_be32_spec. pose proof (be_bytes_ok 4 v) as Hok.
  cbn [be_bytes] in *. cbn [app]. rewrite load_be32_spec by done.
  apply (be_value_bytes_id 4). done.
Qed.

Lemma load_be16_put v tl : uint_ok 16 v -> load_be16 (put_be16 v ++ tl) = v.
Proof.
  intros Hv. unfold load_be16, put_be16. cbn [app nth].
  rewrite land_255, Z.shiftr_div_pow2, lor_shiftl_add by (try apply Z.mod_pos_bound; lia).
  change (2 ^ 8) with 256. unfold wrap at 2. change (2 ^ 8) with 256.
  rewrite (Z.mod_small (v / 256)).
  - rewrite wrap_id; rewrite (Z.mul_comm _ 256), <- Z.div_mod by lia; done.
  - unfold uint_ok in Hv. split; [apply Z.div_pos; lia|apply Z.div_lt_upper_bound; lia].
Qed.

Lemma put_be16_length v : length (put_be16 v) = 2%nat.
Proof. done. Qed.
Lemma put_be32_length v : length (put_be32 v) = 4%nat.
Proof. done. Qed.
Lemma put_be32_ok v : bytes_ok (put_be32 v).
Proof. rewrite put_be32_spec. apply be_bytes_ok. Qed.
Lemma put_be16_ok v : bytes_ok (put_be16 v).
Proof.
  apply Forall_cons_2; [apply wrap_range; lia|]. apply Forall_cons_2; [apply land_255_ok|done].
Qed.

Lemma header_bytes_length h : length (header_bytes h) = kHeaderSize.
Proof. done. Qed.

Lemma header_bytes_ok h : header_ok h -> bytes_ok (header_bytes h).
Proof.
  intros (_ & ? & ? & ? & ? & _). unfold header_bytes.
  repeat (apply Forall_app; split); auto using put_be16_ok, put_be32_ok, Forall_cons_2.
Qed.

(** The frame's length field, and its encoding as length, header, body. *)
Definition frame_length (f : Frame) : Z := Z.of_nat (kHeaderSize + length (frame_body f)).

Lemma encode_frame_Ok f bs :
  encode_frame f = Ok bs ->
  frame_length f < 2 ^ 32 /\
  bs = put_be32 (frame_length f) ++ header_bytes (header f) ++ frame_body f.
Proof.
  unfold encode_frame, frame_length. intros H. case_match eqn:E; [done|]. apply Z.ltb_ge in E.
  simplify_eq. split; [lia|]. unfold header_bytes. by rewrite <- !app_assoc.
Qed.

Lemma encode_frame_fits f :
  frame_length f < 2 ^ 32 ->
  encode_frame f = Ok (put_be32 (frame_length f) ++ header_bytes (header f) ++ frame_body f).
Proof.
  intros H. unfold encode_frame. fold (frame_length f). rewrite (proj2 (Z.ltb_ge _ _)) by lia.
  unfold header_bytes. by rewrite <- !app_assoc.
Qed.

Lemma read_frame_encode f q :
  frame_ok f -> frame_length f < 2 ^ 32 ->
  read_frame (frame_length f)
    (put_be32 (frame_length f) ++ header_bytes (header f) ++ frame_body f ++ q) = f.
Proof.
  intros [(H16 & _ & _ & _ & _ & H32) _] Hlen. unfold read_frame.
  rewrite drop_app_length' by done. destruct f as [[sid b2 b3 pt st sys] bd].
  cbn [header frame_body session_id system_bytes] in *.
  set (hd := header_bytes _).
  assert (Hload : load_be16 (hd ++ bd ++ q) = sid).
  { unfold hd, header_bytes. simpl session_id. rewrite <- app_assoc. by apply load_be16_put. }
  assert (Hsys : load_be32 (drop 6 (hd ++ bd ++ q)) = sys).
  { change (drop 6 (hd ++ bd ++ q)) with (put_be32 sys ++ bd ++ q). by apply load_be32_put. }
  rewrite Hload, Hsys. f_equal.
  unfold frame_length. simpl frame_body. rewrite Nat2Z.id, app_assoc.
  rewrite take_app_length' by (by rewrite length_app).
  by rewrite drop_app_length'.
Qed.

(** ** The decoder loop *)

Lemma feed_loop_length fuel max p fs q :
  feed_loop fuel max p = Ok (fs, q) -> (length q <= length p)%nat.
Proof.
  revert p fs q. induction fuel as [|fuel IH]; simpl; intros p fs q H; [by simplify_eq|].
  repeat (case_match; [by simplify_eq|]). inv_result. destruct x as [fs' q']. inv_result.
  apply IH in Hx. rewrite length_drop in Hx. lia.
Qed.

(** Any two fuels that cover the bytes give the same result. *)
Lemma feed_loop_fuel fuel1 fuel2 max p :
  (length p <= fuel1)%nat -> (length p <= fuel2)%nat ->
  feed_loop fuel1 max p = feed_loop fuel2 max p.
Proof.
  revert fuel2 p. induction fuel1 as [|fuel1 IH]; intros fuel2 p H1 H2.
  { destruct p; [|simpl in H1; lia]. by destruct fuel2. }
  destruct fuel2 as [|fuel2]; [destruct p; [done|simpl in H2; lia]|]. simpl.
  repeat (case_match; [done|]). rewrite (IH fuel2); [done| |];
    rewrite length_drop; apply Nat.ltb_ge in H; unfold kLengthFieldSize in *; lia.
Qed.

(** The loop with exactly the fuel [feed] gives it. *)
Abbreviation frames_of max p := (feed_loop (length p) max p).

Lemma feed_loop_step max p :
  frames_of max p =
    if (length p <? kLengthFieldSize)%nat then Ok ([], p)
    else
      let len := load_be32 p in
      if len <? Z.of_nat kHeaderSize then
        Err (mkError kErrFrameTooShort "frame length is below the 10-byte header")
      else if max <? len then
        Err (mkError kErrFrameTooLong "frame length is above the configured maximum")
      else if Z.of_nat (length p) <? Z.of_nat kLengthFieldSize + len then Ok ([], p)
      else
        let? ' (frames, q) := frames_of max (drop (kLengthFieldSize + Z.to_nat len) p) in
        Ok (read_frame len p :: frames, q).
Proof.
  destruct p as [|b p]; [done|]. cbn [length feed_loop].
  repeat (case_match; [done|]). erewrite feed_loop_fuel; [done| |done].
  rewrite length_drop. simpl. unfold kLengthFieldSize. lia.
Qed.

Lemma nth_app_front i (p q : list Z) : (i < length p)%nat -> nth i (p ++ q) 0 = nth i p 0.
Proof. intros. by rewrite app_nth1. Qed.

Lemma load_be32_app p q : (4 <= length p)%nat -> load_be32 (p ++ q) = load_be32 p.
Proof. intros. unfold load_be32. by rewrite !nth_app_front by lia. Qed.

Lemma read_frame_app len p q :
  Z.of_nat kHeaderSize <= len -> Z.of_nat kLengthFieldSize + len <= Z.of_nat (length p) ->
  read_frame len (p ++ q) = read_frame len p.
Proof.
  unfold kHeaderSize, kLengthFieldSize. intros H1 H2. unfold read_frame, kLengthFieldSize.
  rewrite drop_app_le by lia.
  assert (Hd : (10 <= length (drop 4 p))%nat) by (rewrite length_drop; lia).
  rewrite take_app_le by (rewrite length_drop; lia).
  unfold load_be16. rewrite !nth_app_front by lia.
  rewrite drop_app_le, load_be32_app by (rewrite ?length_drop; lia). done.
Qed.

(** Feeding more bytes continues from what was left over. *)
Lemma frames_of_app max p q :
  frames_of max (p ++ q) =
    let? ' (fs, r) := frames_of max p in
    let? ' (fs', r') := frames_of max (r ++ q) in
    Ok (fs ++ fs', r').
Proof.
  assert (Hid : forall r : Result (list Frame * list Z),
    r = let? ' (fs', r') := r in Ok ([] ++ fs', r')) by (by intros [[? ?]|]).
  remember (length p) as n eqn:Hn. revert p Hn.
  induction n as [n IH] using lt_wf_ind. intros p ->.
  destruct (Nat.ltb_spec (length p) kLengthFieldSize) as [Hs|Hs].
  { rewrite (feed_loop_step _ p), (proj2 (Nat.ltb_lt _ _)) by done. simpl. apply Hid. }
  rewrite (feed_loop_step _ (p ++ q)), (feed_loop_step _ p).
  rewrite length_app, load_be32_app by done.
  rewrite !(proj2 (Nat.ltb_ge _ _)) by lia. cbv zeta.
  destruct (Z.ltb_spec (load_be32 p) (Z.of_nat kHeaderSize)) as [|H10]; [done|].
  destruct (Z.ltb_spec max (load_be32 p)) as [|Hmax]; [done|].
  destruct (Z.ltb_spec (Z.of_nat (length p)) (Z.of_nat kLengthFieldSize + load_be32 p)) as [Hw|Hw].
  { transitivity (frames_of max (p ++ q)); [|apply Hid].
    rewrite (feed_loop_step _ (p ++ q)), length_app, load_be32_app by done.
    rewrite (proj2 (Nat.ltb_ge _ _)) by lia. cbv zeta.
    by rewrite (proj2 (Z.ltb_ge _ _) H10), (proj2 (Z.ltb_ge _ _) Hmax). }
  rewrite (proj2 (Z.ltb_ge _ _)) by lia.
  rewrite drop_app_le, read_frame_app by lia.
  rewrite (IH (length (drop (kLengthFieldSize + Z.to_nat (load_be32 p)) p))); [| |done].
  2: { rewrite length_drop. unfold kLengthFieldSize in *. lia. }
  destruct (frames_of max (drop _ p)) as [[fs r]|]; [|done]. simpl.
  by destruct (frames_of max (r ++ q)) as [[fs' r']|].
Qed.

(** What is left over is short of a frame: feeding nothing yields nothing. *)
Lemma frames_of_settled max p fs q : frames_of max p = Ok (fs, q) -> frames_of max q = Ok ([], q).
Proof.
  remember (length p) as n eqn:Hn. revert p Hn fs.
  induction n as [n IH] using lt_wf_ind. intros p -> fs H. pose proof H as Hp.
  rewrite feed_loop_step in H. unfold kLengthFieldSize in *. case_match eqn:E; [by simplify_eq|].
  apply Nat.ltb_ge in E. cbv zeta in H. case_match; [done|]. case_match; [done|].
  case_match; [by simplify_eq|]. inv_result. destruct x as [fs' q']. inv_result.
  refine (IH _ _ _ eq_refl _ Hx). rewrite length_drop. lia.
Qed.

Lemma frames_of_leftover max p fs q :
  0 <= max -> frames_of max p = Ok (fs, q) ->
  Z.of_nat (length q) < Z.of_nat kLengthFieldSize + max.
Proof.
  intros Hmax H%frames_of_settled. unfold kLengthFieldSize in *. rewrite feed_loop_step in H.
  case_match eqn:E; [apply Nat.ltb_lt in E; unfold kLengthFieldSize in *; lia|].
  cbv zeta in H. case_match; [done|]. case_match eqn:Em; [done|]. apply Z.ltb_ge in Em.
  case_match eqn:El; [apply Z.ltb_lt in El; unfold kLengthFieldSize in *; lia|].
  inv_result. by destruct x.
Qed.

(** ** The decoder's guarantees *)

(** A decoder between two calls: failed for good, or with less than one frame
    buffered. *)
Definition decoder_ok (d : FrameDecoder) : Prop :=
  failed d = false -> frames_of (max_frame_bytes d) (buffer d) = Ok ([], buffer d).

Lemma new_decoder_ok max : decoder_ok (new_decoder max).
Proof. done. Qed.

Lemma feed_ok d c r d' : feed d c = (r, d') -> decoder_ok d -> decoder_ok d'.
Proof.
  unfold feed, decoder_ok. intros H Hd. destruct (failed d) eqn:E; [simplify_eq; congruence|].
  destruct (frames_of _ _) as [[fs q]|] eqn:El; simplify_eq; simpl; [|done].
  intros _. by eapply frames_of_settled.
Qed.

Lemma feed_max d c r d' : feed d c = (r, d') -> max_frame_bytes d' = max_frame_bytes d.
Proof.
  unfold feed. intros H. destruct (failed d); [by simplify_eq|].
  destruct (frames_of _ _) as [[fs q]|]; by simplify_eq.
Qed.

Lemma feed_all_spec d chunks :
  failed d = false -> decoder_ok d ->
  match frames_of (max_frame_bytes d) (buffer d ++ concat chunks) with
  | Ok (fs, q) => feed_all d chunks = (fs, None, mkDecoder (max_frame_bytes d) q false (error d))
  | Err e =>
      exists k fs q d', (k < length chunks)%nat /\ feed_all d chunks = (fs, Some e, d') /\
        frames_of (max_frame_bytes d) (buffer d ++ concat (take k chunks)) = Ok (fs, q) /\
        frames_of (max_frame_bytes d) (buffer d ++ concat (take (S k) chunks)) = Err e /\
        failed d' = true /\ error d' = e
  end.
Proof.
  revert d. induction chunks as [|c cs IH]; intros d Hf Hd; simpl.
  { rewrite app_nil_r. rewrite (Hd Hf). by destruct d; simpl in *; subst. }
  rewrite app_assoc, frames_of_app. unfold feed. rewrite Hf.
  destruct (frames_of _ (buffer d ++ c)) as [[fs q]|e] eqn:El; simpl.
  2:{ exists 0%nat, [], (buffer d), (mkDecoder (max_frame_bytes d) (buffer d ++ c) true e). simpl.
      rewrite !app_nil_r. split_and!; auto with lia. }
  specialize (IH (mkDecoder (max_frame_bytes d) q false (error d)) eq_refl).
  simpl in IH. ospecialize (IH _); [intros _; simpl; by eapply frames_of_settled|].
  destruct (frames_of _ (q ++ concat cs)) as [[fs' q']|e]; simpl.
  - by rewrite IH.
  - destruct IH as (k & fs' & q' & d' & Hk & -> & H1 & H2 & ? & ?).
    exists (S k), (fs ++ fs'), q', d'. cbn [take concat] in *.
    rewrite !app_assoc, !(frames_of_app _ (buffer d ++ c)), El. cbn [result_bind]. rewrite H1, H2. split_and!; auto with lia.
Qed.

(** [C6] TCP gives no message boundaries, and a sound stream needs none: however
    a stream without a framing error is cut into reads, the session gets the same frames in
    the same order and the decoder ends in the same state as if the stream had arrived in
    one read. A stream with a framing error gives that error under every cut, once the
    read that completes it is fed; the frames delivered before are exactly those that the reads
    before that one hold complete. Which these are depends on the cut: frames that
    arrive in the same read as the error are lost with it. *)
Theorem feed_chunks_irrelevant max chunks :
  match feed (new_decoder max) (concat chunks) with
  | (Ok frames, d) => feed_all (new_decoder max) chunks = (frames, None, d)
  | (Err e, _) =>
      exists k frames before d, (k < length chunks)%nat /\
        feed (new_decoder max) (concat (take k chunks)) = (Ok frames, before) /\
        (feed (new_decoder max) (concat (take (S k) chunks))).1 = Err e /\
        feed_all (new_decoder max) chunks = (frames, Some e, d) /\ failed d = true /\ error d = e
  end.
Proof.
  pose proof (feed_all_spec (new_decoder max) chunks eq_refl (new_decoder_ok max)) as H.
  unfold feed. cbn [failed new_decoder buffer max_frame_bytes app error] in *.
  destruct (frames_of _ (concat chunks)) as [[fs q]|e]; [done|].
  destruct H as (k & fs & q & d & Hk & Hf & H1 & H2 & ? & ?).
  eexists k, fs, _, d. rewrite H1, H2. by split_and!.
Qed.

(** The cut decides: a complete frame before a wrong length field is delivered when it comes in
    a read of its own, and lost in one read with the error. *)
Lemma frames_lost_with_error :
  let frame := [0; 0; 0; 10; 255; 255; 0; 0; 0; 5; 0; 0; 0; 7] in
  let wrong := [0; 0; 0; 1] in
  let outcome := fun chunks => let '(frames, e, _) := feed_all (new_decoder 16) chunks in (length frames, code <$> e) in
  outcome [frame; wrong] = (1%nat, Some kErrFrameTooShort) /\
  outcome [frame ++ wrong] = (0%nat, Some kErrFrameTooShort).
Proof. vm_compute. done. Qed.

(** A hostile peer cannot make the decoder hoard memory or come back from an
    error: after a successful [feed] fewer than [4 + max_frame_bytes] bytes stay
    buffered, whatever was fed, and after a framing error every later [feed]
    returns that same error and delivers nothing. *)
Theorem feed_bounded max chunks frames e d :
  0 <= max -> feed_all (new_decoder max) chunks = (frames, e, d) ->
  match e with
  | None => Z.of_nat (length (buffer d)) < Z.of_nat kLengthFieldSize + max
  | Some err => forall bytes, feed d bytes = (Err err, d)
  end.
Proof.
  intros Hmax H.
  pose proof (feed_all_spec (new_decoder max) chunks eq_refl (new_decoder_ok max)) as Hs.
  simpl in Hs. destruct (frames_of _ _) as [[fs q]|e'] eqn:El.
  - rewrite H in Hs. simplify_eq. simpl. by eapply frames_of_leftover.
  - destruct Hs as (k & fs & q & d' & _ & Hs & _ & _ & Hfl & He). rewrite H in Hs. simplify_eq.
    intros bytes. unfold feed. by rewrite Hfl.
Qed.

Lemma feed_bounded_witness :
  exists d, feed_all (new_decoder 16) [[0; 0; 0; 10; 255]; [255; 0; 0]] = ([], None, d) /\
    Z.of_nat (length (buffer d)) < Z.of_nat kLengthFieldSize + 16.
Proof.
  eexists. split; [vm_compute; reflexivity|].
  apply (feed_bounded 16 [[0; 0; 0; 10; 255]; [255; 0; 0]] [] None); [lia|].
  vm_compute. reflexivity.
Defined.

(** ** Round trips over a connection *)

Definition frames_fit (max : Z) (fs : list Frame) : Prop :=
  Forall (fun f => frame_ok f /\ frame_length f <= max) fs.

(** The bytes a sender puts on the wire: the encodings one after another. *)
Definition wire (fs : list Frame) : list Z :=
  concat (map (fun f => put_be32 (frame_length f) ++ header_bytes (header f) ++ frame_body f) fs).

Lemma frames_of_wire max fs :
  max < 2 ^ 32 -> frames_fit max fs -> frames_of max (wire fs) = Ok (fs, []).
Proof.
  intros Hmax. induction 1 as [|f fs [Hf Hl] _ IH]; [done|].
  unfold wire in *. cbn [map concat]. rewrite <- !app_assoc.
  set (rest := concat _) in *. rewrite feed_loop_step.
  rewrite load_be32_put by (unfold frame_length in *; int_lia).
  rewrite !length_app, header_bytes_length, put_be32_length.
  rewrite (proj2 (Nat.ltb_ge _ _)) by (unfold kLengthFieldSize; lia). cbv zeta.
  rewrite (proj2 (Z.ltb_ge _ _)) by (unfold frame_length; lia).
  rewrite (proj2 (Z.ltb_ge _ _)) by done.
  rewrite (proj2 (Z.ltb_ge _ _)) by (unfold frame_length, kLengthFieldSize; lia).
  rewrite read_frame_encode by (done || lia).
  rewrite !app_assoc, drop_app_length'; [by rewrite IH|].
  rewrite !length_app, header_bytes_length, put_be32_length.
  unfold frame_length, kLengthFieldSize. lia.
Qed.

Lemma feed_wire d fs :
  failed d = false -> buffer d = [] -> max_frame_bytes d < 2 ^ 32 ->
  frames_fit (max_frame_bytes d) fs -> feed d (wire fs) = (Ok fs, d).
Proof.
  intros Hf Hb Hmax Hfs. unfold feed. rewrite Hf, Hb. cbn [app].
  rewrite frames_of_wire by done. destruct d; simpl in *; by subst.
Qed.

(** [C7] What a peer sends is what the session receives: any sequence of frames
    whose lengths are within the receiver's maximum encodes, and the bytes, cut
    into reads in any way, come out of a fresh decoder as exactly those frames, in
    order, with no error and nothing left in the buffer. *)
Theorem frames_roundtrip max fs chunks :
  max < 2 ^ 32 -> frames_fit max fs -> concat chunks = wire fs ->
  map encode_frame fs =
    map (fun f => Ok (put_be32 (frame_length f) ++ header_bytes (header f) ++ frame_body f)) fs /\
  feed_all (new_decoder max) chunks = (fs, None, new_decoder max).
Proof.
  intros Hmax Hfs Hc. split.
  - clear Hc. induction Hfs as [|f fs [Hf Hl] _ IH]; [done|]. cbn [map].
    by rewrite IH, encode_frame_fits by lia.
  - pose proof (feed_all_spec (new_decoder max) chunks eq_refl (new_decoder_ok max)) as Hs.
    simpl in Hs. rewrite Hc, frames_of_wire in Hs by done. done.
Qed.

Lemma frames_roundtrip_witness :
  feed_all (new_decoder 100)
    [[0; 0; 0; 10; 255; 255]; [0; 0; 0; 1; 0; 0; 0; 7; 0; 0; 0; 12; 0; 0; 129; 13; 0];
     [0; 0; 0; 0; 8; 1; 0]]
  = ([make_control_frame kSelectReq 7 0 0; make_data_frame 0 1 13 true 8 [1; 0]], None,
     new_decoder 100).
Proof.
  apply (frames_roundtrip 100
    [make_control_frame kSelectReq 7 0 0; make_data_frame 0 1 13 true 8 [1; 0]]).
  - lia.
  - repeat apply Forall_cons_2; [| |apply Forall_nil_2];
      (split; [|vm_compute; congruence]); (split; [|by repeat constructor]);
      repeat split; vm_compute; congruence.
  - vm_compute. reflexivity.
Defined.

(** ** Data frames and messages (data_message.cpp) *)

Lemma land_lor_header stream (w : bool) :
  uint_ok 7 stream ->
  Z.land (Z.lor (Z.land stream 0x7F) (if w then 0x80 else 0)) 0x7F = stream /\
  negb (Z.land (Z.lor (Z.land stream 0x7F) (if w then 0x80 else 0)) 0x80 =? 0) = w.
Proof.
  intros Hs.
  assert (H7 : Z.land stream 0x7F = stream).
  { change 0x7F with (Z.ones 7). rewrite Z.land_ones by lia. by apply Z.mod_small. }
  assert (H8 : Z.land stream 0x80 = 0).
  { rewrite <- H7, <- Z.land_assoc. by rewrite Z.land_0_r. }
  rewrite !Z.land_lor_distr_l, H7, H7, H8. by destruct w; rewrite ?Z.lor_0_r.
Qed.

Lemma data_byte2_ok stream (w : bool) :
  uint_ok 7 stream -> byte_ok (Z.lor (Z.land stream 0x7F) (if w then 0x80 else 0)).
Proof.
  intros Hs. change 0x7F with (Z.ones 7). rewrite Z.land_ones by lia.
  rewrite Z.mod_small by done. destruct w; [|rewrite Z.lor_0_r; int_lia].
  rewrite Z.lor_comm. change 0x80 with (Z.shiftl 1 7). rewrite lor_shiftl_add by int_lia.
  int_lia.
Qed.

Lemma make_data_frame_ok session stream function w sys bd :
  uint_ok 16 session -> uint_ok 7 stream -> byte_ok function -> uint_ok 32 sys -> bytes_ok bd ->
  frame_ok (make_data_frame session stream function w sys bd).
Proof.
  intros. split; [|done]. unfold header_ok. simpl. split_and!; try done; by apply data_byte2_ok.
Qed.

(** The message a data frame carries is the message it was made from; the body
    keeps its normal form ([normalize], as in [decode_encode]). *)
Lemma to_message_make_data_frame session m sys bytes :
  uint_ok 7 (stream m) ->
  match body m with None => bytes = [] | Some it => item_ok it /\ encode it = Ok bytes end ->
  to_message (make_data_frame session (stream m) (function m) (w_bit m) sys bytes) =
    Ok (mkMessage (stream m) (function m) (w_bit m) (option_map normalize (body m))).
Proof.
  intros Hs Hb. destruct (land_lor_header (stream m) (w_bit m) Hs) as [H1 H2].
  unfold to_message, make_data_frame. cbn -[Z.land Z.lor decode_body].
  unfold header_stream, header_function, header_w_bit. cbn -[Z.land Z.lor decode_body].
  rewrite H1, H2. destruct (body m) as [it|]; [|by subst].
  destruct Hb as [Hok Henc]. destruct bytes as [|b bs]; [by apply encode_nonempty in Henc|].
  rewrite (decode_body_encode _ _ Hok Henc). done.
Qed.
