(* ===== verification/HsmsConn.v ===== *)
(** * The HSMS connection state and its timers

    include/ssim/secsgem/hsms/connection_state.hpp, timers.hpp and
    src/secsgem/hsms/connection_state.cpp. *)

From S2P Require Import Prelude.

(** ** The connection state machine *)

Inductive ConnectionState := kNotConnected | kNotSelected | kSelected.
Inductive ConnectionTrigger := kConnect | kSelect | kDeselect | kDisconnect | kT7Timeout.

#[global] Instance ConnectionState_eq_dec : EqDecision ConnectionState.
Proof. solve_decision. Defined.
#[global] Instance ConnectionTrigger_eq_dec : EqDecision ConnectionTrigger.
Proof. solve_decision. Defined.

Definition connection_state_to_string (s : ConnectionState) : string :=
  match s with
  | kNotConnected => "NOT_CONNECTED"
  | kNotSelected => "NOT_SELECTED"
  | kSelected => "SELECTED"
  end%string.

Definition connection_trigger_to_string (t : ConnectionTrigger) : string :=
  match t with
  | kConnect => "Connect" | kSelect => "Select" | kDeselect => "Deselect"
  | kDisconnect => "Disconnect" | kT7Timeout => "T7Timeout"
  end%string.

Definition kReasonIllegalConnectionTransition : Z := 450.

(** [ConnectionStateMachine::apply]: the result and the state afterwards. *)
Definition connection_apply (s : ConnectionState) (t : ConnectionTrigger)
    : Result ConnectionState * ConnectionState :=
  let '(legal, next) :=
    match t with
    | kConnect => (bool_decide (s = kNotConnected), kNotSelected)
    | kSelect => (bool_decide (s = kNotSelected), kSelected)
    | kDeselect => (bool_decide (s = kSelected), kNotSelected)
    | kDisconnect => (bool_decide (s <> kNotConnected), kNotConnected)
    | kT7Timeout => (bool_decide (s = kNotSelected), kNotConnected)
    end in
  if negb legal then
    (Err (mkError kReasonIllegalConnectionTransition
            (connection_trigger_to_string t ++ " is not allowed in " ++
             connection_state_to_string s)%string), s)
  else (Ok next, next).

(** The transition table of connection_state.hpp's comment. *)
Inductive connection_step : ConnectionState -> ConnectionTrigger -> ConnectionState -> Prop :=
| step_connect : connection_step kNotConnected kConnect kNotSelected
| step_select : connection_step kNotSelected kSelect kSelected
| step_deselect : connection_step kSelected kDeselect kNotSelected
| step_t7 : connection_step kNotSelected kT7Timeout kNotConnected
| step_disconnect_not_selected : connection_step kNotSelected kDisconnect kNotConnected
| step_disconnect_selected : connection_step kSelected kDisconnect kNotConnected.

(** [apply] implements the documented table: it succeeds on exactly the table's
    triggers, returning and storing the table's next state; any other trigger
    returns reason 450 and leaves the state unchanged. *)
Theorem connection_apply_table s t :
  (forall s', connection_step s t s' <-> connection_apply s t = (Ok s', s')) /\
  ((forall s', ~ connection_step s t s') <->
   exists msg, connection_apply s t = (Err (mkError kReasonIllegalConnectionTransition msg), s)).
Proof.
  split; [intros s'|]; split.
  - by destruct 1.
  - destruct s, t; intros H; cbv in H; simplify_eq; constructor.
  - intros H. destruct s, t; try (eexists; reflexivity); exfalso; eapply H; constructor.
  - intros [msg H] s' Hs. destruct Hs; cbv in H; simplify_eq.
Qed.

(** ** Timers

    [TimePoint] counts the nanoseconds of [steady_clock], [Duration]
    milliseconds. *)

Definition TimePoint : Type := Z.
Definition Duration : Type := Z.

(** [now + duration]: the duration in the clock's unit. *)
Definition after (now : TimePoint) (d : Duration) : TimePoint := now + d * 1000000.

(** [class Timer]: the deadline, if it is running. *)
Definition Timer : Type := option TimePoint.

Definition timer_start (now : TimePoint) (d : Duration) : Timer := Some (after now d).
Definition timer_stop : Timer := None.
Definition timer_running (t : Timer) : bool :=
  match t with Some _ => true | None => false end.
Definition timer_expired (t : Timer) (now : TimePoint) : bool :=
  match t with Some deadline => deadline <=? now | None => false end.

(** An expiry cannot be lost by a late tick. *)
Lemma timer_expired_mono t now now' :
  now <= now' -> timer_expired t now = true -> timer_expired t now' = true.
Proof. destruct t; simpl; [|done]. rewrite !Z.leb_le. lia. Qed.

Lemma timer_expired_running t now : timer_expired t now = true -> timer_running t = true.
Proof. by destruct t. Qed.
