(* ===== verification/HsmsSession.v ===== *)
(** * The HSMS session

    include/ssim/secsgem/hsms/session.hpp and src/secsgem/hsms/session.cpp: the
    passive entity's protocol state machine. Every operation is a function from a
    session (and the output under construction) to the session and output
    afterwards; [session_step] puts them together as one step relation. *)

From S2P Require Import Prelude Secs2Item Secs2Codec Secs2Message HsmsFrame HsmsConn.

(** ** Codes (session.hpp) *)

Definition kRejectSTypeNotSupported : Z := 1.
Definition kRejectPTypeNotSupported : Z := 2.
Definition kRejectTransactionNotOpen : Z := 3.
Definition kRejectEntityNotSelected : Z := 4.

Definition kSelectOk : Z := 0.
Definition kSelectAlreadyActive : Z := 1.
Definition kDeselectOk : Z := 0.
Definition kDeselectNotSelected : Z := 1.

Definition kErrNotSelected : Z := 410.
Definition kErrTooManyTransactions : Z := 411.
Definition kErrMessageTooLarge : Z := 412.

(** ** Data *)

Record SessionConfig := mkSessionConfig {
  t3 : Duration;
  t6 : Duration;
  t7 : Duration;
  t8 : Duration;
  linktest_interval : Duration;
  cfg_max_frame_bytes : Z;
  max_open_transactions : nat;
  device_id : Z;
  first_system_bytes : Z
}.

Definition default_session_config : SessionConfig :=
  mkSessionConfig 45000 5000 10000 5000 60000 1048576 256 0 1.

Record Delivery := mkDelivery { delivered : Frame; reply_to : option Z }.

(** [struct SessionOutput]; [to_send] holds the bytes of each frame. *)
Record SessionOutput := mkOutput {
  to_send : list (list Z);
  deliveries : list Delivery;
  timed_out : list Z;
  close : bool;
  close_reason : string
}.
Definition no_output : SessionOutput := mkOutput [] [] [] false "".

Definition push_send (bytes : list Z) (o : SessionOutput) : SessionOutput :=
  mkOutput (to_send o ++ [bytes]) (deliveries o) (timed_out o) (close o) (close_reason o).
Definition push_delivery (d : Delivery) (o : SessionOutput) : SessionOutput :=
  mkOutput (to_send o) (deliveries o ++ [d]) (timed_out o) (close o) (close_reason o).
Definition push_timed_out (l : list Z) (o : SessionOutput) : SessionOutput :=
  mkOutput (to_send o) (deliveries o) (timed_out o ++ l) (close o) (close_reason o).
Definition set_close (reason : string) (o : SessionOutput) : SessionOutput :=
  mkOutput (to_send o) (deliveries o) (timed_out o) true reason.

(** [class Session]. The open transactions map system bytes to T3 deadlines. *)
Record Session := mkSession {
  config_ : SessionConfig;
  fsm_ : ConnectionState;
  decoder_ : FrameDecoder;
  t7_ : Timer;
  t8_ : Timer;
  t6_ : Timer;
  last_activity_ : TimePoint;
  pending_linktest_ : option Z;
  transactions_ : gmap Z TimePoint;
  next_system_bytes_ : Z
}.

Definition new_session (c : SessionConfig) : Session :=
  mkSession c kNotConnected (new_decoder (cfg_max_frame_bytes c)) None None None 0 None ∅
    (first_system_bytes c).

Definition set_fsm (x : ConnectionState) (s : Session) : Session :=
  mkSession (config_ s) x (decoder_ s) (t7_ s) (t8_ s) (t6_ s) (last_activity_ s)
    (pending_linktest_ s) (transactions_ s) (next_system_bytes_ s).
Definition set_decoder (x : FrameDecoder) (s : Session) : Session :=
  mkSession (config_ s) (fsm_ s) x (t7_ s) (t8_ s) (t6_ s) (last_activity_ s)
    (pending_linktest_ s) (transactions_ s) (next_system_bytes_ s).
Definition set_t7 (x : Timer) (s : Session) : Session :=
  mkSession (config_ s) (fsm_ s) (decoder_ s) x (t8_ s) (t6_ s) (last_activity_ s)
    (pending_linktest_ s) (transactions_ s) (next_system_bytes_ s).
Definition set_t8 (x : Timer) (s : Session) : Session :=
  mkSession (config_ s) (fsm_ s) (decoder_ s) (t7_ s) x (t6_ s) (last_activity_ s)
    (pending_linktest_ s) (transactions_ s) (next_system_bytes_ s).
Definition set_linktest (x : option Z) (t : Timer) (s : Session) : Session :=
  mkSession (config_ s) (fsm_ s) (decoder_ s) (t7_ s) (t8_ s) t (last_activity_ s)
    x (transactions_ s) (next_system_bytes_ s).
Definition set_last_activity (x : TimePoint) (s : Session) : Session :=
  mkSession (config_ s) (fsm_ s) (decoder_ s) (t7_ s) (t8_ s) (t6_ s) x
    (pending_linktest_ s) (transactions_ s) (next_system_bytes_ s).
Definition set_transactions (x : gmap Z TimePoint) (s : Session) : Session :=
  mkSession (config_ s) (fsm_ s) (decoder_ s) (t7_ s) (t8_ s) (t6_ s) (last_activity_ s)
    (pending_linktest_ s) x (next_system_bytes_ s).
Definition set_next (x : Z) (s : Session) : Session :=
  mkSession (config_ s) (fsm_ s) (decoder_ s) (t7_ s) (t8_ s) (t6_ s) (last_activity_ s)
    (pending_linktest_ s) (transactions_ s) x.

(** [fsm_.apply], keeping the state it leaves. *)
Definition fsm_apply (t : ConnectionTrigger) (s : Session) : bool * Session :=
  let '(r, x) := connection_apply (fsm_ s) t in (has_value r, set_fsm x s).

(** ** Link state *)

Definition reset_link_state (s : Session) : Session :=
  mkSession (config_ s) (fsm_ s) (new_decoder (cfg_max_frame_bytes (config_ s)))
    timer_stop timer_stop timer_stop (last_activity_ s) None ∅ (next_system_bytes_ s).

Definition on_connect (now : TimePoint) (s : Session) : Session * SessionOutput :=
  let '(ok, s) := fsm_apply kConnect s in
  if negb ok then (s, no_output)
  else
    let s := reset_link_state s in
    let s := set_last_activity now s in
    (set_t7 (timer_start now (t7 (config_ s))) s, no_output).

Definition on_disconnect (s : Session) : Session :=
  let '(ok, s) := fsm_apply kDisconnect s in
  if ok then reset_link_state s else s.

Definition close_connection (reason : string) (s : Session) (out : SessionOutput)
    : Session * SessionOutput :=
  (on_disconnect s, set_close reason out).

(** [encode_frame(...).value()] of a control frame: it has no body and cannot
    fail ([send_control_encodes]). *)
Definition send_control (t : SType) (sys b2 b3 : Z) (out : SessionOutput) : SessionOutput :=
  match encode_frame (make_control_frame t sys b2 b3) with
  | Ok bytes => push_send bytes out
  | Err _ => out
  end.

Definition reject (offending : Frame) (reason : Z) (out : SessionOutput) : SessionOutput :=
  let what := if reason =? kRejectPTypeNotSupported then ptype (header offending)
              else stype (header offending) in
  send_control kRejectReq (system_bytes (header offending)) what reason out.

(** [pending_linktest_ && *pending_linktest_ == system]. *)
Definition linktest_is (s : Session) (system : Z) : bool :=
  match pending_linktest_ s with Some p => p =? system | None => false end.

(** ** Incoming frames *)

Definition handle_frame (now : TimePoint) (frame : Frame) (s : Session) (out : SessionOutput)
    : Session * SessionOutput :=
  if negb (ptype (header frame) =? 0) then (s, reject frame kRejectPTypeNotSupported out)
  else
    match stype_from_byte (stype (header frame)) with
    | None => (s, reject frame kRejectSTypeNotSupported out)
    | Some st =>
        let system := system_bytes (header frame) in
        match st with
        | kData =>
            if negb (bool_decide (fsm_ s = kSelected)) then
              (s, reject frame kRejectEntityNotSelected out)
            else if (header_function (header frame) mod 2 =? 0) &&
                    bool_decide (is_Some (transactions_ s !! system)) then
              (set_transactions (delete system (transactions_ s)) s,
               push_delivery (mkDelivery frame (Some system)) out)
            else (s, push_delivery (mkDelivery frame None) out)
        | kSelectReq =>
            if bool_decide (fsm_ s = kNotSelected) then
              let '(_, s) := fsm_apply kSelect s in
              (set_t7 timer_stop s, send_control kSelectRsp system 0 kSelectOk out)
            else (s, send_control kSelectRsp system 0 kSelectAlreadyActive out)
        | kDeselectReq =>
            if bool_decide (fsm_ s = kSelected) then
              let '(_, s) := fsm_apply kDeselect s in
              let s := set_transactions ∅ s in
              (set_t7 (timer_start now (t7 (config_ s))) s,
               send_control kDeselectRsp system 0 kDeselectOk out)
            else (s, send_control kDeselectRsp system 0 kDeselectNotSelected out)
        | kLinktestReq => (s, send_control kLinktestRsp system 0 0 out)
        | kLinktestRsp =>
            if linktest_is s system then (set_linktest None timer_stop s, out)
            else (s, reject frame kRejectTransactionNotOpen out)
        | kSelectRsp | kDeselectRsp => (s, reject frame kRejectTransactionNotOpen out)
        | kRejectReq =>
            let s := if linktest_is s system then set_linktest None timer_stop s else s in
            (set_transactions (delete system (transactions_ s)) s, out)
        | kSeparateReq => close_connection "Separate.req received" s out
        end
    end.

(** The loop over the frames of one read; it stops when the connection closes. *)
Fixpoint handle_frames (now : TimePoint) (frames : list Frame) (s : Session)
    (out : SessionOutput) : Session * SessionOutput :=
  match frames with
  | [] => (s, out)
  | f :: fs =>
      let '(s, out) := handle_frame now f s out in
      if close out then (s, out) else handle_frames now fs s out
  end.

Definition on_bytes (now : TimePoint) (bytes : list Z) (s : Session)
    : Session * SessionOutput :=
  if bool_decide (fsm_ s = kNotConnected) then (s, no_output)
  else
    let s := set_last_activity now s in
    let '(frames, d) := feed (decoder_ s) bytes in
    let s := set_decoder d s in
    match frames with
    | Err e => close_connection ("framing error: " ++ message e)%string s no_output
    | Ok frames =>
        let '(s, out) := handle_frames now frames s no_output in
        if close out then (s, out)
        else
          ((if has_partial (decoder_ s) then set_t8 (timer_start now (t8 (config_ s))) s
            else set_t8 timer_stop s), out)
    end.

(** ** Outgoing messages *)

(** The loop of [allocate_system_bytes]: the first candidate that is neither 0
    nor open, and the counter after it. 0, which the loop never returns, stands
    for a loop that has not ended within the fuel; [allocate_system_bytes_fresh]
    shows that the fuel below always suffices. *)
Fixpoint allocate_loop (fuel : nat) (busy : Z -> bool) (next : Z) : Z * Z :=
  match fuel with
  | O => (0, next)
  | S fuel' =>
      let candidate := next in
      let next := wrap 32 (next + 1) in
      if candidate =? 0 then allocate_loop fuel' busy next
      else if negb (busy candidate) then (candidate, next)
      else allocate_loop fuel' busy next
  end.

Definition is_open (s : Session) (candidate : Z) : bool :=
  bool_decide (is_Some (transactions_ s !! candidate)) || linktest_is s candidate.

Definition allocate_system_bytes (s : Session) : Z * Session :=
  let '(system, next) :=
    allocate_loop (size (transactions_ s) + 3) (is_open s) (next_system_bytes_ s) in
  (system, set_next next s).

Definition queue_data (m : Message) (sys : Z) (s : Session) (out : SessionOutput)
    : Result SessionOutput :=
  let? bd := match body m with Some it => encode it | None => Ok [] end in
  if cfg_max_frame_bytes (config_ s) <? Z.of_nat (kHeaderSize + length bd) then
    Err (mkError kErrMessageTooLarge "message exceeds the maximum frame size")
  else
    let frame := make_data_frame (device_id (config_ s)) (stream m) (function m) (w_bit m) sys bd in
    let? bytes := encode_frame frame in
    Ok (push_send bytes out).

Definition send_request (now : TimePoint) (m : Message) (s : Session) (out : SessionOutput)
    : Result Z * Session * SessionOutput :=
  if negb (bool_decide (fsm_ s = kSelected)) then
    (Err (mkError kErrNotSelected "data messages can only be sent while selected"), s, out)
  else if w_bit m && (max_open_transactions (config_ s) <=? size (transactions_ s))%nat then
    (Err (mkError kErrTooManyTransactions "too many open transactions"), s, out)
  else
    let '(system, s) := allocate_system_bytes s in
    match queue_data m system s out with
    | Err e => (Err e, s, out)
    | Ok out =>
        let s :=
          if w_bit m then
            set_transactions (<[system := after now (t3 (config_ s))]> (transactions_ s)) s
          else s in
        (Ok system, set_last_activity now s, out)
    end.

Definition send_reply (sys : Z) (m : Message) (s : Session) (out : SessionOutput)
    : Result SessionOutput :=
  if negb (bool_decide (fsm_ s = kSelected)) then
    Err (mkError kErrNotSelected "data messages can only be sent while selected")
  else queue_data (mkMessage (stream m) (function m) false (body m)) sys s out.

(** ** Time *)

(** The system bytes of the expired requests in the map's (ascending) order, and
    the transactions that stay. *)
Definition expired_transactions (now : TimePoint) (m : gmap Z TimePoint) : list Z :=
  merge_sort Z.le (map fst (map_to_list (filter (fun kd => kd.2 <= now) m))).
Definition live_transactions (now : TimePoint) (m : gmap Z TimePoint) : gmap Z TimePoint :=
  filter (fun kd => now < kd.2) m.

(** [on_tick]'s last block: an idle, selected link is tested. *)
Definition start_linktest (now : TimePoint) (s : Session) (out : SessionOutput)
    : Session * SessionOutput :=
  let '(system, s) := allocate_system_bytes s in
  let out := send_control kLinktestReq system 0 0 out in
  (set_last_activity now (set_linktest (Some system) (timer_start now (t6 (config_ s))) s), out).

Definition on_tick (now : TimePoint) (s : Session) : Session * SessionOutput :=
  if bool_decide (fsm_ s = kNotConnected) then (s, no_output)
  else if bool_decide (fsm_ s = kNotSelected) && timer_expired (t7_ s) now then
    let '(_, s) := fsm_apply kT7Timeout s in
    (reset_link_state s, set_close "T7 timeout: not selected in time" no_output)
  else if timer_expired (t8_ s) now then
    close_connection "T8 timeout: frame stalled" s no_output
  else if bool_decide (is_Some (pending_linktest_ s)) && timer_expired (t6_ s) now then
    close_connection "T6 timeout: no Linktest.rsp" s no_output
  else
    let out := push_timed_out (expired_transactions now (transactions_ s)) no_output in
    let s := set_transactions (live_transactions now (transactions_ s)) s in
    if bool_decide (fsm_ s = kSelected) && negb (bool_decide (is_Some (pending_linktest_ s))) &&
       (after 0 (linktest_interval (config_ s)) <=? now - last_activity_ s) then
      start_linktest now s out
    else (s, out).

(** ** The session as a step relation *)

Inductive session_event :=
| ev_connect (now : TimePoint)
| ev_bytes (now : TimePoint) (bytes : list Z)
| ev_tick (now : TimePoint)
| ev_disconnect
| ev_request (now : TimePoint) (m : Message)
| ev_reply (sys : Z) (m : Message).

Definition session_step (ev : session_event) (s : Session) : Session * SessionOutput :=
  match ev with
  | ev_connect now => on_connect now s
  | ev_bytes now bytes => on_bytes now bytes s
  | ev_tick now => on_tick now s
  | ev_disconnect => (on_disconnect s, no_output)
  | ev_request now m => let '(_, s', out) := send_request now m s no_output in (s', out)
  | ev_reply sys m =>
      (s, match send_reply sys m s no_output with Ok out => out | Err _ => no_output end)
  end.

(** The sessions a configuration can reach. *)
Inductive session_reachable (c : SessionConfig) : Session -> Prop :=
| reach_new : session_reachable c (new_session c)
| reach_step ev s : session_reachable c s -> session_reachable c (session_step ev s).1.

(** ** Fresh system bytes *)

Lemma wrap_add_inj n i j :
  0 <= i < 2 ^ 32 -> 0 <= j < 2 ^ 32 -> wrap 32 (n + i) = wrap 32 (n + j) -> i = j.
Proof.
  unfold wrap. change (2 ^ 32) with 4294967296. intros Hi Hj H.
  pose proof (Z.div_mod (n + i) 4294967296 ltac:(lia)).
  pose proof (Z.div_mod (n + j) 4294967296 ltac:(lia)). lia.
Qed.

(** Pigeonhole: fewer blocked values than candidates leave a candidate free. *)
Lemma fresh_candidate (blocked : list Z) n fuel :
  (length blocked < fuel)%nat -> Z.of_nat fuel <= 2 ^ 32 ->
  exists i, (i < fuel)%nat /\ wrap 32 (n + Z.of_nat i) ∉ blocked.
Proof.
  intros Hlen Hfuel.
  destruct (decide (Exists (fun i => wrap 32 (n + Z.of_nat i) ∉ blocked) (seq 0 fuel)))
    as [(i & Hi & Hb)%Exists_exists|Hno].
  { apply elem_of_seq in Hi. exists i. split; [lia|done]. }
  exfalso. apply not_Exists_Forall in Hno; [|intros; apply _].
  assert (Hnd : NoDup ((fun i => wrap 32 (n + Z.of_nat i)) <$> seq 0 fuel)).
  { apply NoDup_fmap_2_strong; [|apply NoDup_seq].
    intros i j Hi Hj Heq. apply elem_of_seq in Hi, Hj.
    apply wrap_add_inj in Heq; lia. }
  assert (Hsub : (fun i => wrap 32 (n + Z.of_nat i)) <$> seq 0 fuel ⊆+ blocked).
  { apply NoDup_submseteq; [done|]. intros x (i & -> & Hi)%list_elem_of_fmap.
    rewrite Forall_forall in Hno. specialize (Hno i Hi). by apply dec_stable in Hno. }
  apply submseteq_length in Hsub. rewrite length_fmap, length_seq in Hsub. lia.
Qed.

Lemma wrap_succ n i : wrap 32 (wrap 32 (n + 1) + i) = wrap 32 (n + (i + 1)).
Proof.
  unfold wrap. rewrite Zplus_mod_idemp_l. f_equal. lia.
Qed.

Lemma allocate_loop_fresh fuel busy next :
  uint_ok 32 next ->
  (exists i, (i < fuel)%nat /\ wrap 32 (next + Z.of_nat i) <> 0 /\
             busy (wrap 32 (next + Z.of_nat i)) = false) ->
  let '(c, next') := allocate_loop fuel busy next in
  c <> 0 /\ busy c = false /\ uint_ok 32 c /\ uint_ok 32 next'.
Proof.
  revert next. induction fuel as [|fuel IH]; intros next Hn (i & Hi & H0 & Hb); [lia|].
  simpl. destruct (Z.eqb_spec next 0) as [->|Hnz]; [|destruct (busy next) eqn:Eb; simpl].
  3: { eauto using wrap_range with lia. }
  all: apply IH; [by apply wrap_range|].
  all: destruct i as [|i]; [rewrite Z.add_0_r, wrap_id in H0, Hb by done; congruence|].
  all: exists i; rewrite wrap_succ;
    replace (Z.of_nat i + 1) with (Z.of_nat (S i)) by lia; split; [lia|done].
Qed.

Definition blocked_list (s : Session) : list Z :=
  0 :: (map fst (map_to_list (transactions_ s))) ++
       match pending_linktest_ s with Some p => [p] | None => [] end.

Lemma blocked_list_length s : (length (blocked_list s) <= size (transactions_ s) + 2)%nat.
Proof.
  unfold blocked_list. simpl. rewrite length_app, length_map, length_map_to_list.
  destruct (pending_linktest_ s); simpl; lia.
Qed.

Lemma blocked_list_spec s c : c ∉ blocked_list s -> c <> 0 /\ is_open s c = false.
Proof.
  unfold blocked_list. rewrite not_elem_of_cons, not_elem_of_app. intros (H0 & Ht & Hp).
  split; [done|]. unfold is_open, linktest_is. apply orb_false_iff. split.
  - apply bool_decide_eq_false. intros [d Hd]. apply Ht.
    apply list_elem_of_fmap. exists (c, d). split; [done|]. by apply elem_of_map_to_list.
  - destruct (pending_linktest_ s); [|done]. apply Z.eqb_neq. set_solver.
Qed.

(** The loop of [allocate_system_bytes] ends, on a value that is not 0 and that no
    open transaction and no pending Linktest.req uses. *)
Lemma allocate_fresh s :
  uint_ok 32 (next_system_bytes_ s) -> Z.of_nat (size (transactions_ s) + 3) <= 2 ^ 32 ->
  let '(c, s') := allocate_system_bytes s in
  c <> 0 /\ uint_ok 32 c /\ is_open s c = false /\
  exists next, uint_ok 32 next /\ s' = set_next next s.
Proof.
  intros Hn Hsz. unfold allocate_system_bytes.
  pose proof (allocate_loop_fresh (size (transactions_ s) + 3) (is_open s) _ Hn) as H.
  destruct (allocate_loop _ _ _) as [c next']. ospecialize (H _).
  { destruct (fresh_candidate (blocked_list s) (next_system_bytes_ s)
      (size (transactions_ s) + 3)) as (i & Hi & Hb).
    - pose proof (blocked_list_length s). lia.
    - done.
    - exists i. split; [done|]. by apply blocked_list_spec. }
  destruct H as (? & ? & ? & ?). eauto 10.
Qed.

(** ** The session invariant *)

(** A usable configuration: every counter and size fits its C++ type. *)
Definition session_config_ok (c : SessionConfig) : Prop :=
  0 <= cfg_max_frame_bytes c /\ Z.of_nat (max_open_transactions c + 3) <= 2 ^ 32 /\
  uint_ok 32 (first_system_bytes c).

(** What holds between any two frames. *)
Record link_ok (c : SessionConfig) (s : Session) : Prop := mkLinkOk {
  link_config : config_ s = c;
  link_next : uint_ok 32 (next_system_bytes_ s);
  link_decoder : decoder_ok (decoder_ s) /\ failed (decoder_ s) = false /\
                 max_frame_bytes (decoder_ s) = cfg_max_frame_bytes c;
  link_t7 : timer_running (t7_ s) = bool_decide (fsm_ s = kNotSelected);
  link_t6 : timer_running (t6_ s) = bool_decide (is_Some (pending_linktest_ s));
  link_selected : transactions_ s <> ∅ -> fsm_ s = kSelected;
  link_bound : (size (transactions_ s) <= max_open_transactions c)%nat;
  link_open : map_Forall (fun k _ => k <> 0 /\ uint_ok 32 k /\ pending_linktest_ s <> Some k)
                (transactions_ s);
  link_pending : forall p, pending_linktest_ s = Some p -> p <> 0 /\ uint_ok 32 p;
  link_idle : fsm_ s = kNotConnected ->
              pending_linktest_ s = None /\ t8_ s = None /\ buffer (decoder_ s) = []
}.

(** The invariant between two calls: T8 runs exactly while a frame is unfinished. *)
Definition session_ok (c : SessionConfig) (s : Session) : Prop :=
  link_ok c s /\ timer_running (t8_ s) = has_partial (decoder_ s).

Lemma reset_link_state_ok c s :
  link_ok c s -> fsm_ s = kNotConnected -> session_ok c (reset_link_state s).
Proof.
  intros [Hc Hn Hd H7 H6 Hs Hb Ho Hp Hi] Hf. split; [|done].
  constructor; simpl; rewrite ?Hf; try done.
  - subst c. done.
  - rewrite map_size_empty. lia.
Qed.

Lemma link_ok_set_fsm_reset c s :
  link_ok c s -> session_ok c (reset_link_state (set_fsm kNotConnected s)).
Proof.
  intros [Hc Hn Hd H7 H6 Hs Hb Ho Hp Hi]. split; [|done].
  constructor; simpl; try done.
  - subst c. done.
  - rewrite map_size_empty. lia.
Qed.

Lemma on_disconnect_idle s : fsm_ (on_disconnect s) = kNotConnected.
Proof. unfold on_disconnect, fsm_apply. by destruct (fsm_ s) eqn:E. Qed.

Lemma on_disconnect_ok c s :
  link_ok c s -> timer_running (t8_ s) = has_partial (decoder_ s) \/ fsm_ s <> kNotConnected ->
  session_ok c (on_disconnect s).
Proof.
  intros H Ht. unfold on_disconnect, fsm_apply.
  destruct (fsm_ s) eqn:E; simpl.
  - destruct Ht as [Ht|]; [|done]. destruct s; simpl in *; subst. by split.
  - by apply link_ok_set_fsm_reset.
  - by apply link_ok_set_fsm_reset.
Qed.

Lemma link_open_delete c s k :
  link_ok c s -> link_ok c (set_transactions (delete k (transactions_ s)) s).
Proof.
  intros [Hc Hn Hd H7 H6 Hs Hb Ho Hp Hi]. constructor; simpl; try done.
  - intros Hne. apply Hs. intros He. apply Hne. by rewrite He, delete_empty.
  - etrans; [|exact Hb]. apply map_subseteq_size, delete_subseteq.
  - by apply map_Forall_delete.
Qed.

Lemma link_no_linktest c s : link_ok c s -> link_ok c (set_linktest None timer_stop s).
Proof.
  intros [Hc Hn Hd H7 H6 Hs Hb Ho Hp Hi]. constructor; simpl; try done.
  - intros k d Hk. destruct (Ho k d Hk) as (? & ? & ?). done.
  - intros Hf. by destruct (Hi Hf).
Qed.

Lemma send_control_close t sys b2 b3 out : close (send_control t sys b2 b3 out) = close out.
Proof. done. Qed.

(** One frame of an open connection: either the connection stays open and
    [link_ok] is kept, or the session closes and is idle. *)
Definition frame_outcome (c : SessionConfig) (s : Session) (out : SessionOutput)
    (r : Session * SessionOutput) : Prop :=
  (close r.2 = close out /\ link_ok c r.1 /\ fsm_ r.1 <> kNotConnected /\
   decoder_ r.1 = decoder_ s) \/
  (close r.2 = true /\ session_ok c r.1 /\ fsm_ r.1 = kNotConnected).

Lemma handle_frame_ok c now f s out :
  link_ok c s -> fsm_ s <> kNotConnected -> frame_outcome c s out (handle_frame now f s out).
Proof.
  intros Hs Hf. unfold handle_frame.
  case_match; [by left|]. destruct (stype_from_byte _) as [st|]; [|by left].
  destruct st; try by left.
  - case_match; [by left|]. case_match; [|by left]. left.
    split; [done|]. by split; [apply link_open_delete|].
  - case_bool_decide as E; [|by left]. left. unfold fsm_apply. rewrite E. simpl.
    split; [done|]. destruct Hs. split; [|done]. constructor; simpl; done.
  - case_bool_decide as E; [|by left]. left. unfold fsm_apply. rewrite E. simpl.
    split; [done|]. destruct Hs. split; [|done]. constructor; simpl; try done.
    rewrite map_size_empty. lia.
  - case_match; [|by left]. left. split; [done|]. by split; [apply link_no_linktest|].
  - left. split; [done|]. destruct (linktest_is _ _).
    + split; [by apply link_open_delete, link_no_linktest|done].
    + split; [by apply link_open_delete|done].
  - right. split; [done|]. simpl. split; [|by apply on_disconnect_idle].
    apply on_disconnect_ok; [done|by right].
Qed.

Lemma handle_frames_ok c now fs s out :
  link_ok c s -> fsm_ s <> kNotConnected -> close out = false ->
  frame_outcome c s out (handle_frames now fs s out).
Proof.
  revert s out. induction fs as [|f fs IH]; intros s out Hs Hf Hout; simpl; [by left|].
  pose proof (handle_frame_ok c now f s out Hs Hf) as H.
  destruct (handle_frame now f s out) as [s' out']. unfold frame_outcome in H. simpl in H.
  destruct H as [(Hc & Hs' & Hf' & Hd)|(Hc & Hs' & Hf')].
  - rewrite Hc, Hout. specialize (IH s' out' Hs' Hf' ltac:(congruence)).
    unfold frame_outcome in *. by rewrite Hc, Hd in IH.
  - rewrite Hc. by right.
Qed.

Lemma link_feed c now s bytes frames d :
  link_ok c s -> fsm_ s <> kNotConnected -> feed (decoder_ s) bytes = (Ok frames, d) ->
  link_ok c (set_decoder d (set_last_activity now s)).
Proof.
  intros Hs Hnc Ef. destruct (link_decoder _ _ Hs) as (Hd1 & Hd2 & Hd3).
  destruct Hs. constructor; simpl; try done.
  split; [by eapply feed_ok|]. rewrite (feed_max _ _ _ _ Ef). split; [|done].
  unfold feed in Ef. simpl in Ef. rewrite Hd2 in Ef.
  destruct (frames_of _ _) as [[? ?]|]; by simplify_eq.
Qed.

Lemma on_bytes_ok c now bytes s : session_ok c s -> session_ok c (on_bytes now bytes s).1.
Proof.
  intros [Hs Ht]. unfold on_bytes. case_bool_decide as E; [done|].
  destruct (feed _ _) as [[frames|e] d] eqn:Ef; simpl.
  2: { destruct (link_decoder _ _ Hs) as (Hd1 & Hd2 & Hd3). unfold on_disconnect, fsm_apply.
       simpl. destruct (fsm_ s) eqn:Es; [done| |]; simpl; split; try done; destruct Hs;
         constructor; simpl; try done; subst; try done; rewrite map_size_empty; lia. }
  pose proof (link_feed c now s bytes frames d Hs E Ef) as Hl.
  pose proof (handle_frames_ok c now frames _ no_output Hl E eq_refl) as H.
  destruct (handle_frames _ _ _ _) as [s' out']. unfold frame_outcome in H. simpl in *.
  destruct H as [(-> & Hs' & Hf' & Hd)|(-> & Hs' & Hf')]; [|done].
  simpl. destruct (has_partial (decoder_ s')) eqn:Ep; split; try done;
    destruct Hs'; constructor; done.
Qed.

Lemma not_open_linktest s k d :
  is_open s k = false -> transactions_ s !! k = Some d -> False.
Proof.
  unfold is_open. intros [H _]%orb_false_iff Hk. apply bool_decide_eq_false in H. eauto.
Qed.

Lemma allocate_ok c s :
  session_config_ok c -> link_ok c s ->
  exists sys next, allocate_system_bytes s = (sys, set_next next s) /\ uint_ok 32 next /\
    sys <> 0 /\ uint_ok 32 sys /\ transactions_ s !! sys = None /\
    pending_linktest_ s <> Some sys.
Proof.
  intros (_ & Hc & _) Hs. destruct Hs as [_ Hn _ _ _ _ Hb _ _ _].
  pose proof (allocate_fresh s Hn ltac:(lia)) as H.
  destruct (allocate_system_bytes s) as [sys s']. destruct H as (H0 & Hu & Ho & next & Hnx & ->).
  exists sys, next. repeat (split; [done|]). unfold is_open, linktest_is in Ho.
  apply orb_false_iff in Ho as [Ho Hl]. apply bool_decide_eq_false in Ho. split.
  - by apply eq_None_not_Some.
  - intros Hp. rewrite Hp in Hl. by rewrite Z.eqb_refl in Hl.
Qed.

Lemma live_transactions_sub now m : live_transactions now m ⊆ m.
Proof. apply map_filter_subseteq. Qed.

Lemma link_live c now s :
  link_ok c s -> link_ok c (set_transactions (live_transactions now (transactions_ s)) s).
Proof.
  intros [Hc Hn Hd H7 H6 Hs Hb Ho Hp Hi]. constructor; simpl; try done.
  - intros Hne. apply Hs. intros He. apply Hne. unfold live_transactions.
    by rewrite He, map_filter_empty.
  - etrans; [|exact Hb]. apply map_subseteq_size, live_transactions_sub.
  - intros k d Hk. apply (Ho k d). by apply (lookup_weaken _ _ _ _ Hk), live_transactions_sub.
Qed.

Lemma start_linktest_ok c now s out :
  session_config_ok c -> link_ok c s -> pending_linktest_ s = None -> fsm_ s = kSelected ->
  link_ok c (start_linktest now s out).1.
Proof.
  intros Hcfg Hs Hp Hf. unfold start_linktest.
  destruct (allocate_ok c s Hcfg Hs) as (sys & next & -> & Hnx & H0 & Hu & Ht & _). simpl.
  destruct Hs as [Hc Hn Hd H7 H6 Hs Hb Ho Hpp Hi]. constructor; simpl; try done.
  - intros k d Hk. destruct (Ho k d Hk) as (? & ? & ?). split_and!; [done..|]. congruence.
  - intros p [= <-]. done.
  - congruence.
Qed.

Lemma on_tick_ok c now s :
  session_config_ok c -> session_ok c s -> session_ok c (on_tick now s).1.
Proof.
  intros Hcfg [Hs Ht]. unfold on_tick. case_bool_decide as E; [done|].
  destruct (bool_decide (fsm_ s = kNotSelected) && timer_expired (t7_ s) now) eqn:E7.
  { apply andb_true_iff in E7 as [E7 _]. apply bool_decide_eq_true in E7. unfold fsm_apply.
    rewrite E7. simpl. by apply link_ok_set_fsm_reset. }
  case_match; [apply on_disconnect_ok; auto|]. case_match; [apply on_disconnect_ok; auto|].
  pose proof (link_live c now s Hs) as Hl. cbv zeta.
  set (s1 := set_transactions _ s) in *.
  assert (Ht1 : timer_running (t8_ s1) = has_partial (decoder_ s1)) by done.
  destruct (bool_decide (fsm_ s1 = kSelected) && _ && _) eqn:El; [|by split].
  apply andb_true_iff in El as [[Ef Ep]%andb_true_iff _]. apply bool_decide_eq_true in Ef.
  apply negb_true_iff, bool_decide_eq_false, eq_None_not_Some in Ep.
  split; [by apply start_linktest_ok|].
  unfold start_linktest. by destruct (allocate_ok c s1 Hcfg Hl) as (? & ? & -> & _).
Qed.

Lemma link_set_next c s next : uint_ok 32 next -> link_ok c s -> link_ok c (set_next next s).
Proof. intros Hn []. by constructor. Qed.

Lemma send_request_ok c now m s out :
  session_config_ok c -> session_ok c s -> session_ok c (send_request now m s out).1.2.
Proof.
  intros Hcfg [Hs Ht]. unfold send_request. case_bool_decide as E; [simpl|done].
  destruct (w_bit m && _) eqn:Ew; [done|].
  destruct (allocate_ok c s Hcfg Hs) as (sys & next & -> & Hnx & H0 & Hu & Hf & Hpl).
  pose proof (link_set_next c s next Hnx Hs) as Hl.
  destruct (queue_data _ _ _ _) as [out'|]; [|by split]. simpl.
  destruct (w_bit m) eqn:W; simpl in *; [|split; [|done]; by destruct Hl].
  split; [|done]. destruct Hl as [Hc Hn Hd H7 H6 Hs' Hb Ho Hp Hi]. apply Nat.leb_gt in Ew.
  constructor; simpl in *; try done.
  - rewrite map_size_insert_None by done. subst c. lia.
  - by apply map_Forall_insert_2.
Qed.

Lemma new_session_ok c : session_config_ok c -> session_ok c (new_session c).
Proof.
  intros (? & ? & ?). split; [|done]. constructor; simpl; try done.
  rewrite map_size_empty. lia.
Qed.

Lemma on_connect_ok c now s : session_ok c s -> session_ok c (on_connect now s).1.
Proof.
  intros [Hs Ht]. unfold on_connect, fsm_apply.
  destruct (fsm_ s) eqn:E; simpl; [|split; [by destruct s; simpl in *; subst|done]..].
  split; [|done]. destruct Hs as [Hc Hn Hd H7 H6 Hs' Hb Ho Hp Hi].
  constructor; simpl; try done; [by subst|rewrite map_size_empty; lia].
Qed.

Lemma session_step_ok c ev s :
  session_config_ok c -> session_ok c s -> session_ok c (session_step ev s).1.
Proof.
  intros Hcfg Hs. destruct ev as [now|now b|now| |now m|sys m]; simpl.
  - by apply on_connect_ok.
  - by apply on_bytes_ok.
  - by apply on_tick_ok.
  - destruct Hs. apply on_disconnect_ok; auto.
  - pose proof (send_request_ok c now m s no_output Hcfg Hs) as H.
    by destruct (send_request now m s no_output) as [[? ?] ?].
  - done.
Qed.

Lemma session_reachable_ok c s : session_config_ok c -> session_reachable c s -> session_ok c s.
Proof.
  intros Hcfg. induction 1; [by apply new_session_ok|by apply session_step_ok].
Qed.

(** [C2] In every session a usable configuration can reach: T7 runs exactly while the
    link is NOT_SELECTED, T6 exactly while a Linktest.req is unanswered, T8 exactly
    while part of a frame is buffered; transactions are open only while SELECTED and
    at most [max_open_transactions] at a time; no system bytes are 0, none serve a
    transaction and the pending linktest at once; and a disconnected session holds
    nothing back from the old connection. *)
Theorem session_invariant c s :
  session_config_ok c -> session_reachable c s ->
  timer_running (t7_ s) = bool_decide (fsm_ s = kNotSelected) /\
  timer_running (t6_ s) = bool_decide (is_Some (pending_linktest_ s)) /\
  timer_running (t8_ s) = has_partial (decoder_ s) /\
  failed (decoder_ s) = false /\
  (transactions_ s <> ∅ -> fsm_ s = kSelected) /\
  (size (transactions_ s) <= max_open_transactions c)%nat /\
  map_Forall (fun k _ => k <> 0 /\ uint_ok 32 k /\ pending_linktest_ s <> Some k)
    (transactions_ s) /\
  (fsm_ s = kNotConnected -> pending_linktest_ s = None /\ t8_ s = None /\
     buffer (decoder_ s) = [] /\ transactions_ s = ∅).
Proof.
  intros Hcfg Hr. apply session_reachable_ok in Hr as [Hs Ht]; [|done].
  destruct Hs as [Hc Hn Hd H7 H6 Hs Hb Ho Hp Hi]. split_and!; try done; [naive_solver|].
  intros Hf. destruct (Hi Hf) as (? & ? & ?). split_and!; try done.
  destruct (decide (transactions_ s = ∅)) as [|Hne]; [done|]. specialize (Hs Hne). congruence.
Qed.

(** ** Timers *)

Lemma timed_out_expired now m k :
  k ∈ expired_transactions now m <-> exists d, m !! k = Some d /\ d <= now.
Proof.
  unfold expired_transactions. rewrite merge_sort_Permutation.
  change (map fst ?l) with (fst <$> l). rewrite list_elem_of_fmap. split.
  - intros ([k' d] & -> & Hin). apply elem_of_map_to_list, map_lookup_filter_Some in Hin as [? ?].
    eauto.
  - intros (d & Hk & Hd). exists (k, d). split; [done|].
    by apply elem_of_map_to_list, map_lookup_filter_Some.
Qed.

Lemma timed_out_sorted now m : StronglySorted Z.lt (expired_transactions now m).
Proof.
  assert (Hnd : NoDup (expired_transactions now m)).
  { unfold expired_transactions. rewrite merge_sort_Permutation. apply NoDup_fst_map_to_list. }
  assert (Hs : StronglySorted Z.le (expired_transactions now m)).
  { apply StronglySorted_merge_sort; [intros ? ? ?; apply Z.le_trans|intros ? ?; apply Z.le_ge_cases]. }
  revert Hnd. induction Hs as [|x l Hs IH Hx]; intros Hnd; [constructor|].
  apply NoDup_cons in Hnd as [Hni Hnd]. constructor; [by apply IH|].
  rewrite Forall_forall in *. intros y Hy. specialize (Hx y Hy).
  assert (x <> y) by (intros ->; done). lia.
Qed.

Lemma live_lookup now m k d :
  live_transactions now m !! k = Some d <-> m !! k = Some d /\ now < d.
Proof. unfold live_transactions. by rewrite map_lookup_filter_Some. Qed.

(** What the timers say of a tick at [now]. *)
Definition tick_closes (now : TimePoint) (s : Session) : bool :=
  timer_expired (t7_ s) now || timer_expired (t8_ s) now || timer_expired (t6_ s) now.

Lemma on_tick_closes c now s :
  session_ok c s -> tick_closes now s = true ->
  (on_tick now s).2 = set_close (close_reason (on_tick now s).2) no_output /\
  fsm_ (on_tick now s).1 = kNotConnected.
Proof.
  intros [Hs Ht] Hx. unfold on_tick. case_bool_decide as E.
  { exfalso. destruct (link_idle _ _ Hs E) as (Hp & H8 & _). unfold tick_closes in Hx.
    pose proof (link_t7 _ _ Hs) as H7. pose proof (link_t6 _ _ Hs) as H6.
    rewrite H8, E in *. rewrite Hp in H6.
    destruct (t7_ s), (t6_ s); simpl in *; congruence. }
  destruct (bool_decide (fsm_ s = kNotSelected) && timer_expired (t7_ s) now) eqn:E7.
  { apply andb_true_iff in E7 as [E7 _]. apply bool_decide_eq_true in E7.
    unfold fsm_apply. by rewrite E7. }
  destruct (timer_expired (t8_ s) now) eqn:E8; [split; [done|apply on_disconnect_idle]|].
  destruct (bool_decide _ && timer_expired (t6_ s) now) eqn:E6;
    [split; [done|apply on_disconnect_idle]|].
  exfalso. unfold tick_closes in Hx. rewrite E8, orb_false_r in Hx.
  apply orb_true_iff in Hx as [Hx|Hx].
  - pose proof (timer_expired_running _ _ Hx) as Hr. rewrite (link_t7 _ _ Hs) in Hr.
    by rewrite Hr, Hx in E7.
  - pose proof (timer_expired_running _ _ Hx) as Hr. rewrite (link_t6 _ _ Hs) in Hr.
    by rewrite Hr, Hx in E6.
Qed.

Lemma on_tick_open c now s :
  session_config_ok c -> session_ok c s -> fsm_ s <> kNotConnected -> tick_closes now s = false ->
  close (on_tick now s).2 = false /\ fsm_ (on_tick now s).1 = fsm_ s /\
  timed_out (on_tick now s).2 = expired_transactions now (transactions_ s) /\
  transactions_ (on_tick now s).1 = live_transactions now (transactions_ s).
Proof.
  intros Hcfg [Hs Ht] E Hx. unfold on_tick. rewrite bool_decide_eq_false_2 by done.
  unfold tick_closes in Hx. apply orb_false_iff in Hx as [[E7 E8]%orb_false_iff E6].
  rewrite E7, E8, E6, !andb_false_r. cbv zeta. case_match; [|done].
  pose proof (link_live c now s Hs) as Hl. unfold start_linktest.
  by destruct (allocate_ok c _ Hcfg Hl) as (? & ? & -> & _).
Qed.

(** [C3] A tick acts on every timer that has expired, however late it comes: it
    closes the connection exactly when T7, T8 or T6 is running and past its
    deadline (the session is then disconnected and sends nothing); otherwise it
    reports, in ascending order and each once, exactly the requests whose T3
    deadline has passed, forgets those and keeps every other one. *)
Theorem on_tick_timeouts c now s :
  session_config_ok c -> session_reachable c s -> fsm_ s <> kNotConnected ->
  close (on_tick now s).2 = tick_closes now s /\
  (tick_closes now s = true ->
     fsm_ (on_tick now s).1 = kNotConnected /\ to_send (on_tick now s).2 = []) /\
  (tick_closes now s = false ->
     StronglySorted Z.lt (timed_out (on_tick now s).2) /\
     (forall k, k ∈ timed_out (on_tick now s).2 <->
                exists d, transactions_ s !! k = Some d /\ d <= now) /\
     forall k d, transactions_ (on_tick now s).1 !! k = Some d <->
                 transactions_ s !! k = Some d /\ now < d).
Proof.
  intros Hcfg Hr Hf. apply session_reachable_ok in Hr as Hs; [|done].
  destruct (tick_closes now s) eqn:Ex.
  - destruct (on_tick_closes c now s Hs Ex) as [Ho Hi]. rewrite Ho. done.
  - destruct (on_tick_open c now s Hcfg Hs Hf Ex) as (-> & _ & -> & ->).
    split; [done|]. split; [done|]. intros _. split; [apply timed_out_sorted|].
    split; intros; [apply timed_out_expired|apply live_lookup].
Qed.

(** ** Sending and receiving *)

(** The frame of an outgoing message, as [queue_data] builds it. *)
Definition message_frame (c : SessionConfig) (m : Message) (sys : Z) (bd : list Z) : Frame :=
  make_data_frame (device_id c) (stream m) (function m) (w_bit m) sys bd.

Definition message_ok (m : Message) : Prop :=
  uint_ok 7 (stream m) /\ byte_ok (function m) /\
  match body m with Some it => item_ok it | None => True end.

Definition normalize_message (m : Message) : Message :=
  mkMessage (stream m) (function m) (w_bit m) (option_map normalize (body m)).

Lemma queue_data_Ok m sys s out out' :
  queue_data m sys s out = Ok out' ->
  exists bd,
    match body m with None => bd = [] | Some it => encode it = Ok bd end /\
    frame_length (message_frame (config_ s) m sys bd) <= cfg_max_frame_bytes (config_ s) /\
    out' = push_send (wire [message_frame (config_ s) m sys bd]) out.
Proof.
  unfold queue_data. intros H. inv_result. exists x. split; [destruct (body m); congruence|].
  case_match eqn:E; [done|]. apply Z.ltb_ge in E. inv_result.
  apply encode_frame_Ok in Hx0 as [_ ->]. split; [done|].
  unfold wire. simpl concat. by rewrite app_nil_r.
Qed.

Lemma message_frame_ok c m sys bd :
  uint_ok 16 (device_id c) -> message_ok m -> uint_ok 32 sys -> bytes_ok bd ->
  frame_ok (message_frame c m sys bd).
Proof. intros ? (? & ? & _) ? ?. by apply make_data_frame_ok. Qed.

Lemma message_frame_function c m sys bd : header_function (header (message_frame c m sys bd)) = function m.
Proof. done. Qed.

(** A whole data frame arrives on a selected link that is between two frames. *)
Lemma on_bytes_data c now f p :
  session_ok c p -> fsm_ p = kSelected -> has_partial (decoder_ p) = false ->
  cfg_max_frame_bytes c < 2 ^ 32 -> frame_ok f -> frame_length f <= cfg_max_frame_bytes c ->
  ptype (header f) = 0 -> stype (header f) = stype_code kData ->
  exists p',
    on_bytes now (wire [f]) p =
      (p', mkOutput [] [mkDelivery f
             (if (header_function (header f) mod 2 =? 0) &&
                 bool_decide (is_Some (transactions_ p !! system_bytes (header f)))
              then Some (system_bytes (header f)) else None)] [] false "") /\
    fsm_ p' = kSelected /\ config_ p' = c /\ has_partial (decoder_ p') = false /\
    transactions_ p' =
      (if header_function (header f) mod 2 =? 0
       then delete (system_bytes (header f)) (transactions_ p) else transactions_ p).
Proof.
  intros [Hs _] Hf Hp Hmax Hok Hlen Hpt Hst.
  destruct (link_decoder _ _ Hs) as (_ & Hd2 & Hd3).
  assert (Hfeed : feed (decoder_ p) (wire [f]) = (Ok [f], decoder_ p)).
  { apply feed_wire; [done| |lia|].
    - by apply bool_decide_eq_false, dec_stable in Hp.
    - apply Forall_cons_2; [|done]. split; [done|lia]. }
  unfold on_bytes. rewrite bool_decide_eq_false_2 by congruence. cbv zeta.
  cbn [decoder_ set_last_activity]. rewrite Hfeed. cbn [handle_frames].
  unfold handle_frame. rewrite Hpt, Hst. cbn [negb Z.eqb stype_code stype_from_byte].
  cbn [fsm_ set_decoder set_last_activity]. rewrite bool_decide_eq_true_2 by done. cbn [negb].
  cbn [transactions_ set_decoder set_last_activity].
  pose proof (link_config _ _ Hs) as Hc.
  destruct (header_function (header f) mod 2 =? 0) eqn:Ee; simpl.
  2: { rewrite Hp. eexists. split_and!; done. }
  case_bool_decide as Eo; simpl; rewrite Hp; eexists; split_and!; try done.
  simpl. symmetry. apply delete_id. by apply eq_None_not_Some.
Qed.

(** The bytes [queue_data] emits, read by a selected peer, are the message. *)
Lemma message_received c c' now m sys bd p :
  uint_ok 16 (device_id c') -> message_ok m -> uint_ok 32 sys ->
  match body m with None => bd = [] | Some it => encode it = Ok bd end ->
  frame_length (message_frame c' m sys bd) <= cfg_max_frame_bytes c ->
  cfg_max_frame_bytes c < 2 ^ 32 ->
  session_ok c p -> fsm_ p = kSelected -> has_partial (decoder_ p) = false ->
  exists f p',
    on_bytes now (wire [message_frame c' m sys bd]) p =
      (p', mkOutput [] [mkDelivery f
             (if (function m mod 2 =? 0) && bool_decide (is_Some (transactions_ p !! sys))
              then Some sys else None)] [] false "") /\
    to_message f = Ok (normalize_message m) /\ system_bytes (header f) = sys /\
    session_id (header f) = device_id c' /\
    fsm_ p' = kSelected /\ config_ p' = c /\ has_partial (decoder_ p') = false /\
    transactions_ p' =
      (if function m mod 2 =? 0 then delete sys (transactions_ p) else transactions_ p).
Proof.
  intros Hdev Hm Hsys Hbd Hlen Hmax Hp Hsel Hpart.
  assert (Hb : bytes_ok bd).
  { destruct Hm as (_ & _ & Hm). destruct (body m); [|by subst].
    by eapply encode_bytes_ok. }
  destruct (on_bytes_data c now (message_frame c' m sys bd) p) as (p' & Ho & Hf' & Hc' & Hp' & Ht');
    try done; [by apply message_frame_ok|].
  exists (message_frame c' m sys bd), p'. rewrite message_frame_function in *.
  split_and!; try done.
  destruct Hm as (Hst & _ & Hit). apply to_message_make_data_frame; [done|].
  destruct (body m); done.
Qed.

Lemma send_request_Ok c now m s out sys s' out' :
  session_config_ok c -> session_ok c s -> send_request now m s out = (Ok sys, s', out') ->
  fsm_ s = kSelected /\ fsm_ s' = kSelected /\ decoder_ s' = decoder_ s /\ session_ok c s' /\
  sys <> 0 /\ uint_ok 32 sys /\ transactions_ s !! sys = None /\
  transactions_ s' = (if w_bit m then <[sys := after now (t3 c)]> (transactions_ s)
                      else transactions_ s) /\
  exists bd,
    match body m with None => bd = [] | Some it => encode it = Ok bd end /\
    frame_length (message_frame c m sys bd) <= cfg_max_frame_bytes c /\
    out' = push_send (wire [message_frame c m sys bd]) out.
Proof.
  intros Hcfg Hs H. pose proof (send_request_ok c now m s out Hcfg Hs) as Hok.
  rewrite H in Hok. simpl in Hok. pose proof (link_config _ _ (proj1 Hs)) as Hc.
  unfold send_request in H. case_bool_decide as E; simpl in H; [|done].
  destruct (w_bit m && _); [done|].
  destruct (allocate_ok c s Hcfg (proj1 Hs)) as (sys' & next & Ha & Hnx & H0 & Hu & Hf & Hpl).
  rewrite Ha in H. destruct (queue_data _ _ _ _) as [o|] eqn:Eq; [|done].
  apply queue_data_Ok in Eq as (bd & Hbd & Hlen & ->). simpl in Hlen. rewrite Hc in Hlen.
  simpl config_ in H. rewrite Hc in H.
  destruct (w_bit m); simplify_eq; split_and!; try done; eauto.
Qed.

Lemma send_reply_Ok c m s sys out out' :
  session_ok c s -> send_reply sys m s out = Ok out' ->
  fsm_ s = kSelected /\
  exists bd,
    match body m with None => bd = [] | Some it => encode it = Ok bd end /\
    frame_length (message_frame c (mkMessage (stream m) (function m) false (body m)) sys bd)
      <= cfg_max_frame_bytes c /\
    out' = push_send
      (wire [message_frame c (mkMessage (stream m) (function m) false (body m)) sys bd]) out.
Proof.
  intros Hs H. unfold send_reply in H. case_bool_decide as E; simpl in H; [|done].
  apply queue_data_Ok in H as (bd & Hbd & Hlen & ->).
  rewrite (link_config _ _ (proj1 Hs)) in *. simpl in Hbd. eauto 10.
Qed.

(** [C1] Reply matching, end to end: a primary message sent with the W-bit by one
    session arrives at its peer as the same message and not as a reply; the reply
    the peer sends to it arrives back as the same message, is matched to that very
    request, and closes its transaction (and no other). *)
Theorem request_reply_roundtrip ca cb a b a' b' outa outb outrx ta tb tc m r sys :
  session_config_ok ca -> session_config_ok cb ->
  cfg_max_frame_bytes ca = cfg_max_frame_bytes cb -> cfg_max_frame_bytes ca < 2 ^ 32 ->
  uint_ok 16 (device_id ca) -> uint_ok 16 (device_id cb) ->
  session_reachable ca a -> session_reachable cb b ->
  has_partial (decoder_ a) = false -> has_partial (decoder_ b) = false -> fsm_ b = kSelected ->
  message_ok m -> w_bit m = true -> function m mod 2 = 1 ->
  message_ok r -> function r mod 2 = 0 ->
  send_request ta m a no_output = (Ok sys, a', outa) ->
  on_bytes tb (concat (to_send outa)) b = (b', outrx) ->
  send_reply sys r b' no_output = Ok outb ->
  (exists f, deliveries outrx = [mkDelivery f None] /\ system_bytes (header f) = sys /\
             to_message f = Ok (normalize_message m)) /\
  exists g a'',
    on_bytes tc (concat (to_send outb)) a' =
      (a'', mkOutput [] [mkDelivery g (Some sys)] [] false "") /\
    to_message g =
      Ok (normalize_message (mkMessage (stream r) (function r) false (body r))) /\
    transactions_ a'' = transactions_ a.
Proof.
  intros Hca Hcb Hmax Hmax32 Hda Hdb Ha Hb Hpa Hpb Hselb Hm Hw Hodd Hr Heven Hreq Hrx Hrep.
  apply session_reachable_ok in Ha, Hb; [|done..].
  destruct (send_request_Ok ca ta m a no_output _ _ _ Hca Ha Hreq)
    as (_ & Hsela & Hdec & Ha' & H0 & Hu & Hnew & Htr & bd & Hbd & Hlen & ->).
  rewrite Hw in Htr. cbn [to_send push_send no_output app] in Hrx.
  rewrite concat_cons, app_nil_r in Hrx.
  destruct (message_received cb ca tb m sys bd b) as (f & p' & Hf & Hmsg & Hsys & _ & _ & _ & _ & _);
    try done; [lia|lia|].
  pose proof (on_bytes_ok cb tb (wire [message_frame ca m sys bd]) b Hb) as Hb'.
  rewrite Hrx in Hf, Hb'. rewrite Hodd in Hf. simplify_eq. split; [by eauto|].
  destruct (send_reply_Ok cb r p' _ no_output _ Hb' Hrep) as (_ & bd' & Hbd' & Hlen' & ->).
  cbn [to_send push_send no_output app]. rewrite concat_cons, app_nil_r.
  set (r' := mkMessage (stream r) (function r) false (body r)) in *.
  destruct (message_received ca cb tc r' (system_bytes (header f)) bd' a')
    as (g & a'' & Hg & Hgm & _ & _ & _ & _ & _ & Htr'); try done; [lia|by rewrite Hdec|].
  exists g, a''. simpl function in *. rewrite Heven, Htr in *. cbn [Z.eqb andb] in *.
  rewrite bool_decide_eq_true_2 in Hg by (rewrite lookup_insert_eq; eauto).
  split_and!; [done|done|]. rewrite Htr'. by apply delete_insert_id.
Qed.

(** A link that has been connected and selected by its host. *)
Definition selected_session (c : SessionConfig) : Session :=
  (session_step (ev_bytes 5 (wire [make_control_frame kSelectReq 77 0 0]))
     (session_step (ev_connect 0) (new_session c)).1).1.

Lemma selected_session_reachable c : session_reachable c (selected_session c).
Proof. apply reach_step, reach_step, reach_new. Qed.

Lemma default_session_config_ok : session_config_ok default_session_config.
Proof. repeat split; vm_compute; congruence. Qed.

Definition sample_request : Message := mkMessage 6 11 true (Some sample_item).
Definition sample_reply : Message := mkMessage 6 12 true (Some (binary [0])).

Lemma sample_request_ok : message_ok sample_request.
Proof. split_and!; [done..|]. by apply (bool_decide_unpack (item_ok sample_item)). Qed.

Lemma sample_reply_ok : message_ok sample_reply.
Proof. split_and!; [done..|]. by apply (bool_decide_unpack (item_ok (binary [0]))). Qed.

Definition sample_exchange : (Session * SessionOutput) * (Session * SessionOutput) :=
  let a := selected_session default_session_config in
  let '(_, a', outa) := send_request 10 sample_request a no_output in
  ((a', outa), on_bytes 20 (concat (to_send outa)) a).

Lemma request_reply_roundtrip_witness :
  let '((a', outa), (b', outrx)) := sample_exchange in
  exists outb g a'',
    send_reply 1 sample_reply b' no_output = Ok outb /\
    on_bytes 30 (concat (to_send outb)) a' =
      (a'', mkOutput [] [mkDelivery g (Some 1)] [] false "").
Proof.
  destruct sample_exchange as [[a' outa] [b' outrx]] eqn:E.
  set (outb := push_send (wire [message_frame default_session_config
    (mkMessage 6 12 false (Some (binary [0]))) 1 [33; 1; 0]]) no_output).
  assert (Ha : send_request 10 sample_request (selected_session default_session_config) no_output
    = (Ok 1, a', outa)).
  { transitivity (Ok 1, sample_exchange.1.1, sample_exchange.1.2);
      [vm_compute; reflexivity|by rewrite E]. }
  assert (Hb : on_bytes 20 (concat (to_send outa)) (selected_session default_session_config)
    = (b', outrx)).
  { transitivity sample_exchange.2; [|by rewrite E].
    replace outa with sample_exchange.1.2 by (by rewrite E). vm_compute. reflexivity. }
  assert (Hc : send_reply 1 sample_reply b' no_output = Ok outb).
  { replace b' with sample_exchange.2.1 by (by rewrite E). vm_compute. reflexivity. }
  destruct (request_reply_roundtrip default_session_config default_session_config _ _
    a' b' outa outb outrx 10 20 30 sample_request sample_reply 1
    default_session_config_ok default_session_config_ok eq_refl eq_refl
    ltac:(by split) ltac:(by split)
    (selected_session_reachable _) (selected_session_reachable _)
    ltac:(vm_compute; reflexivity) ltac:(vm_compute; reflexivity) ltac:(vm_compute; reflexivity)
    sample_request_ok eq_refl eq_refl sample_reply_ok eq_refl Ha Hb Hc) as [_ (g & a'' & Hg & _)].
  by exists outb, g, a''.
Defined.

(** ** Witnesses of the invariants *)

(** A selected session with one open request and half a frame buffered. *)
Definition busy_session : Session :=
  (session_step (ev_bytes 30 [0; 0; 0])
     (session_step (ev_request 10 sample_request) (selected_session default_session_config)).1).1.

Lemma busy_session_reachable : session_reachable default_session_config busy_session.
Proof. apply reach_step, reach_step, selected_session_reachable. Qed.

Lemma session_invariant_witness :
  session_reachable default_session_config busy_session /\
  transactions_ busy_session = {[1 := 45000000010]} /\
  timer_running (t8_ busy_session) = has_partial (decoder_ busy_session).
Proof.
  split; [apply busy_session_reachable|]. split; [vm_compute; reflexivity|].
  apply (session_invariant default_session_config busy_session);
    [apply default_session_config_ok|apply busy_session_reachable].
Defined.

Lemma on_tick_timeouts_witness :
  close (on_tick 5000000030 busy_session).2 = tick_closes 5000000030 busy_session /\
  tick_closes 5000000030 busy_session = true.
Proof.
  split; [|vm_compute; reflexivity].
  apply (on_tick_timeouts default_session_config);
    [apply default_session_config_ok|apply busy_session_reachable|by vm_compute].
Defined.

(** ** Data needs a selected link *)

Definition is_select_req (f : Frame) : bool :=
  (ptype (header f) =? 0) && (stype (header f) =? stype_code kSelectReq).

Lemma stype_from_byte_code b t : stype_from_byte b = Some t -> b = stype_code t.
Proof.
  unfold stype_from_byte. intros H. repeat (case_match; try done); by simplify_eq.
Qed.

Lemma handle_frame_unselected now f s out :
  fsm_ s <> kSelected ->
  deliveries (handle_frame now f s out).2 = deliveries out /\
  (is_select_req f = false -> fsm_ (handle_frame now f s out).1 <> kSelected).
Proof.
  intros Hf. unfold handle_frame, is_select_req.
  destruct (ptype (header f) =? 0); simpl; [|done].
  destruct (stype_from_byte (stype (header f))) as [t|] eqn:Et; [|done].
  apply stype_from_byte_code in Et. rewrite Et.
  destruct t; simpl; rewrite ?(bool_decide_eq_false_2 (fsm_ s = kSelected)) by done; try done.
  - split; [|done]. case_bool_decide; [|done]. unfold fsm_apply. by destruct (connection_apply _ _).
  - by destruct (linktest_is s _).
  - by destruct (linktest_is s _).
  - split; [done|]. intros _. by rewrite on_disconnect_idle.
Qed.

Lemma handle_frames_unselected now fs s out :
  fsm_ s <> kSelected -> Forall (fun f => is_select_req f = false) fs ->
  deliveries (handle_frames now fs s out).2 = deliveries out /\
  fsm_ (handle_frames now fs s out).1 <> kSelected.
Proof.
  intros Hf Hfs. revert s out Hf. induction Hfs as [|f fs Hsel Hfs IH]; intros s out Hf; [done|].
  simpl. destruct (handle_frame_unselected now f s out Hf) as [Hd Hs].
  destruct (handle_frame now f s out) as [s' out']. simpl in *.
  destruct (close out'); [by auto|]. rewrite <- Hd. by apply IH; auto.
Qed.

(** No data crosses a link that is not SELECTED: [send_request] and [send_reply]
    refuse with reason 410, changing and sending nothing; a received data frame is
    not delivered but answered by a Reject.req (reason 4, entity not selected) that
    echoes its system bytes; and a read whose frames contain no Select.req neither
    delivers anything nor selects the link. *)
Theorem data_needs_selection now s :
  fsm_ s <> kSelected ->
  (forall m out, send_request now m s out =
     (Err (mkError kErrNotSelected "data messages can only be sent while selected"), s, out)) /\
  (forall sys m out, send_reply sys m s out =
     Err (mkError kErrNotSelected "data messages can only be sent while selected")) /\
  (forall f out, ptype (header f) = 0 -> stype (header f) = stype_code kData ->
     handle_frame now f s out =
       (s, send_control kRejectReq (system_bytes (header f)) (stype_code kData)
             kRejectEntityNotSelected out)) /\
  forall bytes frames d, feed (decoder_ s) bytes = (Ok frames, d) ->
    Forall (fun f => is_select_req f = false) frames ->
    deliveries (on_bytes now bytes s).2 = [] /\ fsm_ (on_bytes now bytes s).1 <> kSelected.
Proof.
  intros Hf. split_and!.
  - intros. unfold send_request. by rewrite bool_decide_eq_false_2.
  - intros. unfold send_reply. by rewrite bool_decide_eq_false_2.
  - intros f out Hp Hs. unfold handle_frame, reject. rewrite Hp, Hs. simpl.
    by rewrite bool_decide_eq_false_2.
  - intros bytes frames d Hfeed Hfs. unfold on_bytes.
    case_bool_decide; [done|]. cbv zeta. cbn [decoder_ set_last_activity]. rewrite Hfeed.
    set (s1 := set_decoder d _).
    destruct (handle_frames_unselected now frames s1 no_output Hf Hfs) as [Hd Hs].
    destruct (handle_frames now frames s1 no_output) as [s' out]. simpl in *.
    destruct (close out); [done|]. by destruct (has_partial (decoder_ s')).
Qed.

Lemma data_needs_selection_witness :
  let s := new_session default_session_config in
  fsm_ s <> kSelected /\
  send_request 0 sample_request s no_output =
    (Err (mkError kErrNotSelected "data messages can only be sent while selected"), s, no_output).
Proof. split; [done|]. by apply (data_needs_selection 0). Defined.
