(* ===== verification/ProcessFsm.v ===== *)
(** * The process state machine

    include/ssim/core/process_state_machine.hpp and
    src/core/process_state_machine.cpp, against the transition table of
    docs/PRD.md, section 6.5. *)

From S2P Require Import Prelude.

Inductive ProcessState := kIdle | kScanning | kProcessing | kAlarm | kStopping.
Inductive ProcessTrigger :=
| kStart | kLinesComplete | kStop | kAbort | kFault | kResultReady | kClearAlarm | kStageStopped.

#[global] Instance ProcessState_eq_dec : EqDecision ProcessState.
Proof. solve_decision. Defined.
#[global] Instance ProcessTrigger_eq_dec : EqDecision ProcessTrigger.
Proof. solve_decision. Defined.

Definition process_state_to_string (s : ProcessState) : string :=
  match s with
  | kIdle => "Idle" | kScanning => "Scanning" | kProcessing => "Processing"
  | kAlarm => "Alarm" | kStopping => "Stopping"
  end%string.

Definition process_trigger_to_string (t : ProcessTrigger) : string :=
  match t with
  | kStart => "Start" | kLinesComplete => "LinesComplete" | kStop => "Stop" | kAbort => "Abort"
  | kFault => "Fault" | kResultReady => "ResultReady" | kClearAlarm => "ClearAlarm"
  | kStageStopped => "StageStopped"
  end%string.

Definition kReasonIllegalTransition : Z := 100.
Definition kReasonControlStateDenied : Z := 101.
Definition kReasonActiveAlarm : Z := 102.
Definition kReasonInvalidWafer : Z := 103.
Definition kReasonAlarmNotCleared : Z := 104.

Record TransitionGuards := mkGuards {
  control_allows_start_g : bool;
  has_active_alarm_g : bool;
  wafer_valid : bool;
  more_wafers_pending : bool;
  alarm_cause_cleared : bool
}.
Definition default_guards : TransitionGuards := mkGuards true false true false true.

(** [class ProcessStateMachine]: the state and the stop-after-wafer flag. *)
Record ProcessStateMachine := mkFsm { fsm_state : ProcessState; stop_after_wafer_ : bool }.
Definition new_fsm : ProcessStateMachine := mkFsm kIdle false.

Definition fsm_reject (m : ProcessStateMachine) (reason : Z) (msg : string)
    : Result ProcessState * ProcessStateMachine := (Err (mkError reason msg), m).
Definition fsm_enter (s : ProcessState) (stop : bool)
    : Result ProcessState * ProcessStateMachine := (Ok s, mkFsm s stop).

(** [ProcessStateMachine::apply]. *)
Definition process_apply (t : ProcessTrigger) (g : TransitionGuards) (m : ProcessStateMachine)
    : Result ProcessState * ProcessStateMachine :=
  let stop := stop_after_wafer_ m in
  match fsm_state m with
  | kIdle =>
      match t with
      | kStart =>
          if negb (control_allows_start_g g) then
            fsm_reject m kReasonControlStateDenied "Start denied by control state"
          else if has_active_alarm_g g then
            fsm_reject m kReasonActiveAlarm "Start denied: an alarm is active"
          else if negb (wafer_valid g) then
            fsm_reject m kReasonInvalidWafer "Start denied: no valid wafer or cassette"
          else fsm_enter kScanning false
      | _ => fsm_reject m kReasonIllegalTransition "Idle only accepts Start"
      end
  | kScanning =>
      match t with
      | kLinesComplete => fsm_enter kProcessing stop
      | kStop => fsm_enter kScanning true
      | kAbort => fsm_enter kStopping stop
      | kFault => fsm_enter kAlarm stop
      | _ => fsm_reject m kReasonIllegalTransition
               "Scanning only accepts LinesComplete, Stop, Abort, Fault"
      end
  | kProcessing =>
      match t with
      | kResultReady =>
          if more_wafers_pending g && negb stop then fsm_enter kScanning stop
          else fsm_enter kIdle false
      | kFault => fsm_enter kAlarm stop
      | kAbort => fsm_enter kStopping stop
      | _ => fsm_reject m kReasonIllegalTransition
               "Processing only accepts ResultReady, Fault, Abort"
      end
  | kAlarm =>
      match t with
      | kClearAlarm =>
          if negb (alarm_cause_cleared g) then
            fsm_reject m kReasonAlarmNotCleared "ClearAlarm denied: cause still present"
          else fsm_enter kIdle stop
      | _ => fsm_reject m kReasonIllegalTransition "Alarm only accepts ClearAlarm"
      end
  | kStopping =>
      match t with
      | kStageStopped => fsm_enter kIdle false
      | _ => fsm_reject m kReasonIllegalTransition "Stopping only accepts StageStopped"
      end
  end.

(** ** The table of PRD 6.5

    [prd_step stop g from t to]: a row whose guard [g] satisfies, [stop] being the
    stop flag that the second "Result ready" row asks about. *)

Definition start_guard (g : TransitionGuards) : Prop :=
  control_allows_start_g g = true /\ has_active_alarm_g g = false /\ wafer_valid g = true.

Inductive prd_step (stop : bool) (g : TransitionGuards)
    : ProcessState -> ProcessTrigger -> ProcessState -> Prop :=
| prd_start : start_guard g -> prd_step stop g kIdle kStart kScanning
| prd_lines : prd_step stop g kScanning kLinesComplete kProcessing
| prd_stop : prd_step stop g kScanning kStop kScanning
| prd_abort_scan : prd_step stop g kScanning kAbort kStopping
| prd_fault_scan : prd_step stop g kScanning kFault kAlarm
| prd_next_wafer : more_wafers_pending g = true -> stop = false ->
    prd_step stop g kProcessing kResultReady kScanning
| prd_last_wafer : more_wafers_pending g = false \/ stop = true ->
    prd_step stop g kProcessing kResultReady kIdle
| prd_fault_process : prd_step stop g kProcessing kFault kAlarm
| prd_abort_process : prd_step stop g kProcessing kAbort kStopping
| prd_clear : alarm_cause_cleared g = true -> prd_step stop g kAlarm kClearAlarm kIdle
| prd_stopped : prd_step stop g kStopping kStageStopped kIdle.

(** The reason a rejected trigger gets. *)
Definition reject_reason (g : TransitionGuards) (s : ProcessState) (t : ProcessTrigger) : Z :=
  match s, t with
  | kIdle, kStart =>
      if negb (control_allows_start_g g) then kReasonControlStateDenied
      else if has_active_alarm_g g then kReasonActiveAlarm
      else kReasonInvalidWafer
  | kAlarm, kClearAlarm => kReasonAlarmNotCleared
  | _, _ => kReasonIllegalTransition
  end.

(** [apply] as the table, for lemmas about clients. *)
Lemma process_apply_spec t g m :
  (exists s, process_apply t g m = (Ok s, mkFsm s (stop_after_wafer_ (process_apply t g m).2)) /\
             prd_step (stop_after_wafer_ m) g (fsm_state m) t s) \/
  (exists msg, process_apply t g m = (Err (mkError (reject_reason g (fsm_state m) t) msg), m) /\
               forall s, ~ prd_step (stop_after_wafer_ m) g (fsm_state m) t s).
Proof.
  destruct m as [[] stop], t; cbn -[String.append];
    try solve [left; eexists; split; [reflexivity|constructor]
              |right; eexists; split; [reflexivity|intros s' Hs; inversion Hs]];
    destruct g as [[] [] [] [] []], stop; cbn -[String.append];
    first [left; eexists; split; [reflexivity|constructor; unfold start_guard; cbn; naive_solver]
          |right; eexists; split; [reflexivity|];
           intros s' Hs; inversion Hs; unfold start_guard in *; cbn in *; naive_solver].
Qed.

(** The machine implements the PRD's table: a trigger that some row allows
    succeeds with that row's target, any other leaves state and flag unchanged and
    is rejected with the reason of the first guard that fails; the stop flag is set
    by Stop while Scanning, cleared by Start and by reaching Idle except from Alarm,
    and kept otherwise. *)
Theorem process_apply_table t g m :
  (forall s, prd_step (stop_after_wafer_ m) g (fsm_state m) t s <->
             (process_apply t g m).1 = Ok s) /\
  (forall s, (process_apply t g m).1 = Ok s ->
     (process_apply t g m).2 =
       mkFsm s (match t with
                | kStop => true
                | kStart | kStageStopped => false
                | kResultReady => stop_after_wafer_ m && bool_decide (s = kScanning)
                | _ => stop_after_wafer_ m
                end)) /\
  (forall e, (process_apply t g m).1 = Err e ->
     code e = reject_reason g (fsm_state m) t /\ (process_apply t g m).2 = m).
Proof.
  split_and!.
  - intros s. destruct (process_apply_spec t g m) as [(s' & -> & Hs')|(msg & -> & Hno)]; simpl.
    + split; [|by intros [= ->]]. intros Hs. f_equal.
      destruct Hs; inversion Hs'; try done; intuition congruence.
    + split; [|done]. intros Hs. by apply Hno in Hs.
  - intros s. unfold process_apply, fsm_reject, fsm_enter. intros H.
    destruct m as [[] stop], t; cbn in *; repeat case_match; simplify_eq/=; try done.
    all: try by destruct stop. all: by destruct (more_wafers_pending g), stop.
  - intros e. destruct (process_apply_spec t g m) as [(s' & -> & Hs')|(msg & -> & Hno)]; [done|].
    by intros [= <-].
Qed.

Lemma process_apply_table_witness :
  process_apply kStart default_guards new_fsm = (Ok kScanning, mkFsm kScanning false).
Proof.
  destruct (process_apply_table kStart default_guards new_fsm) as (_ & H & _).
  rewrite <- (H kScanning eq_refl). reflexivity.
Defined.

(** The stop flag outlives the run when a fault ends it: the flag of a machine
    that went Scanning, Stop, Fault, ClearAlarm is still set in Idle. *)
Definition after_triggers (ts : list ProcessTrigger) : ProcessStateMachine :=
  foldl (fun m t => (process_apply t default_guards m).2) new_fsm ts.

Lemma stop_flag_survives_fault :
  after_triggers [kStart; kStop; kFault; kClearAlarm] = mkFsm kIdle true.
Proof. reflexivity. Qed.
