(* ===== verification/Controller.v ===== *)
(** * The machine controller

    include/ssim/core/{events,command,alarms,controller,machine_api,ui_rules}.hpp
    and src/core/{command,alarms,controller,machine_api,ui_rules}.cpp: what runs on
    the controller thread, one item of its inbox at a time. *)

From S2P Require Import Prelude ProcessFsm.

(** ** Commands (command.hpp) *)

Inductive CommandSource := kUi | kCli | kSecsGem.
Inductive ControlMode := kOffline | kOnlineLocal | kOnlineRemote.

#[global] Instance CommandSource_eq_dec : EqDecision CommandSource.
Proof. solve_decision. Defined.
#[global] Instance ControlMode_eq_dec : EqDecision ControlMode.
Proof. solve_decision. Defined.

Definition command_source_to_string (s : CommandSource) : string :=
  match s with kUi => "Ui" | kCli => "Cli" | kSecsGem => "SecsGem" end%string.
Definition control_mode_to_string (m : ControlMode) : string :=
  match m with
  | kOffline => "Offline" | kOnlineLocal => "OnlineLocal" | kOnlineRemote => "OnlineRemote"
  end%string.

Inductive CommandPayload :=
| StartCommand (wafer_id : string) (slot : Z)
| StopCommand
| AbortCommand
| ClearAlarmCommand
| SetControlModeCommand (mode : ControlMode).

Record Command := mkCommand { payload : CommandPayload; source : CommandSource; correlation_id : Z }.

(** ** Events (events.hpp); a [double] is its bit pattern *)

Record WaferResultReady := mkWaferResult {
  result_wafer_id : string; result_slot : Z; stress_mpa : Z; stress_unc_mpa : Z;
  curvature_per_m : Z; fit_rms_um : Z; out_of_spec : bool
}.

Inductive Event :=
| ScanStarted (wafer_id : string) (slot : Z)
| ScanProgress (wafer_id : string) (percent : Z)
| ScanComplete (wafer_id : string) (slot : Z) (oos : bool)
| WaferResult (r : WaferResultReady)
| WaferOutOfSpec (wafer_id : string) (stress : Z)
| RunAborted (wafer_id : string)
| CassetteComplete (cassette_id : string)
| AlarmSet (alid : Z) (name reason : string)
| AlarmCleared (alid : Z) (name : string)
| StateChanged (from to : ProcessState)
| ControlStateChanged (from to : ControlMode)
| ScanLinesComplete (wafer_id : string).

(** ** Alarms (alarms.cpp) *)

Inductive AlarmId :=
| kSensorSpikeRateHigh | kSensorDropout | kFitQualityPoor | kScanStall | kProcessingTimeout
| kQueueOverflow | kStressImplausible.

Definition alarm_code (a : AlarmId) : Z :=
  match a with
  | kSensorSpikeRateHigh => 1001 | kSensorDropout => 1002 | kFitQualityPoor => 1003
  | kScanStall => 1004 | kProcessingTimeout => 1005 | kQueueOverflow => 1006
  | kStressImplausible => 1007
  end.

Definition alarm_to_string (a : AlarmId) : string :=
  match a with
  | kSensorSpikeRateHigh => "SensorSpikeRateHigh" | kSensorDropout => "SensorDropout"
  | kFitQualityPoor => "FitQualityPoor" | kScanStall => "ScanStall"
  | kProcessingTimeout => "ProcessingTimeout" | kQueueOverflow => "QueueOverflow"
  | kStressImplausible => "StressImplausible"
  end%string.

(** [to_string(static_cast<AlarmId>(id))] for any [id]. *)
Definition alarm_code_to_string (id : Z) : string :=
  match find (fun a => alarm_code a =? id)
          [kSensorSpikeRateHigh; kSensorDropout; kFitQualityPoor; kScanStall;
           kProcessingTimeout; kQueueOverflow; kStressImplausible] with
  | Some a => alarm_to_string a
  | None => "Unknown"
  end.

(** [active_]: alarm code to reason. *)
Abbreviation AlarmManager := (gmap Z string).

(** The order in which an [unordered_map] is iterated is unspecified; all that is
    used of it is that every key comes once. *)
Class HashOrder := {
  hash_order : AlarmManager -> list Z;
  hash_order_perm : forall m, hash_order m ≡ₚ (map_to_list m).*1
}.

#[refine] Instance ascending_order : HashOrder := {| hash_order m := (map_to_list m).*1 |}.
Proof. done. Defined.

Definition alarms_set (id : AlarmId) (reason : string) (m : AlarmManager)
    : AlarmManager * list Event :=
  match m !! alarm_code id with
  | Some _ => (m, [])
  | None => (<[alarm_code id := reason]> m,
             [AlarmSet (alarm_code id) (alarm_to_string id) reason])
  end.

Definition alarms_clear (id : AlarmId) (m : AlarmManager) : AlarmManager * list Event :=
  match m !! alarm_code id with
  | Some _ => (delete (alarm_code id) m, [AlarmCleared (alarm_code id) (alarm_to_string id)])
  | None => (m, [])
  end.

Definition alarms_clear_all `{HashOrder} (m : AlarmManager) : AlarmManager * list Event :=
  (∅, map (fun id => AlarmCleared id (alarm_code_to_string id)) (hash_order m)).

Definition any_active (m : AlarmManager) : bool := bool_decide (m <> ∅).
Definition active_count (m : AlarmManager) : nat := size m.
Definition is_active (id : AlarmId) (m : AlarmManager) : bool :=
  bool_decide (is_Some (m !! alarm_code id)).

(** ** The controller (controller.cpp) *)

Record Controller := mkController {
  fsm_ : ProcessStateMachine;
  state_ : ProcessState;
  control_mode_ : ControlMode;
  has_active_alarm_ : bool;
  current_wafer_id_ : string;
  alarms_ : AlarmManager
}.

Definition new_controller : Controller := mkController new_fsm kIdle kOnlineLocal false "" ∅.

(** What the controller does to the outside: events on the bus, calls of
    [IScanDriver]. *)
Inductive Action :=
| publish (e : Event)
| driver_start (wafer_id : string)
| driver_request_abort.

(** Code on the controller thread: it reads and writes the controller and emits
    actions in order. *)
Definition Ctl (A : Type) : Type := Controller -> A * Controller * list Action.

Definition ctl_ret {A} (a : A) : Ctl A := fun c => (a, c, []).
Definition ctl_bind {A B} (m : Ctl A) (k : A -> Ctl B) : Ctl B := fun c =>
  let '(a, c, acts) := m c in
  let '(b, c, acts') := k a c in (b, c, acts ++ acts').
Definition ctl_get : Ctl Controller := fun c => (c, c, []).
Definition ctl_put (c' : Controller) : Ctl unit := fun _ => (tt, c', []).
Definition ctl_emit (acts : list Action) : Ctl unit := fun c => (tt, c, acts).

Declare Scope ctl_scope.
Delimit Scope ctl_scope with ctl.
Notation "'let!' x ':=' m 'in' k" := (ctl_bind m (fun x => k))
  (at level 200, x name, m at level 100, k at level 200, right associativity) : ctl_scope.
Notation "m ';;;' k" := (ctl_bind m (fun _ => k)) (at level 199, right associativity) : ctl_scope.
#[local] Open Scope ctl_scope.

Definition set_alarm_flag (b : bool) (c : Controller) : Controller :=
  mkController (fsm_ c) (state_ c) (control_mode_ c) b (current_wafer_id_ c) (alarms_ c).
Definition set_wafer (w : string) (c : Controller) : Controller :=
  mkController (fsm_ c) (state_ c) (control_mode_ c) (has_active_alarm_ c) w (alarms_ c).
Definition set_mode (m : ControlMode) (c : Controller) : Controller :=
  mkController (fsm_ c) (state_ c) m (has_active_alarm_ c) (current_wafer_id_ c) (alarms_ c).
Definition set_alarms (a : AlarmManager) (c : Controller) : Controller :=
  mkController (fsm_ c) (state_ c) (control_mode_ c) (has_active_alarm_ c) (current_wafer_id_ c) a.
Definition set_process (m : ProcessStateMachine) (s : ProcessState) (c : Controller) : Controller :=
  mkController m s (control_mode_ c) (has_active_alarm_ c) (current_wafer_id_ c) (alarms_ c).

Definition ctl_modify (f : Controller -> Controller) : Ctl unit := fun c => (tt, f c, []).

(** A call of the alarm manager, with the events it publishes. *)
Definition ctl_alarms (f : AlarmManager -> AlarmManager * list Event) : Ctl unit := fun c =>
  let '(a, evs) := f (alarms_ c) in (tt, set_alarms a c, map publish evs).

Definition control_allows_start (mode : ControlMode) (src : CommandSource) : bool :=
  match mode with
  | kOnlineRemote => bool_decide (src = kSecsGem)
  | _ => negb (bool_decide (src = kSecsGem))
  end.

Definition control_allows_host_command (mode : ControlMode) (src : CommandSource) : bool :=
  negb (bool_decide (src = kSecsGem)) || bool_decide (mode = kOnlineRemote).

Definition control_allows_set_mode (requested current : ControlMode) (src : CommandSource) : bool :=
  negb (bool_decide (src = kSecsGem)) ||
  (bool_decide (requested = kOffline) || bool_decide (current = kOffline)).

(** [Controller::transition]: apply, then store and publish a changed state. *)
Definition transition (t : ProcessTrigger) (g : TransitionGuards) : Ctl (Result ProcessState) :=
  let! c := ctl_get in
  let from := fsm_state (fsm_ c) in
  let '(result, m) := process_apply t g (fsm_ c) in
  if has_value result && negb (bool_decide (fsm_state m = from)) then
    ctl_put (set_process m (fsm_state m) c) ;;;
    ctl_emit [publish (StateChanged from (fsm_state m))] ;;;
    ctl_ret result
  else ctl_put (set_process m (state_ c) c) ;;; ctl_ret result.

Definition host_denied : Result ProcessState :=
  Err (mkError kReasonControlStateDenied "host commands need Online-Remote").

Section controller.
Context {order : HashOrder}.

(** [Controller::handle_command], the alternatives of its visitor. *)
Definition handle_start (w : string) (slot : Z) (src : CommandSource) : Ctl (Result ProcessState) :=
  let! c := ctl_get in
  let! result := transition kStart
    (mkGuards (control_allows_start (control_mode_ c) src) (has_active_alarm_ c)
       (negb (bool_decide (w = ""%string))) false true) in
  if has_value result then
    ctl_modify (set_wafer w) ;;;
    ctl_emit [publish (ScanStarted w slot); driver_start w] ;;;
    ctl_ret result
  else ctl_ret result.

Definition handle_stop (src : CommandSource) : Ctl (Result ProcessState) :=
  let! c := ctl_get in
  if negb (control_allows_host_command (control_mode_ c) src) then ctl_ret host_denied
  else transition kStop default_guards.

Definition handle_abort (src : CommandSource) : Ctl (Result ProcessState) :=
  let! c := ctl_get in
  if negb (control_allows_host_command (control_mode_ c) src) then ctl_ret host_denied
  else
    let! result := transition kAbort default_guards in
    if has_value result then ctl_emit [driver_request_abort] ;;; ctl_ret result
    else ctl_ret result.

Definition handle_clear_alarm (src : CommandSource) : Ctl (Result ProcessState) :=
  let! c := ctl_get in
  if negb (control_allows_host_command (control_mode_ c) src) then ctl_ret host_denied
  else
    let! result := transition kClearAlarm default_guards in
    if has_value result then
      ctl_modify (set_alarm_flag false) ;;; ctl_alarms alarms_clear_all ;;; ctl_ret result
    else ctl_ret result.

Definition handle_set_mode (mode : ControlMode) (src : CommandSource) : Ctl (Result ProcessState) :=
  let! c := ctl_get in
  let from := control_mode_ c in
  if negb (control_allows_set_mode mode from src) then
    ctl_ret (Err (mkError kReasonControlStateDenied "SetControlMode denied for this source"))
  else
    ctl_modify (set_mode mode) ;;;
    ctl_emit [publish (ControlStateChanged from mode)] ;;;
    ctl_ret (Ok (state_ c)).

Definition handle_command (cmd : Command) : Ctl (Result ProcessState) :=
  match payload cmd with
  | StartCommand w slot => handle_start w slot (source cmd)
  | StopCommand => handle_stop (source cmd)
  | AbortCommand => handle_abort (source cmd)
  | ClearAlarmCommand => handle_clear_alarm (source cmd)
  | SetControlModeCommand mode => handle_set_mode mode (source cmd)
  end.

(** The notifications, as they run on the controller thread. *)
Definition notify_scan_complete (w : string) : Ctl (Result ProcessState) :=
  ctl_emit [publish (ScanLinesComplete w)] ;;; transition kLinesComplete default_guards.

Definition notify_fault (id : AlarmId) (reason : string) : Ctl (Result ProcessState) :=
  let! result := transition kFault default_guards in
  if has_value result then
    ctl_modify (set_alarm_flag true) ;;; ctl_alarms (alarms_set id reason) ;;; ctl_ret result
  else ctl_ret result.

Definition notify_processing_result (oos : bool) (stress : Z) (raised : option AlarmId)
    (reason : string) (more : bool) : Ctl (Result ProcessState) :=
  match raised with
  | Some id => notify_fault id reason
  | None =>
      let! c := ctl_get in
      let w := current_wafer_id_ c in
      ctl_emit (if oos then [publish (WaferOutOfSpec w stress)] else []) ;;;
      let! result := transition kResultReady (mkGuards true false true more true) in
      ctl_emit (if has_value result then [publish (ScanComplete w 0 oos)] else []) ;;;
      ctl_ret result
  end.

Definition notify_stage_stopped : Ctl (Result ProcessState) :=
  let! result := transition kStageStopped default_guards in
  let! c := ctl_get in
  ctl_emit (if has_value result then [publish (RunAborted (current_wafer_id_ c))] else []) ;;;
  ctl_ret result.

(** ** Runs of the controller

    One inbox item, or a direct call of the alarm manager by another thread (the
    scan thread's QueueOverflow). *)
Inductive ctl_input :=
| in_command (cmd : Command)
| in_scan_complete (w : string)
| in_result (oos : bool) (stress : Z) (raised : option AlarmId) (reason : string) (more : bool)
| in_fault (id : AlarmId) (reason : string)
| in_stage_stopped
| in_alarm_set (id : AlarmId) (reason : string)
| in_alarm_clear (id : AlarmId).

Definition ctl_handle (i : ctl_input) : Ctl (Result ProcessState) :=
  match i with
  | in_command cmd => handle_command cmd
  | in_scan_complete w => notify_scan_complete w
  | in_result oos stress raised reason more =>
      notify_processing_result oos stress raised reason more
  | in_fault id reason => notify_fault id reason
  | in_stage_stopped => notify_stage_stopped
  | in_alarm_set id reason =>
      ctl_alarms (alarms_set id reason) ;;; let! c := ctl_get in ctl_ret (Ok (state_ c))
  | in_alarm_clear id =>
      ctl_alarms (alarms_clear id) ;;; let! c := ctl_get in ctl_ret (Ok (state_ c))
  end.

(** A whole history: the controller and everything it did. *)
Fixpoint ctl_run (ins : list ctl_input) (c : Controller) : Controller * list Action :=
  match ins with
  | [] => (c, [])
  | i :: ins' =>
      let '(_, c, acts) := ctl_handle i c in
      let '(c, acts') := ctl_run ins' c in (c, acts ++ acts')
  end.

Definition ctl_reachable (c : Controller) : Prop :=
  exists ins, (ctl_run ins new_controller).1 = c.

End controller.

(** ** A transition of a consistent controller *)

(** The atomics agree with the state machine, and the alarm flag with the state. *)
Definition ctl_ok (c : Controller) : Prop :=
  state_ c = fsm_state (fsm_ c) /\ has_active_alarm_ c = bool_decide (state_ c = kAlarm).

Definition changed (from to : ProcessState) : list Action :=
  if bool_decide (to = from) then [] else [publish (StateChanged from to)].

Lemma set_process_same c : set_process (fsm_ c) (state_ c) c = c.
Proof. by destruct c. Qed.

Lemma transition_cases t g c :
  state_ c = fsm_state (fsm_ c) ->
  (exists s m, prd_step (stop_after_wafer_ (fsm_ c)) g (state_ c) t s /\ fsm_state m = s /\
     transition t g c = (Ok s, set_process m s c, changed (state_ c) s)) \/
  (exists msg, (forall s, ~ prd_step (stop_after_wafer_ (fsm_ c)) g (state_ c) t s) /\
     transition t g c = (Err (mkError (reject_reason g (state_ c) t) msg), c, [])).
Proof.
  intros Hs. unfold transition, ctl_bind, ctl_get, ctl_put, ctl_emit, ctl_ret. rewrite Hs.
  destruct (process_apply_spec t g (fsm_ c)) as [(s & Ha & Hp)|(msg & Ha & Hno)]; rewrite Ha.
  - left. exists s, (mkFsm s (stop_after_wafer_ (process_apply t g (fsm_ c)).2)).
    split_and!; [done..|]. unfold changed. simpl. case_bool_decide as E; simpl; [|done].
    by rewrite E.
  - right. exists msg. split; [done|]. simpl. by rewrite <- Hs, set_process_same.
Qed.

(** ** What a subscriber knows

    A subscriber that has seen every event since the start, and nothing else:
    [view_event] gives its view after an event, or [None] if the event
    contradicts the view. *)
Record View := mkView {
  v_state : ProcessState; v_mode : ControlMode; v_wafer : string; v_alarms : gset Z
}.

Definition view_event (e : Event) (v : View) : option View :=
  match e with
  | StateChanged from to =>
      if bool_decide (v_state v = from) && negb (bool_decide (from = to))
      then Some (mkView to (v_mode v) (v_wafer v) (v_alarms v)) else None
  | ControlStateChanged from to =>
      if bool_decide (v_mode v = from)
      then Some (mkView (v_state v) to (v_wafer v) (v_alarms v)) else None
  | ScanStarted w _ =>
      if bool_decide (v_state v = kScanning)
      then Some (mkView (v_state v) (v_mode v) w (v_alarms v)) else None
  | ScanComplete w _ _ | RunAborted w | WaferOutOfSpec w _ =>
      if bool_decide (v_wafer v = w) then Some v else None
  | AlarmSet id _ _ =>
      if bool_decide (id ∈ v_alarms v) then None
      else Some (mkView (v_state v) (v_mode v) (v_wafer v) ({[id]} ∪ v_alarms v))
  | AlarmCleared id _ =>
      if bool_decide (id ∈ v_alarms v)
      then Some (mkView (v_state v) (v_mode v) (v_wafer v) (v_alarms v ∖ {[id]})) else None
  | ScanLinesComplete _ | ScanProgress _ _ | WaferResult _ | CassetteComplete _ => Some v
  end.

(** The scan driver is started only for the wafer of a run that has just begun,
    and aborted only while the machine is stopping. *)
Definition view_action (a : Action) (v : View) : option View :=
  match a with
  | publish e => view_event e v
  | driver_start w =>
      if bool_decide (v_state v = kScanning) && bool_decide (v_wafer v = w) then Some v else None
  | driver_request_abort => if bool_decide (v_state v = kStopping) then Some v else None
  end.

Fixpoint replay (acts : list Action) (v : View) : option View :=
  match acts with
  | [] => Some v
  | a :: acts' => view_action a v ≫= replay acts'
  end.

Definition view_of (c : Controller) : View :=
  mkView (state_ c) (control_mode_ c) (current_wafer_id_ c) (dom (alarms_ c)).

Lemma replay_app a b v : replay (a ++ b) v = replay a v ≫= replay b.
Proof.
  revert v. induction a as [|x a IH]; intros v; simpl; [done|].
  destruct (view_action x v); simpl; [apply IH|done].
Qed.

Lemma replay_changed v s :
  replay (changed (v_state v) s) v = Some (mkView s (v_mode v) (v_wafer v) (v_alarms v)).
Proof.
  unfold changed. case_bool_decide as E; simpl; [by subst; destruct v|].
  rewrite !bool_decide_eq_true_2, bool_decide_eq_false_2 by congruence. done.
Qed.

Lemma replay_alarms_set id reason c :
  let '(a, evs) := alarms_set id reason (alarms_ c) in
  replay (map publish evs) (view_of c) = Some (view_of (set_alarms a c)).
Proof.
  unfold alarms_set. destruct (alarms_ c !! _) as [r|] eqn:E; simpl; [by destruct c|].
  rewrite bool_decide_eq_false_2 by (by apply not_elem_of_dom). simpl.
  unfold view_of. simpl. by rewrite dom_insert_L.
Qed.

Lemma replay_alarms_clear id c :
  let '(a, evs) := alarms_clear id (alarms_ c) in
  replay (map publish evs) (view_of c) = Some (view_of (set_alarms a c)).
Proof.
  unfold alarms_clear. destruct (alarms_ c !! _) as [r|] eqn:E; simpl; [|by destruct c].
  rewrite bool_decide_eq_true_2 by (apply elem_of_dom; eauto). simpl.
  unfold view_of. simpl. by rewrite dom_delete_L.
Qed.

Lemma replay_cleared l v :
  NoDup l -> list_to_set l = v_alarms v ->
  replay (map publish (map (fun id => AlarmCleared id (alarm_code_to_string id)) l)) v =
    Some (mkView (v_state v) (v_mode v) (v_wafer v) ∅).
Proof.
  revert v. induction l as [|x l IH]; intros v Hnd Hl; simpl.
  - rewrite list_to_set_nil in Hl. rewrite Hl. by destruct v.
  - apply NoDup_cons in Hnd as [Hx Hnd].
    rewrite bool_decide_eq_true_2 by set_solver. simpl. rewrite IH; [done|done|].
    simpl. rewrite <- Hl. rewrite list_to_set_cons. apply set_eq. intros y.
    destruct (decide (y = x)); set_solver.
Qed.

(** Unfolds the monad around a transition whose outcome is known. *)
Ltac ctl_unfold := unfold ctl_bind, ctl_get, ctl_emit, ctl_ret, ctl_modify in *; cbn [fst snd].

Section controller_proofs.
Context {order : HashOrder}.

Lemma replay_clear_all c :
  let '(a, evs) := alarms_clear_all (alarms_ c) in
  replay (map publish evs) (view_of c) = Some (view_of (set_alarms a c)).
Proof.
  unfold alarms_clear_all. rewrite replay_cleared.
  - unfold view_of. simpl. by rewrite dom_empty_L.
  - rewrite hash_order_perm. apply NoDup_fst_map_to_list.
  - simpl. apply set_eq. intros x. rewrite dom_alt, !elem_of_list_to_set.
    by rewrite hash_order_perm.
Qed.

(** One inbox item keeps the controller consistent, and what it publishes takes
    the subscriber's view to the new state. *)
Definition step_ok (c : Controller) (r : Result ProcessState * Controller * list Action) : Prop :=
  ctl_ok r.1.2 /\ replay r.2 (view_of c) = Some (view_of r.1.2).

Lemma ctl_ok_set_process m s c :
  fsm_state m = s -> has_active_alarm_ c = bool_decide (s = kAlarm) -> ctl_ok (set_process m s c).
Proof. by intros <- ?. Qed.

(** A transition that neither enters nor leaves Alarm. *)
Lemma ctl_ok_quiet t g c s m :
  ctl_ok c -> prd_step (stop_after_wafer_ (fsm_ c)) g (state_ c) t s -> fsm_state m = s ->
  t <> kFault -> t <> kClearAlarm -> ctl_ok (set_process m s c).
Proof.
  intros [Hs Ha] Hp Hm Hf Hc. apply ctl_ok_set_process; [done|]. rewrite Ha.
  destruct Hp; done.
Qed.

Lemma view_set_process m s c : view_of (set_process m s c) =
  mkView s (v_mode (view_of c)) (v_wafer (view_of c)) (v_alarms (view_of c)).
Proof. done. Qed.

Lemma handle_start_step w slot src c : ctl_ok c -> step_ok c (handle_start w slot src c).
Proof.
  intros Hc. unfold handle_start. ctl_unfold.
  set (g := mkGuards _ _ _ _ _).
  destruct (transition_cases kStart g c (proj1 Hc)) as [(s & m & Hp & Hm & ->)|(msg & _ & ->)];
    [|by split].
  simpl. split; [by apply (ctl_ok_quiet _ _ _ _ _ Hc Hp Hm)|].
  simpl. rewrite replay_app. change (state_ c) with (v_state (view_of c)).
  rewrite replay_changed. inversion Hp; subst. simpl.
  by rewrite !bool_decide_eq_true_2 by done.
Qed.

Lemma quiet_transition_step t g c :
  ctl_ok c -> t <> kFault -> t <> kClearAlarm -> step_ok c (transition t g c).
Proof.
  intros Hc Hf Ht.
  destruct (transition_cases t g c (proj1 Hc)) as [(s & m & Hp & Hm & ->)|(msg & _ & ->)];
    [|by split].
  split; simpl; [by eapply ctl_ok_quiet|].
  change (state_ c) with (v_state (view_of c)). by rewrite replay_changed.
Qed.

Lemma handle_abort_step src c : ctl_ok c -> step_ok c (handle_abort src c).
Proof.
  intros Hc. unfold handle_abort. ctl_unfold.
  destruct (negb _); [by split|].
  destruct (transition_cases kAbort default_guards c (proj1 Hc))
    as [(s & m & Hp & Hm & ->)|(msg & _ & ->)]; [|by split].
  split; simpl; [by eapply ctl_ok_quiet|].
  rewrite replay_app. change (state_ c) with (v_state (view_of c)). rewrite replay_changed.
  inversion Hp; subst; done.
Qed.

Lemma handle_clear_alarm_step src c : ctl_ok c -> step_ok c (handle_clear_alarm src c).
Proof.
  intros Hc. unfold handle_clear_alarm. ctl_unfold.
  destruct (negb _); [by split|].
  destruct (transition_cases kClearAlarm default_guards c (proj1 Hc))
    as [(s & m & Hp & Hm & ->)|(msg & _ & ->)]; [|by split].
  assert (Hk : s = kIdle) by (by inversion Hp). rewrite Hk in *. clear Hk Hp.
  pose proof (replay_clear_all (set_alarm_flag false (set_process m kIdle c))) as Hr.
  unfold ctl_alarms, alarms_clear_all in *. cbn -[replay changed map hash_order] in *.
  split; [by split|]. cbn -[replay changed map hash_order]. rewrite app_nil_r, replay_app. change (state_ c) with (v_state (view_of c)).
  rewrite replay_changed. exact Hr.
Qed.

Lemma notify_fault_step id reason c : ctl_ok c -> step_ok c (notify_fault id reason c).
Proof.
  intros Hc. unfold notify_fault. ctl_unfold.
  destruct (transition_cases kFault default_guards c (proj1 Hc))
    as [(s & m & Hp & Hm & ->)|(msg & _ & ->)]; [|by split].
  assert (Hk : s = kAlarm) by (by inversion Hp). rewrite Hk in *. clear Hk Hp.
  pose proof (replay_alarms_set id reason (set_alarm_flag true (set_process m kAlarm c))) as Hr.
  unfold ctl_alarms in *. cbn -[replay changed map alarms_set] in *.
  destruct (alarms_set id reason (alarms_ c)) as [a evs].
  split; [by split|]. cbn -[replay changed map] in *. rewrite app_nil_r, replay_app.
  change (state_ c) with (v_state (view_of c)). rewrite replay_changed. exact Hr.
Qed.

Lemma notify_result_step oos stress raised reason more c :
  ctl_ok c -> step_ok c (notify_processing_result oos stress raised reason more c).
Proof.
  intros Hc. unfold notify_processing_result. destruct raised as [id|].
  { by apply notify_fault_step. }
  ctl_unfold.
  assert (Hoos : replay (if oos then [publish (WaferOutOfSpec (current_wafer_id_ c) stress)]
                         else []) (view_of c) = Some (view_of c)).
  { destruct oos; simpl; [|done]. by rewrite bool_decide_eq_true_2. }
  destruct (transition_cases kResultReady (mkGuards true false true more true) c (proj1 Hc))
    as [(s & m & Hp & Hm & ->)|(msg & _ & ->)]; simpl.
  2: { split; [done|]. simpl. by rewrite app_nil_r, Hoos. }
  split; [by eapply ctl_ok_quiet|]. simpl. rewrite replay_app, Hoos. simpl. rewrite replay_app.
  change (state_ c) with (v_state (view_of c)). rewrite replay_changed. simpl.
  by rewrite bool_decide_eq_true_2.
Qed.

Lemma notify_stage_stopped_step c : ctl_ok c -> step_ok c (notify_stage_stopped c).
Proof.
  intros Hc. unfold notify_stage_stopped. ctl_unfold.
  destruct (transition_cases kStageStopped default_guards c (proj1 Hc))
    as [(s & m & Hp & Hm & ->)|(msg & _ & ->)]; [|by split].
  split; simpl; [by eapply ctl_ok_quiet|]. rewrite replay_app.
  change (state_ c) with (v_state (view_of c)). rewrite replay_changed. simpl.
  by rewrite bool_decide_eq_true_2.
Qed.

Lemma set_alarms_ok a c : ctl_ok c -> ctl_ok (set_alarms a c).
Proof. done. Qed.

Lemma ctl_handle_step i c : ctl_ok c -> step_ok c (ctl_handle i c).
Proof.
  intros Hc. destruct i as [[p src id]|w|oos st raised reason more|id reason| |id reason|id]; simpl.
  - unfold handle_command. destruct p as [w slot| | | |mode]; simpl.
    + by apply handle_start_step.
    + unfold handle_stop. ctl_unfold.
  destruct (negb _); [by split|].
      pose proof (quiet_transition_step kStop default_guards c Hc) as Hq.
      destruct (transition kStop default_guards c) as [[? ?] ?]. by apply Hq.
    + by apply handle_abort_step.
    + by apply handle_clear_alarm_step.
    + unfold handle_set_mode. ctl_unfold.
  destruct (negb _); [by split|]. split; [done|]. simpl.
      by rewrite bool_decide_eq_true_2.
  - unfold notify_scan_complete. ctl_unfold.
    pose proof (quiet_transition_step kLinesComplete default_guards c Hc) as Hq.
    destruct (transition kLinesComplete default_guards c) as [[? ?] ?].
    by destruct Hq as [? ?].
  - by apply notify_result_step.
  - by apply notify_fault_step.
  - by apply notify_stage_stopped_step.
  - ctl_unfold. unfold ctl_alarms. pose proof (replay_alarms_set id reason c) as Hr.
    destruct (alarms_set id reason (alarms_ c)) as [a evs]. split; [done|]. simpl.
    by rewrite app_nil_r.
  - ctl_unfold. unfold ctl_alarms. pose proof (replay_alarms_clear id c) as Hr.
    destruct (alarms_clear id (alarms_ c)) as [a evs]. split; [done|]. simpl.
    by rewrite app_nil_r.
Qed.

End controller_proofs.

(** ** Operator rules (ui_rules.cpp) *)

Record ActionRules := mkRules {
  can_start : bool; can_stop : bool; can_abort : bool; can_clear_alarm : bool;
  can_change_mode : bool
}.

Definition rules_for (s : ProcessState) (mode : ControlMode) (alarm_active : bool) : ActionRules :=
  mkRules
    (bool_decide (s = kIdle) && negb alarm_active && negb (bool_decide (mode = kOnlineRemote)))
    (bool_decide (s = kScanning))
    (bool_decide (s = kScanning) || bool_decide (s = kProcessing))
    (bool_decide (s = kAlarm))
    (bool_decide (s = kIdle) || bool_decide (s = kAlarm)).

(** ** The controller's guarantees *)

Section controller_theorems.
Context {order : HashOrder}.

Lemma ctl_run_view ins c :
  ctl_ok c ->
  ctl_ok (ctl_run ins c).1 /\ replay (ctl_run ins c).2 (view_of c) = Some (view_of (ctl_run ins c).1).
Proof.
  revert c. induction ins as [|i ins IH]; intros c Hc; [by split|]. simpl.
  destruct (ctl_handle_step i c Hc) as [Hc' Hv].
  destruct (ctl_handle i c) as [[r c'] acts]. simpl in *.
  specialize (IH c' Hc'). destruct (ctl_run ins c') as [c'' acts']. simpl in *.
  rewrite replay_app, Hv. exact IH.
Qed.

Lemma ctl_reachable_ok c : ctl_reachable c -> ctl_ok c.
Proof. intros [ins <-]. by apply ctl_run_view. Qed.

(** [C8] The published events are the whole story: in every history of commands,
    notifications and alarms, a subscriber that replays the events, and nothing
    else, always holds the machine's true process state, control mode, current
    wafer and set of active alarms. No event contradicts it: state changes form an
    unbroken path, each alarm is announced once when set and once when cleared, a
    result or an abort names the wafer of the run it ends; and the scan driver is
    started only at the start of a run and aborted only when stopping. *)
Theorem events_tell_the_state ins :
  let '(c, acts) := ctl_run ins new_controller in
  replay acts (view_of new_controller) = Some (view_of c) /\
  state_ c = fsm_state (fsm_ c) /\ has_active_alarm_ c = bool_decide (state_ c = kAlarm).
Proof.
  destruct (ctl_run_view ins new_controller) as [Hc Hv]; [by split|].
  destruct (ctl_run ins new_controller) as [c acts]. by split.
Qed.

(** A rejected command leaves no trace. *)
Lemma rejected_silent cmd c e c' acts :
  ctl_ok c -> handle_command cmd c = (Err e, c', acts) -> c' = c /\ acts = [].
Proof.
  intros [Hs _] H. unfold handle_command in H.
  destruct (payload cmd) as [w slot| | | |mode]; simpl in H;
    unfold handle_start, handle_stop, handle_abort, handle_clear_alarm, handle_set_mode in H;
    ctl_unfold; try destruct (negb _) in H; simplify_eq/=; try done;
    match type of H with
    | context [transition ?t ?g c] =>
        destruct (transition_cases t g c Hs) as [(s & m & _ & _ & Ht)|(msg & _ & Ht)];
        rewrite Ht in H; simplify_eq/=; try done
    end.
Qed.

(** The source's authority in a control mode, as PRD 6.5 tables it. *)
Definition authorised (mode : ControlMode) (src : CommandSource) (p : CommandPayload) : bool :=
  match src, p with
  | kSecsGem, SetControlModeCommand m => bool_decide (m = kOffline) || bool_decide (mode = kOffline)
  | kSecsGem, _ => bool_decide (mode = kOnlineRemote)
  | _, StartCommand _ _ => negb (bool_decide (mode = kOnlineRemote))
  | _, _ => true
  end.

Lemma control_allows_start_spec mode src w slot :
  control_allows_start mode src = authorised mode src (StartCommand w slot).
Proof. by destruct mode, src. Qed.

(** Only who is in charge moves the machine: a command whose source has no
    authority in the current control mode is refused, changes nothing, and neither
    publishes an event nor touches the scan driver. The host has authority only in
    Online-Remote, except to take the machine offline or back online; an operator
    always, except for Start in Online-Remote. *)
Theorem unauthorised_refused cmd c :
  ctl_reachable c -> authorised (control_mode_ c) (source cmd) (payload cmd) = false ->
  exists e, handle_command cmd c = (Err e, c, []) /\
    (code e = kReasonControlStateDenied \/ code e = kReasonIllegalTransition).
Proof.
  intros Hr Ha. apply ctl_reachable_ok in Hr as [Hs _].
  destruct cmd as [p src id]. simpl in Ha. unfold handle_command. simpl.
  assert (Hhost : control_allows_host_command (control_mode_ c) src = true \/
                  (src = kSecsGem /\ control_mode_ c <> kOnlineRemote)).
  { unfold control_allows_host_command. destruct src; simpl; try by left.
    case_bool_decide; [by left|by right]. }
  destruct p as [w slot| | | |mode].
  - unfold handle_start. ctl_unfold. rewrite (control_allows_start_spec _ _ w slot), Ha.
    destruct (transition_cases kStart (mkGuards false (has_active_alarm_ c)
      (negb (bool_decide (w = ""%string))) false true) c Hs)
      as [(s & m & Hp & _)|(msg & _ & Ht)].
    + inversion Hp. unfold start_guard in *. simpl in *. naive_solver.
    + rewrite Ht. simpl. eexists. split; [done|]. simpl. destruct (state_ c); auto.
  - destruct Hhost as [Hh|[-> Hm]]; [destruct src; simpl in Ha; try done|].
    all: unfold handle_stop, control_allows_host_command in *; ctl_unfold; simpl in *.
    + by rewrite Hh in Ha.
    + rewrite bool_decide_eq_false_2 by done. simpl. eauto.
  - destruct Hhost as [Hh|[-> Hm]]; [destruct src; simpl in Ha; try done|].
    all: unfold handle_abort, control_allows_host_command in *; ctl_unfold; simpl in *.
    + by rewrite Hh in Ha.
    + rewrite bool_decide_eq_false_2 by done. simpl. eauto.
  - destruct Hhost as [Hh|[-> Hm]]; [destruct src; simpl in Ha; try done|].
    all: unfold handle_clear_alarm, control_allows_host_command in *; ctl_unfold; simpl in *.
    + by rewrite Hh in Ha.
    + rewrite bool_decide_eq_false_2 by done. simpl. eauto.
  - destruct src; simpl in Ha; try done.
    unfold handle_set_mode. ctl_unfold. unfold control_allows_set_mode. simpl. rewrite Ha. simpl.
    eauto.
Qed.

Definition accepted (p : CommandPayload) (src : CommandSource) (c : Controller) : bool :=
  has_value (handle_command (mkCommand p src 0) c).1.1.

Lemma transition_accepts t g c :
  state_ c = fsm_state (fsm_ c) ->
  has_value (transition t g c).1.1 = true <->
  exists s, prd_step (stop_after_wafer_ (fsm_ c)) g (state_ c) t s.
Proof.
  intros Hs. destruct (transition_cases t g c Hs) as [(s & m & Hp & _ & ->)|(msg & Hno & ->)]; simpl.
  - naive_solver.
  - split; [done|]. intros [s Hp]. by apply Hno in Hp.
Qed.

Lemma accepted_start w slot c :
  ctl_ok c -> w <> ""%string ->
  accepted (StartCommand w slot) kUi c =
    bool_decide (state_ c = kIdle) && negb (bool_decide (control_mode_ c = kOnlineRemote)).
Proof.
  intros [Hs Ha] Hw. unfold accepted, handle_command, handle_start. simpl. ctl_unfold.
  rewrite (bool_decide_eq_false_2 (w = _)) by done. simpl.
  destruct (transition_cases kStart (mkGuards (control_allows_start (control_mode_ c) kUi)
    (has_active_alarm_ c) true false true) c Hs) as [(s & m & Hp & _ & Ht)|(msg & Hno & Ht)];
    rewrite Ht; simpl.
  - inversion Hp as [Hg E| | | | | | | | | |]. destruct Hg as (Hg & _ & _). simpl in Hg.
    rewrite bool_decide_eq_true_2 by done. by destruct (control_mode_ c).
  - destruct (decide (state_ c = kIdle)) as [E|E]; [|by rewrite bool_decide_eq_false_2].
    rewrite bool_decide_eq_true_2 by done. simpl.
    destruct (control_mode_ c) eqn:Em; try done; exfalso; apply (Hno kScanning); rewrite E;
      constructor; unfold start_guard; simpl; rewrite Ha, E; by split_and!.
Qed.

Ltac accept_cases t c Hs :=
  let s := fresh "s" in let m := fresh "m" in let Hp := fresh "Hp" in let Ht := fresh "Ht" in
  let msg := fresh "msg" in let Hno := fresh "Hno" in
  destruct (transition_cases t default_guards c Hs) as [(s & m & Hp & _ & Ht)|(msg & Hno & Ht)];
  rewrite Ht; simpl;
  [ inversion Hp; symmetry; by rewrite ?bool_decide_eq_true_2 by done
  | symmetry; rewrite ?orb_false_iff, ?bool_decide_eq_false; split_and?;
    intros E; rewrite E in Hno; eapply Hno; by constructor ].

Lemma accepted_stop c :
  ctl_ok c -> accepted StopCommand kUi c = bool_decide (state_ c = kScanning).
Proof.
  intros [Hs _]. unfold accepted, handle_command, handle_stop. simpl. ctl_unfold.
  accept_cases kStop c Hs.
Qed.

Lemma accepted_abort c :
  ctl_ok c ->
  accepted AbortCommand kUi c =
    bool_decide (state_ c = kScanning) || bool_decide (state_ c = kProcessing).
Proof.
  intros [Hs _]. unfold accepted, handle_command, handle_abort. simpl. ctl_unfold.
  accept_cases kAbort c Hs.
Qed.

Lemma accepted_clear_alarm c :
  ctl_ok c -> accepted ClearAlarmCommand kUi c = bool_decide (state_ c = kAlarm).
Proof.
  intros [Hs _]. unfold accepted, handle_command, handle_clear_alarm. simpl. ctl_unfold.
  accept_cases kClearAlarm c Hs.
Qed.

(** The panel offers exactly what the controller would accept: for every
    reachable machine the rules enable Start (of a named wafer), Stop, Abort and
    ClearAlarm if and only if the controller would accept that operator command
    now, and they enable a mode change only where it would be accepted. *)
Theorem ui_rules_agree c w slot mode :
  ctl_reachable c -> w <> ""%string ->
  let rules := rules_for (state_ c) (control_mode_ c) (has_active_alarm_ c) in
  can_start rules = accepted (StartCommand w slot) kUi c /\
  can_stop rules = accepted StopCommand kUi c /\
  can_abort rules = accepted AbortCommand kUi c /\
  can_clear_alarm rules = accepted ClearAlarmCommand kUi c /\
  (can_change_mode rules = true -> accepted (SetControlModeCommand mode) kUi c = true).
Proof.
  intros Hr Hw rules. apply ctl_reachable_ok in Hr as Hc. unfold rules.
  rewrite accepted_start, accepted_stop, accepted_abort, accepted_clear_alarm by done.
  split_and!; try done. unfold rules_for. simpl. rewrite (proj2 Hc).
  by destruct (state_ c).
Qed.

(** ** Alarms *)

(** A start is refused while the machine is in Alarm. *)
Lemma alarm_state_refuses_start w slot src c :
  ctl_ok c -> state_ c = kAlarm -> has_value (handle_start w slot src c).1.1 = false.
Proof.
  intros [Hs _] Ha. unfold handle_start. ctl_unfold.
  set (g := mkGuards _ _ _ _ _).
  destruct (transition_cases kStart g c Hs) as [(s & m & Hp & _)|(msg & _ & ->)]; [|done].
  inversion Hp; congruence.
Qed.

End controller_theorems.

(** ** Concrete runs *)

#[local] Existing Instance ascending_order.

Definition ui (p : CommandPayload) : ctl_input := in_command (mkCommand p kUi 1).
Definition host (p : CommandPayload) : ctl_input := in_command (mkCommand p kSecsGem 1).

Definition scanning_controller : Controller :=
  (ctl_run [ui (StartCommand "W042" 3)] new_controller).1.

Lemma unauthorised_refused_witness :
  exists e, handle_command (mkCommand AbortCommand kSecsGem 7) scanning_controller =
    (Err e, scanning_controller, []) /\
    (code e = kReasonControlStateDenied \/ code e = kReasonIllegalTransition).
Proof.
  apply unauthorised_refused; [|by vm_compute]. by exists [ui (StartCommand "W042" 3)].
Defined.

Lemma ui_rules_agree_witness :
  can_abort (rules_for kScanning kOnlineLocal false) =
    accepted AbortCommand kUi scanning_controller.
Proof.
  destruct (ui_rules_agree scanning_controller "W001" 0 kOffline) as (_ & _ & Habort & _);
    [by exists [ui (StartCommand "W042" 3)]|done|exact Habort].
Defined.

(** The code's reading of "an active alarm blocks new scans": an alarm raised
    outside a fault transition (the scan thread's QueueOverflow) stays active
    through the end of the run, is announced, yet neither blocks the next Start
    nor can be cleared by an operator while the machine is Idle. *)
Theorem queue_overflow_does_not_block :
  let c := (ctl_run [ui (StartCommand "W001" 0); in_alarm_set kQueueOverflow "sample queue full";
                     in_scan_complete "W001"; in_result false 0 None "" false] new_controller).1 in
  any_active (alarms_ c) = true /\ state_ c = kIdle /\
  accepted ClearAlarmCommand kUi c = false /\
  accepted (StartCommand "W002" 0) kUi c = true.
Proof. vm_compute. by split_and!. Qed.

(** A fault that comes too late for the run is refused, and its alarm is then
    neither recorded nor announced. *)
Lemma late_fault_unrecorded :
  ctl_handle (in_fault kScanStall "no samples") new_controller =
    (Err (mkError kReasonIllegalTransition "Idle only accepts Start"), new_controller, []).
Proof. reflexivity. Qed.
