(* ===== verification/MachineApi.v ===== *)
(** * The machine facade

    include/ssim/core/machine_api.hpp and src/core/machine_api.cpp. [MachineOps] is
    the facade as its clients (the GEM service, the panel) see it, and
    [MachineContract] what they may rely on; [MachineApi] is the implementation on
    top of the controller. *)

From S2P Require Import Prelude ProcessFsm Controller.

(** [struct MachineSnapshot]; [progress_percent] is the bit pattern of a double. *)
Record MachineSnapshot := mkSnapshot {
  process_state : ProcessState;
  control_mode : ControlMode;
  alarm_active : bool;
  progress_percent : Z;
  snap_wafer_id : string;
  last_result : option WaferResultReady
}.

(** The operations a client can call, as state transformers. [active_alarms] is
    [AlarmManager::active_count], which the GEM service reads beside the facade. *)
Class MachineOps (M : Type) := {
  api_start : string -> Z -> CommandSource -> M -> Result ProcessState * M;
  api_stop : CommandSource -> M -> Result ProcessState * M;
  api_abort : CommandSource -> M -> Result ProcessState * M;
  api_clear_alarm : CommandSource -> M -> Result ProcessState * M;
  api_set_control_mode : ControlMode -> CommandSource -> M -> Result ProcessState * M;
  api_snapshot : M -> MachineSnapshot;
  active_alarms : M -> nat
}.

(** What the facade promises a client acting for the host. [machine_ok] is the
    facade's invariant. *)
Class MachineContract (M : Type) `{MachineOps M} := {
  machine_ok : M -> Prop;
  machine_start_ok w slot src m : machine_ok m -> machine_ok (api_start w slot src m).2;
  machine_stop_ok src m : machine_ok m -> machine_ok (api_stop src m).2;
  machine_abort_ok src m : machine_ok m -> machine_ok (api_abort src m).2;
  machine_clear_ok src m : machine_ok m -> machine_ok (api_clear_alarm src m).2;
  machine_mode_ok mode src m : machine_ok m -> machine_ok (api_set_control_mode mode src m).2;
  (** Only [set_control_mode] changes the control mode, *)
  start_keeps_mode w slot src m :
    control_mode (api_snapshot (api_start w slot src m).2) = control_mode (api_snapshot m);
  stop_keeps_mode src m :
    control_mode (api_snapshot (api_stop src m).2) = control_mode (api_snapshot m);
  abort_keeps_mode src m :
    control_mode (api_snapshot (api_abort src m).2) = control_mode (api_snapshot m);
  clear_keeps_mode src m :
    control_mode (api_snapshot (api_clear_alarm src m).2) = control_mode (api_snapshot m);
  (** and for the host only to or from Offline. *)
  host_sets_mode mode m :
    control_mode (api_snapshot (api_set_control_mode mode kSecsGem m).2) =
      if bool_decide (mode = kOffline) || bool_decide (control_mode (api_snapshot m) = kOffline)
      then mode else control_mode (api_snapshot m);
  (** A host start that is accepted leaves the machine scanning that wafer. *)
  start_scans w slot m s :
    machine_ok m -> (api_start w slot kSecsGem m).1 = Ok s ->
    process_state (api_snapshot (api_start w slot kSecsGem m).2) = kScanning /\
    snap_wafer_id (api_snapshot (api_start w slot kSecsGem m).2) = w;
  (** Without Online-Remote a host command is refused. *)
  start_needs_remote w slot m :
    machine_ok m -> control_mode (api_snapshot m) <> kOnlineRemote ->
    has_value (api_start w slot kSecsGem m).1 = false
}.

(** ** The implementation *)

(** [class MachineApi]: the controller it forwards to, what it keeps from the bus,
    and the actions done so far (the bus and the driver are elsewhere). *)
Record MachineApi := mkApi {
  controller_ : Controller;
  next_correlation_id_ : Z;
  progress_percent_ : Z;
  last_result_ : option WaferResultReady;
  performed : list Action
}.

(** The handlers that the constructor subscribes. *)
Definition api_on_event (e : Event) (a : MachineApi) : MachineApi :=
  match e with
  | ScanProgress _ percent =>
      mkApi (controller_ a) (next_correlation_id_ a) percent (last_result_ a) (performed a)
  | ScanStarted _ _ => mkApi (controller_ a) (next_correlation_id_ a) 0 (last_result_ a) (performed a)
  | WaferResult r =>
      mkApi (controller_ a) (next_correlation_id_ a) (progress_percent_ a) (Some r) (performed a)
  | _ => a
  end.

Definition api_on_action (act : Action) (a : MachineApi) : MachineApi :=
  match act with publish e => api_on_event e a | _ => a end.

Definition new_api : MachineApi := mkApi new_controller 1 0 None [].

Section machine_api.
Context {order : HashOrder}.

(** [MachineApi::submit]: a fresh correlation id, and the command runs on the
    controller thread while the caller waits; the bus calls the subscribers. *)
Definition submit (p : CommandPayload) (src : CommandSource) (a : MachineApi)
    : Result ProcessState * MachineApi :=
  let id := next_correlation_id_ a in
  let '(r, c, acts) := handle_command (mkCommand p src id) (controller_ a) in
  let a := mkApi c (wrap 64 (id + 1)) (progress_percent_ a) (last_result_ a) (performed a ++ acts) in
  (r, foldl (fun a act => api_on_action act a) a acts).

Definition snapshot (a : MachineApi) : MachineSnapshot :=
  mkSnapshot (state_ (controller_ a)) (control_mode_ (controller_ a))
    (has_active_alarm_ (controller_ a)) (progress_percent_ a)
    (current_wafer_id_ (controller_ a)) (last_result_ a).

Definition start (w : string) (slot : Z) (src : CommandSource) : MachineApi -> _ :=
  submit (StartCommand w slot) src.
Definition stop (src : CommandSource) : MachineApi -> _ := submit StopCommand src.
Definition abort (src : CommandSource) : MachineApi -> _ := submit AbortCommand src.
Definition clear_alarm (src : CommandSource) : MachineApi -> _ := submit ClearAlarmCommand src.
Definition set_control_mode (mode : ControlMode) (src : CommandSource) : MachineApi -> _ :=
  submit (SetControlModeCommand mode) src.

#[export] Instance api_ops : MachineOps MachineApi := {|
  api_start := start;
  api_stop := stop;
  api_abort := abort;
  api_clear_alarm := clear_alarm;
  api_set_control_mode := set_control_mode;
  api_snapshot := snapshot;
  active_alarms := fun a => active_count (alarms_ (controller_ a))
|}.

(** ** The implementation keeps the contract *)

Lemma on_actions_controller acts a :
  controller_ (foldl (fun a act => api_on_action act a) a acts) = controller_ a.
Proof.
  revert a. induction acts as [|act acts IH]; intros a; [reflexivity|]. simpl. rewrite IH.
  destruct act as [[]| |]; reflexivity.
Qed.

Lemma submit_controller p src a :
  controller_ (submit p src a).2 =
    (handle_command (mkCommand p src (next_correlation_id_ a)) (controller_ a)).1.2 /\
  (submit p src a).1 =
    (handle_command (mkCommand p src (next_correlation_id_ a)) (controller_ a)).1.1.
Proof.
  unfold submit. destruct (handle_command _ _) as [[r c] acts]. simpl.
  by rewrite on_actions_controller.
Qed.

Lemma submit_ok p src a : ctl_ok (controller_ a) -> ctl_ok (controller_ (submit p src a).2).
Proof.
  intros Hc. rewrite (proj1 (submit_controller p src a)).
  by apply (ctl_handle_step (in_command _) _ Hc).
Qed.

Lemma handle_command_mode p src id c :
  control_mode_ (handle_command (mkCommand p src id) c).1.2 =
    match p with
    | SetControlModeCommand mode =>
        if control_allows_set_mode mode (control_mode_ c) src then mode else control_mode_ c
    | _ => control_mode_ c
    end.
Proof.
  assert (Ht : forall t g c, control_mode_ (transition t g c).1.2 = control_mode_ c).
  { intros t g c'. unfold transition. ctl_unfold.
    destruct (process_apply t g (fsm_ c')) as [r m]. by destruct (has_value r && _). }
  unfold handle_command, payload, source.
  destruct p; unfold handle_start, handle_stop, handle_abort, handle_clear_alarm, handle_set_mode;
    ctl_unfold; try destruct (negb _) eqn:E; try reflexivity;
    try match goal with
    | |- context [transition ?t ?g c] =>
        specialize (Ht t g c); destruct (transition t g c) as [[r c'] acts]; simpl in *
    end; try (by rewrite Ht); try (destruct (has_value r); simpl; by rewrite <- Ht).
  all: first [rewrite negb_true_iff in E | rewrite negb_false_iff in E]; by rewrite E.
Qed.

#[export] Instance api_contract : MachineContract MachineApi.
Proof.
  refine {| machine_ok a := ctl_ok (controller_ a) |}; try (intros; by apply submit_ok).
  1-5: intros; cbn [api_snapshot api_start api_stop api_abort api_clear_alarm
    api_set_control_mode api_ops snapshot control_mode];
    unfold start, stop, abort, clear_alarm, set_control_mode;
    rewrite (proj1 (submit_controller _ _ m)), handle_command_mode; reflexivity.
  - intros w slot m s Hm Hr. simpl in *. unfold start in *. rewrite (proj1 (submit_controller _ _ m)).
    rewrite (proj2 (submit_controller _ _ m)) in Hr. unfold handle_command in *. simpl in *.
    unfold handle_start in *. ctl_unfold.
    destruct (transition_cases kStart
      (mkGuards (control_allows_start (control_mode_ (controller_ m)) kSecsGem)
         (has_active_alarm_ (controller_ m)) (negb (bool_decide (w = ""%string))) false true)
      (controller_ m) (proj1 Hm)) as [(s' & m' & Hp & Hm' & Ht)|(msg & _ & Ht)];
      rewrite Ht in *; simpl in *; [|discriminate]. by inversion Hp.
  - intros w slot m Hm Hmode. simpl in *. unfold start. rewrite (proj2 (submit_controller _ _ m)).
    unfold handle_command, handle_start. simpl. ctl_unfold.
    destruct (transition_cases kStart
      (mkGuards (control_allows_start (control_mode_ (controller_ m)) kSecsGem)
         (has_active_alarm_ (controller_ m)) (negb (bool_decide (w = ""%string))) false true)
      (controller_ m) (proj1 Hm)) as [(s' & m' & Hp & Hm' & Ht)|(msg & _ & Ht)];
      rewrite Ht; simpl; [|reflexivity].
    exfalso. inversion Hp. unfold start_guard in *. simpl in *.
    destruct (control_mode_ (controller_ m)); naive_solver.
Defined.

End machine_api.
