(* ===== verification/GemMessages.v ===== *)
(** * GEM identifiers and messages

    include/ssim/secsgem/gem/identifiers.hpp, messages.hpp and
    src/secsgem/gem/identifiers.cpp, messages.cpp: the project's numbers, the
    builders and parsers of the GEM subset, and the two message catalogues. *)

From stdpp Require Import pretty.
From S2P Require Import Prelude Secs2Item Secs2Message.

(** ** Identifiers (identifiers.hpp) *)

Definition kCeidControlStateChanged : Z := 2001.
Definition kCeidProcessStateChanged : Z := 2002.
Definition kCeidCassetteLoaded : Z := 2003.
Definition kCeidWaferScanStarted : Z := 2004.
Definition kCeidWaferScanComplete : Z := 2005.
Definition kCeidWaferOutOfSpec : Z := 2006.
Definition kCeidCassetteComplete : Z := 2007.
Definition kCeidRunAborted : Z := 2008.

Definition kRptidWaferResult : Z := 3001.
Definition kRptidStates : Z := 3002.
Definition kRptidScanStarted : Z := 3003.

Definition kSvidControlState : Z := 4001.
Definition kSvidProcessState : Z := 4002.
Definition kSvidCurrentWaferId : Z := 4003.
Definition kSvidCurrentSlot : Z := 4004.
Definition kSvidScanProgressPercent : Z := 4005.
Definition kSvidLastStressMpa : Z := 4006.
Definition kSvidLastCurvature : Z := 4007.
Definition kSvidLastFitRmsUm : Z := 4008.
Definition kSvidActiveAlarmCount : Z := 4009.
Definition kSvidSoftwareRevision : Z := 4010.
Definition kSvidUptimeSeconds : Z := 4011.
Definition kSvidWafersProcessed : Z := 4012.

Definition kCommackAccepted : Z := 0.
Definition kOflackOk : Z := 0.
Definition kOnlackAccepted : Z := 0.
Definition kOnlackNotAllowed : Z := 1.
Definition kOnlackAlreadyOnline : Z := 2.

Definition kHcackDone : Z := 0.
Definition kHcackUnknownCommand : Z := 1.
Definition kHcackCannotPerformNow : Z := 2.
Definition kHcackInvalidParameter : Z := 3.
Definition kHcackAcceptedLater : Z := 4.

Definition kCpackOk : Z := 0.
Definition kCpackUnknownName : Z := 1.
Definition kCpackIllegalValue : Z := 2.
Definition kCpackIllegalFormat : Z := 3.

Definition kAlcdSetBit : Z := 0x80.
Definition kAlarmCategory : Z := 0x05.

Definition status_variables : list (Z * string) :=
  [(kSvidControlState, "ControlState"); (kSvidProcessState, "ProcessState");
   (kSvidCurrentWaferId, "CurrentWaferId"); (kSvidCurrentSlot, "CurrentSlot");
   (kSvidScanProgressPercent, "ScanProgressPercent"); (kSvidLastStressMpa, "LastStressMPa");
   (kSvidLastCurvature, "LastCurvature"); (kSvidLastFitRmsUm, "LastFitRmsUm");
   (kSvidActiveAlarmCount, "ActiveAlarmCount"); (kSvidSoftwareRevision, "SoftwareRevision");
   (kSvidUptimeSeconds, "UptimeSeconds"); (kSvidWafersProcessed, "WafersProcessed")]%string.

Definition report_fields (rptid : Z) : list string :=
  if rptid =? kRptidWaferResult then
    ["WAFER_ID"; "SLOT"; "STRESS_MPA"; "STRESS_UNC_MPA"; "CURVATURE"; "FIT_RMS_UM"; "OUT_OF_SPEC"]
  else if rptid =? kRptidStates then ["CONTROL_STATE"; "PROCESS_STATE"]
  else if rptid =? kRptidScanStarted then ["WAFER_ID"; "SLOT"; "NUM_LINES"]
  else [].

Definition ceid_name (ceid : Z) : string :=
  if ceid =? kCeidControlStateChanged then "ControlStateChanged"
  else if ceid =? kCeidProcessStateChanged then "ProcessStateChanged"
  else if ceid =? kCeidCassetteLoaded then "CassetteLoaded"
  else if ceid =? kCeidWaferScanStarted then "WaferScanStarted"
  else if ceid =? kCeidWaferScanComplete then "WaferScanComplete"
  else if ceid =? kCeidWaferOutOfSpec then "WaferOutOfSpec"
  else if ceid =? kCeidCassetteComplete then "CassetteComplete"
  else if ceid =? kCeidRunAborted then "RunAborted"
  else "".

Definition report_for_event (ceid : Z) : Z :=
  if (ceid =? kCeidControlStateChanged) || (ceid =? kCeidProcessStateChanged) ||
     (ceid =? kCeidRunAborted) then kRptidStates
  else if ceid =? kCeidWaferScanStarted then kRptidScanStarted
  else if (ceid =? kCeidWaferScanComplete) || (ceid =? kCeidWaferOutOfSpec) then kRptidWaferResult
  else 0.

(** ** Message contents (messages.hpp) *)

Definition kErrIllegalData : Z := 500.

Record Identity := mkIdentity { model : string; softrev : string }.
Record CommandParam := mkParam { param_name : string; param_value : Item }.
Record RemoteCommand := mkRemoteCommand { rcmd : string; command_params : list CommandParam }.
Record ParamAck := mkParamAck { ack_name : string; cpack : Z }.
Record CommandAck := mkCommandAck { hcack : Z; ack_params : list ParamAck }.
Record Report := mkReport { rptid : Z; report_values : list Item }.
Record EventReport := mkEventReport { dataid : Z; ceid : Z; reports : list Report }.
Record AlarmReport := mkAlarmReport { alcd : Z; alid : Z; altx : string }.

Definition Body : Type := option Item.

Definition illegal {A} (what : string) : Result A := Err (mkError kErrIllegalData what).

(** The [L,n] check followed by access to the entries: [list_of n i] is the
    entries if [is_list(i, n)]. *)
Definition list_of (n : nat) (i : Item) : option (list Item) :=
  match i with
  | list_ l => if bool_decide (length l = n) then Some l else None
  | _ => None
  end.

Definition is_ascii (i : Item) : bool := bool_decide (format i = kAscii).
Definition is_byte (i : Item) : bool := bool_decide (format i = kBinary) && (count i =? 1)%nat.

(** [as_array<uint8_t>()[0]] of an item that [is_byte]. *)
Definition first_byte (i : Item) : Z :=
  match i with binary (b :: _) => b | _ => 0 end.
Definition ascii_text (i : Item) : string := match i with ascii_ s => s | _ => "" end.

(** [collect_uints]: the elements, or [None] where it returns false. *)
Definition collect_uints (i : Item) : option (list Z) :=
  match i with
  | u1 v | u2 v | u4 v | u8 v => Some v
  | i1 v | i2 v | i4 v | i8 v => if forallb (fun x => 0 <=? x) v then Some v else None
  | _ => None
  end.

Definition one_u32 (i : Item) : option Z :=
  match collect_uints i with
  | Some [v] => if 0xFFFFFFFF <? v then None else Some v
  | _ => None
  end.

(** [for (x : l) { if (f(x) fails) return err; out.push_back(...); }]. *)
Fixpoint collect_results {A B} (f : A -> Result B) (l : list A) : Result (list B) :=
  match l with
  | [] => Ok []
  | x :: l' => let? y := f x in let? ys := collect_results f l' in Ok (y :: ys)
  end.

(** ** Parsers *)

Definition parse_param (pair : Item) : Result CommandParam :=
  match list_of 2 pair with
  | Some [n; v] =>
      if is_ascii n then Ok (mkParam (ascii_text n) v)
      else illegal "each parameter must be L2{CPNAME A, CPVAL}"
  | _ => illegal "each parameter must be L2{CPNAME A, CPVAL}"
  end.

Definition parse_command_body (body : Body) : Result RemoteCommand :=
  match body ≫= list_of 2 with
  | Some [n; ps] =>
      if negb (is_ascii n) then illegal "RCMD must be ASCII"
      else
        match as_list ps with
        | None => illegal "S2F41 parameters must be a list"
        | Some l => let? params := collect_results parse_param l in
                    Ok (mkRemoteCommand (ascii_text n) params)
        end
  | _ => illegal "S2F41 must be L2"
  end.

Definition parse_svid_item (i : Item) : Result (list Z) :=
  match collect_uints i with
  | None => illegal "SVID must be an integer"
  | Some v => collect_results (fun x => if 0xFFFFFFFF <? x then illegal "SVID out of range"
                                        else Ok x) v
  end.

Definition parse_svid_body (body : Body) : Result (list Z) :=
  match body ≫= as_list with
  | None => illegal "S1F3 must be a list of SVIDs"
  | Some l => let? svids := collect_results parse_svid_item l in Ok (concat svids)
  end.

Definition parse_report (rpt : Item) : Result Report :=
  match list_of 2 rpt with
  | Some [r; vs] =>
      match one_u32 r, as_list vs with
      | Some id, Some l => Ok (mkReport id l)
      | _, _ => illegal "bad report"
      end
  | _ => illegal "each report must be L2{RPTID, values}"
  end.

Definition parse_event_body (body : Body) : Result EventReport :=
  match body ≫= list_of 3 with
  | Some [d; c; rs] =>
      match one_u32 d, one_u32 c with
      | Some did, Some cid =>
          match as_list rs with
          | None => illegal "S6F11 reports must be a list"
          | Some l => let? reports := collect_results parse_report l in
                      Ok (mkEventReport did cid reports)
          end
      | _, _ => illegal "DATAID and CEID must be integers"
      end
  | _ => illegal "S6F11 must be L3"
  end.

Definition parse_alarm_body (body : Body) : Result AlarmReport :=
  match body ≫= list_of 3 with
  | Some [a; i; t] =>
      match one_u32 i with
      | Some id =>
          if negb (is_byte a) || negb (is_ascii t) then
            illegal "S5F1 must be L3{ALCD B, ALID U4, ALTX A}"
          else Ok (mkAlarmReport (first_byte a) id (ascii_text t))
      | None => illegal "S5F1 must be L3{ALCD B, ALID U4, ALTX A}"
      end
  | _ => illegal "S5F1 must be L3"
  end.

Definition parse_param_ack (pair : Item) : Result ParamAck :=
  match list_of 2 pair with
  | Some [n; v] =>
      if is_ascii n && is_byte v then Ok (mkParamAck (ascii_text n) (first_byte v))
      else illegal "each entry must be L2{CPNAME A, CPACK B}"
  | _ => illegal "each entry must be L2{CPNAME A, CPACK B}"
  end.

Definition parse_command_ack_body (body : Body) : Result CommandAck :=
  match body ≫= list_of 2 with
  | Some [h; ps] =>
      match as_list ps with
      | Some l =>
          if is_byte h then
            let? params := collect_results parse_param_ack l in
            Ok (mkCommandAck (first_byte h) params)
          else illegal "S2F42 must be L2{HCACK B, list}"
      | None => illegal "S2F42 must be L2{HCACK B, list}"
      end
  | _ => illegal "S2F42 must be L2{HCACK B, list}"
  end.

Definition parse_ack_body (body : Body) : Result Z :=
  match body with
  | Some i => if is_byte i then Ok (first_byte i)
              else illegal "acknowledge must be one binary byte"
  | None => illegal "acknowledge must be one binary byte"
  end.

Definition no_body (b : Body) : bool := match b with None => true | Some _ => false end.

Definition identity_ok (i : Item) : bool :=
  match list_of 2 i with Some [a; b] => is_ascii a && is_ascii b | _ => false end.

Definition is_empty_list (i : Item) : bool := bool_decide (list_of 0 i = Some []).

Definition comm_request_ok (b : Body) : bool :=
  match b with None => true | Some i => is_empty_list i || identity_ok i end.

Definition s1f14_ok (b : Body) : bool :=
  match b ≫= list_of 2 with
  | Some [c; i] => is_byte c && (is_empty_list i || identity_ok i)
  | _ => false
  end.

Definition s9_ok (b : Body) : bool :=
  match b with
  | Some i => bool_decide (format i = kBinary) && (count i =? 10)%nat
  | None => false
  end.

Definition parse_s2f41 (m : Message) : Result RemoteCommand := parse_command_body (body m).
Definition parse_s2f42 (m : Message) : Result CommandAck := parse_command_ack_body (body m).
Definition parse_s1f3 (m : Message) : Result (list Z) := parse_svid_body (body m).
Definition parse_s6f11 (m : Message) : Result EventReport := parse_event_body (body m).
Definition parse_s5f1 (m : Message) : Result AlarmReport := parse_alarm_body (body m).
Definition parse_ack (m : Message) : Result Z := parse_ack_body (body m).

(** ** Builders *)

Definition identity_item (id : Identity) : Item := list_ [ascii_ (model id); ascii_ (softrev id)].

Definition make_s1f1 : Message := mkMessage 1 1 true None.
Definition make_s1f2 (id : Identity) : Message := mkMessage 1 2 false (Some (identity_item id)).
Definition make_s1f13 : Message := mkMessage 1 13 true (Some (list_ [])).
Definition make_s1f14 (commack : Z) (id : Identity) : Message :=
  mkMessage 1 14 false (Some (list_ [binary [commack]; identity_item id])).
Definition make_s1f3 (svids : list Z) : Message :=
  mkMessage 1 3 true (Some (list_ (map (fun v => u4 [v]) svids))).
Definition make_s1f4 (values : list Item) : Message := mkMessage 1 4 false (Some (list_ values)).
Definition make_s1f15 : Message := mkMessage 1 15 true None.
Definition make_s1f16 (oflack : Z) : Message := mkMessage 1 16 false (Some (binary [oflack])).
Definition make_s1f17 : Message := mkMessage 1 17 true None.
Definition make_s1f18 (onlack : Z) : Message := mkMessage 1 18 false (Some (binary [onlack])).

Definition make_s2f41 (c : RemoteCommand) : Message :=
  mkMessage 2 41 true
    (Some (list_ [ascii_ (rcmd c);
                  list_ (map (fun p => list_ [ascii_ (param_name p); param_value p])
                           (command_params c))])).
Definition make_s2f42 (h : Z) (params : list ParamAck) : Message :=
  mkMessage 2 42 false
    (Some (list_ [binary [h];
                  list_ (map (fun p => list_ [ascii_ (ack_name p); binary [cpack p]]) params)])).
Definition make_s5f1 (a : AlarmReport) : Message :=
  mkMessage 5 1 true (Some (list_ [binary [alcd a]; u4 [alid a]; ascii_ (altx a)])).
Definition make_s5f2 (ackc5 : Z) : Message := mkMessage 5 2 false (Some (binary [ackc5])).
Definition make_s6f11 (e : EventReport) : Message :=
  mkMessage 6 11 true
    (Some (list_ [u4 [dataid e]; u4 [ceid e];
                  list_ (map (fun r => list_ [u4 [rptid r]; list_ (report_values r)])
                           (reports e))])).
Definition make_s6f12 (ackc6 : Z) : Message := mkMessage 6 12 false (Some (binary [ackc6])).
Definition make_s9 (function : Z) (header_bytes : list Z) : Message :=
  mkMessage 9 function false (Some (binary header_bytes)).

(** ** Catalogues *)

Definition register_equipment_catalogue (f : MessageFactory) : MessageFactory :=
  let f := register_message 1 1 "S1F1" no_body f in
  let f := register_message 1 3 "S1F3" (fun b => has_value (parse_svid_body b)) f in
  let f := register_message 1 13 "S1F13" comm_request_ok f in
  let f := register_message 1 15 "S1F15" no_body f in
  let f := register_message 1 17 "S1F17" no_body f in
  let f := register_message 2 41 "S2F41" (fun b => has_value (parse_command_body b)) f in
  let f := register_message 5 2 "S5F2" (fun b => has_value (parse_ack_body b)) f in
  register_message 6 12 "S6F12" (fun b => has_value (parse_ack_body b)) f.

Definition register_host_catalogue (f : MessageFactory) : MessageFactory :=
  let f := register_message 1 2 "S1F2" (fun b => match b with Some i => identity_ok i
                                                 | None => false end) f in
  let f := register_message 1 4 "S1F4" (fun b => match b with Some i => is_list i
                                                 | None => false end) f in
  let f := register_message 1 14 "S1F14" s1f14_ok f in
  let f := register_message 1 16 "S1F16" (fun b => has_value (parse_ack_body b)) f in
  let f := register_message 1 18 "S1F18" (fun b => has_value (parse_ack_body b)) f in
  let f := register_message 2 42 "S2F42" (fun b => has_value (parse_command_ack_body b)) f in
  let f := register_message 5 1 "S5F1" (fun b => has_value (parse_alarm_body b)) f in
  let f := register_message 6 11 "S6F11" (fun b => has_value (parse_event_body b)) f in
  foldl (fun f fn => register_message 9 fn ("S9F" ++ pretty fn)%string s9_ok f) f
    [1; 3; 5; 7; 9; 11].

(** ** Parsers read what the builders wrote *)

(** What the field types guarantee: 32-bit identifiers. *)
Definition event_ok (e : EventReport) : Prop :=
  uint_ok 32 (dataid e) /\ uint_ok 32 (ceid e) /\
  Forall (fun r => uint_ok 32 (rptid r)) (reports e).

Lemma collect_results_map {A B C} (f : B -> Result C) (g : A -> B) (h : A -> C) l :
  Forall (fun x => f (g x) = Ok (h x)) l -> collect_results f (map g l) = Ok (map h l).
Proof. induction 1 as [|x l Hx _ IH]; [done|]. simpl. by rewrite Hx, IH. Qed.

Lemma one_u32_u4 v : uint_ok 32 v -> one_u32 (u4 [v]) = Some v.
Proof.
  intros Hv. unfold one_u32. simpl. case_match eqn:E; [|done].
  apply Z.ltb_lt in E. int_lia.
Qed.

Lemma list_of_length n l : length l = n -> list_of n (list_ l) = Some l.
Proof. intros <-. simpl. by rewrite bool_decide_eq_true_2. Qed.

Lemma parse_command_make c :
  parse_command_body (body (make_s2f41 c)) = Ok c.
Proof.
  destruct c as [n ps]. unfold parse_command_body, make_s2f41. cbn [body mbind option_bind].
  rewrite list_of_length by done. cbn [as_list is_ascii format ascii_text rcmd command_params].
  cbn [negb].
  rewrite (collect_results_map _ _ id); [by rewrite map_id|].
  apply Forall_true. intros [pn pv]. unfold parse_param. by rewrite list_of_length.
Qed.

Lemma parse_command_ack_make h ps :
  parse_command_ack_body (body (make_s2f42 h ps)) = Ok (mkCommandAck h ps).
Proof.
  unfold parse_command_ack_body, make_s2f42. cbn [body mbind option_bind].
  rewrite list_of_length by done. cbn [as_list].
  rewrite (collect_results_map _ _ id); [by rewrite map_id|].
  apply Forall_true. intros [pn pv]. unfold parse_param_ack. by rewrite list_of_length.
Qed.

Lemma parse_svids_make svids :
  Forall (uint_ok 32) svids -> parse_svid_body (body (make_s1f3 svids)) = Ok svids.
Proof.
  intros Hs. unfold parse_svid_body, make_s1f3. cbn [body mbind option_bind as_list].
  rewrite (collect_results_map _ _ (fun v => [v])).
  - simpl. f_equal. induction svids as [|v l IH]; [done|]. simpl. f_equal. apply IH.
    by apply Forall_cons in Hs as [_ Hs].
  - eapply Forall_impl; [exact Hs|]. intros v Hv. unfold parse_svid_item. simpl.
    case_match eqn:E; [|done]. apply Z.ltb_lt in E. int_lia.
Qed.

Lemma parse_event_make e : event_ok e -> parse_event_body (body (make_s6f11 e)) = Ok e.
Proof.
  destruct e as [d c rs]. intros (Hd & Hc & Hr). simpl in *.
  unfold parse_event_body, make_s6f11. cbn [body mbind option_bind dataid ceid reports].
  rewrite list_of_length by done. rewrite !one_u32_u4 by done. cbn [as_list].
  rewrite (collect_results_map _ _ id); [by rewrite map_id|].
  eapply Forall_impl; [exact Hr|]. intros [i vs] Hi. unfold parse_report.
  rewrite list_of_length by done. cbn [rptid report_values as_list]. by rewrite one_u32_u4.
Qed.

Lemma parse_alarm_make a :
  uint_ok 32 (alid a) -> parse_alarm_body (body (make_s5f1 a)) = Ok a.
Proof.
  destruct a as [c i t]. intros Hi. unfold parse_alarm_body, make_s5f1.
  cbn [body mbind option_bind]. rewrite list_of_length by done. by rewrite one_u32_u4.
Qed.

(** [C25] Every parser of the GEM subset reads back exactly what the matching builder
    was given: remote commands and their acknowledgements, status variable
    requests, event reports, alarm reports and single-byte acknowledgements. *)
Theorem parsers_invert_builders :
  (forall c, parse_s2f41 (make_s2f41 c) = Ok c) /\
  (forall h ps, parse_s2f42 (make_s2f42 h ps) = Ok (mkCommandAck h ps)) /\
  (forall svids, Forall (uint_ok 32) svids -> parse_s1f3 (make_s1f3 svids) = Ok svids) /\
  (forall e, event_ok e -> parse_s6f11 (make_s6f11 e) = Ok e) /\
  (forall a, uint_ok 32 (alid a) -> parse_s5f1 (make_s5f1 a) = Ok a) /\
  (forall b, parse_ack (make_s1f16 b) = Ok b /\ parse_ack (make_s1f18 b) = Ok b /\
             parse_ack (make_s5f2 b) = Ok b /\ parse_ack (make_s6f12 b) = Ok b).
Proof.
  split_and!; [apply parse_command_make|apply parse_command_ack_make|apply parse_svids_make
    |apply parse_event_make|apply parse_alarm_make|done].
Qed.

(** ** The catalogues *)

Definition equipment_factory : MessageFactory := register_equipment_catalogue [].
Definition host_factory : MessageFactory := register_host_catalogue [].

(** What the two sides understand: message and body check. *)
Definition equipment_table : list (Key * BodyCheck) :=
  [((1, 1), no_body); ((1, 3), fun b => has_value (parse_svid_body b));
   ((1, 13), comm_request_ok); ((1, 15), no_body); ((1, 17), no_body);
   ((2, 41), fun b => has_value (parse_command_body b));
   ((5, 2), fun b => has_value (parse_ack_body b));
   ((6, 12), fun b => has_value (parse_ack_body b))].

Definition host_table : list (Key * BodyCheck) :=
  [((1, 2), fun b => match b with Some i => identity_ok i | None => false end);
   ((1, 4), fun b => match b with Some i => is_list i | None => false end);
   ((1, 14), s1f14_ok); ((1, 16), fun b => has_value (parse_ack_body b));
   ((1, 18), fun b => has_value (parse_ack_body b));
   ((2, 42), fun b => has_value (parse_command_ack_body b));
   ((5, 1), fun b => has_value (parse_alarm_body b));
   ((6, 11), fun b => has_value (parse_event_body b));
   ((9, 1), s9_ok); ((9, 3), s9_ok); ((9, 5), s9_ok); ((9, 7), s9_ok); ((9, 9), s9_ok);
   ((9, 11), s9_ok)].

Fixpoint table_check (k : Key) (t : list (Key * BodyCheck)) : option BodyCheck :=
  match t with
  | [] => None
  | (k', c) :: t' => if decide (k' = k) then Some c else table_check k t'
  end.

(** What a factory with exactly the table's entries answers. *)
Definition table_validate (t : list (Key * BodyCheck)) (m : Message) : Validation :=
  match table_check (stream m, function m) t with
  | Some check => if check (body m) then kOk else kIllegalData
  | None => if existsb (fun p => p.1.1 =? stream m) t then kUnknownFunction else kUnknownStream
  end.

Lemma factory_check_table f t m :
  factory_ok f -> map (fun p => (p.1, entry_check p.2)) f = map (fun p => (p.1, Some p.2)) t ->
  factory_check f m = table_validate t m.
Proof.
  intros Hok Heq. rewrite factory_check_lookup by done. unfold table_validate. clear Hok.
  assert (Hex : existsb (fun p => p.1.1 =? stream m) f = existsb (fun p => p.1.1 =? stream m) t).
  { revert t Heq. induction f as [|[k e] f IH]; intros [|[k' c] t]; try done. simpl.
    intros [= -> _ Heq]. by rewrite (IH t). }
  rewrite Hex. clear Hex.
  enough (Hl : match lookup_key (stream m, function m) f with
               | Some e => exists c, entry_check e = Some c /\
                                     table_check (stream m, function m) t = Some c
               | None => table_check (stream m, function m) t = None
               end).
  { destruct (lookup_key _ f) as [e|]; [|by rewrite Hl]. by destruct Hl as (c & -> & ->). }
  revert t Heq. induction f as [|[k e] f IH]; intros [|[k' c] t]; try done. simpl.
  intros [= -> Hc Heq]. case_decide; [by exists c|]. by apply IH.
Qed.

Lemma empty_factory_ok : factory_ok [].
Proof. split; constructor. Qed.

Lemma equipment_factory_ok : factory_ok equipment_factory.
Proof. repeat (apply register_message_ok; [done|]). apply empty_factory_ok. Qed.

Lemma host_factory_ok : factory_ok host_factory.
Proof. repeat (apply register_message_ok; [done|]). apply empty_factory_ok. Qed.

Lemma equipment_check m : factory_check equipment_factory m = table_validate equipment_table m.
Proof. apply factory_check_table; [apply equipment_factory_ok|reflexivity]. Qed.

Lemma host_check m : factory_check host_factory m = table_validate host_table m.
Proof. apply factory_check_table; [apply host_factory_ok|reflexivity]. Qed.

(** The two catalogues fit together: every message a host builds passes the
    equipment's checks, every message the equipment builds passes the host's; and a
    message the equipment accepts is always one its parser can read, so no handler
    ever meets a body it cannot parse. *)
Theorem catalogues_agree :
  Forall (fun m => factory_check equipment_factory m = kOk)
    [make_s1f1; make_s1f13; make_s1f15; make_s1f17] /\
  (forall c, factory_check equipment_factory (make_s2f41 c) = kOk) /\
  (forall l, Forall (uint_ok 32) l -> factory_check equipment_factory (make_s1f3 l) = kOk) /\
  (forall b, factory_check equipment_factory (make_s5f2 b) = kOk /\
             factory_check equipment_factory (make_s6f12 b) = kOk) /\
  (forall b id l values,
     Forall (fun m => factory_check host_factory m = kOk)
       [make_s1f2 id; make_s1f4 values; make_s1f14 b id; make_s1f16 b; make_s1f18 b;
        make_s2f42 b l]) /\
  (forall a, uint_ok 32 (alid a) -> factory_check host_factory (make_s5f1 a) = kOk) /\
  (forall e, event_ok e -> factory_check host_factory (make_s6f11 e) = kOk) /\
  (forall fn h, fn ∈ [1; 3; 5; 7; 9; 11] -> length h = 10%nat ->
     factory_check host_factory (make_s9 fn h) = kOk) /\
  (forall m, factory_check equipment_factory m = kOk ->
     ((stream m, function m) = (1, 3) -> has_value (parse_s1f3 m) = true) /\
     ((stream m, function m) = (2, 41) -> has_value (parse_s2f41 m) = true)).
Proof.
  split_and!.
  - repeat constructor; by rewrite equipment_check.
  - intros c. rewrite equipment_check. unfold table_validate.
    change (table_check _ _) with (Some (fun b => has_value (parse_command_body b))).
    cbv beta iota. by rewrite parse_command_make.
  - intros l Hl. rewrite equipment_check. unfold table_validate.
    change (table_check _ _) with (Some (fun b => has_value (parse_svid_body b))).
    cbv beta iota. by rewrite parse_svids_make.
  - intros b. by rewrite !equipment_check.
  - intros b id l values. repeat constructor; rewrite host_check; try done.
    unfold table_validate.
    change (table_check _ _) with (Some (fun b => has_value (parse_command_ack_body b))).
    cbv beta iota. by rewrite parse_command_ack_make.
  - intros a Ha. rewrite host_check. unfold table_validate.
    change (table_check _ _) with (Some (fun b => has_value (parse_alarm_body b))).
    cbv beta iota. by rewrite parse_alarm_make.
  - intros e He. rewrite host_check. unfold table_validate.
    change (table_check _ _) with (Some (fun b => has_value (parse_event_body b))).
    cbv beta iota. by rewrite parse_event_make.
  - intros fn h Hfn Hh. rewrite host_check. unfold table_validate.
    assert (Hc : table_check (9, fn) host_table = Some s9_ok).
    { set_unfold in Hfn. destruct_or?; subst; done. }
    cbn [stream function make_s9]. rewrite Hc. cbn [make_s9 body s9_ok format count].
    by rewrite Hh.
  - intros m Hm. rewrite equipment_check in Hm. unfold table_validate in Hm.
    split; intros Hk; rewrite Hk in Hm.
    + change (table_check _ _) with (Some (fun b => has_value (parse_svid_body b))) in Hm.
      cbv beta iota in Hm. unfold parse_s1f3. by destruct (has_value _).
    + change (table_check _ _) with (Some (fun b => has_value (parse_command_body b))) in Hm.
      cbv beta iota in Hm. unfold parse_s2f41. by destruct (has_value _).
Qed.
