(* ===== verification/GemService.v ===== *)
(** * The GEM service

    include/ssim/secsgem/gem/gem_service.hpp and src/secsgem/gem/gem_service.cpp:
    host messages become machine calls tagged with the SECS/GEM source, machine
    events become S6F11 and S5F1. The machine is any [MachineOps]; the messages the
    service hands to [IMessageSender] are the output of each operation. Logging has
    no effect on the service and is left out. *)

From Stdlib Require Import SpecFloat.
From S2P Require Import Prelude Secs2Item Secs2Codec Secs2Message HsmsFrame HsmsConn.
From S2P Require Import HsmsSession ProcessFsm Controller MachineApi GemMessages.

(** ** [static_cast<float>(double)]

    On bit patterns, through the Standard Library's specification of IEEE 754
    rounding to nearest even; a NaN keeps its sign and the top of its payload and
    becomes quiet. *)

Definition float_of_double (bits : Z) : Z :=
  let negative := Z.testbit bits 63 in
  let exponent := Z.land (Z.shiftr bits 52) 0x7FF in
  let fraction := Z.land bits (Z.ones 52) in
  let sign := if negative then 0x80000000 else 0 in
  if exponent =? 0x7FF then
    if fraction =? 0 then Z.lor sign 0x7F800000
    else Z.lor sign (Z.lor 0x7FC00000 (Z.shiftr fraction 29))
  else
    let m := if exponent =? 0 then fraction else fraction + 2 ^ 52 in
    let e := (if exponent =? 0 then 1 else exponent) - 1075 in
    match binary_normalize 24 128 (if negative then - m else m) e negative with
    | S754_zero _ => sign
    | S754_infinity _ | S754_nan => Z.lor sign 0x7F800000
    | S754_finite _ p x =>
        if Z.pos p <? 2 ^ 23 then Z.lor sign (Z.pos p)
        else Z.lor sign (Z.lor (Z.shiftl (x + 150) 23) (Z.pos p - 2 ^ 23))
    end.

(** ** Data *)

Inductive CommState := kNotCommunicating | kCommunicating.

#[global] Instance CommState_eq_dec : EqDecision CommState.
Proof. solve_decision. Defined.

Record GemConfig := mkGemConfig {
  identity : Identity;
  gem_device_id : Z;
  allow_host_online : bool;
  max_body_bytes : Z;
  num_lines : Z
}.

Definition default_gem_config : GemConfig :=
  mkGemConfig (mkIdentity "SSIM-128" "0.1.0") 0 true 65536 6.

(** [class GemService]: its I/O-thread state. The message factory is the equipment
    catalogue. *)
Record GemService := mkGem {
  gem_config : GemConfig;
  started_ : TimePoint;
  comm_ : CommState;
  next_dataid_ : Z;
  wafers_processed_ : Z;
  preferred_online_mode_ : ControlMode;
  open_requests_ : gmap Z Header
}.

Definition new_gem (c : GemConfig) (now : TimePoint) : GemService :=
  mkGem c now kNotCommunicating 1 0 kOnlineLocal ∅.

Definition set_comm (x : CommState) (g : GemService) : GemService :=
  mkGem (gem_config g) (started_ g) x (next_dataid_ g) (wafers_processed_ g)
    (preferred_online_mode_ g) (open_requests_ g).
Definition set_dataid (x : Z) (g : GemService) : GemService :=
  mkGem (gem_config g) (started_ g) (comm_ g) x (wafers_processed_ g)
    (preferred_online_mode_ g) (open_requests_ g).
Definition set_wafers (x : Z) (g : GemService) : GemService :=
  mkGem (gem_config g) (started_ g) (comm_ g) (next_dataid_ g) x
    (preferred_online_mode_ g) (open_requests_ g).
Definition set_preferred (x : ControlMode) (g : GemService) : GemService :=
  mkGem (gem_config g) (started_ g) (comm_ g) (next_dataid_ g) (wafers_processed_ g)
    x (open_requests_ g).
Definition set_open (x : gmap Z Header) (g : GemService) : GemService :=
  mkGem (gem_config g) (started_ g) (comm_ g) (next_dataid_ g) (wafers_processed_ g)
    (preferred_online_mode_ g) x.

(** What the service posts to the I/O thread's queue. *)
Inductive Posted :=
| post_reply (sys : Z) (m : Message)
| post_request (m : Message).

(** ** Helpers *)

Definition control_code (m : ControlMode) : Z :=
  match m with kOffline => 0 | kOnlineLocal => 1 | kOnlineRemote => 2 end.
Definition process_code (s : ProcessState) : Z :=
  match s with kIdle => 0 | kScanning => 1 | kProcessing => 2 | kAlarm => 3 | kStopping => 4 end.

Definition wafer_char_ok (c : ascii) : bool :=
  let n := char_to_byte c in
  ((65 <=? n) && (n <=? 90)) || ((97 <=? n) && (n <=? 122)) ||
  ((48 <=? n) && (n <=? 57)) || (n =? 95) || (n =? 45).

Definition valid_wafer_id (id : string) : bool :=
  negb (bool_decide (id = ""%string)) && negb (32 <? Z.of_nat (String.length id)) &&
  forallb wafer_char_ok (String.list_ascii_of_string id).

Definition known_alid (alid : Z) : bool := (1001 <=? alid) && (alid <=? 1008).

Definition as_u32 (i : Item) : option Z :=
  match i with u1 [v] | u2 [v] | u4 [v] => Some v | _ => None end.

(** [static_cast<uint8_t>(int)]. *)
Definition to_u8 (v : Z) : Z := wrap 8 v.

(** ** Sending *)

(** [reply]: a message that did not ask for a reply gets none. *)
Definition reply (request : Frame) (m : Message) : list Posted :=
  if header_w_bit (header request) then [post_reply (system_bytes (header request)) m] else [].

(** [send_request] and the callback that runs once the session has sent it under
    the system bytes [sys]. *)
Definition send_request (m : Message) : list Posted := [post_request m].

Definition on_sent (m : Message) (sys : Z) (g : GemService) : GemService :=
  if w_bit m then
    set_open (<[sys := mkHeader (gem_device_id (gem_config g))
                        (Z.lor (Z.land (stream m) 0x7F) (if w_bit m then 0x80 else 0))
                        (function m) 0 0 sys]> (open_requests_ g)) g
  else g.

Definition send_s9 (fn : Z) (offending : Header) : list Posted :=
  send_request (make_s9 fn (header_bytes offending)).

Definition send_event (cid : Z) (rs : list Report) (g : GemService) : GemService * list Posted :=
  if negb (bool_decide (comm_ g = kCommunicating)) then (g, [])
  else
    (set_dataid (wrap 32 (next_dataid_ g + 1)) g,
     send_request (make_s6f11 (mkEventReport (next_dataid_ g) cid rs))).

Definition send_alarm (acd aid : Z) (text : string) (g : GemService) : list Posted :=
  if negb (bool_decide (comm_ g = kCommunicating)) then []
  else send_request (make_s5f1 (mkAlarmReport acd aid text)).

Section gem_service.
Context {M : Type} `{MachineOps M}.

(** ** Events and alarms, as tasks on the I/O thread *)

Definition on_process_state_changed (to : ProcessState) (m : M) (g : GemService) :=
  send_event kCeidProcessStateChanged
    [mkReport kRptidStates
       [u1 [control_code (control_mode (api_snapshot m))]; u1 [process_code to]]] g.

Definition on_control_state_changed (to : ControlMode) (m : M) (g : GemService) :=
  let g := if bool_decide (to = kOffline) then g else set_preferred to g in
  send_event kCeidControlStateChanged
    [mkReport kRptidStates
       [u1 [control_code to]; u1 [process_code (process_state (api_snapshot m))]]] g.

Definition on_scan_started (w : string) (slot : Z) (g : GemService) :=
  send_event kCeidWaferScanStarted
    [mkReport kRptidScanStarted
       [ascii_ w; u1 [to_u8 slot]; u1 [to_u8 (num_lines (gem_config g))]]] g.

Definition result_report (r : WaferResultReady) : list Report :=
  [mkReport kRptidWaferResult
     [ascii_ (result_wafer_id r); u1 [to_u8 (result_slot r)];
      f4 [float_of_double (stress_mpa r)]; f4 [float_of_double (stress_unc_mpa r)];
      f4 [float_of_double (curvature_per_m r)]; f4 [float_of_double (fit_rms_um r)];
      boolean [if out_of_spec r then 1 else 0]]].

Definition on_result (r : WaferResultReady) (g : GemService) : GemService * list Posted :=
  let g := set_wafers (wrap 32 (wafers_processed_ g + 1)) g in
  let '(g, out) := send_event kCeidWaferScanComplete (result_report r) g in
  if out_of_spec r then
    let '(g, out') := send_event kCeidWaferOutOfSpec (result_report r) g in (g, out ++ out')
  else (g, out).

Definition on_run_aborted (m : M) (g : GemService) :=
  send_event kCeidRunAborted
    [mkReport kRptidStates
       [u1 [control_code (control_mode (api_snapshot m))];
        u1 [process_code (process_state (api_snapshot m))]]] g.

Definition on_alarm (set : bool) (aid : Z) (text : string) (g : GemService) : list Posted :=
  send_alarm (to_u8 (Z.lor (if set then kAlcdSetBit else 0) kAlarmCategory)) (wrap 32 aid) text g.

(** ** The session's callbacks *)

Definition on_session_state (s : ConnectionState) (g : GemService) : GemService :=
  if negb (bool_decide (s = kSelected)) then set_open ∅ (set_comm kNotCommunicating g) else g.

Definition on_transaction_timeout (sys : Z) (g : GemService) : GemService * list Posted :=
  match open_requests_ g !! sys with
  | None => (g, [])
  | Some sent => (set_open (delete sys (open_requests_ g)) g, send_s9 9 sent)
  end.

(** ** Remote commands *)

(** The loop over the parameters: acknowledgements, whether all are fine, and the
    wafer id. *)
Record ParamScan := mkScan { acks : list ParamAck; params_ok : bool; wafer : option string }.

Definition scan_param (name : string) (acc : ParamScan) (p : CommandParam) : ParamScan :=
  let ack c := acks acc ++ [mkParamAck (param_name p) c] in
  let bad c := mkScan (ack c) false (wafer acc) in
  if bool_decide (name = "START"%string) && bool_decide (param_name p = "WAFER_ID"%string) then
    match wafer acc with
    | Some _ => bad kCpackIllegalValue
    | None =>
        match as_ascii (param_value p) with
        | None => bad kCpackIllegalFormat
        | Some id =>
            if negb (valid_wafer_id id) then bad kCpackIllegalValue
            else mkScan (ack kCpackOk) (params_ok acc) (Some id)
        end
    end
  else if bool_decide (name = "START"%string) && bool_decide (param_name p = "CASSETTE_ID"%string)
  then bad kCpackIllegalValue
  else if bool_decide (name = "CLEAR_ALARM"%string) && bool_decide (param_name p = "ALID"%string)
  then
    match as_u32 (param_value p) with
    | None => bad kCpackIllegalFormat
    | Some v => if negb (known_alid v) then bad kCpackIllegalValue
                else mkScan (ack kCpackOk) (params_ok acc) (wafer acc)
    end
  else bad kCpackUnknownName.

Definition scan_params (name : string) (ps : list CommandParam) : ParamScan :=
  foldl (scan_param name) (mkScan [] true None) ps.

Definition known_command (name : string) : bool :=
  bool_decide (name = "START"%string) || bool_decide (name = "STOP"%string) ||
  bool_decide (name = "ABORT"%string) || bool_decide (name = "CLEAR_ALARM"%string).

(** [execute_command]: HCACK, acknowledgements and the machine afterwards. *)
Definition execute_command (c : RemoteCommand) (m : M) : Z * list ParamAck * M :=
  let name := rcmd c in
  if negb (known_command name) then (kHcackUnknownCommand, [], m)
  else if negb (bool_decide (control_mode (api_snapshot m) = kOnlineRemote)) then
    (kHcackCannotPerformNow, [], m)
  else
    let scan := scan_params name (command_params c) in
    let start := bool_decide (name = "START"%string) in
    let ok := params_ok scan && negb (start && negb (bool_decide (is_Some (wafer scan)))) in
    if negb ok then (kHcackInvalidParameter, acks scan, m)
    else
      let '(result, m) :=
        if start then api_start (default ""%string (wafer scan)) 1 kSecsGem m
        else if bool_decide (name = "STOP"%string) then api_stop kSecsGem m
        else if bool_decide (name = "ABORT"%string) then api_abort kSecsGem m
        else api_clear_alarm kSecsGem m in
      if negb (has_value result) then (kHcackCannotPerformNow, acks scan, m)
      else (if start then kHcackAcceptedLater else kHcackDone, acks scan, m).

Definition handle_remote_command (f : Frame) (c : RemoteCommand) (m : M) : M * list Posted :=
  let '(h, ps, m) := execute_command c m in (m, reply f (make_s2f42 h ps)).

(** ** Status variables *)

Definition status_value (now : TimePoint) (svid : Z) (m : M) (g : GemService) : Item :=
  let snap := api_snapshot m in
  let stress field := match last_result snap with
                      | Some r => float_of_double (field r)
                      | None => 0
                      end in
  if svid =? kSvidControlState then u1 [control_code (control_mode snap)]
  else if svid =? kSvidProcessState then u1 [process_code (process_state snap)]
  else if svid =? kSvidCurrentWaferId then ascii_ (snap_wafer_id snap)
  else if svid =? kSvidCurrentSlot then u1 [1]
  else if svid =? kSvidScanProgressPercent then f4 [float_of_double (progress_percent snap)]
  else if svid =? kSvidLastStressMpa then f4 [stress stress_mpa]
  else if svid =? kSvidLastCurvature then f4 [stress curvature_per_m]
  else if svid =? kSvidLastFitRmsUm then f4 [stress fit_rms_um]
  else if svid =? kSvidActiveAlarmCount then u2 [wrap 16 (Z.of_nat (active_alarms m))]
  else if svid =? kSvidSoftwareRevision then ascii_ (softrev (identity (gem_config g)))
  else if svid =? kSvidUptimeSeconds then
    let up := Z.quot (now - started_ g) 1000000000 in
    u4 [wrap 32 (if up <? 0 then 0 else up)]
  else if svid =? kSvidWafersProcessed then u4 [wafers_processed_ g]
  else list_ [].

Definition handle_status_request (now : TimePoint) (f : Frame) (svids : list Z) (m : M)
    (g : GemService) : list Posted :=
  let svids := if bool_decide (svids = []) then map fst status_variables else svids in
  reply f (make_s1f4 (map (fun v => status_value now v m g) svids)).

(** ** On-line and off-line *)

Definition handle_offline_request (f : Frame) (m : M) : M * list Posted :=
  let '(_, m) := api_set_control_mode kOffline kSecsGem m in (m, reply f (make_s1f16 kOflackOk)).

Definition handle_online_request (f : Frame) (m : M) (g : GemService) : M * list Posted :=
  if negb (allow_host_online (gem_config g)) then (m, reply f (make_s1f18 kOnlackNotAllowed))
  else if negb (bool_decide (control_mode (api_snapshot m) = kOffline)) then
    (m, reply f (make_s1f18 kOnlackAlreadyOnline))
  else
    let '(r, m) := api_set_control_mode (preferred_online_mode_ g) kSecsGem m in
    (m, reply f (make_s1f18 (if has_value r then kOnlackAccepted else kOnlackNotAllowed))).

(** ** Dispatch *)

(** [handle_message]. The parsers' [value()] is safe: [handle_message] runs only on
    messages the catalogue accepts ([catalogues_agree]); on any other the model
    does nothing. *)
Definition handle_message (now : TimePoint) (f : Frame) (msg : Message) (m : M) (g : GemService)
    : GemService * M * list Posted :=
  let key := (stream msg, function msg) in
  if bool_decide (key = (1, 1)) then (g, m, reply f (make_s1f2 (identity (gem_config g))))
  else if bool_decide (key = (1, 13)) then
    (set_comm kCommunicating g, m,
     reply f (make_s1f14 kCommackAccepted (identity (gem_config g))))
  else if bool_decide (key = (1, 3)) then
    match parse_s1f3 msg with
    | Ok svids => (g, m, handle_status_request now f svids m g)
    | Err _ => (g, m, [])
    end
  else if bool_decide (key = (1, 15)) then
    let '(m, out) := handle_offline_request f m in (g, m, out)
  else if bool_decide (key = (1, 17)) then
    let '(m, out) := handle_online_request f m g in (g, m, out)
  else if bool_decide (key = (2, 41)) then
    match parse_s2f41 msg with
    | Ok c => let '(m, out) := handle_remote_command f c m in (g, m, out)
    | Err _ => (g, m, [])
    end
  else (g, m, []).

Definition on_data (now : TimePoint) (d : Delivery) (m : M) (g : GemService)
    : GemService * M * list Posted :=
  let f := delivered d in
  match reply_to d with
  | Some sys => (set_open (delete sys (open_requests_ g)) g, m, [])
  | None =>
      if negb (session_id (header f) =? gem_device_id (gem_config g)) then
        (g, m, send_s9 1 (header f))
      else if max_body_bytes (gem_config g) <? Z.of_nat (length (frame_body f)) then
        (g, m, send_s9 11 (header f))
      else
        match to_message f with
        | Err _ => (g, m, send_s9 7 (header f))
        | Ok msg =>
            match factory_check equipment_factory msg with
            | kOk => handle_message now f msg m g
            | kUnknownStream => (g, m, send_s9 3 (header f))
            | kUnknownFunction => (g, m, send_s9 5 (header f))
            | kIllegalData => (g, m, send_s9 7 (header f))
            end
        end
  end.

End gem_service.

(** [on_control_state_changed] and the other tasks, as the bus events post them. *)
Definition on_bus_event {M} `{MachineOps M} (e : Event) (m : M) (g : GemService)
    : GemService * list Posted :=
  match e with
  | StateChanged _ to => on_process_state_changed to m g
  | ControlStateChanged _ to => on_control_state_changed to m g
  | ScanStarted w slot => on_scan_started w slot g
  | WaferResult r => on_result r g
  | RunAborted _ => on_run_aborted m g
  | AlarmSet aid _ reason => (g, on_alarm true aid reason g)
  | AlarmCleared aid name => (g, on_alarm false aid name g)
  | _ => (g, [])
  end.

(** ** Wafer ids from the host *)

Lemma wafer_char_spec c :
  wafer_char_ok c = true ->
  c <> "/"%char /\ c <> "\"%char /\ c <> "."%char /\ c <> ":"%char /\ c <> zero.
Proof. intros Hc. repeat split; intros ->; by vm_compute in Hc. Qed.

Lemma valid_wafer_id_spec id :
  valid_wafer_id id = true <->
  (1 <= String.length id <= 32)%nat /\
  Forall (fun c => wafer_char_ok c = true) (String.list_ascii_of_string id).
Proof.
  unfold valid_wafer_id. rewrite !andb_true_iff, !negb_true_iff, bool_decide_eq_false, Z.ltb_ge.
  rewrite forallb_forall, Forall_forall. setoid_rewrite list_elem_of_In. split.
  - intros [[Hne Hle] Hc]. split; [|done]. destruct id; [done|simpl in *; lia].
  - intros [[Hne Hle] Hc]. split_and!; [|lia|done]. intros ->. simpl in Hne. lia.
Qed.

(** ** The scan over a command's parameters *)

(** What the scan has established of the parameters [ps] seen so far. *)
Record scan_ok (name : string) (ps : list CommandParam) (s : ParamScan) : Prop := mkScanOk {
  scan_names : map ack_name (acks s) = map param_name ps;
  scan_good : params_ok s = forallb (fun a => cpack a =? kCpackOk) (acks s);
  scan_wafer : forall id, wafer s = Some id ->
    name = "START"%string /\ valid_wafer_id id = true /\
    mkParam "WAFER_ID" (ascii_ id) ∈ ps;
  scan_no_wafer : name = "START"%string -> params_ok s = true -> wafer s = None ->
    Forall (fun p => param_name p <> "WAFER_ID"%string) ps
}.

Lemma scan_refuse name ps s p c :
  scan_ok name ps s -> c <> kCpackOk ->
  scan_ok name (ps ++ [p]) (mkScan (acks s ++ [mkParamAck (param_name p) c]) false (wafer s)).
Proof.
  intros [Hn Hg Hw Hnone] Hc. split; simpl; [by rewrite !map_app, Hn| | |done].
  - rewrite forallb_app. simpl. by rewrite (proj2 (Z.eqb_neq c kCpackOk) Hc), andb_false_r.
  - intros id Hid. destruct (Hw id Hid) as (? & ? & ?). split_and!; try done. set_solver.
Qed.

Lemma scan_accept name ps s p w :
  scan_ok name ps s ->
  (forall id, w = Some id -> name = "START"%string /\ valid_wafer_id id = true /\
                             mkParam "WAFER_ID" (ascii_ id) ∈ ps ++ [p]) ->
  (name = "START"%string -> w <> None) ->
  scan_ok name (ps ++ [p])
    (mkScan (acks s ++ [mkParamAck (param_name p) kCpackOk]) (params_ok s) w).
Proof.
  intros [Hn Hg Hw Hnone] Hid Hsome. split; simpl; [by rewrite !map_app, Hn| |done|].
  - rewrite forallb_app, Hg. simpl. by rewrite andb_true_r.
  - intros Hs _ ->. by destruct (Hsome Hs).
Qed.

Lemma scan_param_ok name ps s p :
  scan_ok name ps s -> scan_ok name (ps ++ [p]) (scan_param name s p).
Proof.
  intros Hs. unfold scan_param.
  destruct (bool_decide (name = "START"%string) && bool_decide (param_name p = "WAFER_ID"%string))
    eqn:E1.
  { apply andb_true_iff in E1 as [En%bool_decide_eq_true Ep%bool_decide_eq_true].
    destruct (wafer s) as [w|] eqn:Ew; [rewrite <- Ew; by apply scan_refuse|].
    rewrite <- Ew. destruct (as_ascii (param_value p)) as [id|] eqn:Ea; [|by apply scan_refuse].
    destruct (negb _) eqn:Ev; [by apply scan_refuse|]. rewrite negb_false_iff in Ev.
    apply scan_accept; [done| |done]. intros id' [= <-]. split_and!; [done..|].
    apply elem_of_app. right. destruct p as [pn pv]. simpl in *. subst.
    destruct pv; simplify_eq/=. set_solver. }
  destruct (bool_decide (name = "START"%string) &&
            bool_decide (param_name p = "CASSETTE_ID"%string)); [by apply scan_refuse|].
  destruct (bool_decide (name = "CLEAR_ALARM"%string) &&
            bool_decide (param_name p = "ALID"%string)) eqn:E3; [|by apply scan_refuse].
  apply andb_true_iff in E3 as [En%bool_decide_eq_true _].
  destruct (as_u32 _); [|by apply scan_refuse]. destruct (negb _); [by apply scan_refuse|].
  apply scan_accept; [done| |by intros ->]. intros id Hid.
  destruct (scan_wafer _ _ _ Hs id Hid) as (? & ? & ?). split_and!; try done. set_solver.
Qed.

Lemma scan_params_ok name ps : scan_ok name ps (scan_params name ps).
Proof.
  unfold scan_params. induction ps as [|p ps IH] using rev_ind; [by split|].
  rewrite foldl_app. simpl. by apply scan_param_ok.
Qed.

(** ** What a remote command does *)

Section remote_command.
Context {M : Type} `{MachineOps M}.

(** The machine call a command stands for; START runs the wafer [id]. *)
Definition command_call (name : string) (id : string) (m : M) : Result ProcessState * M :=
  if bool_decide (name = "START"%string) then api_start id 1 kSecsGem m
  else if bool_decide (name = "STOP"%string) then api_stop kSecsGem m
  else if bool_decide (name = "ABORT"%string) then api_abort kSecsGem m
  else api_clear_alarm kSecsGem m.

(** [C23] What S2F42 tells the host is what happened. An unknown command gets HCACK 1
    and, outside Online-Remote, a known one HCACK 2, with no parameter
    acknowledged and the machine untouched. Otherwise every parameter is
    acknowledged once, in order; HCACK is 3, and the machine untouched, exactly when
    some parameter is refused or a START names no wafer; else the machine was asked
    once, for START with a wafer id given in the parameters that is 1 to 32 letters,
    digits, '_' or '-': HCACK is 2 if it refused, 4 if it accepted a START and 0 if
    it accepted another command. *)
Theorem execute_command_spec c (m : M) h ps m' :
  execute_command c m = (h, ps, m') ->
  (known_command (rcmd c) = false -> h = kHcackUnknownCommand /\ ps = [] /\ m' = m) /\
  (known_command (rcmd c) = true -> control_mode (api_snapshot m) <> kOnlineRemote ->
     h = kHcackCannotPerformNow /\ ps = [] /\ m' = m) /\
  (known_command (rcmd c) = true -> control_mode (api_snapshot m) = kOnlineRemote ->
     map ack_name ps = map param_name (command_params c) /\
     ((h = kHcackInvalidParameter /\ m' = m /\
       (Exists (fun a => cpack a <> kCpackOk) ps \/
        rcmd c = "START"%string /\
        Forall (fun p => param_name p <> "WAFER_ID"%string) (command_params c))) \/
      (Forall (fun a => cpack a = kCpackOk) ps /\
       exists id r, command_call (rcmd c) id m = (r, m') /\
         (rcmd c = "START"%string ->
            valid_wafer_id id = true /\ mkParam "WAFER_ID" (ascii_ id) ∈ command_params c) /\
         h = if has_value r
             then if bool_decide (rcmd c = "START"%string) then kHcackAcceptedLater
                  else kHcackDone
             else kHcackCannotPerformNow))).
Proof.
  intros He. unfold execute_command in He. split_and!.
  - intros Hk. rewrite Hk in He. by simplify_eq/=.
  - intros Hk Hm. rewrite Hk, bool_decide_eq_false_2 in He by done. by simplify_eq/=.
  - intros Hk Hm. rewrite Hk, bool_decide_eq_true_2 in He by done. cbn [negb] in He.
    destruct (scan_params_ok (rcmd c) (command_params c)) as [Hn Hg Hw Hnone].
    set (scan := scan_params (rcmd c) (command_params c)) in *.
    assert (Hgood : params_ok scan = true -> Forall (fun a => cpack a = kCpackOk) (acks scan)).
    { rewrite Hg, forallb_forall, Forall_forall. intros Hf a Ha.
      by apply Z.eqb_eq, Hf, list_elem_of_In. }
    destruct (negb (params_ok scan && _)) eqn:Eok.
    + simplify_eq. split; [done|]. left. split; [done|]. split; [done|].
      rewrite negb_true_iff in Eok. apply andb_false_iff in Eok as [Eok|Eok].
      * left. apply not_Forall_Exists; [apply _|]. intros Hall. rewrite Hg in Eok.
        rewrite (proj2 (forallb_forall _ _)) in Eok; [done|].
        rewrite Forall_forall in Hall. intros a Ha%list_elem_of_In. apply Z.eqb_eq. by apply Hall.
      * rewrite negb_false_iff, andb_true_iff in Eok. destruct Eok as [Es En].
        apply bool_decide_eq_true in Es. rewrite negb_true_iff, bool_decide_eq_false in En.
        destruct (params_ok scan) eqn:Ep.
        -- right. split; [done|]. apply Hnone; [done..|]. by apply eq_None_not_Some.
        -- left. apply not_Forall_Exists; [apply _|]. intros Hall. symmetry in Hg.
           rewrite (proj2 (forallb_forall _ _)) in Hg; [done|].
           rewrite Forall_forall in Hall. intros a Ha%list_elem_of_In. apply Z.eqb_eq.
           by apply Hall.
    + rewrite negb_false_iff, andb_true_iff, negb_true_iff in Eok. destruct Eok as [Ep Es].
      assert (Hcall : exists r, command_call (rcmd c) (default ""%string (wafer scan)) m = (r, m') /\
        ps = acks scan /\
        h = if has_value r
            then if bool_decide (rcmd c = "START"%string) then kHcackAcceptedLater else kHcackDone
            else kHcackCannotPerformNow).
      { unfold command_call. destruct (if bool_decide _ then _ else _) as [r m2].
        exists r. destruct (has_value r); simpl in He; by simplify_eq. }
      destruct Hcall as (r & Hcall & -> & Hh). split; [done|]. right. split; [by apply Hgood|].
      exists (default ""%string (wafer scan)), r. split_and!; [done| |done].
      intros Hs. destruct (wafer scan) as [id|] eqn:Ew.
      * simpl. destruct (Hw id eq_refl) as (_ & ? & ?). done.
      * rewrite Hs in Es. by vm_compute in Es.
Qed.
End remote_command.

(** ** Answers *)

Definition posted_message (p : Posted) : Message :=
  match p with post_reply _ m => m | post_request m => m end.

(** The reply to [msg] received in [f]: same stream, next function, no W-bit, the
    request's system bytes, and legal for the host. *)
Definition is_reply (f : Frame) (msg : Message) (p : Posted) : Prop :=
  exists r, p = post_reply (system_bytes (header f)) r /\ stream r = stream msg /\
    function r = function msg + 1 /\ w_bit r = false /\
    factory_check host_factory r = kOk.

(** The S9 error a data message deserves: wrong device, too long, not decodable, unknown stream
    or function, or a body the catalogue does not allow. *)
Definition refusal (c : GemConfig) (f : Frame) : option Z :=
  if bool_decide (session_id (header f) <> gem_device_id c) then Some 1
  else if bool_decide (max_body_bytes c < Z.of_nat (length (frame_body f))) then Some 11
  else
    match to_message f with
    | Err _ => Some 7
    | Ok msg =>
        match factory_check equipment_factory msg with
        | kOk => None
        | kUnknownStream => Some 3
        | kUnknownFunction => Some 5
        | kIllegalData => Some 7
        end
    end.

Lemma legal_answers b id l values :
  Forall (fun m => factory_check host_factory m = kOk)
    [make_s1f2 id; make_s1f4 values; make_s1f14 b id; make_s1f16 b; make_s1f18 b;
     make_s2f42 b l].
Proof.
  repeat apply Forall_cons_2; try apply Forall_nil_2; rewrite host_check; try done.
  unfold table_validate.
  change (table_check _ _) with (Some (fun b => has_value (parse_command_ack_body b))).
  cbv beta iota. by rewrite parse_command_ack_make.
Qed.

Lemma reply_is_reply f msg r :
  header_w_bit (header f) = true -> stream r = stream msg -> function r = function msg + 1 ->
  w_bit r = false -> factory_check host_factory r = kOk ->
  exists p, reply f r = [p] /\ is_reply f msg p.
Proof.
  intros Hw ? ? ? ?. unfold reply. rewrite Hw. eexists. split; [done|]. by exists r.
Qed.

(** Proves that an answer is a reply, up to its legality. *)
Ltac answer Hs Hf :=
  apply reply_is_reply; [assumption|by rewrite Hs|by rewrite Hf|reflexivity|].

Section answers.
Context {M : Type} `{MachineOps M}.

Lemma handle_message_answers now f msg (m : M) g :
  header_w_bit (header f) = true -> factory_check equipment_factory msg = kOk ->
  (exists p, (handle_message now f msg m g).2 = [p] /\ is_reply f msg p) \/
  ((handle_message now f msg m g).2 = [] /\
   ((stream msg, function msg) = (5, 2) \/ (stream msg, function msg) = (6, 12))).
Proof.
  intros Hw Hok. unfold handle_message. cbv zeta.
  pose proof Hok as Htab. rewrite equipment_check in Htab. unfold table_validate in Htab.
  set (key := (stream msg, function msg)) in *.
  assert (Hkey : stream msg = key.1 /\ function msg = key.2) by done.
  destruct Hkey as [Hs Hf]. clearbody key.
  destruct (decide (key = (1, 1))) as [->|N1].
  { left. rewrite bool_decide_eq_true_2 by done. cbn [snd]. answer Hs Hf.
    by pose proof (legal_answers 0 (identity (gem_config g)) [] []) as [? _]%Forall_cons. }
  rewrite bool_decide_eq_false_2 by done.
  destruct (decide (key = (1, 13))) as [->|N2].
  { left. rewrite bool_decide_eq_true_2 by done. cbn [snd]. answer Hs Hf.
    pose proof (legal_answers kCommackAccepted (identity (gem_config g)) [] []) as Hl.
    by do 3 apply Forall_cons in Hl as [? Hl]. }
  rewrite bool_decide_eq_false_2 by done.
  destruct (decide (key = (1, 3))) as [->|N3].
  { left. rewrite bool_decide_eq_true_2 by done.
    change (table_check _ _) with (Some (fun b => has_value (parse_svid_body b))) in Htab.
    cbv beta iota in Htab. unfold parse_s1f3.
    destruct (parse_svid_body (body msg)) as [svids|]; [|discriminate Htab].
    cbn [snd]. unfold handle_status_request.
    answer Hs Hf.
    match goal with |- factory_check _ (make_s1f4 ?v) = _ =>
      pose proof (legal_answers 0 (identity (gem_config g)) [] v) as Hl end.
    by do 2 apply Forall_cons in Hl as [? Hl]. }
  rewrite bool_decide_eq_false_2 by done.
  destruct (decide (key = (1, 15))) as [->|N4].
  { left. rewrite bool_decide_eq_true_2 by done. unfold handle_offline_request.
    destruct (api_set_control_mode _ _ m) as [r m']. cbn [snd].
    answer Hs Hf.
    pose proof (legal_answers kOflackOk (identity (gem_config g)) [] []) as Hl.
    by do 4 apply Forall_cons in Hl as [? Hl]. }
  rewrite bool_decide_eq_false_2 by done.
  destruct (decide (key = (1, 17))) as [->|N5].
  { left. rewrite bool_decide_eq_true_2 by done. unfold handle_online_request.
    assert (Hr : forall b, exists p, reply f (make_s1f18 b) = [p] /\ is_reply f msg p).
    { intros b. answer Hs Hf.
      pose proof (legal_answers b (identity (gem_config g)) [] []) as Hl.
      by do 5 apply Forall_cons in Hl as [? Hl]. }
    destruct (negb _); [apply Hr|]. destruct (negb _); [apply Hr|].
    destruct (api_set_control_mode _ _ m) as [r m']. apply Hr. }
  rewrite bool_decide_eq_false_2 by done.
  destruct (decide (key = (2, 41))) as [->|N6].
  { left. rewrite bool_decide_eq_true_2 by done.
    change (table_check _ _) with (Some (fun b => has_value (parse_command_body b))) in Htab.
    cbv beta iota in Htab. unfold parse_s2f41.
    destruct (parse_command_body (body msg)) as [c|]; [|discriminate Htab].
    unfold handle_remote_command. destruct (execute_command c m) as [[h ps] m']. cbn [snd].
    answer Hs Hf.
    pose proof (legal_answers h (identity (gem_config g)) ps []) as Hl.
    by do 6 apply Forall_cons in Hl as [? Hl]. }
  rewrite bool_decide_eq_false_2 by done. right. split; [done|].
  cbn [table_check equipment_table] in Htab.
  repeat (case_decide; [subst; try done; auto|]). case_match; done.
Qed.

(** A message that does not ask for a reply gets none. *)
Lemma handle_message_silent now f msg (m : M) g :
  header_w_bit (header f) = false -> (handle_message now f msg m g).2 = [].
Proof.
  intros Hw. assert (Hr : forall r, reply f r = []) by (intros r; unfold reply; by rewrite Hw).
  unfold handle_message, handle_status_request, handle_offline_request, handle_online_request, handle_remote_command.
  repeat case_bool_decide; cbv zeta; repeat (case_match; simplify_eq); cbn [snd] in *; rewrite ?Hr; congruence.
Qed.

(** [C24] Who is answered, and how. A reply that matches an open request is not answered. Any
    other data message is refused by exactly one S9, that of its first defect, which quotes its
    header, when it has one (whether it asked for a reply or not). Otherwise one that
    asks for a reply, with the W-bit, is answered by exactly one message, its own reply (same
    stream, next function, its system bytes, no W-bit, and a body the host's catalogue
    accepts), except an acknowledgement that matches no open request (S5F2, S6F12), which
    is passed over in silence; and one without the W-bit is acted on but gets no answer. *)
Theorem on_data_answers now d (m : M) g :
  let f := delivered d in
  let out := (on_data now d m g).2 in
  match reply_to d, refusal (gem_config g) f with
  | Some _, _ => out = []
  | None, Some fn => out = [post_request (make_s9 fn (header_bytes (header f)))]
  | None, None => exists msg, to_message f = Ok msg /\
      if header_w_bit (header f) then
        (exists p, out = [p] /\ is_reply f msg p) \/
        (out = [] /\ ((stream msg, function msg) = (5, 2) \/ (stream msg, function msg) = (6, 12)))
      else out = []
  end.
Proof.
  cbv zeta. unfold on_data, refusal. destruct (reply_to d); [done|].
  destruct (Z.eqb_spec (session_id (header (delivered d))) (gem_device_id (gem_config g))) as [Hd|Hd]; cbn [negb];
    [rewrite bool_decide_eq_false_2 by auto|by rewrite bool_decide_eq_true_2].
  destruct (Z.ltb_spec (max_body_bytes (gem_config g)) (Z.of_nat (length (frame_body (delivered d))))) as [Hb|Hb];
    [by rewrite bool_decide_eq_true_2|rewrite bool_decide_eq_false_2 by lia].
  destruct (to_message (delivered d)) as [msg|e] eqn:Em; [|done].
  destruct (factory_check equipment_factory msg) eqn:Ec; [|done..]. exists msg. split; [done|].
  destruct (header_w_bit (header (delivered d))) eqn:Hw; [|by apply handle_message_silent].
  by apply handle_message_answers.
Qed.

End answers.

(** ** The control mode *)

Section control.
Context {M : Type} `{MachineContract M}.

Lemma execute_command_machine c (m : M) :
  machine_ok m ->
  machine_ok (execute_command c m).2 /\
  control_mode (api_snapshot (execute_command c m).2) = control_mode (api_snapshot m).
Proof.
  intros Hm. unfold execute_command.
  destruct (negb (known_command _)); [by split|]. destruct (negb (bool_decide _)); [by split|].
  cbv zeta. destruct (negb (params_ok _ && _)); [by split|].
  assert (Hcall : forall id, machine_ok (command_call (rcmd c) id m).2 /\
    control_mode (api_snapshot (command_call (rcmd c) id m).2) = control_mode (api_snapshot m)).
  { intros id. unfold command_call.
    repeat case_bool_decide; split; auto using machine_start_ok, machine_stop_ok, machine_abort_ok,
      machine_clear_ok, start_keeps_mode, stop_keeps_mode, abort_keeps_mode, clear_keeps_mode. }
  specialize (Hcall (default ""%string (wafer (scan_params (rcmd c) (command_params c))))).
  unfold command_call in Hcall. destruct (if bool_decide _ then _ else _) as [r m'].
  by destruct (has_value r).
Qed.

(** The host cannot seize control: whatever data message arrives, the control
    mode afterwards is the one before, or Offline, or, if the machine was Offline
    and the configuration allows it, the online mode the operator last chose. *)
Theorem host_cannot_seize_control now d (m : M) g :
  machine_ok m ->
  let m' := (on_data now d m g).1.2 in
  machine_ok m' /\
  (control_mode (api_snapshot m') = control_mode (api_snapshot m) \/
   control_mode (api_snapshot m') = kOffline \/
   (control_mode (api_snapshot m) = kOffline /\ allow_host_online (gem_config g) = true /\
    control_mode (api_snapshot m') = preferred_online_mode_ g)).
Proof.
  intros Hm. cbv zeta. unfold on_data.
  destruct (reply_to d); [by auto|]. destruct (negb _); [by auto|]. destruct (_ <? _); [by auto|].
  destruct (to_message _) as [msg|]; [|by auto].
  destruct (factory_check _ msg); [|by auto..]. unfold handle_message.
  cbv zeta.
  case_bool_decide; [by auto|]. case_bool_decide; [by auto|].
  case_bool_decide; [by destruct (parse_s1f3 msg); auto|].
  case_bool_decide.
  { unfold handle_offline_request. pose proof (host_sets_mode kOffline m) as Hs.
    pose proof (machine_mode_ok kOffline kSecsGem m Hm) as Hm'.
    destruct (api_set_control_mode _ _ m) as [r m']. simpl in *. split; [done|].
    right. left. by rewrite Hs. }
  case_bool_decide.
  { unfold handle_online_request. destruct (allow_host_online _) eqn:Ea; [|by auto]. simpl.
    case_bool_decide as Eoff; [|by auto]. simpl.
    pose proof (host_sets_mode (preferred_online_mode_ g) m) as Hs.
    pose proof (machine_mode_ok (preferred_online_mode_ g) kSecsGem m Hm) as Hm'.
    destruct (api_set_control_mode _ _ m) as [r m']. simpl in *. split; [done|].
    right. right. split_and!; try done. rewrite Hs.
    by rewrite (bool_decide_eq_true_2 (control_mode _ = _)), orb_true_r. }
  case_bool_decide; [|by auto].
  destruct (parse_s2f41 msg) as [c|]; [|by auto]. unfold handle_remote_command.
  destruct (execute_command_machine c m Hm) as [Hok Hmode].
  destruct (execute_command c m) as [[h ps] m']. simpl in *. auto.
Qed.

End control.

(** ** Event reports *)

(** The S6F11 messages for a list of events, numbered from [n]. *)
Definition numbered (n : Z) (evs : list (Z * list Report)) : list Posted :=
  imap (fun i ev => post_request (make_s6f11 (mkEventReport (wrap 32 (n + Z.of_nat i)) ev.1 ev.2)))
    evs.

(** One report, the one the event's CEID carries, with the values its layout lists. *)
Definition report_fits (ev : Z * list Report) : Prop :=
  exists r, ev.2 = [r] /\ rptid r = report_for_event ev.1 /\ rptid r <> 0 /\
    length (report_values r) = length (report_fields (rptid r)).

Definition is_alarm_event (e : Event) : bool :=
  match e with AlarmSet _ _ _ | AlarmCleared _ _ => true | _ => false end.

Section events.
Context {M : Type} `{MachineOps M}.

Lemma send_event_one cid rs g :
  uint_ok 32 (next_dataid_ g) ->
  send_event cid rs g =
    if bool_decide (comm_ g = kCommunicating)
    then (set_dataid (wrap 32 (next_dataid_ g + 1)) g, numbered (next_dataid_ g) [(cid, rs)])
    else (g, []).
Proof.
  intros Hn. unfold send_event, numbered. case_bool_decide; [|done]. cbn [imap fst snd].
  change (Z.of_nat 0) with 0. by rewrite Z.add_0_r, (wrap_id 32 (next_dataid_ g)).
Qed.

(** Collection events follow the catalogue: while communicating, a machine event
    yields S6F11 messages numbered consecutively (modulo 2^32) from the next
    DATAID, each with exactly the one report its CEID prescribes, filled with as
    many values as that report has fields; while not communicating, nothing is sent
    and no number is used up. *)
Theorem event_reports_follow_catalogue e (m : M) g :
  uint_ok 32 (next_dataid_ g) -> is_alarm_event e = false ->
  exists evs,
    (on_bus_event e m g).2 = numbered (next_dataid_ g) evs /\
    Forall report_fits evs /\
    next_dataid_ (on_bus_event e m g).1 = wrap 32 (next_dataid_ g + Z.of_nat (length evs)) /\
    (comm_ g <> kCommunicating -> evs = []).
Proof.
  intros Hn Ha.
  assert (Hnone : exists evs, [] = numbered (next_dataid_ g) evs /\ Forall report_fits evs /\
    next_dataid_ g = wrap 32 (next_dataid_ g + Z.of_nat (length evs)) /\
    (comm_ g <> kCommunicating -> evs = [])).
  { exists []. split_and!; try done. simpl. by rewrite Z.add_0_r, wrap_id. }
  assert (Hone : forall cid rs g', report_fits (cid, rs) -> next_dataid_ g' = next_dataid_ g ->
    comm_ g' = comm_ g ->
    exists evs, (send_event cid rs g').2 = numbered (next_dataid_ g) evs /\
      Forall report_fits evs /\
      next_dataid_ (send_event cid rs g').1 =
        wrap 32 (next_dataid_ g + Z.of_nat (length evs)) /\
      (comm_ g <> kCommunicating -> evs = [])).
  { intros cid rs g' Hf Hd Hc. rewrite send_event_one by (by rewrite Hd). rewrite Hc, Hd.
    case_bool_decide.
    - exists [(cid, rs)]. split_and!; try done. by apply Forall_singleton.
    - exists []. split_and!; try done. simpl. by rewrite Z.add_0_r, wrap_id. }
  destruct e; try done; simpl.
  - apply Hone; try done. by eexists.
  - unfold on_result. set (g1 := set_wafers _ g).
    rewrite (send_event_one _ _ g1) by done.
    destruct (bool_decide (comm_ g1 = kCommunicating)) eqn:Ec.
    + destruct (out_of_spec r).
      * rewrite send_event_one by (apply wrap_range; lia). simpl comm_. simpl comm_ in Ec. rewrite Ec.
        exists [(kCeidWaferScanComplete, result_report r); (kCeidWaferOutOfSpec, result_report r)].
        split_and!.
        -- unfold numbered. simpl. by rewrite !Z.add_0_r, (wrap_id 32 (wrap _ _)) by (apply wrap_range; lia).
        -- repeat apply Forall_cons_2; try apply Forall_nil_2; by eexists.
        -- simpl. unfold wrap. rewrite Zplus_mod_idemp_l. f_equal. lia.
        -- intros Hne. by apply bool_decide_eq_true in Ec.
      * exists [(kCeidWaferScanComplete, result_report r)]. split_and!; try done.
        -- apply Forall_singleton. by eexists.
        -- intros Hne. by apply bool_decide_eq_true in Ec.
    + apply bool_decide_eq_false in Ec. destruct (out_of_spec r); [|done].
      rewrite send_event_one by done. by rewrite bool_decide_eq_false_2.
  - apply Hone; try done. by eexists.
  - apply Hone; try done. by eexists.
  - unfold on_control_state_changed. apply Hone; try done; [by eexists| |]; by case_bool_decide.
Qed.

End events.

(** ** Our own requests that time out *)

(** When a request of ours gets no reply in time, the S9F9 quotes exactly the
    header that was on the wire: the one of the frame the session sent for that
    message under those system bytes; and the request is forgotten, so it is
    reported once. *)
Theorem timeout_quotes_sent_header c m sys bd g :
  device_id c = gem_device_id (gem_config g) -> w_bit m = true ->
  (on_transaction_timeout sys (on_sent m sys g)).2 =
    [post_request (make_s9 9 (header_bytes (header (message_frame c m sys bd))))] /\
  on_transaction_timeout sys (on_transaction_timeout sys (on_sent m sys g)).1 =
    ((on_transaction_timeout sys (on_sent m sys g)).1, []).
Proof.
  intros Hd Hw. unfold on_sent. rewrite Hw. unfold on_transaction_timeout. simpl.
  rewrite lookup_insert_eq. simpl. rewrite lookup_delete_eq. split; [|done].
  unfold send_s9, send_request, message_frame. simpl. rewrite Hd, Hw. done.
Qed.

(** ** Concrete runs *)

#[local] Existing Instance ascending_order.

Definition remote_machine : MachineApi := (api_set_control_mode kOnlineRemote kUi new_api).2.
Definition sample_gem : GemService := set_comm kCommunicating (new_gem default_gem_config 0).
Definition sample_command : RemoteCommand :=
  mkRemoteCommand "START" [mkParam "WAFER_ID" (ascii_ "W042")].
Definition sample_frame : Frame :=
  make_data_frame 0 2 41 true 77
    match encode (default (list_ []) (body (make_s2f41 sample_command))) with
    | Ok bs => bs
    | Err _ => []
    end.

Lemma execute_command_spec_witness :
  exists m', execute_command sample_command remote_machine =
    (kHcackAcceptedLater, [mkParamAck "WAFER_ID" kCpackOk], m') /\
  map ack_name [mkParamAck "WAFER_ID" kCpackOk] = map param_name (command_params sample_command).
Proof.
  exists (execute_command sample_command remote_machine).2.
  assert (He : execute_command sample_command remote_machine =
    (kHcackAcceptedLater, [mkParamAck "WAFER_ID" kCpackOk],
     (execute_command sample_command remote_machine).2)) by (vm_compute; reflexivity).
  split; [exact He|].
  by apply (execute_command_spec sample_command remote_machine _ _ _ He).
Defined.

Lemma on_data_answers_witness :
  exists p, (on_data 0 (mkDelivery sample_frame None) remote_machine sample_gem).2 = [p].
Proof.
  pose proof (on_data_answers 0 (mkDelivery sample_frame None) remote_machine sample_gem) as H. cbv zeta in H.
  cbn [reply_to delivered] in H.
  replace (refusal (gem_config sample_gem) sample_frame) with (@None Z) in H by (vm_compute; reflexivity).
  destruct H as (msg & _ & H). change (header_w_bit (header sample_frame)) with true in H. cbv iota in H.
  destruct H as [(p & Hp & _)|[Hp _]].
  - by exists p.
  - vm_compute in Hp. discriminate Hp.
Defined.

Lemma host_cannot_seize_control_witness :
  control_mode (api_snapshot (on_data 0 (mkDelivery sample_frame None) remote_machine sample_gem).1.2)
    = kOnlineRemote.
Proof.
  destruct (host_cannot_seize_control 0 (mkDelivery sample_frame None) remote_machine sample_gem)
    as [_ [Hc|[Hc|[Hc _]]]].
  - by split.
  - rewrite Hc. reflexivity.
  - vm_compute in Hc. discriminate Hc.
  - vm_compute in Hc. discriminate Hc.
Defined.

Definition sample_result : WaferResultReady :=
  mkWaferResult "W042" 1 0xC069000000000000 0x3FF0000000000000 0x3F50624DD2F1A9FC 0 true.

Lemma event_reports_follow_catalogue_witness :
  exists evs, (on_bus_event (WaferResult sample_result) remote_machine sample_gem).2
    = numbered 1 evs /\ length evs = 2%nat.
Proof.
  destruct (event_reports_follow_catalogue (WaferResult sample_result) remote_machine sample_gem)
    as (evs & He & _ & Hd & _); [done|done|].
  exists evs. split; [exact He|].
  assert (Hl : length (numbered (next_dataid_ sample_gem) evs) = length evs)
    by apply length_imap.
  rewrite <- Hl, <- He. vm_compute. reflexivity.
Defined.

Lemma timeout_quotes_sent_header_witness :
  (on_transaction_timeout 5 (on_sent sample_request 5 sample_gem)).2 =
    [post_request (make_s9 9 [0; 0; 0x86; 11; 0; 0; 0; 0; 0; 5])].
Proof.
  destruct (timeout_quotes_sent_header default_session_config sample_request 5 [] sample_gem
    eq_refl eq_refl) as [Ht _]. rewrite Ht. vm_compute. reflexivity.
Defined.
