(* ===== verification/HsmsServer.v ===== *)
(** * The HSMS server

    include/ssim/secsgem/hsms/server.hpp, handler.hpp, sender.hpp and
    src/secsgem/hsms/server.cpp: the I/O thread around one session. Asio is a
    parameter: its completions arrive as events, in any order, and the model keeps
    which writes are in flight. Opening and binding the listener is not modelled. *)

From S2P Require Import Prelude Secs2Item Secs2Codec Secs2Message HsmsFrame HsmsConn.
From S2P Require Import HsmsSession ProcessFsm Controller MachineApi GemMessages.
From S2P Require Import GemService.

(** [IHsmsHandler], as state transformers of the layer above. *)
Class Handler (H : Type) := {
  handler_data : TimePoint -> Delivery -> H -> H;
  handler_state : ConnectionState -> H -> H;
  handler_timeout : Z -> H -> H;
  handler_error : string -> H -> H
}.

(** [HsmsServer::Impl]. [in_flight] holds the generation and the bytes of each
    [async_write] that has not completed; [wire] is the history of the writes of
    the current generation, and [emitted] of the frames the session put out. *)
Record Server (H : Type) := mkServer {
  session : Session;
  socket : bool;
  write_queue : list (list Z);
  writing : bool;
  generation : Z;
  notified_state : ConnectionState;
  handler : H;
  in_flight : list (Z * list Z);
  wire_log : list (list Z);
  emitted : list (list Z)
}.
Arguments mkServer {H}. Arguments session {H}. Arguments socket {H}. Arguments write_queue {H}.
Arguments writing {H}. Arguments generation {H}. Arguments notified_state {H}.
Arguments handler {H}. Arguments in_flight {H}. Arguments wire_log {H}. Arguments emitted {H}.

Section server.
Context {H : Type} `{Handler H}.

Definition new_server (c : SessionConfig) (h : H) : Server H :=
  mkServer (new_session c) false [] false 0 kNotConnected h [] [] [].

Definition with_handler (f : H -> H) (d : Server H) : Server H :=
  mkServer (session d) (socket d) (write_queue d) (writing d) (generation d) (notified_state d)
    (f (handler d)) (in_flight d) (wire_log d) (emitted d).
Definition with_session (s : Session) (d : Server H) : Server H :=
  mkServer s (socket d) (write_queue d) (writing d) (generation d) (notified_state d)
    (handler d) (in_flight d) (wire_log d) (emitted d).
Definition with_writing (b : bool) (d : Server H) : Server H :=
  mkServer (session d) (socket d) (write_queue d) b (generation d) (notified_state d)
    (handler d) (in_flight d) (wire_log d) (emitted d).

(** [notify_state]: the handler hears of the state if it differs from the last
    one it heard of. *)
Definition notify_state (d : Server H) : Server H :=
  let s := HsmsSession.fsm_ (session d) in
  if bool_decide (s = notified_state d) then d
  else
    mkServer (session d) (socket d) (write_queue d) (writing d) (generation d) s
      (handler_state s (handler d)) (in_flight d) (wire_log d) (emitted d).

Definition close_socket (d : Server H) : Server H :=
  notify_state
    (mkServer (on_disconnect (session d)) false [] false (wrap 64 (generation d + 1))
       (notified_state d) (handler d) (in_flight d) [] []).

Definition write_next (d : Server H) : Server H :=
  match socket d, write_queue d with
  | true, front :: _ =>
      mkServer (session d) (socket d) (write_queue d) true (generation d) (notified_state d)
        (handler d) (in_flight d ++ [(generation d, front)]) (wire_log d ++ [front]) (emitted d)
  | _, _ => with_writing false d
  end.

Definition queue_sends (l : list (list Z)) (d : Server H) : Server H :=
  mkServer (session d) (socket d) (write_queue d ++ l) (writing d) (generation d)
    (notified_state d) (handler d) (in_flight d) (wire_log d) (emitted d ++ l).

(** [apply]: what the session asked for. *)
Definition apply_output (now : TimePoint) (out : SessionOutput) (d : Server H) : Server H :=
  let d := queue_sends (to_send out) d in
  let d := if negb (close out) && bool_decide (write_queue d <> []) && negb (writing d)
           then write_next d else d in
  let d := with_handler (fun h => foldl (fun h x => handler_data now x h) h (deliveries out)) d in
  let d := with_handler (fun h => foldl (fun h x => handler_timeout x h) h (timed_out out)) d in
  let d := notify_state d in
  if close out then close_socket d else d.

(** ** What happens on the I/O thread *)

(** The accept handler: the connection is taken, or refused (closed at once) if
    there is one already. *)
Definition on_accept (now : TimePoint) (d : Server H) : Server H :=
  if socket d then d
  else
    let d := mkServer (session d) true (write_queue d) (writing d) (wrap 64 (generation d + 1))
               (notified_state d) (handler d) (in_flight d) [] [] in
    let '(s, out) := on_connect now (session d) in
    apply_output now out (with_session s d).

(** The completion of a read started in generation [gen]: bytes, or an error. *)
Definition on_read (now : TimePoint) (gen : Z) (data : option (list Z)) (d : Server H) : Server H :=
  if negb (gen =? generation d) then d
  else
    match data with
    | None => close_socket d
    | Some bytes =>
        let '(s, out) := on_bytes now bytes (session d) in
        apply_output now out (with_session s d)
    end.

(** The completion of the write at position [i] of [in_flight], with the error if
    it failed. *)
Definition on_write (i : nat) (ec : option string) (d : Server H) : Server H :=
  match in_flight d !! i with
  | None => d
  | Some (gen, _) =>
      let d := mkServer (session d) (socket d) (write_queue d) (writing d) (generation d)
                 (notified_state d) (handler d) (delete i (in_flight d)) (wire_log d)
                 (emitted d) in
      if negb (gen =? generation d) then d
      else
        match ec with
        | Some text =>
            close_socket (with_handler (handler_error ("write failed: " ++ text)%string) d)
        | None =>
            write_next
              (mkServer (session d) (socket d) (tail (write_queue d)) (writing d) (generation d)
                 (notified_state d) (handler d) (in_flight d) (wire_log d) (emitted d))
        end
  end.

Definition server_tick (now : TimePoint) (d : Server H) : Server H :=
  if socket d then
    let '(s, out) := HsmsSession.on_tick now (session d) in
    apply_output now out (with_session s d)
  else d.

(** The task [post_request] hands to the I/O thread. *)
Definition run_request (now : TimePoint) (m : Message) (on_sent : Z -> H -> H) (d : Server H)
    : Server H :=
  if negb (socket d) then with_handler (handler_error "request dropped: no host connected") d
  else
    let '(sent, s, out) := HsmsSession.send_request now m (session d) no_output in
    let d := with_session s d in
    match sent with
    | Err e =>
        apply_output now out
          (with_handler (handler_error ("request not sent: " ++ message e)%string) d)
    | Ok sys => with_handler (on_sent sys) (apply_output now out d)
    end.

(** The task [post_reply] hands to the I/O thread. *)
Definition run_reply (now : TimePoint) (sys : Z) (m : Message) (d : Server H) : Server H :=
  if negb (socket d) then with_handler (handler_error "reply dropped: no host connected") d
  else
    match send_reply sys m (session d) no_output with
    | Err e =>
        apply_output now no_output
          (with_handler (handler_error ("reply not sent: " ++ message e)%string) d)
    | Ok out => apply_output now out d
    end.

(** The task of [stop]. *)
Definition server_stop (d : Server H) : Server H := close_socket d.

Inductive server_event :=
| sv_accept (now : TimePoint)
| sv_read (now : TimePoint) (gen : Z) (data : option (list Z))
| sv_write (i : nat) (ec : option string)
| sv_tick (now : TimePoint)
| sv_request (now : TimePoint) (m : Message) (on_sent : Z -> H -> H)
| sv_reply (now : TimePoint) (sys : Z) (m : Message)
| sv_stop.

Definition server_step (e : server_event) (d : Server H) : Server H :=
  match e with
  | sv_accept now => on_accept now d
  | sv_read now gen data => on_read now gen data d
  | sv_write i ec => on_write i ec d
  | sv_tick now => server_tick now d
  | sv_request now m on_sent => run_request now m on_sent d
  | sv_reply now sys m => run_reply now sys m d
  | sv_stop => server_stop d
  end.

Definition server_run (es : list server_event) (d : Server H) : Server H :=
  foldl (fun d e => server_step e d) d es.

End server.

(** ** The GEM service as the handler

    The handler is the service together with the machine it drives and the tasks it
    has posted so far. *)
Record GemHost (M : Type) := mkGemHost { gem : GemService; machine : M; posted : list Posted }.
Arguments mkGemHost {M}. Arguments gem {M}. Arguments machine {M}. Arguments posted {M}.

#[export] Instance gem_handler {M} `{MachineOps M} : Handler (GemHost M) := {|
  handler_data now d h :=
    let '(g, m, out) := on_data now d (machine h) (gem h) in mkGemHost g m (posted h ++ out);
  handler_state s h := mkGemHost (on_session_state s (gem h)) (machine h) (posted h);
  handler_timeout sys h :=
    let '(g, out) := on_transaction_timeout sys (gem h) in
    mkGemHost g (machine h) (posted h ++ out);
  handler_error _ h := h
|}.

(** ** When the session closes *)

Lemma on_bytes_close c now bytes s :
  session_ok c s -> HsmsSession.fsm_ s <> kNotConnected ->
  close (on_bytes now bytes s).2 = bool_decide (HsmsSession.fsm_ (on_bytes now bytes s).1 = kNotConnected).
Proof.
  intros [Hs Ht] Hf. unfold on_bytes. rewrite bool_decide_eq_false_2 by done.
  destruct (feed _ _) as [[frames|e] d] eqn:Ef.
  2: { simpl. rewrite on_disconnect_idle. done. }
  pose proof (link_feed c now s bytes frames d Hs Hf Ef) as Hl.
  pose proof (handle_frames_ok c now frames _ no_output Hl Hf eq_refl) as Ho. cbv zeta.
  destruct (handle_frames _ _ _ _) as [s' out']. unfold frame_outcome in Ho. simpl in *.
  destruct Ho as [(Hcl & _ & Hf' & _)|(Hcl & _ & Hf')]; rewrite Hcl; simpl; rewrite Hcl.
  - destruct (has_partial (decoder_ s')); simpl; by rewrite bool_decide_eq_false_2.
  - by rewrite Hf'.
Qed.

Lemma on_tick_close c now s :
  session_config_ok c -> session_ok c s -> HsmsSession.fsm_ s <> kNotConnected ->
  close (HsmsSession.on_tick now s).2 =
    bool_decide (HsmsSession.fsm_ (HsmsSession.on_tick now s).1 = kNotConnected).
Proof.
  intros Hc Hs Hf. destruct (tick_closes now s) eqn:E.
  - destruct (on_tick_closes c now s Hs E) as [Ho Hi]. by rewrite Ho, Hi.
  - destruct (on_tick_open c now s Hc Hs Hf E) as (-> & -> & _). by rewrite bool_decide_eq_false_2.
Qed.

Lemma send_request_close now m s :
  HsmsSession.fsm_ (HsmsSession.send_request now m s no_output).1.2 = HsmsSession.fsm_ s /\
  close (HsmsSession.send_request now m s no_output).2 = false.
Proof.
  unfold HsmsSession.send_request. destruct (negb _); [done|]. destruct (_ && _); [done|].
  destruct (allocate_system_bytes s) as [sys s'] eqn:Ea.
  assert (HsmsSession.fsm_ s' = HsmsSession.fsm_ s) as Hf.
  { unfold allocate_system_bytes in Ea. destruct (allocate_loop _ _ _). by simplify_eq. }
  unfold queue_data. destruct (match body m with Some it => encode it | None => Ok [] end); [|done].
  simpl. destruct (_ <? _); [done|]. destruct (encode_frame _); [|done]. simpl.
  by destruct (w_bit m).
Qed.

Lemma send_reply_close sys m s out :
  send_reply sys m s no_output = Ok out -> close out = false.
Proof.
  unfold send_reply, queue_data. destruct (negb _); [done|]. intros Hq. inv_result.
  destruct (_ <? _); [done|]. by inv_result.
Qed.

(** ** The server's invariant *)

Section server_proofs.
Context {H : Type} `{Handler H}.

Definition current_writes (d : Server H) : list (Z * list Z) :=
  filter (fun p => p.1 = generation d) (in_flight d).

(** The write side: while [writing], exactly one write of this generation is in
    flight, the front of the queue; otherwise the queue is empty. What is on the
    wire is what the session emitted, in order, short of the queue. *)
Definition writes_ok (d : Server H) : Prop :=
  match writing d with
  | true => exists front rest sent,
      write_queue d = front :: rest /\ current_writes d = [(generation d, front)] /\
      wire_log d = sent ++ [front] /\ emitted d = sent ++ front :: rest
  | false => write_queue d = [] /\ current_writes d = [] /\ wire_log d = emitted d
  end /\ Forall (fun p => p.1 <= generation d) (in_flight d).

Definition server_ok (c : SessionConfig) (d : Server H) : Prop :=
  session_ok c (session d) /\ notified_state d = HsmsSession.fsm_ (session d) /\
  (socket d = false <-> HsmsSession.fsm_ (session d) = kNotConnected) /\
  (socket d = false -> writing d = false) /\ writes_ok d.

Lemma bump_writes (d : Server H) (g : Z) :
  Forall (fun p => p.1 <= generation d) (in_flight d) -> generation d < g ->
  filter (fun p : Z * list Z => p.1 = g) (in_flight d) = [] /\
  Forall (fun p => p.1 <= g) (in_flight d).
Proof.
  intros Hf Hg. split.
  - induction Hf as [|p l Hp _ IH]; [done|]. rewrite filter_cons, decide_False by lia. done.
  - eapply Forall_impl; [exact Hf|]. simpl. lia.
Qed.

Lemma notify_state_fields (d : Server H) :
  session (notify_state d) = session d /\ socket (notify_state d) = socket d /\
  notified_state (notify_state d) = HsmsSession.fsm_ (session d) /\
  generation (notify_state d) = generation d /\ writing (notify_state d) = writing d /\
  (writes_ok d -> writes_ok (notify_state d)).
Proof. unfold notify_state. case_bool_decide; simpl; split_and!; auto. Qed.

Lemma close_socket_ok c n d :
  session_ok c (session d) -> Forall (fun p => p.1 <= generation d) (in_flight d) ->
  0 <= generation d <= n -> n + 1 < 2 ^ 64 ->
  server_ok c (close_socket d) /\ 0 <= generation (close_socket d) <= n + 1.
Proof.
  intros [Hs Ht] Hf Hg Hn. unfold close_socket.
  set (d' := mkServer _ _ _ _ _ _ _ _ _ _).
  assert (Hw : wrap 64 (generation d + 1) = generation d + 1) by (apply wrap_id; int_lia).
  assert (Hok : writes_ok d').
  { destruct (bump_writes d (generation d + 1) Hf) as [Hc Hle]; [lia|].
    unfold writes_ok, current_writes, d'.
    cbn [writing write_queue wire_log emitted in_flight generation].
    rewrite Hw. by split_and!. }
  destruct (notify_state_fields d') as (E1 & E2 & E3 & E4 & E5 & E6).
  unfold server_ok. rewrite E1, E2, E3, E4, E5. clear E1 E2 E3 E4 E5.
  split; [|unfold d'; simpl; rewrite Hw; lia].
  split_and!; [|done| |done|by apply E6]; unfold d'; simpl.
  - apply on_disconnect_ok; auto.
  - by rewrite on_disconnect_idle.
Qed.

Lemma queue_sends_ok l (d : Server H) (cl : bool) :
  writes_ok d -> socket d = true -> cl = false ->
  let d1 := queue_sends l d in
  let d2 := if negb cl && bool_decide (write_queue d1 <> []) && negb (writing d1)
            then write_next d1 else d1 in
  writes_ok d2 /\ session d2 = session d /\ socket d2 = true /\ generation d2 = generation d /\
  notified_state d2 = notified_state d.
Proof.
  intros [Hw Hf] Hs ->. cbv zeta. unfold queue_sends, writes_ok, write_next, current_writes in *.
  cbn [writing write_queue negb andb socket in_flight wire_log emitted].
  destruct (writing d) eqn:Ew.
  - destruct Hw as (front & rest & sent & Hq & Hc & Hl & He). rewrite andb_false_r. cbn.
    split_and!; try done. exists front, (rest ++ l), sent.
    rewrite Hq, He, <- app_assoc. by split_and!.
  - destruct Hw as (Hq & Hc & Hl). rewrite Hq, andb_true_r. simpl.
    destruct l as [|front rest]; simpl.
    + rewrite ?Hq, !app_nil_r. by split_and!.
    + rewrite Hs. simpl. split_and!; try done.
      * exists front, rest, (wire_log d). rewrite filter_app, Hc, Hl. simpl.
        rewrite filter_cons, decide_True by done. by split_and!.
      * apply Forall_app. split; [done|]. apply Forall_singleton. simpl. lia.
Qed.

Lemma apply_output_ok c n now out d :
  session_ok c (session d) -> socket d = true -> writes_ok d ->
  close out = bool_decide (HsmsSession.fsm_ (session d) = kNotConnected) ->
  0 <= generation d <= n -> n + 1 < 2 ^ 64 ->
  server_ok c (apply_output now out d) /\ 0 <= generation (apply_output now out d) <= n + 1.
Proof.
  intros Hs Hsock Hw Hc Hg Hn. unfold apply_output. cbv zeta.
  destruct (close out) eqn:Ecl.
  - cbn [negb andb].
    set (d1 := with_handler _ (with_handler _ (queue_sends _ d))).
    destruct (notify_state_fields d1) as (E1 & E2 & E3 & E4 & E5 & E6).
    apply close_socket_ok; try done.
    + by rewrite E1.
    + clear Hc. unfold notify_state. destruct Hw as [_ Hf]. case_bool_decide; exact Hf.
    + rewrite E4. done.
  - destruct (queue_sends_ok (to_send out) d false Hw Hsock eq_refl) as (Hw2 & E1 & E2 & E3 & E4).
    cbv zeta in *. cbn [negb andb] in *.
    match goal with
    | |- context [with_handler _ (with_handler _ ?x)] => set (d2 := x) in *
    end.
    set (d3 := with_handler _ (with_handler _ d2)).
    destruct (notify_state_fields d3) as (F1 & F2 & F3 & F4 & F5 & F6).
    symmetry in Hc. apply bool_decide_eq_false in Hc.
    assert (Hd3 : session d3 = session d /\ socket d3 = true /\ generation d3 = generation d).
    { unfold d3. simpl. by rewrite E1, E2, E3. }
    destruct Hd3 as (G1 & G2 & G3). split; [|rewrite F4, G3; lia].
    unfold server_ok. rewrite F1, F2, F3, G1, G2. split_and!; try done. by apply F6.
Qed.

Lemma write_next_ok d :
  current_writes d = [] -> Forall (fun p => p.1 <= generation d) (in_flight d) ->
  emitted d = wire_log d ++ write_queue d -> socket d = true ->
  writes_ok (write_next d) /\ session (write_next d) = session d /\
  socket (write_next d) = true /\ generation (write_next d) = generation d /\
  notified_state (write_next d) = notified_state d.
Proof.
  intros Hc Hf He Hs. unfold write_next, writes_ok, current_writes in *. rewrite Hs.
  destruct (write_queue d) as [|front rest] eqn:Eq; simpl.
  - rewrite Eq. rewrite app_nil_r in He. by split_and!.
  - split_and!; try done.
    + exists front, rest, (wire_log d). rewrite filter_app, Hc. simpl.
      rewrite filter_cons, decide_True by done. by split_and!.
    + apply Forall_app. split; [done|]. apply Forall_singleton. simpl. lia.
Qed.

Lemma filter_delete_other (g : Z) (l : list (Z * list Z)) i x :
  l !! i = Some x -> x.1 <> g ->
  filter (fun p : Z * list Z => p.1 = g) (delete i l) = filter (fun p => p.1 = g) l.
Proof.
  intros Hi Hx. rewrite delete_take_drop. rewrite <- (take_drop_middle l i x Hi) at 3.
  rewrite !filter_app, filter_cons, decide_False by done. done.
Qed.

Lemma filter_delete_only (g : Z) (l : list (Z * list Z)) i x y :
  l !! i = Some x -> x.1 = g -> filter (fun p : Z * list Z => p.1 = g) l = [y] ->
  filter (fun p : Z * list Z => p.1 = g) (delete i l) = [].
Proof.
  intros Hi Hx Hf. rewrite delete_take_drop. rewrite <- (take_drop_middle l i x Hi) in Hf.
  rewrite filter_app, filter_cons, decide_True in * by done.
  apply (f_equal length) in Hf. rewrite length_app in Hf. simpl in Hf.
  destruct (filter _ (take i l)), (filter _ (drop (S i) l)); simpl in *; try lia; done.
Qed.

Lemma in_flight_current (d : Server H) i x :
  in_flight d !! i = Some x -> x.1 = generation d -> current_writes d <> [].
Proof.
  intros Hi Hx Hc. apply list_elem_of_lookup_2 in Hi.
  assert (Hin : x ∈ current_writes d) by (by apply list_elem_of_filter; split; [|done]).
  rewrite Hc in Hin. by apply elem_of_nil in Hin.
Qed.

Lemma on_write_ok c n i ec d :
  server_ok c d -> 0 <= generation d <= n -> n + 1 < 2 ^ 64 ->
  server_ok c (on_write i ec d) /\ 0 <= generation (on_write i ec d) <= n + 1.
Proof.
  intros (Hs & Hn & Hsock & Hnw & Hw & Hf) Hg Hb. unfold on_write.
  destruct (in_flight d !! i) as [[gen bytes]|] eqn:Ei; [|split; [by split_and!|lia]].
  assert (Hf' : Forall (fun p => p.1 <= generation d) (delete i (in_flight d))).
  { rewrite delete_take_drop. apply Forall_app. by split; [apply Forall_take|apply Forall_drop]. }
  cbn [generation]. destruct (Z.eqb_spec gen (generation d)) as [->|Hne]; cbn [negb].
  2: { split; [|simpl; lia]. split_and!; try done. split; [|done].
       unfold current_writes in *. cbn [generation in_flight writing write_queue wire_log emitted].
       by rewrite (filter_delete_other _ _ _ _ Ei Hne). }
  destruct (writing d) eqn:Ew.
  2: { destruct Hw as (_ & Hc & _). by destruct (in_flight_current d i _ Ei eq_refl). }
  destruct Hw as (front & rest & sent & Hq & Hc & Hl & He). rewrite Hq.
  assert (Hsk : socket d = true) by (destruct (socket d); [done|by specialize (Hnw eq_refl)]).
  destruct ec as [text|]; [by apply close_socket_ok|].
  match goal with |- context [write_next ?x] => set (d1 := x) end.
  destruct (write_next_ok d1) as (Hw1 & E1 & E2 & E3 & E4); try done.
  - by eapply filter_delete_only.
  - unfold d1. cbn. by rewrite He, Hl, <- app_assoc.
  - unfold server_ok. rewrite E1, E2, E3, E4. split; [|simpl; lia].
    split_and!; try done. by rewrite Hsk in Hsock.
Qed.

Lemma with_handler_ok c f n (d : Server H) :
  server_ok c d /\ 0 <= generation d <= n ->
  server_ok c (with_handler f d) /\ 0 <= generation (with_handler f d) <= n.
Proof. done. Qed.

Lemma server_step_ok c e n d :
  session_config_ok c -> server_ok c d -> 0 <= generation d <= n -> n + 2 < 2 ^ 64 ->
  server_ok c (server_step e d) /\ 0 <= generation (server_step e d) <= n + 2.
Proof.
  intros Hcfg Hd Hg Hb. pose proof Hd as (Hs & Hn & Hsock & Hnw & Hw).
  assert (Hup : forall d', server_ok c d' /\ 0 <= generation d' <= n + 1 ->
                server_ok c d' /\ 0 <= generation d' <= n + 2) by (intros ? []; split; [done|lia]).
  assert (Hid : server_ok c d /\ 0 <= generation d <= n + 2) by (split; [done|lia]).
  destruct e as [now|now gen data|i ec|now|now m sent|now sys m|]; simpl.
  - unfold on_accept. destruct (socket d) eqn:Es; [done|].
    assert (Hnc : HsmsSession.fsm_ (session d) = kNotConnected) by (by apply Hsock).
    assert (Hwr : wrap 64 (generation d + 1) = generation d + 1) by (apply wrap_id; int_lia).
    pose proof (on_connect_ok c now (session d) Hs) as Hs'.
    unfold on_connect, HsmsSession.fsm_apply in *. cbn [session]. rewrite Hnc in *.
    simpl in Hs' |- *.
    match goal with |- context [apply_output now no_output ?x] => set (d1 := x) end.
    replace (n + 2) with (n + 1 + 1) by lia.
    apply apply_output_ok; unfold d1; simpl; rewrite ?Hwr; try done; [|lia..].
    destruct Hw as [Hw Hf]. destruct (bump_writes d (generation d + 1) Hf) as [Hc Hle]; [lia|].
    unfold writes_ok, current_writes. simpl. rewrite (Hnw eq_refl) in Hw |- *.
    split; [|done]. by destruct Hw as (-> & _ & _).
  - unfold on_read. destruct (negb _); [done|]. destruct data as [bytes|].
    2: { apply Hup, close_socket_ok; try done; [|lia]. apply Hw. }
    destruct (decide (HsmsSession.fsm_ (session d) = kNotConnected)) as [Hnc|Hnc].
    { unfold on_bytes. rewrite bool_decide_eq_true_2 by done. unfold apply_output. simpl.
      assert (Hsk : socket d = false) by (by apply Hsock).
      destruct Hw as [Hw Hf]. rewrite (Hnw Hsk) in Hw. destruct Hw as (Hq & Hc & Hl).
      rewrite Hq. simpl. unfold notify_state. simpl. rewrite bool_decide_eq_true_2 by done.
      unfold server_ok, writes_ok, current_writes in *. simpl.
      rewrite (Hnw Hsk), !app_nil_r. split; [|lia]. by split_and!. }
    pose proof (on_bytes_ok c now bytes _ Hs) as Hs'.
    pose proof (on_bytes_close c now bytes _ Hs Hnc) as Hc.
    destruct (on_bytes now bytes (session d)) as [s' out].
    apply Hup, apply_output_ok; try done; [|lia]. simpl.
    destruct (socket d); [done|]. by destruct Hnc; apply Hsock.
  - apply Hup, on_write_ok; [done|done|lia].
  - unfold server_tick. destruct (socket d) eqn:Es; [|done].
    assert (Hnc : HsmsSession.fsm_ (session d) <> kNotConnected) by (by rewrite <- Hsock).
    pose proof (on_tick_ok c now _ Hcfg Hs) as Hs'.
    pose proof (on_tick_close c now _ Hcfg Hs Hnc) as Hc.
    destruct (HsmsSession.on_tick now (session d)) as [s' out].
    apply Hup, apply_output_ok; try done. lia.
  - unfold run_request. destruct (socket d) eqn:Es; simpl; [|by apply with_handler_ok].
    assert (Hnc : HsmsSession.fsm_ (session d) <> kNotConnected) by (by rewrite <- Hsock).
    pose proof (send_request_ok c now m _ no_output Hcfg Hs) as Hs'.
    destruct (send_request_close now m (session d)) as [Hf Hc].
    destruct (HsmsSession.send_request now m (session d) no_output) as [[r s'] out].
    simpl in *.
    assert (Hcl : close out = bool_decide (HsmsSession.fsm_ s' = kNotConnected))
      by (by rewrite Hf, Hc, bool_decide_eq_false_2).
    destruct r as [sys|e]; apply Hup.
    + pose proof (apply_output_ok c n now out (with_session s' d)) as Ho.
      apply Ho; try done. lia.
    + apply apply_output_ok; try done. lia.
  - unfold run_reply. destruct (socket d) eqn:Es; simpl; [|by apply with_handler_ok].
    assert (Hnc : HsmsSession.fsm_ (session d) <> kNotConnected) by (by rewrite <- Hsock).
    destruct (send_reply sys m (session d) no_output) as [out|e] eqn:Er;
      apply Hup, apply_output_ok; try done; try lia; simpl.
    + by rewrite (send_reply_close _ _ _ _ Er), bool_decide_eq_false_2.
    + by rewrite bool_decide_eq_false_2.
  - apply Hup, close_socket_ok; [done|apply Hw|done|lia].
Qed.

Lemma server_run_ok c h es :
  session_config_ok c -> 2 * Z.of_nat (length es) + 2 < 2 ^ 64 ->
  server_ok c (server_run es (new_server c h)) /\
  0 <= generation (server_run es (new_server c h)) <= 2 * Z.of_nat (length es).
Proof.
  intros Hc. unfold server_run. induction es as [|e es IH] using rev_ind; intros Hn.
  - simpl. split; [|lia]. split_and!; simpl; try done.
    by apply new_session_ok.
  - rewrite length_app in *. simpl in Hn |- *. rewrite foldl_app. simpl.
    destruct IH as [Hok Hg]; [lia|].
    destruct (server_step_ok c e (2 * Z.of_nat (length es)) _ Hc Hok Hg) as [Ho Hg']; [lia|].
    split; [done|lia].
Qed.

(** [C22] Whatever completions, accepts, reads, ticks and posted tasks the I/O thread
    runs and in whatever order, stale ones included: the session keeps its
    invariant, the handler's last notification is the session's state, there is a
    socket exactly when the session is connected, at most one write of the current
    connection is in flight and it is the front of the queue, and the frames written
    are those the session emitted, in order, each once. *)
Theorem server_order c h es :
  session_config_ok c -> 2 * Z.of_nat (length es) + 2 < 2 ^ 64 ->
  let d := server_run es (new_server c h) in
  session_ok c (session d) /\
  notified_state d = HsmsSession.fsm_ (session d) /\
  (socket d = true <-> HsmsSession.fsm_ (session d) <> kNotConnected) /\
  writing d = bool_decide (write_queue d <> []) /\
  filter (fun p => p.1 = generation d) (in_flight d) =
    match write_queue d with [] => [] | front :: _ => [(generation d, front)] end /\
  emitted d = wire_log d ++ tail (write_queue d) /\
  (forall i gen bytes ec, in_flight d !! i = Some (gen, bytes) -> gen <> generation d ->
     let d' := on_write i ec d in
     session d' = session d /\ handler d' = handler d /\ write_queue d' = write_queue d /\
     wire_log d' = wire_log d /\ socket d' = socket d).
Proof.
  intros Hc Hn d. destruct (server_run_ok c h es Hc Hn) as [(Hs & Hst & Hsk & Hnw & Hw & Hf) _].
  fold d in Hs, Hst, Hsk, Hnw, Hw, Hf.
  assert (Hsock : socket d = true <-> HsmsSession.fsm_ (session d) <> kNotConnected).
  { rewrite <- Hsk. by destruct (socket d); naive_solver. }
  assert (Hlate : forall i gen bytes ec, in_flight d !! i = Some (gen, bytes) ->
    gen <> generation d -> let d' := on_write i ec d in
     session d' = session d /\ handler d' = handler d /\ write_queue d' = write_queue d /\
     wire_log d' = wire_log d /\ socket d' = socket d).
  { intros i gen bytes ec Hi Hg. unfold on_write. rewrite Hi. cbn [generation].
    destruct (Z.eqb_spec gen (generation d)); done. }
  split_and!; try done; unfold current_writes in Hw; destruct (writing d).
  - destruct Hw as (f & r & sent & -> & _). done.
  - by destruct Hw as [-> _].
  - by destruct Hw as (f & r & sent & -> & -> & _).
  - by destruct Hw as (-> & -> & _).
  - destruct Hw as (f & r & sent & -> & _ & -> & ->). by rewrite <- app_assoc.
  - destruct Hw as (-> & _ & ->). by rewrite app_nil_r.
Qed.

End server_proofs.

(** ** Concrete runs *)

#[local] Existing Instance ascending_order.

Definition new_host : Server (GemHost MachineApi) :=
  new_server default_session_config (mkGemHost (new_gem default_gem_config 0) new_api []).

Definition select_req : Frame := make_control_frame kSelectReq 77 0 0.
Definition deselect_req : Frame := make_control_frame kDeselectReq 78 0 0.
Definition s1f13_frame : Frame := make_data_frame 0 1 13 true 79 [1; 0].

(** A host connects, selects, establishes communication and is sent an alarm report
    that it has not acknowledged. *)
Definition greeting : list (server_event (H := GemHost MachineApi)) :=
  let alarm := make_s5f1 (mkAlarmReport 0x86 1001 "late stage") in
  [sv_accept 0; sv_read 1 1 (Some (wire [select_req])); sv_read 2 1 (Some (wire [s1f13_frame]));
   sv_request 3 alarm (fun sys h =>
     mkGemHost (on_sent alarm sys (gem h)) (machine h) (posted h))].

Lemma greeting_communicates :
  let d := server_run greeting new_host in
  comm_ (gem (handler d)) = kCommunicating /\
  dom (transactions_ (session d)) = dom (open_requests_ (gem (handler d))) /\
  open_requests_ (gem (handler d)) <> ∅.
Proof. vm_compute. repeat split; discriminate. Qed.

(** A stale write and a second connection, then a write failure. *)
Lemma server_order_witness :
  let d := server_run (greeting ++ [sv_accept 4; sv_write 0 None; sv_read 5 1 None;
             sv_accept 6; sv_write 0 (Some "reset"%string)]) new_host in
  generation d = 3 /\ writing d = bool_decide (write_queue d <> []).
Proof.
  split; [vm_compute; reflexivity|].
  refine (proj1 (proj2 (proj2 (proj2 (server_order default_session_config _ _
    default_session_config_ok _))))).
  vm_compute. reflexivity.
Defined.

(** A Deselect.req and a Select.req that arrive in one read end the old selection and
    start a new one, but [notify_state] sees SELECTED before and after: the service
    still believes it is communicating and keeps a request the session has dropped. *)
Lemma reselect_unnoticed :
  let d := server_run (greeting ++ [sv_read 4 1 (Some (wire [deselect_req; select_req]))])
             new_host in
  transactions_ (session d) = ∅ /\
  comm_ (gem (handler d)) = kCommunicating /\ open_requests_ (gem (handler d)) <> ∅.
Proof. vm_compute. repeat split; discriminate. Qed.

(** Read one at a time, the same two frames do reset the service. *)
Lemma reselect_noticed_if_split :
  let d := server_run (greeting ++ [sv_read 4 1 (Some (wire [deselect_req]));
             sv_read 5 1 (Some (wire [select_req]))]) new_host in
  comm_ (gem (handler d)) = kNotCommunicating /\ open_requests_ (gem (handler d)) = ∅.
Proof. vm_compute. repeat split. Qed.

(** The host rejects the request: the session closes the transaction, the service
    is not told and keeps its header for good. *)
Lemma rejected_request_kept :
  let d := server_run (greeting ++
             [sv_read 4 1 (Some (wire [make_control_frame kRejectReq 1 0 1]))]) new_host in
  transactions_ (session d) = ∅ /\ open_requests_ (gem (handler d)) <> ∅.
Proof. vm_compute. repeat split; discriminate. Qed.
