(* ===== verification/HostLink.v ===== *)
(** * The link to the host

    MachineRuntime::Comm of src/machine/machine_runtime.cpp. The server needs its handler
    before there is a GEM service and the service needs the server, so the server is given a
    forwarder, into which the service is plugged before the server starts. From then on the
    server behaves as if the service were its handler. *)

From stdpp Require Import strings.
From S2P Require Import Secs2Item Secs2Message HsmsFrame HsmsConn HsmsSession Controller MachineApi GemService HsmsServer Prelude.

(** [Forwarder]: events before [set_target] are lost. *)
Record Forwarder (H : Type) := mkForwarder { target : option H }.
Arguments mkForwarder {H}.
Arguments target {H}.

Definition new_forwarder {H} : Forwarder H := mkForwarder None.
Definition set_target {H} (t : H) (f : Forwarder H) : Forwarder H := mkForwarder (Some t).

#[export] Instance forwarder_handler {H} `{Handler H} : Handler (Forwarder H) := {|
  handler_data now d f := mkForwarder (handler_data now d <$> target f);
  handler_state s f := mkForwarder (handler_state s <$> target f);
  handler_timeout sys f := mkForwarder (handler_timeout sys <$> target f);
  handler_error what f := mkForwarder (handler_error what <$> target f)
|}.

(** ** A server whose handler is a picture of another's *)

Section relay.
Context {H H' : Type} `{Handler H} `{Handler H'} (f : H -> H').

(** [f] commutes with every call of the interface. *)
Record relays : Prop := mkRelays {
  relay_data now d h : f (handler_data now d h) = handler_data now d (f h);
  relay_state s h : f (handler_state s h) = handler_state s (f h);
  relay_timeout sys h : f (handler_timeout sys h) = handler_timeout sys (f h);
  relay_error what h : f (handler_error what h) = handler_error what (f h)
}.

Definition relayed (d : Server H) : Server H' :=
  mkServer (session d) (socket d) (write_queue d) (writing d) (generation d) (notified_state d)
    (f (handler d)) (in_flight d) (wire_log d) (emitted d).

(** The same event, for the other handler. *)
Inductive same_event : server_event (H := H) -> server_event (H := H') -> Prop :=
| same_accept now : same_event (sv_accept now) (sv_accept now)
| same_read now gen data : same_event (sv_read now gen data) (sv_read now gen data)
| same_write i ec : same_event (sv_write i ec) (sv_write i ec)
| same_tick now : same_event (sv_tick now) (sv_tick now)
| same_request now m k k' : (forall sys h, f (k sys h) = k' sys (f h)) ->
    same_event (sv_request now m k) (sv_request now m k')
| same_reply now sys m : same_event (sv_reply now sys m) (sv_reply now sys m)
| same_stop : same_event sv_stop sv_stop.

Context (R : relays).

Lemma relayed_handler (g : H -> H) (g' : H' -> H') d : (forall h, f (g h) = g' (f h)) ->
  with_handler g' (relayed d) = relayed (with_handler g d).
Proof. intros Hg. unfold with_handler, relayed. cbn. by rewrite Hg. Qed.

Lemma relayed_notify d : notify_state (relayed d) = relayed (notify_state d).
Proof.
  unfold notify_state. cbn [session notified_state relayed]. case_bool_decide; [done|].
  unfold relayed. cbn. by rewrite (relay_state R).
Qed.

Lemma relayed_close d : close_socket (relayed d) = relayed (close_socket d).
Proof. unfold close_socket. by rewrite <- relayed_notify. Qed.

Lemma relayed_next d : write_next (relayed d) = relayed (write_next d).
Proof. unfold write_next. cbn [socket write_queue relayed]. by destruct (socket d), (write_queue d). Qed.

Lemma relayed_fold {A} (call : A -> H -> H) (call' : A -> H' -> H') l :
  (forall x h, f (call x h) = call' x (f h)) ->
  forall h, f (foldl (fun h x => call x h) h l) = foldl (fun h x => call' x h) (f h) l.
Proof. intros Hc. induction l as [|x l IH]; intros h; [done|]. cbn [foldl]. by rewrite IH, Hc. Qed.

Lemma relayed_output now out d : apply_output now out (relayed d) = relayed (apply_output now out d).
Proof.
  unfold apply_output. change (queue_sends (to_send out) (relayed d)) with (relayed (queue_sends (to_send out) d)).
  set (d1 := queue_sends (to_send out) d). cbn [write_queue writing relayed].
  assert (E : (if negb (close out) && bool_decide (write_queue d1 <> []) && negb (writing d1)
               then write_next (relayed d1) else relayed d1) =
              relayed (if negb (close out) && bool_decide (write_queue d1 <> []) && negb (writing d1)
                       then write_next d1 else d1)) by (destruct (_ && _); [apply relayed_next|done]).
  rewrite E. clear E. set (d2 := if negb _ && _ && _ then _ else _).
  rewrite (relayed_handler (fun h => foldl (fun h x => handler_data now x h) h (deliveries out))) by
    (apply relayed_fold; intros; apply (relay_data R)).
  rewrite (relayed_handler (fun h => foldl (fun h x => handler_timeout x h) h (timed_out out))) by
    (apply relayed_fold; intros; apply (relay_timeout R)).
  rewrite relayed_notify. destruct (close out); [apply relayed_close|done].
Qed.

Lemma relayed_error what d : with_handler (handler_error what) (relayed d) = relayed (with_handler (handler_error what) d).
Proof. apply relayed_handler. intros h. apply (relay_error R). Qed.

Lemma relayed_step e e' d : same_event e e' -> server_step e' (relayed d) = relayed (server_step e d).
Proof.
  intros He. destruct He as [now|now gen data|i ec|now|now m k k' Hk|now sys m|]; cbn [server_step].
  - unfold on_accept. cbn [socket session relayed]. destruct (socket d); [done|].
    destruct (on_connect now (session d)) as [s out]. cbv zeta. by rewrite <- relayed_output.
  - unfold on_read. cbn [generation session relayed]. destruct (negb _); [done|]. destruct data as [bytes|]; [|apply relayed_close].
    destruct (on_bytes now bytes (session d)) as [s out]. by rewrite <- relayed_output.
  - unfold on_write. cbn [in_flight relayed]. destruct (in_flight d !! i) as [[gen bytes]|]; [|done]. cbv zeta. cbn [generation].
    destruct (negb _); [done|]. destruct ec as [text|].
    + rewrite <- relayed_close, <- relayed_error. done.
    + by rewrite <- relayed_next.
  - unfold server_tick. cbn [socket session relayed]. destruct (socket d); [|done].
    destruct (HsmsSession.on_tick now (session d)) as [s out]. by rewrite <- relayed_output.
  - unfold run_request. cbn [socket session relayed]. destruct (negb _); [apply relayed_error|].
    destruct (HsmsSession.send_request now m (session d) no_output) as [[[sys|e] s] out]; cbv zeta.
    + rewrite <- (relayed_handler (k sys) (k' sys)) by (intros; apply Hk). by rewrite <- relayed_output.
    + rewrite <- relayed_output, <- relayed_error. done.
  - unfold run_reply. cbn [socket session relayed]. destruct (negb _); [apply relayed_error|].
    destruct (send_reply sys m (session d) no_output) as [out|e]; [apply relayed_output|].
    rewrite <- relayed_output, <- relayed_error. done.
  - apply relayed_close.
Qed.

Lemma relayed_run es : forall es' d, Forall2 same_event es es' -> server_run es' (relayed d) = relayed (server_run es d).
Proof.
  induction es as [|e es IH]; intros es' d Hes; inversion Hes as [|? e' ? es1 He Hes1]; subst; [done|].
  cbn [server_run foldl]. rewrite (relayed_step e e' d He). by apply IH.
Qed.

End relay.

(** ** The forwarder *)

Section forwarder.
Context {H : Type} `{Handler H}.

Lemma forwarder_relays : relays (fun h : H => mkForwarder (Some h)).
Proof. by split. Qed.

(** A callback of the service, through the forwarder. *)
Definition through (e : server_event (H := H)) : server_event (H := Forwarder H) :=
  match e with
  | sv_accept now => sv_accept now
  | sv_read now gen data => sv_read now gen data
  | sv_write i ec => sv_write i ec
  | sv_tick now => sv_tick now
  | sv_request now m k => sv_request now m (fun sys g => mkForwarder (k sys <$> target g))
  | sv_reply now sys m => sv_reply now sys m
  | sv_stop => sv_stop
  end.

(** The forwarder makes no difference: a server made with an empty forwarder, into which the
    service is plugged before any event, goes through every history of events exactly as a
    server with the service itself as its handler: the same session, socket, writes and
    notifications, and the service in the same state. *)
Theorem forwarder_transparent config (service : H) es :
  let link := with_handler (set_target service) (new_server config new_forwarder) in
  server_run (map through es) link =
    relayed (fun h => mkForwarder (Some h)) (server_run es (new_server config service)).
Proof.
  intros link. change link with (relayed (fun h : H => mkForwarder (Some h)) (new_server config service)).
  apply relayed_run; [apply forwarder_relays|]. induction es as [|e es IH]; [constructor|].
  constructor; [|done]. destruct e; by constructor.
Qed.

End forwarder.
