(* ===== verification/ConfigFile.v ===== *)
(** * The configuration

    include/ssim/core/config.hpp and src/core/config.cpp: the sections with their defaults,
    reading them from JSON, the ranges, and the HSMS and GEM settings made from them
    (src/secsgem/hsms/session.cpp, src/secsgem/gem/gem_service.cpp). The JSON library is a
    parameter: the accessors the code calls, and for writing a configuration the
    constructors with the documented laws that relate the two. *)

From S2P Require Import CLibrary FloatOrder LineFilter HsmsConn GemMessages HsmsSession GemService Prelude.

#[local] Abbreviation dz := double_of_Z.
#[local] Abbreviation dr := double_of_ratio.

(** ** The sections and their defaults *)

Record MachineConfig := mkMachine {
  machine_model : string;
  machine_softrev : string
}.

Definition default_machine : MachineConfig :=
  mkMachine "SSIM-128" "0.1.0".

Record WaferTruthConfig := mkTruth {
  truth_stress_mpa : double;
  initial_curvature_1_per_m : double;
  tilt_x_um_per_mm : double;
  tilt_y_um_per_mm : double;
  truth_anisotropy : double
}.

Definition default_truth : WaferTruthConfig :=
  mkTruth (dz (-180)) (dr false 2 1000) (dr false 8 10) (dr true 3 10) (dr false 5 100).

Record WaferConfig := mkWafer {
  diameter_mm : double;
  thickness_um : double;
  film_thickness_um : double;
  biaxial_modulus_gpa : double;
  truth : WaferTruthConfig;
  seed : Z
}.

Definition default_wafer : WaferConfig :=
  mkWafer (dz 300) (dz 775) (dz 1) (dr false 1805 10) default_truth 12345.

Record ScanConfig := mkScan {
  scan_lines : Z;
  points_per_mm : Z;
  speed_mm_per_s : double;
  realtime_factor : double;
  edge_exclusion_mm : double
}.

Definition default_scan : ScanConfig :=
  mkScan 6 40 (dz 150) (dz 1) (dz 3).

Record NoiseConfig := mkNoise {
  sigma_um : double
}.

Definition default_noise : NoiseConfig :=
  mkNoise (dr false 5 10).

Record FaultConfig := mkFault {
  fault_wafer : string;
  fault_type : string;
  rate : double;
  amplitude_um : double;
  length_samples : Z;
  drift_um_per_s : double;
  saturation_limit_um : double;
  stall_duration_s : double
}.

Definition default_fault : FaultConfig :=
  mkFault EmptyString EmptyString (dz 0) (dz 0) 1 (dz 0) (dz 0) (dz 0).

Record AnalysisConfig := mkAnalysis {
  outlier_mad_k : double;
  outlier_fraction_alarm : double;
  fit_rms_limit_um : double;
  stress_spec_low_mpa : double;
  stress_spec_high_mpa : double;
  stress_plausible_low_mpa : double;
  stress_plausible_high_mpa : double;
  map_grid_mm : double;
  analysis_threads : Z
}.

Definition default_analysis : AnalysisConfig :=
  mkAnalysis (dz 6) (dr false 1 100) (dz 2) (dz (-400)) (dz 400) (dz (-5000)) (dz 5000) (dz 1)
    0.

Record CassetteConfig := mkCassette {
  cassette_id : string;
  cassette_slots : Z
}.

Definition default_cassette : CassetteConfig :=
  mkCassette "C001" 25.

Record CommConfig := mkComm {
  comm_enabled : bool;
  comm_bind : string;
  comm_port : Z;
  comm_device_id : Z;
  comm_allow_host_online : bool;
  t3_s : double;
  t5_s : double;
  t6_s : double;
  t7_s : double;
  t8_s : double;
  linktest_s : double;
  max_frame_bytes : Z
}.

Definition default_comm : CommConfig :=
  mkComm true "127.0.0.1" 5000 0 true (dz 45) (dz 10) (dz 5) (dz 10) (dz 5) (dz 60) 1048576.

Record OutputConfig := mkOutput {
  output_dir : string;
  save_samples : bool;
  sample_decimation : Z
}.

Definition default_output : OutputConfig :=
  mkOutput "results" true 10.

Record Config := mkConfig {
  machine : MachineConfig;
  wafer : WaferConfig;
  scan : ScanConfig;
  noise : NoiseConfig;
  faults : list FaultConfig;
  analysis : AnalysisConfig;
  cassette : CassetteConfig;
  comm : CommConfig;
  output : OutputConfig
}.

Definition default_config : Config :=
  mkConfig default_machine default_wafer default_scan default_noise [] default_analysis
    default_cassette default_comm default_output.

Definition kConfigErrorExitCode : Z := 2.

Definition config_error (text : string) : Error := mkError kConfigErrorExitCode text.

(** ** The JSON library

    What the code calls on [nlohmann::json]. [member j k] is [at(k)] where [contains(k)],
    which holds on objects only; a [get] that throws is an [Err] with the exception's
    [what()] as its message. *)
Class Json (json : Type) := {
  is_object : json -> bool;
  is_array : json -> bool;
  json_keys : json -> list string;
  member : json -> string -> option json;
  elements : json -> list json;
  get_string : json -> Result string;
  get_bool : json -> Result bool;
  get_double : json -> Result double;
  get_int : json -> Result Z;
  get_uint64 : json -> Result Z
}.

(** ** Validation *)

(** An [ostringstream] writes a double as "%g". *)
Definition range_error (field : string) (value lo hi : double) : Error :=
  config_error (field +:+ " = " +:+ format_g 6 value +:+ " is out of range [" +:+
    format_g 6 lo +:+ ", " +:+ format_g 6 hi +:+ "]").

(** An integer outside its range, and a double. *)
Definition int_outside (v lo hi : Z) : bool := (v <? lo) || (hi <? v).
Definition outside (v lo hi : double) : bool := SFltb v lo || SFltb hi v.

Definition validate (cfg : Config) : option Error :=
  let s := scan cfg in let w := wafer cfg in let a := analysis cfg in let c := comm cfg in
  let zero := dz 0 in
  if int_outside (scan_lines s) 1 32
  then Some (range_error "scan.lines" (dz (scan_lines s)) (dz 1) (dz 32))
  else if int_outside (points_per_mm s) 10 80
  then Some (range_error "scan.points_per_mm" (dz (points_per_mm s)) (dz 10) (dz 80))
  else if outside (edge_exclusion_mm s) zero (dz 20)
  then Some (range_error "scan.edge_exclusion_mm" (edge_exclusion_mm s) zero (dz 20))
  else if SFltb (realtime_factor s) zero
  then Some (config_error "scan.realtime_factor must be >= 0")
  else if SFleb (speed_mm_per_s s) zero
  then Some (config_error "scan.speed_mm_per_s must be > 0")
  else if negb (SFeqb (diameter_mm w) (dz 100)) && negb (SFeqb (diameter_mm w) (dz 150)) &&
          negb (SFeqb (diameter_mm w) (dz 200)) && negb (SFeqb (diameter_mm w) (dz 300))
  then Some (config_error "wafer.diameter_mm must be one of 100, 150, 200, 300 (FR-SCN-1)")
  else if SFleb (thickness_um w) zero
  then Some (config_error "wafer.thickness_um must be > 0")
  else if SFleb (film_thickness_um w) zero
  then Some (config_error "wafer.film_thickness_um must be > 0")
  else if SFleb (biaxial_modulus_gpa w) zero
  then Some (config_error "wafer.biaxial_modulus_gpa must be > 0")
  else if SFltb (sigma_um (noise cfg)) zero
  then Some (config_error "noise.sigma_um must be >= 0")
  else if outside (fit_rms_limit_um a) (dr false 1 10) (dz 50)
  then Some (range_error "analysis.fit_rms_limit_um" (fit_rms_limit_um a) (dr false 1 10) (dz 50))
  else if outside (stress_spec_low_mpa a) (dz (-5000)) (dz 5000)
  then Some (range_error "analysis.stress_spec_mpa[0]" (stress_spec_low_mpa a) (dz (-5000)) (dz 5000))
  else if outside (stress_spec_high_mpa a) (dz (-5000)) (dz 5000)
  then Some (range_error "analysis.stress_spec_mpa[1]" (stress_spec_high_mpa a) (dz (-5000)) (dz 5000))
  else if SFltb (stress_spec_high_mpa a) (stress_spec_low_mpa a)
  then Some (config_error "analysis.stress_spec_mpa low must not exceed high")
  else if SFleb (outlier_mad_k a) zero
  then Some (config_error "analysis.outlier_mad_k must be > 0")
  else if outside (outlier_fraction_alarm a) zero (dz 1)
  then Some (range_error "analysis.outlier_fraction_alarm" (outlier_fraction_alarm a) zero (dz 1))
  else if SFleb (map_grid_mm a) zero
  then Some (config_error "analysis.map_grid_mm must be > 0")
  else if analysis_threads a <? 0
  then Some (config_error "analysis.threads must be >= 0 (0 means automatic)")
  else if int_outside (cassette_slots (cassette cfg)) 1 25
  then Some (range_error "cassette.slots" (dz (cassette_slots (cassette cfg))) (dz 1) (dz 25))
  else if int_outside (comm_port c) 1 65535
  then Some (range_error "comm.port" (dz (comm_port c)) (dz 1) (dz 65535))
  else if existsb (fun t => SFleb t zero) [t3_s c; t5_s c; t6_s c; t7_s c; t8_s c; linktest_s c]
  then Some (config_error "comm timers (t3_s, t5_s, t6_s, t7_s, t8_s, linktest_s) must be > 0")
  else if max_frame_bytes c =? 0
  then Some (config_error "comm.max_frame_bytes must be > 0")
  else if sample_decimation (output cfg) <? 1
  then Some (config_error "output.sample_decimation must be >= 1")
  else None.

(** ** Loading *)

(** The keys of each section. *)
Definition machine_keys : list string :=
  ["model"; "softrev"].
Definition truth_keys : list string :=
  ["stress_mpa"; "initial_curvature_1_per_m"; "tilt_x_um_per_mm"; "tilt_y_um_per_mm";
   "anisotropy"].
Definition wafer_keys : list string :=
  ["diameter_mm"; "thickness_um"; "film_thickness_um"; "biaxial_modulus_gpa"; "truth";
   "seed"].
Definition scan_keys : list string :=
  ["lines"; "points_per_mm"; "speed_mm_per_s"; "realtime_factor"; "edge_exclusion_mm"].
Definition noise_keys : list string :=
  ["sigma_um"].
Definition analysis_keys : list string :=
  ["outlier_mad_k"; "outlier_fraction_alarm"; "fit_rms_limit_um"; "stress_spec_mpa";
   "stress_plausible_mpa"; "map_grid_mm"; "threads"].
Definition cassette_keys : list string :=
  ["id"; "slots"].
Definition comm_keys : list string :=
  ["enabled"; "bind"; "port"; "device_id"; "allow_host_online"; "t3_s"; "t5_s"; "t6_s";
   "t7_s"; "t8_s"; "linktest_s"; "max_frame_bytes"].
Definition output_keys : list string :=
  ["dir"; "save_samples"; "sample_decimation"].
Definition fault_keys : list string :=
  ["wafer"; "type"; "rate"; "amplitude_um"; "length_samples"; "drift_um_per_s";
   "saturation_limit_um"; "stall_duration_s"].

Section loading.
Context {json : Type} {J : Json json}.

Definition check_unknown_keys (obj : json) (path : string) (known_keys : list string) : list string :=
  if is_object obj
  then map (fun k => "unknown key: " +:+ path +:+ "." +:+ k)
         (List.filter (fun k => bool_decide (k ∉ known_keys)) (json_keys obj))
  else [].

(** The [catch] clause, for a conversion that throws. *)
Definition caught {A} (r : Result A) : Result A :=
  match r with
  | Ok a => Ok a
  | Err e => Err (config_error ("config parse error: " +:+ message e))
  end.

Definition get_or {A} (get : json -> Result A) (obj : json) (key : string) (default_value : A) : Result A :=
  match member obj key with Some j => caught (get j) | None => Ok default_value end.

(** What a section sets and the warnings it adds, from its value so far. *)
Definition loader (A : Type) : Type := json -> A -> Result (A * list string).

Definition load_machine : loader MachineConfig := fun m x =>
  let? model := get_or get_string m "model" (machine_model x) in
  let? softrev := get_or get_string m "softrev" (machine_softrev x) in
  Ok (mkMachine model softrev, check_unknown_keys m "machine" machine_keys).

Definition load_truth : loader WaferTruthConfig := fun t x =>
  let? stress := get_or get_double t "stress_mpa" (truth_stress_mpa x) in
  let? curvature := get_or get_double t "initial_curvature_1_per_m" (initial_curvature_1_per_m x) in
  let? tilt_x := get_or get_double t "tilt_x_um_per_mm" (tilt_x_um_per_mm x) in
  let? tilt_y := get_or get_double t "tilt_y_um_per_mm" (tilt_y_um_per_mm x) in
  let? anisotropy := get_or get_double t "anisotropy" (truth_anisotropy x) in
  Ok (mkTruth stress curvature tilt_x tilt_y anisotropy,
      check_unknown_keys t "wafer.truth" truth_keys).

(** A part of the document that may be missing. *)
Definition load_part {A} (load : loader A) (obj : json) (key : string) (x : A) : Result (A * list string) :=
  match member obj key with Some j => load j x | None => Ok (x, []) end.

Definition load_wafer : loader WaferConfig := fun w x =>
  let? diameter := get_or get_double w "diameter_mm" (diameter_mm x) in
  let? thickness := get_or get_double w "thickness_um" (thickness_um x) in
  let? film := get_or get_double w "film_thickness_um" (film_thickness_um x) in
  let? modulus := get_or get_double w "biaxial_modulus_gpa" (biaxial_modulus_gpa x) in
  let? sd := get_or get_uint64 w "seed" (seed x) in
  let? ' (t, warnings) := load_part load_truth w "truth" (truth x) in
  Ok (mkWafer diameter thickness film modulus t sd,
      check_unknown_keys w "wafer" wafer_keys ++ warnings).

Definition load_scan : loader ScanConfig := fun s x =>
  let? lines := get_or get_int s "lines" (scan_lines x) in
  let? points := get_or get_int s "points_per_mm" (points_per_mm x) in
  let? speed := get_or get_double s "speed_mm_per_s" (speed_mm_per_s x) in
  let? realtime := get_or get_double s "realtime_factor" (realtime_factor x) in
  let? edge := get_or get_double s "edge_exclusion_mm" (edge_exclusion_mm x) in
  Ok (mkScan lines points speed realtime edge,
      check_unknown_keys s "scan" scan_keys).

Definition load_noise : loader NoiseConfig := fun n x =>
  let? sigma := get_or get_double n "sigma_um" (sigma_um x) in
  Ok (mkNoise sigma, check_unknown_keys n "noise" noise_keys).

Definition load_fault : loader FaultConfig := fun item x =>
  let? w := get_or get_string item "wafer" (fault_wafer x) in
  let? type := get_or get_string item "type" (fault_type x) in
  let? r := get_or get_double item "rate" (rate x) in
  let? amplitude := get_or get_double item "amplitude_um" (amplitude_um x) in
  let? samples := get_or get_int item "length_samples" (length_samples x) in
  let? drift := get_or get_double item "drift_um_per_s" (drift_um_per_s x) in
  let? saturation := get_or get_double item "saturation_limit_um" (saturation_limit_um x) in
  let? stall := get_or get_double item "stall_duration_s" (stall_duration_s x) in
  Ok (mkFault w type r amplitude samples drift saturation stall,
      check_unknown_keys item "faults[]" fault_keys).

Fixpoint load_items (items : list json) : Result (list FaultConfig * list string) :=
  match items with
  | [] => Ok ([], [])
  | item :: items =>
      let? ' (fc, warnings) := load_fault item default_fault in
      let? ' (fcs, more) := load_items items in
      Ok (fc :: fcs, warnings ++ more)
  end.

Definition load_faults : loader (list FaultConfig) := fun f x =>
  if negb (is_array f) then Err (config_error "faults must be an array")
  else
    let? ' (fcs, warnings) := load_items (elements f) in
    Ok (x ++ fcs, warnings).

(** A [low, high] pair. *)
Definition load_pair (a : json) (key text : string) (low high : double) : Result (double * double) :=
  match member a key with
  | None => Ok (low, high)
  | Some range =>
      match (if is_array range then elements range else []) with
      | [x; y] =>
          let? low := caught (get_double x) in
          let? high := caught (get_double y) in
          Ok (low, high)
      | _ => Err (config_error text)
      end
  end.

Definition load_analysis : loader AnalysisConfig := fun a x =>
  let? mad_k := get_or get_double a "outlier_mad_k" (outlier_mad_k x) in
  let? fraction := get_or get_double a "outlier_fraction_alarm" (outlier_fraction_alarm x) in
  let? limit := get_or get_double a "fit_rms_limit_um" (fit_rms_limit_um x) in
  let? ' (spec_low, spec_high) := load_pair a "stress_spec_mpa"
    "analysis.stress_spec_mpa must be a [low, high] array" (stress_spec_low_mpa x) (stress_spec_high_mpa x) in
  let? ' (low, high) := load_pair a "stress_plausible_mpa"
    "analysis.stress_plausible_mpa must be a [low, high] array"
    (stress_plausible_low_mpa x) (stress_plausible_high_mpa x) in
  let? grid := get_or get_double a "map_grid_mm" (map_grid_mm x) in
  let? threads := get_or get_int a "threads" (analysis_threads x) in
  Ok (mkAnalysis mad_k fraction limit spec_low spec_high low high grid threads,
      check_unknown_keys a "analysis" analysis_keys).

Definition load_cassette : loader CassetteConfig := fun c x =>
  let? id := get_or get_string c "id" (cassette_id x) in
  let? slots := get_or get_int c "slots" (cassette_slots x) in
  Ok (mkCassette id slots, check_unknown_keys c "cassette" cassette_keys).

Definition load_comm : loader CommConfig := fun c x =>
  let? enabled := get_or get_bool c "enabled" (comm_enabled x) in
  let? bind := get_or get_string c "bind" (comm_bind x) in
  let? port := get_or get_int c "port" (comm_port x) in
  let? device := get_or get_int c "device_id" (comm_device_id x) in
  let? online := get_or get_bool c "allow_host_online" (comm_allow_host_online x) in
  let? t3 := get_or get_double c "t3_s" (t3_s x) in
  let? t5 := get_or get_double c "t5_s" (t5_s x) in
  let? t6 := get_or get_double c "t6_s" (t6_s x) in
  let? t7 := get_or get_double c "t7_s" (t7_s x) in
  let? t8 := get_or get_double c "t8_s" (t8_s x) in
  let? linktest := get_or get_double c "linktest_s" (linktest_s x) in
  let? frame := get_or get_uint64 c "max_frame_bytes" (max_frame_bytes x) in
  Ok (mkComm enabled bind port device online t3 t5 t6 t7 t8 linktest frame,
      check_unknown_keys c "comm" comm_keys).

Definition load_output : loader OutputConfig := fun o x =>
  let? dir := get_or get_string o "dir" (output_dir x) in
  let? save := get_or get_bool o "save_samples" (save_samples x) in
  let? decimation := get_or get_int o "sample_decimation" (sample_decimation x) in
  Ok (mkOutput dir save decimation,
      check_unknown_keys o "output" output_keys).

Definition section_names : list string :=
  ["machine"; "wafer"; "scan"; "noise"; "faults"; "analysis"; "cassette"; "comm"; "output"].

(** The [try] block. *)
Definition load_sections (raw : json) (cfg : Config) : Result (Config * list string) :=
  let? ' (m, w1) := load_part load_machine raw "machine" (machine cfg) in
  let? ' (w, w2) := load_part load_wafer raw "wafer" (wafer cfg) in
  let? ' (s, w3) := load_part load_scan raw "scan" (scan cfg) in
  let? ' (n, w4) := load_part load_noise raw "noise" (noise cfg) in
  let? ' (f, w5) := load_part load_faults raw "faults" (faults cfg) in
  let? ' (a, w6) := load_part load_analysis raw "analysis" (analysis cfg) in
  let? ' (k, w7) := load_part load_cassette raw "cassette" (cassette cfg) in
  let? ' (c, w8) := load_part load_comm raw "comm" (comm cfg) in
  let? ' (o, w9) := load_part load_output raw "output" (output cfg) in
  Ok (mkConfig m w s n f a k c o, w1 ++ w2 ++ w3 ++ w4 ++ w5 ++ w6 ++ w7 ++ w8 ++ w9).

Definition load_config_from_json (raw : json) : Result (Config * list string) :=
  if negb (is_object raw) then Err (config_error "config root must be a JSON object")
  else
    let? ' (cfg, warnings) := load_sections raw default_config in
    match validate cfg with
    | Some err => Err err
    | None => Ok (cfg, check_unknown_keys raw EmptyString section_names ++ warnings)
    end.

(** What a file holds, where it can be opened, and the parser of the JSON library are
    parameters. *)
Definition load_config_file (read_file : string -> option string) (parse : string -> Result json) (path : string) :
    Result (Config * list string) :=
  match read_file path with
  | None => Err (config_error ("cannot open config file: " +:+ path))
  | Some text =>
      match parse text with
      | Err e => Err (config_error ("config JSON parse error: " +:+ message e))
      | Ok raw => load_config_from_json raw
      end
  end.

End loading.

(** ** The settings made from it *)

(** [std::llround]: halves away from zero; its result for a value no 64-bit integer can
    hold is not specified, a parameter. *)
Definition llround (unspecified : Z) (x : double) : Z :=
  match x with
  | S754_zero _ => 0
  | S754_finite s m e =>
      let r := if 0 <=? e then Zpos m * 2 ^ e else (Zpos m + 2 ^ (- e - 1)) / 2 ^ (- e) in
      let v := if s then - r else r in
      if bool_decide (sint_ok 64 v) then v else unspecified
  | _ => unspecified
  end.

Definition seconds_to_duration (unspecified : Z) (seconds : double) : Duration :=
  llround unspecified (dmul seconds (dz 1000)).

Definition session_config_from (unspecified : Z) (c : CommConfig) : SessionConfig :=
  let d := default_session_config in
  let duration := seconds_to_duration unspecified in
  mkSessionConfig (duration (t3_s c)) (duration (t6_s c)) (duration (t7_s c)) (duration (t8_s c))
    (duration (linktest_s c)) (max_frame_bytes c) (max_open_transactions d)
    (wrap 16 (comm_device_id c)) (first_system_bytes d).

Record ServerConfig := mkServerConfig {
  server_bind : string;
  server_port : Z;
  server_session : SessionConfig;
  tick_interval : Duration
}.

Definition server_config_from (unspecified : Z) (c : CommConfig) : ServerConfig :=
  mkServerConfig (comm_bind c) (wrap 16 (comm_port c)) (session_config_from unspecified c) 20.

Definition gem_config_from (config : Config) : GemConfig :=
  let d := default_gem_config in
  mkGemConfig (mkIdentity (machine_model (machine config)) (machine_softrev (machine config)))
    (wrap 16 (comm_device_id (comm config))) (comm_allow_host_online (comm config))
    (max_body_bytes d) (scan_lines (scan config)).

(** The defaults are those of the sections themselves. *)
Example default_settings :
  session_config_from 0 default_comm = default_session_config /\
  gem_config_from default_config = default_gem_config /\ validate default_config = None.
Proof. vm_compute. done. Qed.

(** ** What validation guarantees *)

(** A double that is a number. *)
Definition ordered (x : double) : Prop := isnan x = false.

Definition within (lo x hi : double) : Prop := SFleb lo x = true /\ SFleb x hi = true.
Definition above (lo x : double) : Prop := SFltb lo x = true.

(** Every value [validate] looks at is in its documented range. *)
Record in_range (cfg : Config) : Prop := mkInRange {
  range_lines : 1 <= scan_lines (scan cfg) <= 32;
  range_points : 10 <= points_per_mm (scan cfg) <= 80;
  range_edge : within (dz 0) (edge_exclusion_mm (scan cfg)) (dz 20);
  range_realtime : SFleb (dz 0) (realtime_factor (scan cfg)) = true;
  range_speed : above (dz 0) (speed_mm_per_s (scan cfg));
  range_diameter : exists d, d ∈ [100; 150; 200; 300] /\ SFeqb (diameter_mm (wafer cfg)) (dz d) = true;
  range_thickness : above (dz 0) (thickness_um (wafer cfg));
  range_film : above (dz 0) (film_thickness_um (wafer cfg));
  range_modulus : above (dz 0) (biaxial_modulus_gpa (wafer cfg));
  range_sigma : SFleb (dz 0) (sigma_um (noise cfg)) = true;
  range_limit : within (dr false 1 10) (fit_rms_limit_um (analysis cfg)) (dz 50);
  range_spec_low : within (dz (-5000)) (stress_spec_low_mpa (analysis cfg)) (dz 5000);
  range_spec_high : within (dz (-5000)) (stress_spec_high_mpa (analysis cfg)) (dz 5000);
  range_spec : SFleb (stress_spec_low_mpa (analysis cfg)) (stress_spec_high_mpa (analysis cfg)) = true;
  range_mad_k : above (dz 0) (outlier_mad_k (analysis cfg));
  range_fraction : within (dz 0) (outlier_fraction_alarm (analysis cfg)) (dz 1);
  range_grid : above (dz 0) (map_grid_mm (analysis cfg));
  range_threads : 0 <= analysis_threads (analysis cfg);
  range_slots : 1 <= cassette_slots (cassette cfg) <= 25;
  range_port : 1 <= comm_port (comm cfg) <= 65535;
  range_timers : Forall (above (dz 0)) [t3_s (comm cfg); t5_s (comm cfg); t6_s (comm cfg);
    t7_s (comm cfg); t8_s (comm cfg); linktest_s (comm cfg)];
  range_frame : max_frame_bytes (comm cfg) <> 0;
  range_decimation : 1 <= sample_decimation (output cfg)
}.

(** Every double that is checked is a number, section by section. *)
Definition scan_numbers (y : ScanConfig) : Prop :=
  Forall ordered [edge_exclusion_mm y; realtime_factor y; speed_mm_per_s y].
Definition wafer_numbers (y : WaferConfig) : Prop :=
  Forall ordered [thickness_um y; film_thickness_um y; biaxial_modulus_gpa y].
Definition noise_numbers (y : NoiseConfig) : Prop := Forall ordered [sigma_um y].
Definition analysis_numbers (y : AnalysisConfig) : Prop :=
  Forall ordered [fit_rms_limit_um y; stress_spec_low_mpa y; stress_spec_high_mpa y;
    outlier_mad_k y; outlier_fraction_alarm y; map_grid_mm y].
Definition comm_numbers (y : CommConfig) : Prop :=
  Forall ordered [t3_s y; t5_s y; t6_s y; t7_s y; t8_s y; linktest_s y].

Record config_numbers (cfg : Config) : Prop := mkConfigNumbers {
  numbers_scan : scan_numbers (scan cfg);
  numbers_wafer : wafer_numbers (wafer cfg);
  numbers_noise : noise_numbers (noise cfg);
  numbers_analysis : analysis_numbers (analysis cfg);
  numbers_comm : comm_numbers (comm cfg)
}.

Lemma compare_total x y : ordered x -> ordered y ->
  exists c, SFcompare x y = Some c /\ SFcompare y x = Some (CompOpp c).
Proof.
  intros Hx Hy. destruct x as [s|s| |s m e], y as [s'|s'| |s' m' e']; try done;
    repeat match goal with s : bool |- _ => destruct s end;
    try (by eexists); simpl; rewrite (Z.compare_antisym e e');
    destruct (Z.compare e e'); try (by eexists); simpl;
    change (Pos.compare_cont Eq ?a ?b) with (Pos.compare a b);
    rewrite (Pos.compare_antisym m m'); destruct (Pos.compare m m'); by eexists.
Qed.

Lemma ltb_leb x y : ordered x -> ordered y -> SFltb y x = negb (SFleb x y).
Proof.
  intros Hx Hy. destruct (compare_total x y Hx Hy) as (c & H1 & H2). unfold SFltb, SFleb.
  rewrite H1, H2. by destruct c.
Qed.

Lemma outside_within v lo hi : ordered v -> ordered lo -> ordered hi ->
  outside v lo hi = false <-> within lo v hi.
Proof.
  intros. unfold outside, within. rewrite orb_false_iff, !ltb_leb by done.
  by rewrite !negb_false_iff.
Qed.

Lemma leb_above x : ordered x -> SFleb x (dz 0) = false <-> above (dz 0) x.
Proof. intros. unfold above. rewrite ltb_leb by done. by rewrite negb_true_iff. Qed.

Lemma ltb_at_least x y : ordered x -> ordered y -> SFltb x y = false <-> SFleb y x = true.
Proof. intros. rewrite ltb_leb by done. by rewrite negb_false_iff. Qed.

Lemma int_outside_within v lo hi : int_outside v lo hi = false <-> lo <= v <= hi.
Proof. unfold int_outside. rewrite orb_false_iff, !Z.ltb_ge. lia. Qed.

Lemma if_none {A} (b : bool) (e : A) r : (if b then Some e else r) = None <-> b = false /\ r = None.
Proof. destruct b; naive_solver. Qed.

Lemma diameter_known x :
  negb (SFeqb x (dz 100)) && negb (SFeqb x (dz 150)) && negb (SFeqb x (dz 200)) &&
    negb (SFeqb x (dz 300)) = false <->
  exists d, d ∈ [100; 150; 200; 300] /\ SFeqb x (dz d) = true.
Proof.
  rewrite !andb_false_iff, !negb_false_iff. split.
  - intros [[[]|]|]; [exists 100|exists 150|exists 200|exists 300]; (split; [set_solver|done]).
  - intros (d & Hd & He). set_unfold. destruct Hd as [->|[->|[->|[->|[]]]]]; tauto.
Qed.

Lemma timers_above l : Forall ordered l ->
  existsb (fun t => SFleb t (dz 0)) l = false <-> Forall (above (dz 0)) l.
Proof.
  intros Hl. induction Hl as [|x l Hx _ IH]; simpl; [by split|].
  rewrite orb_false_iff, Forall_cons, IH, leb_above by done. done.
Qed.

Lemma validate_in_range cfg : config_numbers cfg -> validate cfg = None <-> in_range cfg.
Proof.
  intros [Hs Hw Hn Ha Hc].
  unfold scan_numbers, wafer_numbers, noise_numbers, analysis_numbers, comm_numbers in *.
  repeat match goal with H : Forall ordered (_ :: _) |- _ =>
    match type of Hc with ?T => match type of H with T => fail 1 | _ => apply Forall_cons in H as [? H] end end end.
  unfold validate. rewrite !if_none, !int_outside_within, diameter_known, timers_above by done.
  rewrite !leb_above, !outside_within, !ltb_at_least, !Z.ltb_ge, Z.eqb_neq by done.
  split; [intros; destruct_and?; by constructor|].
  intros []; unfold within in *; destruct_and?; split_and!; done.
Qed.

(** ** Loading is checked *)

(** What JSON numbers are: never NaN, and in the range of the integer type asked for. *)
Class JsonNumbers (json : Type) {J : Json json} : Prop := {
  get_double_ordered (j : json) x : get_double j = Ok x -> ordered x;
  get_uint64_range (j : json) v : get_uint64 j = Ok v -> uint_ok 64 v
}.

Section checked.
Context {json : Type} {J : Json json}.

(** A result whose error, if it is one, carries the exit code of a bad configuration. *)
Definition exits_2 {A} (r : Result A) : Prop := forall e, r = Err e -> code e = kConfigErrorExitCode.

Lemma exits_2_ok {A} (a : A) : exits_2 (Ok a).
Proof. by intros e [=]. Qed.

Lemma exits_2_error {A} text : exits_2 (@Err A (config_error text)).
Proof. by intros e [= <-]. Qed.

Lemma exits_2_caught {A} (r : Result A) : exits_2 (caught r).
Proof. destruct r; intros e' [=]. by subst. Qed.

Lemma exits_2_bind {A B} (r : Result A) (k : A -> Result B) :
  exits_2 r -> (forall a, exits_2 (k a)) -> exits_2 (result_bind r k).
Proof. intros Hr Hk e He. apply result_bind_Err in He as [He|(a & _ & He)]; [by apply Hr|by apply (Hk a)]. Qed.

Lemma exits_2_get_or {A} (get : json -> Result A) obj key d : exits_2 (get_or get obj key d).
Proof. unfold get_or. case_match; [apply exits_2_caught|apply exits_2_ok]. Qed.

Lemma exits_2_part {A} (load : loader A) obj key x :
  (forall j x, exits_2 (load j x)) -> exits_2 (load_part load obj key x).
Proof. intros Hl. unfold load_part. case_match; [apply Hl|apply exits_2_ok]. Qed.

Ltac exits := repeat first
  [ apply exits_2_ok | apply exits_2_error | apply exits_2_caught | apply exits_2_get_or
  | apply exits_2_bind; [|intros ?] | case_match ].

Lemma exits_2_pair a key text low high : exits_2 (load_pair a key text low high).
Proof. unfold load_pair. exits. Qed.

Lemma exits_2_items items : exits_2 (load_items items).
Proof.
  induction items as [|item items IH]; simpl; [apply exits_2_ok|].
  apply exits_2_bind; [unfold load_fault; exits|intros [fc w]]. apply exits_2_bind; [done|]. intros. exits.
Qed.

Lemma exits_2_sections raw cfg : exits_2 (load_sections raw cfg).
Proof.
  unfold load_sections.
  repeat (apply exits_2_bind; [apply exits_2_part; intros j x|intros [? ?]]); try apply exits_2_ok.
  - unfold load_machine. exits.
  - unfold load_wafer. repeat (apply exits_2_bind; [exits|intros ?]); [|exits].
    apply exits_2_part. intros. unfold load_truth. exits.
  - unfold load_scan. exits.
  - unfold load_noise. exits.
  - unfold load_faults. case_match; [exits|]. apply exits_2_bind; [apply exits_2_items|intros; exits].
  - unfold load_analysis. repeat (apply exits_2_bind; [first [apply exits_2_pair|exits]|intros ?]).
    repeat (case_match; try (apply exits_2_bind; [first [apply exits_2_pair|exits]|intros ?])); exits.
  - unfold load_cassette. exits.
  - unfold load_comm. exits.
  - unfold load_output. exits.
Qed.

Lemma validate_code cfg e : validate cfg = Some e -> code e = kConfigErrorExitCode.
Proof.
  unfold validate. repeat (destruct (_ : bool); [by intros [= <-]|]). done.
Qed.

(** *** The values read *)

Lemma get_or_prop {A} (P : A -> Prop) (get : json -> Result A) obj key d x :
  (forall j a, get j = Ok a -> P a) -> P d -> get_or get obj key d = Ok x -> P x.
Proof.
  intros Hg Hd. unfold get_or. case_match; [|by intros [= <-]].
  unfold caught. destruct (get _) as [a|] eqn:E; [|done]. intros [= <-]. by eapply Hg.
Qed.

Lemma load_part_prop {A} (P : A -> Prop) (load : loader A) obj key x x' w :
  (forall j y w', load j x = Ok (y, w') -> P y) -> P x -> load_part load obj key x = Ok (x', w) -> P x'.
Proof. intros Hl Hx. unfold load_part. case_match; [apply Hl|by intros [= <- <-]]. Qed.

Context {N : JsonNumbers json}.

Lemma ordered_get_or obj key d x : ordered d -> get_or get_double obj key d = Ok x -> ordered x.
Proof. apply get_or_prop. apply get_double_ordered. Qed.

Lemma ordered_pair a key text low high x : Forall ordered [low; high] ->
  load_pair a key text low high = Ok x -> Forall ordered [x.1; x.2].
Proof.
  intros Hd. unfold load_pair. case_match; [|by intros [= <-]].
  destruct (if is_array _ then _ else _) as [|j0 [|y [|]]]; try done.
  unfold caught. destruct (get_double _) as [u|] eqn:E1; [|done]. simpl.
  destruct (get_double y) as [v|] eqn:E2; [|done]. intros [= <-]. simpl.
  repeat constructor; by eapply get_double_ordered.
Qed.

Ltac unbind H := repeat (let x := fresh "x" in let E := fresh "E" in
  apply result_bind_Ok in H as (x & E & H)).

Ltac numbers := rewrite ?Forall_cons; split_and?; try apply Forall_nil_2; try done;
  (eapply ordered_get_or; [|eassumption]; reflexivity).

Lemma load_scan_numbers (j : json) y w : load_scan j default_scan = Ok (y, w) -> scan_numbers y.
Proof. unfold scan_numbers, load_scan. intros H. unbind H. injection H as <- <-. numbers. Qed.

Lemma load_wafer_numbers (j : json) y w : load_wafer j default_wafer = Ok (y, w) -> wafer_numbers y.
Proof.
  unfold wafer_numbers, load_wafer. intros H. unbind H. destruct x4 as [t tw]. injection H as <- <-. numbers.
Qed.

Lemma load_noise_numbers (j : json) y w : load_noise j default_noise = Ok (y, w) -> noise_numbers y.
Proof. unfold noise_numbers, load_noise. intros H. unbind H. injection H as <- <-. numbers. Qed.

Lemma load_analysis_numbers (j : json) y w : load_analysis j default_analysis = Ok (y, w) -> analysis_numbers y.
Proof.
  unfold analysis_numbers, load_analysis. intros H. unbind H. destruct x2 as [low high]. unbind H.
  destruct x2 as [low' high']. unbind H. injection H as <- <-.
  assert (Hp : Forall ordered [low; high]).
  { by apply (ordered_pair j _ _ _ _ (low, high)) in E2; [|repeat constructor]. }
  apply Forall_cons in Hp as [Hl Hp]. apply Forall_cons in Hp as [Hh _].
  numbers.
Qed.

Lemma load_comm_numbers (j : json) y w : load_comm j default_comm = Ok (y, w) ->
  comm_numbers y /\ uint_ok 64 (max_frame_bytes y).
Proof.
  unfold comm_numbers, load_comm. intros H. unbind H. injection H as <- <-. split; [numbers|].
  eapply get_or_prop; [apply get_uint64_range| |eassumption]. done.
Qed.

Lemma load_sections_numbers (raw : json) cfg w : load_sections raw default_config = Ok (cfg, w) ->
  config_numbers cfg /\ uint_ok 64 (max_frame_bytes (comm cfg)).
Proof.
  unfold load_sections. intros H.
  repeat (let x := fresh "x" in let E := fresh "E" in
    apply result_bind_Ok in H as (x & E & H); destruct x as [??]).
  injection H as <- <-.
  assert (Hc : comm_numbers c0 /\ uint_ok 64 (max_frame_bytes c0)).
  { eapply (load_part_prop (fun c => comm_numbers c /\ uint_ok 64 (max_frame_bytes c)));
      [|..|exact E6]; [intros; by eapply load_comm_numbers|split; [by repeat constructor|done]]. }
  split; [|apply Hc]. constructor; simpl; [..|apply Hc].
  - eapply (load_part_prop scan_numbers); [|..|exact E1];
      [intros; by eapply load_scan_numbers|by repeat constructor].
  - eapply (load_part_prop wafer_numbers); [|..|exact E0];
      [intros; by eapply load_wafer_numbers|by repeat constructor].
  - eapply (load_part_prop noise_numbers); [|..|exact E2];
      [intros; by eapply load_noise_numbers|by repeat constructor].
  - eapply (load_part_prop analysis_numbers); [|..|exact E4];
      [intros; by eapply load_analysis_numbers|by repeat constructor].
Qed.

End checked.

(** *** Warnings *)

Section warnings.
Context {json : Type} {J : Json json}.

(** Every object of a document whose keys are documented, in the order of the sections, with
    its path and its keys. *)
Definition part (obj : json) (key : string) : list json := option_list (member obj key).

Definition documented_parts (raw : json) : list (json * string * list string) :=
  let section key keys := (fun j => (j, key, keys)) <$> part raw key in
  [(raw, EmptyString, section_names)] ++
  section "machine" machine_keys ++
  section "wafer" wafer_keys ++
  ((fun j => (j, "wafer.truth", truth_keys)) <$> (part raw "wafer" ≫= fun w => part w "truth")) ++
  section "scan" scan_keys ++
  section "noise" noise_keys ++
  ((fun j => (j, "faults[]", fault_keys)) <$> (part raw "faults" ≫= elements)) ++
  section "analysis" analysis_keys ++
  section "cassette" cassette_keys ++
  section "comm" comm_keys ++
  section "output" output_keys.

(** One warning for every key of an object that is not among the documented ones. *)
Definition unknown_key_warnings (parts : list (json * string * list string)) : list string :=
  parts ≫= fun '(j, path, keys) => check_unknown_keys j path keys.

Lemma unknown_key_warnings_app p q :
  unknown_key_warnings (p ++ q) = unknown_key_warnings p ++ unknown_key_warnings q.
Proof. apply bind_app. Qed.

Lemma section_warnings path keys l :
  unknown_key_warnings ((fun j => (j, path, keys)) <$> l) = l ≫= fun j => check_unknown_keys j path keys.
Proof. induction l as [|j l IH]; [done|]. cbn. f_equal. apply IH. Qed.

Lemma bind_bind {A B C} (l : list A) (f : A -> list B) (g : B -> list C) :
  (l ≫= f) ≫= g = l ≫= fun x => f x ≫= g.
Proof. induction l as [|x l IH]; [done|]. cbn. by rewrite bind_app, IH. Qed.

(** A key that a warning is about is a key of that object. *)
Lemma unknown_key_warned parts j path keys k :
  (j, path, keys) ∈ parts -> is_object j = true -> k ∈ json_keys j -> k ∉ keys ->
  "unknown key: " +:+ path +:+ "." +:+ k ∈ unknown_key_warnings parts.
Proof.
  intros Hin Hj Hk Hn. apply list_elem_of_bind. exists (j, path, keys). split; [|done].
  unfold check_unknown_keys. rewrite Hj. apply list_elem_of_In, in_map_iff. exists k. split; [done|].
  apply List.filter_In. split; [by apply list_elem_of_In|by apply bool_decide_eq_true_2].
Qed.

Lemma part_warnings {A} (load : loader A) (raw : json) key x y w (f : json -> list string) :
  (forall j y w, load j x = Ok (y, w) -> w = f j) ->
  load_part load raw key x = Ok (y, w) -> w = (part raw key ≫= f).
Proof.
  unfold load_part, part. intros Hl H. destruct (member raw key) as [j|]; [|by injection H as <- <-].
  cbn. rewrite app_nil_r. by eapply Hl.
Qed.

Ltac unpack H := repeat first
  [ let x := fresh "x" in let E := fresh "E" in
    apply result_bind_Ok in H as (x & E & H); try destruct x as [??]
  | injection H as <- <-; reflexivity ].

Ltac part_of E key keys :=
  eapply (part_warnings _ _ _ _ _ _ (fun j => check_unknown_keys j key keys)) in E as ->;
    [|let H := fresh "H" in intros ? ? ? H;
     cbv delta [load_machine load_scan load_noise load_analysis load_cassette load_comm load_output] in H; unpack H].

Lemma load_wafer_warnings (j : json) x y w : load_wafer j x = Ok (y, w) ->
  w = check_unknown_keys j "wafer" wafer_keys ++
      (part j "truth" ≫= fun t => check_unknown_keys t "wafer.truth" truth_keys).
Proof.
  unfold load_wafer. intros H.
  repeat (let x := fresh "x" in let E := fresh "E" in apply result_bind_Ok in H as (x & E & H)).
  destruct x5 as [t v]. injection H as <- <-. f_equal.
  eapply part_warnings; [|exact E4]. intros j' y' w' H'. unfold load_truth in H'. unpack H'.
Qed.

Lemma load_items_warnings (l : list json) y w : load_items l = Ok (y, w) ->
  w = (l ≫= fun item => check_unknown_keys item "faults[]" fault_keys).
Proof.
  revert y w. induction l as [|item l IH]; intros y w; cbn [load_items]; [by intros [= <- <-]|].
  intros ([fc v] & E & H)%result_bind_Ok. apply result_bind_Ok in H as ([fcs more] & E' & H).
  injection H as <- <-. cbn. rewrite <- (IH _ _ E'). f_equal. unfold load_fault in E. unpack E.
Qed.

Lemma load_faults_warnings (j : json) x y w : load_faults j x = Ok (y, w) ->
  w = (elements j ≫= fun item => check_unknown_keys item "faults[]" fault_keys).
Proof.
  unfold load_faults. destruct (negb _); [done|]. intros ([fcs v] & E & H)%result_bind_Ok.
  injection H as <- <-. by eapply load_items_warnings.
Qed.

(** Loading warns of every unknown key, and of nothing else. *)
Lemma load_sections_warnings (raw : json) cfg cfg' w : load_sections raw cfg = Ok (cfg', w) ->
  check_unknown_keys raw EmptyString section_names ++ w = unknown_key_warnings (documented_parts raw).
Proof.
  unfold load_sections. intros H.
  repeat (let x := fresh "x" in let E := fresh "E" in
    apply result_bind_Ok in H as (x & E & H); destruct x as [? ?]).
  injection H as <- <-. unfold documented_parts. cbv zeta. rewrite !unknown_key_warnings_app, !section_warnings.
  eapply part_warnings in E0 as ->; [|by intros; eapply load_wafer_warnings].
  eapply part_warnings in E3 as ->; [|by intros; eapply load_faults_warnings].
  part_of E "machine"%string machine_keys.
  part_of E1 "scan"%string scan_keys.
  part_of E2 "noise"%string noise_keys.
  part_of E4 "analysis"%string analysis_keys.
  part_of E5 "cassette"%string cassette_keys.
  part_of E6 "comm"%string comm_keys.
  part_of E7 "output"%string output_keys.
  assert (Hb : forall (l : list json) (f g : json -> list string), l = part raw "wafer" ->
    (l ≫= fun j => f j ++ g j) = (l ≫= f) ++ (l ≫= g)).
  { intros ? f g ->. unfold part. destruct (member raw "wafer"); [|done]. cbn. by rewrite !app_nil_r. }
  rewrite (Hb _ _ _ eq_refl), <- !app_assoc, !bind_bind.
  unfold unknown_key_warnings at 1. cbn [mbind list_bind]. by rewrite <- !app_assoc, ?app_nil_l.
Qed.

End warnings.

(** [C14] Whatever JSON document is loaded: either every value that [validate] looks at is in
    its documented range ([in_range] lists them; it does not look at the device id, which is cut
    to 16 bits, at the plausibility window, the true stress and shape, the faults, the seed
    and the texts), so that the HSMS session made from it is well configured, and the
    warnings are exactly one for every unknown key of the root, of every section, of
    wafer.truth and of every fault, where these are objects, in the order of the
    sections; or the load fails with the exit code 2 of a bad configuration. *)
Theorem load_config_checked {json : Type} {J : Json json} {N : JsonNumbers json} (raw : json) unspecified :
  match load_config_from_json raw with
  | Ok (cfg, warnings) =>
      in_range cfg /\ session_config_ok (session_config_from unspecified (comm cfg)) /\
      warnings = unknown_key_warnings (documented_parts raw) /\
      (forall j path keys k, (j, path, keys) ∈ documented_parts raw -> is_object j = true ->
         k ∈ json_keys j -> k ∉ keys -> "unknown key: " +:+ path +:+ "." +:+ k ∈ warnings)
  | Err e => code e = kConfigErrorExitCode
  end.
Proof.
  unfold load_config_from_json. destruct (is_object raw); [|done]. cbn [negb].
  destruct (load_sections raw default_config) as [[cfg w]|e] eqn:E;
    [|by apply exits_2_sections in E]. cbn [result_bind].
  destruct (validate cfg) as [e|] eqn:Ev; [by apply validate_code in Ev|].
  destruct (load_sections_numbers raw cfg w E) as [Hn Hf]. rewrite (load_sections_warnings _ _ _ _ E). split_and!.
  - by apply validate_in_range.
  - unfold session_config_ok. simpl. split_and!; [by destruct Hf|done|done].
  - done.
  - apply unknown_key_warned.
Qed.

(** ** Writing a configuration

    Loading reads every field from its own key: a configuration written as JSON with every
    value under its documented key is read back. *)

Fixpoint assoc {A} (k : string) (l : list (string * A)) : option A :=
  match l with
  | [] => None
  | (k', a) :: l => if String.eqb k k' then Some a else assoc k l
  end.

(** Constructing JSON values, and reading back what was constructed. *)
Class JsonWriter (json : Type) {J : Json json} := {
  json_object : list (string * json) -> json;
  json_array : list json -> json;
  of_string : string -> json;
  of_bool : bool -> json;
  of_double : double -> json;
  of_Z : Z -> json;
  object_is_object l : is_object (json_object l) = true;
  object_keys l k : k ∈ json_keys (json_object l) -> k ∈ map fst l;
  object_member l k : NoDup (map fst l) -> member (json_object l) k = assoc k l;
  array_is_array l : is_array (json_array l) = true;
  array_elements l : elements (json_array l) = l;
  string_read s : get_string (of_string s) = Ok s;
  bool_read b : get_bool (of_bool b) = Ok b;
  double_read x : ordered x -> get_double (of_double x) = Ok x;
  int_read v : sint_ok 32 v -> get_int (of_Z v) = Ok v;
  uint64_read v : uint_ok 64 v -> get_uint64 (of_Z v) = Ok v
}.

Section writing.
Context {json : Type} {J : Json json} {W : JsonWriter json}.

Definition write_machine (x : MachineConfig) : json :=
  json_object [("model", of_string (machine_model x)); ("softrev", of_string (machine_softrev x))].

Definition write_truth (x : WaferTruthConfig) : json :=
  json_object [("stress_mpa", of_double (truth_stress_mpa x));
    ("initial_curvature_1_per_m", of_double (initial_curvature_1_per_m x));
    ("tilt_x_um_per_mm", of_double (tilt_x_um_per_mm x));
    ("tilt_y_um_per_mm", of_double (tilt_y_um_per_mm x));
    ("anisotropy", of_double (truth_anisotropy x))].

Definition write_wafer (x : WaferConfig) : json :=
  json_object [("diameter_mm", of_double (diameter_mm x)); ("thickness_um", of_double (thickness_um x));
    ("film_thickness_um", of_double (film_thickness_um x));
    ("biaxial_modulus_gpa", of_double (biaxial_modulus_gpa x));
    ("truth", write_truth (truth x)); ("seed", of_Z (seed x))].

Definition write_scan (x : ScanConfig) : json :=
  json_object [("lines", of_Z (scan_lines x)); ("points_per_mm", of_Z (points_per_mm x));
    ("speed_mm_per_s", of_double (speed_mm_per_s x)); ("realtime_factor", of_double (realtime_factor x));
    ("edge_exclusion_mm", of_double (edge_exclusion_mm x))].

Definition write_noise (x : NoiseConfig) : json := json_object [("sigma_um", of_double (sigma_um x))].

Definition write_fault (x : FaultConfig) : json :=
  json_object [("wafer", of_string (fault_wafer x)); ("type", of_string (fault_type x));
    ("rate", of_double (rate x)); ("amplitude_um", of_double (amplitude_um x));
    ("length_samples", of_Z (length_samples x)); ("drift_um_per_s", of_double (drift_um_per_s x));
    ("saturation_limit_um", of_double (saturation_limit_um x));
    ("stall_duration_s", of_double (stall_duration_s x))].

Definition write_pair (low high : double) : json := json_array [of_double low; of_double high].

Definition write_analysis (x : AnalysisConfig) : json :=
  json_object [("outlier_mad_k", of_double (outlier_mad_k x));
    ("outlier_fraction_alarm", of_double (outlier_fraction_alarm x));
    ("fit_rms_limit_um", of_double (fit_rms_limit_um x));
    ("stress_spec_mpa", write_pair (stress_spec_low_mpa x) (stress_spec_high_mpa x));
    ("stress_plausible_mpa", write_pair (stress_plausible_low_mpa x) (stress_plausible_high_mpa x));
    ("map_grid_mm", of_double (map_grid_mm x)); ("threads", of_Z (analysis_threads x))].

Definition write_cassette (x : CassetteConfig) : json :=
  json_object [("id", of_string (cassette_id x)); ("slots", of_Z (cassette_slots x))].

Definition write_comm (x : CommConfig) : json :=
  json_object [("enabled", of_bool (comm_enabled x)); ("bind", of_string (comm_bind x));
    ("port", of_Z (comm_port x)); ("device_id", of_Z (comm_device_id x));
    ("allow_host_online", of_bool (comm_allow_host_online x)); ("t3_s", of_double (t3_s x));
    ("t5_s", of_double (t5_s x)); ("t6_s", of_double (t6_s x)); ("t7_s", of_double (t7_s x));
    ("t8_s", of_double (t8_s x)); ("linktest_s", of_double (linktest_s x));
    ("max_frame_bytes", of_Z (max_frame_bytes x))].

Definition write_output (x : OutputConfig) : json :=
  json_object [("dir", of_string (output_dir x)); ("save_samples", of_bool (save_samples x));
    ("sample_decimation", of_Z (sample_decimation x))].

Definition write_config (cfg : Config) : json :=
  json_object [("machine", write_machine (machine cfg)); ("wafer", write_wafer (wafer cfg));
    ("scan", write_scan (scan cfg)); ("noise", write_noise (noise cfg));
    ("faults", json_array (map write_fault (faults cfg)));
    ("analysis", write_analysis (analysis cfg)); ("cassette", write_cassette (cassette cfg));
    ("comm", write_comm (comm cfg)); ("output", write_output (output cfg))].

End writing.

(** The values a configuration can hold: C++ integers, and doubles that are numbers. *)
Definition fault_typed (x : FaultConfig) : Prop :=
  sint_ok 32 (length_samples x) /\
  Forall ordered [rate x; amplitude_um x; drift_um_per_s x; saturation_limit_um x; stall_duration_s x].

Definition truth_typed (x : WaferTruthConfig) : Prop :=
  Forall ordered [truth_stress_mpa x; initial_curvature_1_per_m x; tilt_x_um_per_mm x;
    tilt_y_um_per_mm x; truth_anisotropy x].

Record config_typed (cfg : Config) : Prop := mkTyped {
  typed_numbers : config_numbers cfg;
  typed_diameter : ordered (diameter_mm (wafer cfg));
  typed_truth : truth_typed (truth (wafer cfg));
  typed_seed : uint_ok 64 (seed (wafer cfg));
  typed_scan : sint_ok 32 (scan_lines (scan cfg)) /\ sint_ok 32 (points_per_mm (scan cfg));
  typed_faults : Forall fault_typed (faults cfg);
  typed_plausible : ordered (stress_plausible_low_mpa (analysis cfg)) /\
    ordered (stress_plausible_high_mpa (analysis cfg));
  typed_threads : sint_ok 32 (analysis_threads (analysis cfg));
  typed_slots : sint_ok 32 (cassette_slots (cassette cfg));
  typed_comm : sint_ok 32 (comm_port (comm cfg)) /\ sint_ok 32 (comm_device_id (comm cfg)) /\
    uint_ok 64 (max_frame_bytes (comm cfg));
  typed_decimation : sint_ok 32 (sample_decimation (output cfg))
}.

Section reading_back.
Context {json : Type} {J : Json json} {W : JsonWriter json}.

Lemma no_unknown_keys (l : list (string * json)) path known : map fst l ⊆ known ->
  check_unknown_keys (json_object l) path known = [].
Proof.
  intros Hl. unfold check_unknown_keys. rewrite object_is_object.
  assert (E : List.filter (fun k => bool_decide (k ∉ known)) (json_keys (json_object l)) = []).
  { pose proof (fun k => object_keys l k) as Hk. revert Hk. generalize (json_keys (json_object l)).
    induction l0 as [|k ks IH]; intros Hk; simpl; [done|]. rewrite bool_decide_false; [|set_solver].
    apply IH. set_solver. }
  by rewrite E.
Qed.

Lemma get_or_read {A} (get : json -> Result A) l key d j x :
  NoDup (map fst l) -> assoc key l = Some j -> get j = Ok x -> get_or get (json_object l) key d = Ok x.
Proof. intros Hl Hj Hx. unfold get_or. by rewrite (object_member l key Hl), Hj, Hx. Qed.

Lemma load_part_read {A} (load : loader A) l key x j y :
  NoDup (map fst l) -> assoc key l = Some j -> load j x = Ok (y, []) ->
  load_part load (json_object l) key x = Ok (y, []).
Proof. intros Hl Hj Hy. unfold load_part. by rewrite (object_member l key Hl), Hj. Qed.

Lemma load_pair_read l key text low high x y :
  NoDup (map fst l) -> assoc key l = Some (write_pair x y) -> ordered x -> ordered y ->
  load_pair (json_object l) key text low high = Ok (x, y).
Proof.
  intros Hl Hj Hx Hy. unfold load_pair. rewrite (object_member l key Hl), Hj.
  unfold write_pair. rewrite array_is_array, array_elements. by rewrite !double_read.
Qed.

(** Reads the fields one by one. *)
Ltac distinct := solve [simpl; apply (bool_decide_unpack _); vm_compute; exact I].
Ltac value := solve [apply string_read|apply bool_read|apply double_read; assumption
  |apply int_read; assumption|apply uint64_read; assumption].
Ltac read_back :=
  repeat (erewrite get_or_read; [|distinct|reflexivity|value]; cbn [result_bind]);
  rewrite ?no_unknown_keys by (simpl; set_solver).

Lemma read_machine x y : load_machine (write_machine x) y = Ok (x, []).
Proof. unfold load_machine, write_machine. read_back. by destruct x. Qed.

Ltac split_numbers := unfold scan_numbers, wafer_numbers, noise_numbers, analysis_numbers,
  comm_numbers, truth_typed, fault_typed in *; rewrite ?Forall_cons in *; destruct_and?.

Lemma read_truth x y : truth_typed x -> load_truth (write_truth x) y = Ok (x, []).
Proof. intros H. split_numbers. unfold load_truth, write_truth. read_back. by destruct x. Qed.

Lemma read_wafer x y : wafer_numbers x -> ordered (diameter_mm x) -> truth_typed (truth x) ->
  uint_ok 64 (seed x) -> load_wafer (write_wafer x) y = Ok (x, []).
Proof.
  intros Hn Hd Ht Hs. unfold load_wafer, write_wafer. unfold wafer_numbers in Hn.
  rewrite !Forall_cons in Hn. destruct_and?. read_back.
  erewrite load_part_read; [|distinct|reflexivity|by apply read_truth]. cbn [result_bind].
  by destruct x.
Qed.

Lemma read_scan x y : scan_numbers x -> sint_ok 32 (scan_lines x) -> sint_ok 32 (points_per_mm x) ->
  load_scan (write_scan x) y = Ok (x, []).
Proof. intros. split_numbers. unfold load_scan, write_scan. read_back. by destruct x. Qed.

Lemma read_noise x y : noise_numbers x -> load_noise (write_noise x) y = Ok (x, []).
Proof. intros. split_numbers. unfold load_noise, write_noise. read_back. by destruct x. Qed.

Lemma read_fault x y : fault_typed x -> load_fault (write_fault x) y = Ok (x, []).
Proof. intros. split_numbers. unfold load_fault, write_fault. read_back. by destruct x. Qed.

Lemma read_faults l : Forall fault_typed l ->
  load_faults (json_array (map write_fault l)) [] = Ok (l, []).
Proof.
  intros Hl. unfold load_faults. rewrite array_is_array, array_elements. cbn [negb].
  assert (E : load_items (map write_fault l) = Ok (l, [])); [|by rewrite E].
  induction Hl as [|x l Hx _ IH]; simpl; [done|]. rewrite read_fault by done. simpl. by rewrite IH.
Qed.

Lemma read_analysis x y : analysis_numbers x -> ordered (stress_plausible_low_mpa x) ->
  ordered (stress_plausible_high_mpa x) -> sint_ok 32 (analysis_threads x) ->
  load_analysis (write_analysis x) y = Ok (x, []).
Proof.
  intros. split_numbers. unfold load_analysis, write_analysis. read_back.
  repeat (erewrite load_pair_read; [|distinct|reflexivity|assumption..]; cbn [result_bind]).
  read_back. by destruct x.
Qed.

Lemma read_cassette x y : sint_ok 32 (cassette_slots x) -> load_cassette (write_cassette x) y = Ok (x, []).
Proof. intros. unfold load_cassette, write_cassette. read_back. by destruct x. Qed.

Lemma read_comm x y : comm_numbers x -> sint_ok 32 (comm_port x) -> sint_ok 32 (comm_device_id x) ->
  uint_ok 64 (max_frame_bytes x) -> load_comm (write_comm x) y = Ok (x, []).
Proof. intros. split_numbers. unfold load_comm, write_comm. read_back. by destruct x. Qed.

Lemma read_output x y : sint_ok 32 (sample_decimation x) -> load_output (write_output x) y = Ok (x, []).
Proof. intros. unfold load_output, write_output. read_back. by destruct x. Qed.

Lemma read_sections cfg : config_typed cfg ->
  load_sections (write_config cfg) default_config = Ok (cfg, []).
Proof.
  intros [[] ? ? ? [] ? [] ? ? (? & ? & ?) ?]. unfold load_sections, write_config.
  repeat (erewrite load_part_read;
    [|distinct|reflexivity|first [apply read_machine|by apply read_wafer|by apply read_scan
      |by apply read_noise|by apply read_faults|by apply read_analysis|by apply read_cassette
      |by apply read_comm|by apply read_output]]; cbn [result_bind]).
  by destruct cfg.
Qed.

End reading_back.

(** Every configuration in its documented ranges can be written down: as JSON with each
    value under its documented key it is loaded back, field by field, without a warning. *)
Theorem config_roundtrip {json : Type} {J : Json json} {W : JsonWriter json} cfg :
  config_typed cfg -> in_range cfg -> load_config_from_json (write_config cfg) = Ok (cfg, []).
Proof.
  intros Ht Hr. unfold load_config_from_json.
  assert (Ho : is_object (write_config cfg) = true) by apply object_is_object.
  rewrite Ho, read_sections by done. cbn [negb result_bind].
  rewrite (proj2 (validate_in_range cfg (typed_numbers cfg Ht)) Hr). unfold write_config.
  rewrite no_unknown_keys by (simpl; set_solver). done.
Qed.

(** ** A document model for examples *)

Inductive Value :=
| v_null | v_bool (b : bool) | v_int (z : Z) | v_double (x : double) | v_string (s : string)
| v_array (l : list Value) | v_object (l : list (string * Value)).

Definition type_error {A} : Result A := Err (mkError 302 "[json.exception.type_error.302]").

Definition value_double (j : Value) : Result double :=
  match j with
  | v_int z => if isnan (dz z) then type_error else Ok (dz z)
  | v_double x => if isnan x then type_error else Ok x
  | _ => type_error
  end.

#[export] Instance value_json : Json Value := {|
  is_object := fun j => match j with v_object _ => true | _ => false end;
  is_array := fun j => match j with v_array _ => true | _ => false end;
  json_keys := fun j => match j with v_object l => map fst l | _ => [] end;
  member := fun j k => match j with v_object l => assoc k l | _ => None end;
  elements := fun j => match j with v_array l => l | _ => [] end;
  get_string := fun j => match j with v_string s => Ok s | _ => type_error end;
  get_bool := fun j => match j with v_bool b => Ok b | _ => type_error end;
  get_double := value_double;
  get_int := fun j => match j with v_int z => Ok (wrap 32 (z + 2 ^ 31) - 2 ^ 31) | _ => type_error end;
  get_uint64 := fun j => match j with v_int z => Ok (wrap 64 z) | _ => type_error end
|}.

#[export] Instance value_numbers : JsonNumbers Value.
Proof.
  constructor.
  - intros [| |z|x| | |] y H; simpl in H; try done;
      [destruct (isnan (dz z)) eqn:E|destruct (isnan x) eqn:E]; try done; by simplify_eq.
  - intros [] v [=]. subst. by apply wrap_range.
Qed.

#[export] Instance value_writer : JsonWriter Value.
Proof.
  refine {| json_object := v_object; json_array := v_array; of_string := v_string; of_bool := v_bool;
    of_double := v_double; of_Z := v_int |}; try done.
  - intros x Hx. simpl. by rewrite Hx.
  - intros v Hv. simpl. f_equal. unfold wrap. rewrite Z.mod_small; [lia|]. int_lia.
  - intros v Hv. simpl. f_equal. unfold wrap. by apply Z.mod_small.
Defined.

(** A line count out of range, a misspelt key, and a section that is not an object. *)
Definition sample_document (lines : Z) : Value :=
  v_object [("scan", v_object [("lines", v_int lines); ("edge_exclusion", v_double (dz 5))]);
            ("comm", v_int 3); ("colour", v_null)].

Example load_sample :
  load_config_from_json (sample_document 8) =
    Ok (mkConfig default_machine default_wafer (mkScan 8 40 (dz 150) (dz 1) (dz 3)) default_noise []
          default_analysis default_cassette default_comm default_output,
        ["unknown key: .colour"; "unknown key: scan.edge_exclusion"]) /\
  load_config_from_json (sample_document 33) =
    Err (mkError 2 "scan.lines = 33 is out of range [1, 32]") /\
  load_config_from_json (v_object [("noise", v_object [("sigma_um", v_string "high")])]) =
    Err (mkError 2 "config parse error: [json.exception.type_error.302]").
Proof. vm_compute. done. Qed.

Lemma load_config_checked_witness :
  exists cfg w, load_config_from_json (sample_document 8) = Ok (cfg, w) /\ in_range cfg.
Proof.
  pose proof (load_config_checked (sample_document 8) 0) as H.
  destruct (load_config_from_json (sample_document 8)) as [[cfg w]|e] eqn:E;
    [|vm_compute in E; discriminate E].
  exists cfg, w. split; [done|]. apply H.
Defined.

(** A configuration in range with two faults. *)
Definition sample_config : Config :=
  mkConfig default_machine default_wafer default_scan default_noise
    [default_fault; mkFault "W005" "burst" (dr false 1 100) (dz 40) 5 (dz 0) (dz 0) (dz 2)]
    default_analysis default_cassette default_comm default_output.

Lemma sample_config_typed : config_typed sample_config.
Proof. constructor; try constructor; by repeat constructor. Qed.

Lemma config_roundtrip_witness :
  in_range sample_config /\ load_config_from_json (write_config sample_config) = Ok (sample_config, []).
Proof.
  assert (Hr : in_range sample_config).
  { apply (validate_in_range _ (typed_numbers _ sample_config_typed)). vm_compute. reflexivity. }
  split; [exact Hr|]. apply config_roundtrip; [apply sample_config_typed|exact Hr].
Defined.

(** *** What validation lets through *)

(** A timer of a tenth of a millisecond is accepted and becomes a timer of 0 ms. *)
Lemma tiny_timer_accepted :
  let c := mkComm true "127.0.0.1" 5000 0 true (dz 45) (dz 10) (dz 5) (dr false 1 10000) (dz 5) (dz 60) 1048576 in
  let cfg := mkConfig default_machine default_wafer default_scan default_noise [] default_analysis
    default_cassette c default_output in
  validate cfg = None /\ t7 (session_config_from 0 (comm cfg)) = 0.
Proof. vm_compute. done. Qed.

(** The plausibility window is not checked at all: one that excludes every stress is accepted. *)
Lemma plausible_unchecked :
  let a := mkAnalysis (dz 6) (dr false 1 100) (dz 2) (dz (-400)) (dz 400) (dz 5000) (dz (-5000)) (dz 1) 0 in
  validate (mkConfig default_machine default_wafer default_scan default_noise [] a
    default_cassette default_comm default_output) = None.
Proof. vm_compute. done. Qed.

(** The device id is not checked: 65536 is accepted and becomes 0. *)
Lemma device_id_unchecked :
  let c := mkComm true "127.0.0.1" 5000 65536 true (dz 45) (dz 10) (dz 5) (dz 10) (dz 5) (dz 60) 1048576 in
  let cfg := mkConfig default_machine default_wafer default_scan default_noise [] default_analysis
    default_cassette c default_output in
  validate cfg = None /\ device_id (session_config_from 0 (comm cfg)) = 0.
Proof. vm_compute. done. Qed.

(** A section of the wrong type is taken as absent, without a warning. *)
Lemma wrong_section_ignored :
  load_config_from_json (v_object [("scan", v_int 5)]) = Ok (default_config, []).
Proof. vm_compute. done. Qed.
