(* ===== verification/Queue.v ===== *)
(** * The mutex queue, and what both queues promise

    include/ssim/core/queue.hpp: [BackpressurePolicy] and [BoundedQueue<T>], the v1
    queue of the control path (inbox, jobs, log). Each critical section is one step;
    a blocked caller, its wake-up and the [notify] that follows an unlock are steps
    of their own, so every interleaving of any number of threads is a run.

    [Fifo] is the contract the callers of either queue rely on; the lock-free ring of
    SpscRing.v implements it too. *)

From S2P Require Import Prelude.

Inductive BackpressurePolicy := kBlock | kDropNewest.

#[global] Instance BackpressurePolicy_eq_dec : EqDecision BackpressurePolicy.
Proof. solve_decision. Defined.

(** ** The contract *)

Inductive fifo_event (T : Type) := fifo_push (x : T) | fifo_pop (x : T) | fifo_silent.
Arguments fifo_push {T}. Arguments fifo_pop {T}. Arguments fifo_silent {T}.

(** A first-in first-out buffer of at most [cap] items. *)
Inductive fifo_step {T} (cap : nat) : list T -> fifo_event T -> list T -> Prop :=
| step_push l x : (length l < cap)%nat -> fifo_step cap l (fifo_push x) (l ++ [x])
| step_pop l x : fifo_step cap (x :: l) (fifo_pop x) l
| step_silent l : fifo_step cap l fifo_silent l.

(** What a queue [Q] promises: it starts empty and each of its steps is a step of the
    bounded buffer. *)
Class Fifo (Q L T : Type) := {
  fifo_new : Q;
  fifo_run : L -> Q -> option Q;
  fifo_contents : Q -> list T;
  fifo_capacity : nat;
  fifo_new_empty : fifo_contents fifo_new = [];
  fifo_invariant : Q -> Prop;
  fifo_new_ok : fifo_invariant fifo_new;
  fifo_refines l q q' :
    fifo_invariant q -> fifo_run l q = Some q' ->
    fifo_invariant q' /\
    exists e, fifo_step fifo_capacity (fifo_contents q) e (fifo_contents q')
}.

Inductive fifo_reaches `{Fifo Q L T} : list (fifo_event T) -> Q -> Prop :=
| reaches_new : fifo_reaches [] fifo_new
| reaches_step es q l q' e :
    fifo_reaches es q -> fifo_run l q = Some q' ->
    fifo_step fifo_capacity (fifo_contents q) e (fifo_contents q') ->
    fifo_reaches (es ++ [e]) q'.

Definition pushes {T} (es : list (fifo_event T)) : list T :=
  omap (fun e => match e with fifo_push x => Some x | _ => None end) es.
Definition pops {T} (es : list (fifo_event T)) : list T :=
  omap (fun e => match e with fifo_pop x => Some x | _ => None end) es.

Lemma fifo_prefix `{Fifo Q L T} es q :
  fifo_reaches es q ->
  pushes es = pops es ++ fifo_contents q /\ (length (fifo_contents q) <= fifo_capacity)%nat.
Proof.
  induction 1 as [|es q l q' e _ [IH Hb] _ He]; [by rewrite fifo_new_empty; simpl; split; [|lia]|].
  unfold pushes, pops in *. rewrite !omap_app, IH. inversion He; subst; simpl.
  - split; [by rewrite app_nil_r, <- app_assoc|rewrite length_app; simpl; lia].
  - match goal with Hc : _ :: _ = fifo_contents q |- _ => rewrite <- Hc in * end.
    split; [by rewrite app_nil_r, <- app_assoc|simpl in *; lia].
  - by rewrite !app_nil_r.
Qed.

(** ** [BoundedQueue<T>] *)

Section bounded_queue.
Context {T : Type}.

(** The queue with the threads that are inside an operation of it: the items of the
    producers that sleep on [not_full_] and of those that were woken and have not
    taken the lock again, the numbers of such consumers, the [notify_one] calls that
    are due after an unlock and the [notify_all] pairs that are due after a close. *)
Record BoundedQueue := mkBounded {
  items_ : list T;
  capacity_ : nat;
  policy_ : BackpressurePolicy;
  dropped_ : nat;
  closed_ : bool;
  asleep_push : list T;
  awake_push : list T;
  asleep_pop : nat;
  awake_pop : nat;
  due_not_empty : nat;
  due_not_full : nat;
  due_all_empty : nat;
  due_all_full : nat;
  popped_ : list T;
  pushed_ : list T
}.

Definition new_bounded (capacity : nat) (policy : BackpressurePolicy) : BoundedQueue :=
  mkBounded [] capacity policy 0 false [] [] 0 0 0 0 0 0 [] [].

Definition set_items (l pu po : list T) (q : BoundedQueue) : BoundedQueue :=
  mkBounded l (capacity_ q) (policy_ q) (dropped_ q) (closed_ q) (asleep_push q) (awake_push q)
    (asleep_pop q) (awake_pop q) (due_not_empty q) (due_not_full q) (due_all_empty q)
    (due_all_full q) po pu.
Definition set_flags (dropped : nat) (closed : bool) (q : BoundedQueue) : BoundedQueue :=
  mkBounded (items_ q) (capacity_ q) (policy_ q) dropped closed (asleep_push q) (awake_push q)
    (asleep_pop q) (awake_pop q) (due_not_empty q) (due_not_full q) (due_all_empty q)
    (due_all_full q) (popped_ q) (pushed_ q).
Definition set_pushers (asleep awake : list T) (q : BoundedQueue) : BoundedQueue :=
  mkBounded (items_ q) (capacity_ q) (policy_ q) (dropped_ q) (closed_ q) asleep awake
    (asleep_pop q) (awake_pop q) (due_not_empty q) (due_not_full q) (due_all_empty q)
    (due_all_full q) (popped_ q) (pushed_ q).
Definition set_poppers (asleep awake : nat) (q : BoundedQueue) : BoundedQueue :=
  mkBounded (items_ q) (capacity_ q) (policy_ q) (dropped_ q) (closed_ q) (asleep_push q)
    (awake_push q) asleep awake (due_not_empty q) (due_not_full q) (due_all_empty q)
    (due_all_full q) (popped_ q) (pushed_ q).
Definition set_due (ne nf ae af : nat) (q : BoundedQueue) : BoundedQueue :=
  mkBounded (items_ q) (capacity_ q) (policy_ q) (dropped_ q) (closed_ q) (asleep_push q)
    (awake_push q) (asleep_pop q) (awake_pop q) ne nf ae af (popped_ q) (pushed_ q).

(** The end of [push]: the item goes in and a [notify_one] is due. *)
Definition enqueue (x : T) (q : BoundedQueue) : BoundedQueue :=
  set_due (S (due_not_empty q)) (due_not_full q) (due_all_empty q) (due_all_full q)
    (set_items (items_ q ++ [x]) (pushed_ q ++ [x]) (popped_ q) q).

(** [push] up to its return or its wait. *)
Definition push (x : T) (q : BoundedQueue) : BoundedQueue :=
  if closed_ q then q
  else if (capacity_ q <=? length (items_ q))%nat then
    match policy_ q with
    | kDropNewest => set_flags (S (dropped_ q)) (closed_ q) q
    | kBlock => set_pushers (asleep_push q ++ [x]) (awake_push q) q
    end
  else enqueue x q.

(** [push] from the moment it has the lock again: the predicate of [not_full_.wait],
    then the rest. *)
Definition push_resume (i : nat) (q : BoundedQueue) : option BoundedQueue :=
  match awake_push q !! i with
  | None => None
  | Some x =>
      let q' := set_pushers (asleep_push q) (delete i (awake_push q)) q in
      Some
        (if negb (length (items_ q) <? capacity_ q)%nat && negb (closed_ q) then
           set_pushers (asleep_push q' ++ [x]) (awake_push q') q'
         else if closed_ q then q' else enqueue x q')
  end.

(** [pop] once its predicate holds, the lock being held. *)
Definition dequeue (q : BoundedQueue) : BoundedQueue :=
  match items_ q with
  | [] => q
  | x :: rest =>
      set_due (due_not_empty q) (S (due_not_full q)) (due_all_empty q) (due_all_full q)
        (set_items rest (pushed_ q) (popped_ q ++ [x]) q)
  end.

Definition pop_ready (q : BoundedQueue) : bool :=
  negb (bool_decide (length (items_ q) = 0%nat)) || closed_ q.

Definition pop (q : BoundedQueue) : BoundedQueue :=
  if pop_ready q then dequeue q else set_poppers (S (asleep_pop q)) (awake_pop q) q.

Definition pop_resume (q : BoundedQueue) : option BoundedQueue :=
  match awake_pop q with
  | O => None
  | S n =>
      let q' := set_poppers (asleep_pop q) n q in
      Some (if pop_ready q then dequeue q' else set_poppers (S (asleep_pop q')) n q')
  end.

Definition close (q : BoundedQueue) : BoundedQueue :=
  set_due (due_not_empty q) (due_not_full q) (S (due_all_empty q)) (S (due_all_full q))
    (set_flags (dropped_ q) true q).

(** The sleeping producer at [i] wakes up, notified or not. *)
Definition wake_push (i : nat) (q : BoundedQueue) : option BoundedQueue :=
  match asleep_push q !! i with
  | None => None
  | Some x => Some (set_pushers (delete i (asleep_push q)) (awake_push q ++ [x]) q)
  end.

Definition wake_pop (q : BoundedQueue) : option BoundedQueue :=
  match asleep_pop q with
  | O => None
  | S n => Some (set_poppers n (S (awake_pop q)) q)
  end.

Inductive bounded_label :=
| b_push (x : T) | b_push_resume (i : nat)
| b_pop | b_pop_resume
| b_close
| b_notify_empty | b_notify_full (i : nat)
| b_notify_all_empty | b_notify_all_full
| b_spurious_push (i : nat) | b_spurious_pop.

Definition bounded_step (l : bounded_label) (q : BoundedQueue) : option BoundedQueue :=
  match l with
  | b_push x => Some (push x q)
  | b_push_resume i => push_resume i q
  | b_pop => Some (pop q)
  | b_pop_resume => pop_resume q
  | b_close => Some (close q)
  | b_notify_empty =>
      match due_not_empty q with
      | O => None
      | S n =>
          let q' := set_due n (due_not_full q) (due_all_empty q) (due_all_full q) q in
          Some (default q' (wake_pop q'))
      end
  | b_notify_full i =>
      match due_not_full q with
      | O => None
      | S n =>
          let q' := set_due (due_not_empty q) n (due_all_empty q) (due_all_full q) q in
          match asleep_push q with [] => Some q' | _ => wake_push i q' end
      end
  | b_notify_all_empty =>
      match due_all_empty q with
      | O => None
      | S n =>
          Some (set_poppers 0 (asleep_pop q + awake_pop q)
                  (set_due (due_not_empty q) (due_not_full q) n (due_all_full q) q))
      end
  | b_notify_all_full =>
      match due_all_full q with
      | O => None
      | S n =>
          Some (set_pushers [] (awake_push q ++ asleep_push q)
                  (set_due (due_not_empty q) (due_not_full q) (due_all_empty q) n q))
      end
  | b_spurious_push i => wake_push i q
  | b_spurious_pop => wake_pop q
  end.

Fixpoint bounded_run (ls : list bounded_label) (q : BoundedQueue) : option BoundedQueue :=
  match ls with
  | [] => Some q
  | l :: ls => bounded_step l q ≫= bounded_run ls
  end.

(** ** Its invariant *)

(** No wake-up is lost: while a consumer sleeps, every item is covered by a notify
    that is due or by a consumer already awake, and a close by the [notify_all] that
    follows it; the mirror image holds of the producers and the free places. Inside an
    operation [a] items, or [b] places, may be uncovered. *)
Record bounded_upto (a b : nat) (q : BoundedQueue) : Prop := mkBoundedOk {
  bo_fifo : pushed_ q = popped_ q ++ items_ q;
  bo_bound : (length (items_ q) <= capacity_ q)%nat;
  bo_pop : (0 < asleep_pop q)%nat -> closed_ q = false ->
    (length (items_ q) <= a + due_not_empty q + awake_pop q)%nat;
  bo_push : (0 < length (asleep_push q))%nat -> closed_ q = false ->
    (capacity_ q - length (items_ q) <= b + due_not_full q + length (awake_push q))%nat;
  bo_close_pop : (0 < asleep_pop q)%nat -> closed_ q = true -> (0 < due_all_empty q)%nat;
  bo_close_push : (0 < length (asleep_push q))%nat -> closed_ q = true ->
    (0 < due_all_full q)%nat
}.

Abbreviation bounded_ok := (bounded_upto 0 0).

Ltac queue_simpl :=
  unfold set_items, set_flags, set_pushers, set_poppers, set_due in *;
  cbn [items_ capacity_ policy_ dropped_ closed_ asleep_push awake_push asleep_pop awake_pop
       due_not_empty due_not_full due_all_empty due_all_full popped_ pushed_] in *.

(** The clauses of the invariant after a step, from those before it. *)
Ltac queue_clauses :=
  split; queue_simpl; try done; try (intros; done);
  repeat match goal with |- _ -> _ => intros ? end;
  repeat match goal with
  | H : (0 < ?n)%nat -> _, H' : (0 < ?n)%nat |- _ => specialize (H H')
  | H : ?b = ?c -> _, H' : ?b = ?c |- _ => specialize (H H')
  end;
  rewrite ?length_app in *; simpl in *; try done; try lia.

Lemma enqueue_ok a b x q :
  bounded_upto a b q -> (length (items_ q) < capacity_ q)%nat ->
  bounded_upto a (pred b) (enqueue x q).
Proof.
  intros [Hf Hb Hp Hq Hcp Hcq] Hl. unfold enqueue. queue_clauses.
  by rewrite Hf, <- app_assoc.
Qed.

Lemma dequeue_ok a b q :
  bounded_upto a b q -> pop_ready q = true -> bounded_upto (pred a) b (dequeue q).
Proof.
  intros [Hf Hb Hp Hq Hcp Hcq] Hr. unfold dequeue, pop_ready in *.
  destruct (items_ q) as [|x rest] eqn:E; simpl in *.
  { queue_clauses; rewrite ?E in *; simpl in *; try done; try lia; congruence. }
  queue_clauses. by rewrite Hf, <- app_assoc.
Qed.

Lemma length_delete_Some {A} (l : list A) i x :
  l !! i = Some x -> length l = S (length (delete i l)).
Proof.
  intros Hi. rewrite length_delete by done. pose proof (lookup_lt_Some l i x Hi). lia.
Qed.

Lemma push_ok x q : bounded_ok q -> bounded_ok (push x q).
Proof.
  intros Hq. unfold push. destruct (closed_ q) eqn:Ec; [done|].
  destruct (Nat.leb_spec (capacity_ q) (length (items_ q))); [|by apply (enqueue_ok 0 0)].
  destruct Hq. destruct (policy_ q); queue_clauses; by rewrite ?Ec in *.
Qed.

Lemma push_resume_ok i q q' : bounded_ok q -> push_resume i q = Some q' -> bounded_ok q'.
Proof.
  intros Hq. unfold push_resume. destruct (awake_push q !! i) as [x|] eqn:Ei; [|done].
  apply length_delete_Some in Ei. intros [= <-].
  assert (Hw : bounded_upto 0 1 (set_pushers (asleep_push q) (delete i (awake_push q)) q)).
  { destruct Hq. queue_clauses. }
  destruct (Nat.ltb_spec (length (items_ q)) (capacity_ q)); simpl.
  - destruct (closed_ q) eqn:Ec; [|by apply (enqueue_ok 0 1)].
    destruct Hw. queue_clauses; by rewrite ?Ec in *.
  - destruct (closed_ q) eqn:Ec; simpl; destruct Hw; queue_clauses; by rewrite ?Ec in *.
Qed.

Lemma pop_resume_ok q q' : bounded_ok q -> pop_resume q = Some q' -> bounded_ok q'.
Proof.
  intros Hq. unfold pop_resume. destruct (awake_pop q) as [|n] eqn:En; [done|]. intros [= <-].
  assert (Hw : bounded_upto 1 0 (set_poppers (asleep_pop q) n q)).
  { destruct Hq. queue_clauses. }
  destruct (pop_ready q) eqn:Er; [by apply (dequeue_ok 1 0)|].
  unfold pop_ready in Er. apply orb_false_iff in Er as [Er Ec].
  apply negb_false_iff, bool_decide_eq_true in Er.
  destruct Hw. queue_clauses; congruence.
Qed.

Lemma pop_ok q : bounded_ok q -> bounded_ok (pop q).
Proof.
  intros Hq. unfold pop. destruct (pop_ready q) eqn:Er; [by apply (dequeue_ok 0 0)|].
  unfold pop_ready in Er. apply orb_false_iff in Er as [Er Ec].
  apply negb_false_iff, bool_decide_eq_true in Er.
  destruct Hq. queue_clauses; congruence.
Qed.

Lemma wake_push_ok a b i q q' :
  bounded_upto a (S b) q -> wake_push i q = Some q' -> bounded_upto a b q'.
Proof.
  intros Hq. unfold wake_push. destruct (asleep_push q !! i) as [x|] eqn:Ei; [|done].
  apply length_delete_Some in Ei. intros [= <-].
  assert (0 < length (asleep_push q))%nat by lia. destruct Hq. queue_clauses.
Qed.

Lemma bounded_weaken a b a' b' q :
  (a <= a')%nat -> (b <= b')%nat -> bounded_upto a b q -> bounded_upto a' b' q.
Proof. intros Ha Hb []. queue_clauses. Qed.

Lemma wake_pop_ok a b q q' :
  bounded_upto (S a) b q -> wake_pop q = Some q' -> bounded_upto a b q'.
Proof.
  intros Hq. unfold wake_pop. destruct (asleep_pop q) as [|n] eqn:En; [done|].
  intros [= <-]. assert (0 < asleep_pop q)%nat by lia. destruct Hq. queue_clauses.
Qed.

Lemma bounded_step_ok l q q' : bounded_ok q -> bounded_step l q = Some q' -> bounded_ok q'.
Proof.
  intros Hq. destruct l as [x|i| | | | |i| | |i|]; simpl.
  - intros [= <-]. by apply push_ok.
  - by apply push_resume_ok.
  - intros [= <-]. by apply pop_ok.
  - by apply pop_resume_ok.
  - intros [= <-]. unfold close. destruct Hq. queue_clauses.
  - destruct (due_not_empty q) as [|n] eqn:En; [done|]. intros [= <-].
    set (q1 := set_due _ _ _ _ q).
    assert (Hq1 : bounded_upto 1 0 q1) by (destruct Hq; queue_clauses).
    destruct (wake_pop q1) as [q2|] eqn:Ew; simpl; [by eapply wake_pop_ok|].
    unfold wake_pop in Ew. destruct (asleep_pop q1) as [|k] eqn:Ek; [|done].
    clear Hq1. destruct Hq. unfold q1 in *. queue_clauses.
  - destruct (due_not_full q) as [|n] eqn:En; [done|].
    set (q1 := set_due _ _ _ _ q).
    assert (Hq1 : bounded_upto 0 1 q1) by (destruct Hq; queue_clauses).
    destruct (asleep_push q) as [|x l] eqn:Ea; [|by apply wake_push_ok].
    intros [= <-]. clear Hq1. destruct Hq. unfold q1. queue_clauses; rewrite ?Ea in *; simpl in *; lia.
  - destruct (due_all_empty q); [done|]. intros [= <-]. destruct Hq. queue_clauses.
  - destruct (due_all_full q); [done|]. intros [= <-]. destruct Hq. queue_clauses.
  - intros Hw. eapply wake_push_ok; [|done]. eapply (bounded_weaken 0 0); [lia..|done].
  - intros Hw. eapply wake_pop_ok; [|done]. eapply (bounded_weaken 0 0); [lia..|done].
Qed.

Lemma bounded_run_ok ls q q' : bounded_ok q -> bounded_run ls q = Some q' -> bounded_ok q'.
Proof.
  revert q. induction ls as [|l ls IH]; simpl; intros q Hq Hr; [by simplify_eq|].
  apply bind_Some in Hr as (q1 & H1 & Hr). by eapply IH, Hr; eapply bounded_step_ok.
Qed.

Lemma new_bounded_ok capacity policy : bounded_ok (new_bounded capacity policy).
Proof. split; simpl; try done; lia. Qed.

(** ** It is a bounded first-in first-out buffer *)

Lemma enqueue_fifo x q :
  (length (items_ q) < capacity_ q)%nat ->
  exists e, fifo_step (capacity_ q) (items_ q) e (items_ (enqueue x q)).
Proof. intros. exists (fifo_push x). by constructor. Qed.

Lemma dequeue_fifo q : exists e, fifo_step (capacity_ q) (items_ q) e (items_ (dequeue q)).
Proof.
  unfold dequeue. destruct (items_ q) as [|x l] eqn:E; simpl.
  - rewrite E. exists fifo_silent. constructor.
  - exists (fifo_pop x). constructor.
Qed.

Lemma silent_fifo {cap} {l : list T} : exists e, fifo_step cap l e l.
Proof. exists fifo_silent. constructor. Qed.

Lemma bounded_step_fifo l q q' :
  bounded_step l q = Some q' ->
  capacity_ q' = capacity_ q /\ exists e, fifo_step (capacity_ q) (items_ q) e (items_ q').
Proof.
  assert (Hd : forall q0, capacity_ (dequeue q0) = capacity_ q0).
  { intros q0. unfold dequeue. by destruct (items_ q0). }
  destruct l as [x|i| | | | |i| | |i|]; simpl; intros Hs.
  - injection Hs as <-. unfold push. destruct (closed_ q); [split; [done|apply silent_fifo]|].
    destruct (Nat.leb_spec (capacity_ q) (length (items_ q))).
    + destruct (policy_ q); (split; [done|apply silent_fifo]).
    + split; [done|by apply enqueue_fifo].
  - unfold push_resume in Hs. destruct (awake_push q !! i) as [x|]; [|done].
    injection Hs as <-. destruct (Nat.ltb_spec (length (items_ q)) (capacity_ q)); simpl.
    + destruct (closed_ q); (split; [done|]); [apply silent_fifo|].
      by apply (enqueue_fifo x (set_pushers (asleep_push q) (delete i (awake_push q)) q)).
    + destruct (closed_ q); (split; [done|apply silent_fifo]).
  - injection Hs as <-. unfold pop.
    destruct (pop_ready q); (split; [by rewrite ?Hd|]); [apply dequeue_fifo|apply silent_fifo].
  - unfold pop_resume in Hs. destruct (awake_pop q) as [|n]; [done|]. injection Hs as <-.
    destruct (pop_ready q); (split; [by rewrite ?Hd|]); [|apply silent_fifo].
    apply (dequeue_fifo (set_poppers (asleep_pop q) n q)).
  - injection Hs as <-. split; [done|apply silent_fifo].
  - destruct (due_not_empty q) as [|n]; [done|]. injection Hs as <-.
    unfold wake_pop. simpl. destruct (asleep_pop q); (split; [done|apply silent_fifo]).
  - destruct (due_not_full q) as [|n]; [done|]. destruct (asleep_push q) as [|x l] eqn:Ea.
    + injection Hs as <-. split; [done|apply silent_fifo].
    + unfold wake_push in Hs. case_match; [|done]. injection Hs as <-.
      split; [done|apply silent_fifo].
  - destruct (due_all_empty q); [done|]. injection Hs as <-. split; [done|apply silent_fifo].
  - destruct (due_all_full q); [done|]. injection Hs as <-. split; [done|apply silent_fifo].
  - unfold wake_push in Hs. case_match; [|done]. injection Hs as <-.
    split; [done|apply silent_fifo].
  - unfold wake_pop in Hs. destruct (asleep_pop q); [done|]. injection Hs as <-.
    split; [done|apply silent_fifo].
Qed.

(** ** The threads left inside settle *)

(** The steps that threads already inside the queue take by themselves. *)
Definition internal (l : bounded_label) : bool :=
  match l with
  | b_push_resume _ | b_pop_resume | b_notify_empty | b_notify_full _ | b_notify_all_empty
  | b_notify_all_full => true
  | _ => false
  end.

Definition settled (q : BoundedQueue) : Prop :=
  awake_push q = [] /\ awake_pop q = 0%nat /\ due_not_empty q = 0%nat /\
  due_not_full q = 0%nat /\ due_all_empty q = 0%nat /\ due_all_full q = 0%nat.

Definition work (q : BoundedQueue) : nat :=
  (due_all_empty q + due_all_full q) *
    S (length (asleep_push q) + length (awake_push q) + asleep_pop q + awake_pop q) +
  3 * (length (awake_push q) + awake_pop q) + 2 * (length (asleep_push q) + asleep_pop q) +
  2 * (due_not_empty q + due_not_full q).

Lemma dequeue_work q : (work (dequeue q) <= work q + 2)%nat.
Proof. unfold dequeue. destruct (items_ q); unfold work; queue_simpl; lia. Qed.

Lemma internal_work l q q' :
  internal l = true -> bounded_step l q = Some q' -> (work q' < work q)%nat.
Proof.
  intros Hi. destruct l as [x|i| | | | |i| | |i|]; try done; simpl.
  - unfold push_resume. destruct (awake_push q !! i) as [x|] eqn:Ei; [|done].
    apply length_delete_Some in Ei. intros [= <-].
    repeat case_match; unfold work, enqueue; queue_simpl; rewrite ?length_app; simpl; nia.
  - unfold pop_resume. destruct (awake_pop q) as [|n] eqn:En; [done|]. intros [= <-].
    case_match; [|unfold work; queue_simpl; nia].
    eapply Nat.le_lt_trans; [apply dequeue_work|]. unfold work. queue_simpl. rewrite En. nia.
  - destruct (due_not_empty q) as [|n] eqn:En; [done|]. intros [= <-]. unfold wake_pop.
    case_match; simpl; unfold work; queue_simpl; rewrite ?En in *; try nia.
  - destruct (due_not_full q) as [|n] eqn:En; [done|].
    destruct (asleep_push q) as [|x l] eqn:Ea.
    + intros [= <-]. unfold work. queue_simpl. rewrite En. nia.
    + unfold wake_push. queue_simpl. destruct (asleep_push q !! i) as [y|] eqn:Ei; [|done].
      apply length_delete_Some in Ei. intros [= <-]. unfold work. queue_simpl.
      rewrite En, length_app. simpl. nia.
  - destruct (due_all_empty q) eqn:En; [done|]. intros [= <-]. unfold work. queue_simpl.
    rewrite En. nia.
  - destruct (due_all_full q) eqn:En; [done|]. intros [= <-]. unfold work. queue_simpl.
    rewrite En, length_app. simpl. nia.
Qed.

Lemma unsettled_step q :
  settled q \/ exists l q', internal l = true /\ bounded_step l q = Some q'.
Proof.
  destruct (awake_push q) as [|x l] eqn:E1.
  2: { right. exists (b_push_resume 0). simpl. unfold push_resume. rewrite E1. simpl. by eexists. }
  destruct (awake_pop q) as [|n] eqn:E2.
  2: { right. exists b_pop_resume. simpl. unfold pop_resume. rewrite E2. by eexists. }
  destruct (due_not_empty q) as [|n] eqn:E3.
  2: { right. exists b_notify_empty. simpl. rewrite E3. by eexists. }
  destruct (due_not_full q) as [|n] eqn:E4.
  2: { right. exists (b_notify_full 0). simpl. rewrite E4.
       destruct (asleep_push q) as [|x l] eqn:E; [by eexists|].
       unfold wake_push. queue_simpl. rewrite E. simpl. by eexists. }
  destruct (due_all_empty q) as [|n] eqn:E5.
  2: { right. exists b_notify_all_empty. simpl. rewrite E5. by eexists. }
  destruct (due_all_full q) as [|n] eqn:E6.
  2: { right. exists b_notify_all_full. simpl. rewrite E6. by eexists. }
  left. by split_and!.
Qed.

Lemma settles q :
  exists ls q', Forall (fun l => internal l = true) ls /\ bounded_run ls q = Some q' /\ settled q'.
Proof.
  induction q as [q IH] using (well_founded_ind (well_founded_ltof _ work)).
  destruct (unsettled_step q) as [Hs|(l & q1 & Hi & Hs)]; [by exists [], q|].
  destruct (IH q1) as (ls & q' & Hf & Hr & Hq'); [by eapply internal_work|].
  exists (l :: ls), q'. split_and!; [by constructor|simpl; by rewrite Hs|done].
Qed.

Lemma internal_run_bound ls q q' :
  Forall (fun l => internal l = true) ls -> bounded_run ls q = Some q' ->
  (length ls <= work q)%nat.
Proof.
  intros Hf. revert q. induction Hf as [|l ls Hl Hf IH]; intros q Hr; simpl in *; [lia|].
  apply bind_Some in Hr as (q1 & H1 & Hr). specialize (IH q1 Hr).
  apply internal_work in H1; [lia|done].
Qed.

Lemma bounded_run_capacity ls q q' :
  bounded_run ls q = Some q' -> capacity_ q' = capacity_ q.
Proof.
  revert q. induction ls as [|l ls IH]; simpl; intros q Hr; [by simplify_eq|].
  apply bind_Some in Hr as (q1 & H1 & Hr). rewrite (IH q1 Hr).
  by apply bounded_step_fifo in H1 as [].
Qed.

Lemma closed_step l q q' :
  closed_ q = true -> bounded_step l q = Some q' -> closed_ q' = true /\ pushed_ q' = pushed_ q.
Proof.
  intros Hc Hs. assert (Hd : forall q0, closed_ (dequeue q0) = closed_ q0 /\
    pushed_ (dequeue q0) = pushed_ q0).
  { intros q0. unfold dequeue. by destruct (items_ q0). }
  destruct l as [x|i| | | | |i| | |i|]; simpl in Hs;
    unfold push, push_resume, pop, pop_resume, wake_push, wake_pop, pop_ready in Hs;
    queue_simpl; rewrite ?Hc, ?orb_true_r, ?andb_false_r in Hs; simpl in Hs;
    repeat case_match; simplify_eq/=; rewrite ?(proj1 (Hd _)), ?(proj2 (Hd _)); done.
Qed.

(** [C28] The mutex queue, for any number of producers and consumers and every
    interleaving of them, spurious wake-ups included: items come out in the order in
    which they went in, at most [capacity] are held, and after [close] none goes in.
    No wake-up is lost: left to themselves the threads already inside always come to
    rest, after at most [work q] steps, and then a consumer still asleep means the
    queue is empty and open, a producer still asleep that it is full and open. *)
Theorem bounded_queue_correct capacity policy ls q :
  bounded_run ls (new_bounded capacity policy) = Some q ->
  pushed_ q = popped_ q ++ items_ q /\
  (length (items_ q) <= capacity)%nat /\
  (closed_ q = true -> forall l q', bounded_step l q = Some q' ->
     closed_ q' = true /\ pushed_ q' = pushed_ q) /\
  (forall ls' q', Forall (fun l => internal l = true) ls' -> bounded_run ls' q = Some q' ->
     (length ls' <= work q)%nat) /\
  exists ls' q',
    Forall (fun l => internal l = true) ls' /\ bounded_run ls' q = Some q' /\ settled q' /\
    ((0 < asleep_pop q')%nat -> items_ q' = [] /\ closed_ q' = false) /\
    (asleep_push q' <> [] -> length (items_ q') = capacity /\ closed_ q' = false).
Proof.
  intros Hr. pose proof (bounded_run_ok _ _ _ (new_bounded_ok capacity policy) Hr) as Hq.
  pose proof (bounded_run_capacity _ _ _ Hr) as Hcap. simpl in Hcap.
  split_and!; [apply Hq|rewrite <- Hcap; apply Hq|by intros; eapply closed_step| |].
  { intros. by eapply internal_run_bound. }
  destruct (settles q) as (ls' & q' & Hf & Hr' & Hs). exists ls', q'. split_and!; try done.
  all: pose proof (bounded_run_ok _ _ _ Hq Hr') as [_ Hb Hp Hw Hcp Hcw].
  all: pose proof (bounded_run_capacity _ _ _ Hr') as Hcap'.
  all: destruct Hs as (E1 & E2 & E3 & E4 & E5 & E6); rewrite E1, E2, E3, E4, E5, E6 in *.
  - intros Ha. destruct (closed_ q') eqn:Ec; [specialize (Hcp Ha eq_refl); lia|].
    split; [|done]. apply length_zero_iff_nil. specialize (Hp Ha eq_refl). lia.
  - intros Ha. assert (0 < length (asleep_push q'))%nat as Ha'.
    { destruct (asleep_push q'); simpl; [done|lia]. }
    destruct (closed_ q') eqn:Ec; [specialize (Hcw Ha' eq_refl); lia|].
    split; [|done]. specialize (Hw Ha' eq_refl). simpl in Hw. lia.
Qed.

#[export] Instance bounded_fifo (capacity : nat) (policy : BackpressurePolicy) :
  Fifo BoundedQueue bounded_label T.
Proof.
  refine {|
    fifo_new := new_bounded capacity policy;
    fifo_run := bounded_step;
    fifo_contents := items_;
    fifo_capacity := capacity;
    fifo_invariant := fun q => bounded_ok q /\ capacity_ q = capacity
  |}.
  - done.
  - split; [apply new_bounded_ok|done].
  - intros l q q' [Hq Hc] Hs. destruct (bounded_step_fifo l q q' Hs) as [Hc' He].
    rewrite Hc in *. split; [split; [by eapply bounded_step_ok|done]|done].
Defined.

End bounded_queue.

Arguments BoundedQueue : clear implicits.
Arguments bounded_label : clear implicits.

(** Two producers and a consumer on a queue of one place: the consumer goes to sleep,
    both producers push, the second goes to sleep, and nobody is forgotten. *)
Lemma bounded_queue_correct_witness :
  exists q : BoundedQueue Z,
    bounded_run [b_pop; b_push 1; b_push 2; b_notify_empty; b_pop_resume; b_notify_full 0]
      (new_bounded 1 kBlock) = Some q /\
    pushed_ q = popped_ q ++ items_ q /\
    exists ls' q', Forall (fun l => internal l = true) ls' /\ bounded_run ls' q = Some q' /\
      settled q'.
Proof.
  set (ls := [b_pop; b_push 1; b_push 2; b_notify_empty; b_pop_resume; b_notify_full 0]).
  destruct (bounded_run ls (new_bounded 1 kBlock)) as [q|] eqn:E; [|vm_compute in E; discriminate E].
  exists q. split; [done|].
  destruct (bounded_queue_correct 1 kBlock ls q E) as (Hf & _ & _ & _ & ls' & q' & Hi & Hr & Hs & _).
  split; [exact Hf|]. by exists ls', q'.
Defined.
