(* ===== verification/FitPool.v ===== *)
(** * The fit thread pool

    include/ssim/analysis/fit_pool.hpp and src/analysis/fit_pool.cpp: one call of
    [for_each_index] spread over the workers, and the destructor. The job queue is the
    blocking queue of [Queue], here as the bounded first-in first-out list it is proved to
    be; a critical section under [done_mutex] is one step. *)

From S2P Require Import Prelude Queue.

Definition kJobQueueCapacity : nat := 256.

(** [hardware] is [std::thread::hardware_concurrency], 0 when unknown. *)
Definition resolve_thread_count (hardware n_threads : nat) : nat :=
  if (n_threads =? 0)%nat then Nat.max 1 (if (0 <? hardware)%nat then hardware - 1 else 1)
  else n_threads.

(** Where the calling thread is: pushing job [i], asleep in [done_cv.wait] or about to
    look at [remaining] again, back from the call, joining the workers, done. *)
Inductive OwnerAt :=
  owner_push (i : nat) | owner_asleep | owner_awake | owner_returned | owner_joining | owner_gone.

(** Where a worker is: in [pop], in [fn(i)], after it and before the lock, ended. *)
Inductive PoolWorkerAt := at_pop | at_job (i : nat) | at_lock (i : nat) | at_end.

#[global] Instance PoolWorkerAt_eq_dec : EqDecision PoolWorkerAt.
Proof. solve_decision. Defined.

Section pool.
Context {B : Type} (count : nat) (fn : nat -> B).

Record FitThreadPool := mkPool {
  owner : OwnerAt;
  remaining : nat;
  jobs : list nat;
  jobs_closed : bool;
  workers_ : list PoolWorkerAt;
  slots : list (option B)
}.

(** A pool at rest, as the constructor and every call leave it. *)
Definition new_pool (hardware n_threads : nat) : FitThreadPool :=
  mkPool owner_returned 0 [] false (replicate (resolve_thread_count hardware n_threads) at_pop) [].

(** The start of [for_each_index], with a slot for every index. *)
Definition for_each_index (p : FitThreadPool) : FitThreadPool :=
  mkPool (owner_push 0) count (jobs p) (jobs_closed p) (workers_ p) (replicate count None).

Definition set_owner (o : OwnerAt) (p : FitThreadPool) : FitThreadPool :=
  mkPool o (remaining p) (jobs p) (jobs_closed p) (workers_ p) (slots p).
Definition set_pool_jobs (l : list nat) (p : FitThreadPool) : FitThreadPool :=
  mkPool (owner p) (remaining p) l (jobs_closed p) (workers_ p) (slots p).
Definition move_worker (w : nat) (a : PoolWorkerAt) (p : FitThreadPool) : FitThreadPool :=
  mkPool (owner p) (remaining p) (jobs p) (jobs_closed p) (<[w := a]> (workers_ p)) (slots p).
Definition fill_slot (i : nat) (p : FitThreadPool) : FitThreadPool :=
  mkPool (owner p) (remaining p) (jobs p) (jobs_closed p) (workers_ p) (<[i := Some (fn i)]> (slots p)).

(** ** The calling thread *)

(** [jobs_.push], which waits while the queue is full. *)
Definition push_job (p : FitThreadPool) : option FitThreadPool :=
  match owner p with
  | owner_push i =>
      if (i <? count)%nat && (length (jobs p) <? kJobQueueCapacity)%nat
      then Some (set_owner (owner_push (S i)) (set_pool_jobs (jobs p ++ [i]) p))
      else None
  | _ => None
  end.

(** The test of [done_cv.wait], on first reaching it and after every wake-up. *)
Definition check_done (p : FitThreadPool) : option FitThreadPool :=
  let next := set_owner (if (remaining p =? 0)%nat then owner_returned else owner_asleep) p in
  match owner p with
  | owner_push i => if (i <? count)%nat then None else Some next
  | owner_awake => Some next
  | _ => None
  end.

Definition wake_owner (p : FitThreadPool) : FitThreadPool :=
  match owner p with owner_asleep => set_owner owner_awake p | _ => p end.

(** The destructor: [jobs_.close], then a join of every worker. *)
Definition close_pool (p : FitThreadPool) : option FitThreadPool :=
  match owner p with
  | owner_returned =>
      Some (mkPool owner_joining (remaining p) (jobs p) true (workers_ p) (slots p))
  | _ => None
  end.

Definition join_all (p : FitThreadPool) : option FitThreadPool :=
  match owner p with
  | owner_joining =>
      if forallb (fun a => bool_decide (a = at_end)) (workers_ p) then Some (set_owner owner_gone p)
      else None
  | _ => None
  end.

(** ** The workers *)

(** What worker [w] does next: take a job or end, run it, report it. *)
Definition worker_step (w : nat) (p : FitThreadPool) : option FitThreadPool :=
  match workers_ p !! w with
  | Some at_pop =>
      match jobs p with
      | i :: l => Some (move_worker w (at_job i) (set_pool_jobs l p))
      | [] => if jobs_closed p then Some (move_worker w at_end p) else None
      end
  | Some (at_job i) => Some (move_worker w (at_lock i) (fill_slot i p))
  | Some (at_lock i) =>
      let p := move_worker w at_pop p in
      let left := (remaining p - 1)%nat in
      let p := mkPool (owner p) left (jobs p) (jobs_closed p) (workers_ p) (slots p) in
      Some (if (left =? 0)%nat then wake_owner p else p)
  | _ => None
  end.

(** ** Runs *)

Inductive pool_label := pl_push | pl_check | pl_spurious | pl_close | pl_join | pl_worker (w : nat).

Definition pool_step (l : pool_label) (p : FitThreadPool) : option FitThreadPool :=
  match l with
  | pl_push => push_job p
  | pl_check => check_done p
  | pl_spurious => match owner p with owner_asleep => Some (wake_owner p) | _ => None end
  | pl_close => close_pool p
  | pl_join => join_all p
  | pl_worker w => worker_step w p
  end.

Fixpoint pool_run (ls : list pool_label) (p : FitThreadPool) : option FitThreadPool :=
  match ls with
  | [] => Some p
  | l :: ls => pool_step l p ≫= pool_run ls
  end.

(** ** Invariant *)

Definition pushed_jobs (p : FitThreadPool) : nat :=
  match owner p with owner_push i => i | _ => count end.

Definition busy (a : PoolWorkerAt) : bool := match a with at_job _ | at_lock _ => true | _ => false end.

Definition n_busy (ws : list PoolWorkerAt) : nat := length (List.filter busy ws).

(** Index [i] is in the queue or with a worker. *)
Definition in_hand (i : nat) (p : FitThreadPool) : Prop :=
  i ∈ jobs p \/ at_job i ∈ workers_ p.

Record pool_ok (n : nat) (p : FitThreadPool) : Prop := mkPoolOk {
  ok_pushed : (pushed_jobs p <= count)%nat;
  ok_remaining : remaining p = (count - pushed_jobs p + length (jobs p) + n_busy (workers_ p))%nat;
  ok_slots : length (slots p) = count;
  ok_workers : length (workers_ p) = n;
  ok_below : forall i, in_hand i p -> (i < count)%nat;
  ok_filled : forall i, (i < pushed_jobs p)%nat -> in_hand i p \/ slots p !! i = Some (Some (fn i));
  ok_asleep : owner p = owner_asleep -> remaining p <> 0%nat;
  ok_returned : owner p = owner_returned \/ owner p = owner_joining \/ owner p = owner_gone ->
    remaining p = 0%nat;
  ok_closed : jobs_closed p = true <-> owner p = owner_joining \/ owner p = owner_gone;
  ok_ended : at_end ∈ workers_ p -> jobs_closed p = true
}.

Lemma n_busy_insert (ws : list PoolWorkerAt) (w : nat) a a' : ws !! w = Some a ->
  (n_busy (<[w := a']> ws) + Nat.b2n (busy a) = n_busy ws + Nat.b2n (busy a'))%nat.
Proof.
  unfold n_busy. revert w. induction ws as [|b ws IH]; intros [|w] Hw; simplify_eq/=.
  - destruct (busy a), (busy a'); simpl; lia.
  - specialize (IH w Hw). destruct (busy b); simpl; lia.
Qed.

(** A place that only the worker at [w] can have left is held after the move by [a'] or
    by another worker, as before. *)
Lemma elem_of_moved (ws : list PoolWorkerAt) (w : nat) a a' (b : PoolWorkerAt) : ws !! w = Some a -> b <> a ->
  b ∈ ws -> b ∈ <[w := a']> ws.
Proof.
  intros Hw Hb Hin. apply list_elem_of_lookup in Hin as [v Hv].
  apply list_elem_of_lookup. exists v. rewrite list_lookup_insert_ne; [done|]. congruence.
Qed.

Lemma elem_of_new (ws : list PoolWorkerAt) (w : nat) a' (b : PoolWorkerAt) : b ∈ <[w := a']> ws -> b = a' \/ b ∈ ws.
Proof.
  intros Hin. apply list_elem_of_lookup in Hin as [v Hv].
  apply list_lookup_insert_Some in Hv as [(_ & -> & _)|[_ Hv]]; [by left|right].
  by eapply list_elem_of_lookup_2.
Qed.

Ltac pool_fields := constructor; unfold pushed_jobs, in_hand in *; cbn -[n_busy] in *.

Lemma new_call_ok hardware n_threads :
  pool_ok (resolve_thread_count hardware n_threads) (for_each_index (new_pool hardware n_threads)).
Proof.
  assert (Hw : forall n, n_busy (replicate n at_pop) = 0%nat) by (induction n; done).
  constructor; unfold pushed_jobs; simpl.
  - lia.
  - rewrite Hw. lia.
  - apply length_replicate.
  - apply length_replicate.
  - intros i [Hi|Hi]; [by apply not_elem_of_nil in Hi|].
    by apply elem_of_replicate in Hi as [Hi _].
  - lia.
  - done.
  - intros [|[|]]; done.
  - split; [done|by intros []].
  - intros Hi. by apply elem_of_replicate in Hi as [Hi _].
Qed.

Lemma worker_pop_ok n w i l p : pool_ok n p -> workers_ p !! w = Some at_pop -> jobs p = i :: l ->
  pool_ok n (move_worker w (at_job i) (set_pool_jobs l p)).
Proof.
  intros [H1 H2 H3 H4 H5 H6 H7 H8 H9 H10] Hw Hj.
  pose proof (n_busy_insert _ _ _ (at_job i) Hw) as Hb. simpl in Hb. rewrite Hj in *.
  pool_fields; try done; rewrite ?Hj in *.
  - lia.
  - by rewrite length_insert.
  - intros k [Hk|Hk]; [apply H5; left; by right|].
    apply elem_of_new in Hk as [[= ->]|Hk]; [apply H5; left; by left|apply H5; by right].
  - intros k Hk. destruct (H6 k Hk) as [[Hin|Hin]|Hs]; [|left; right|by right].
    + apply elem_of_cons in Hin as [->|Hin]; [left; right|left; by left].
      apply list_elem_of_lookup. exists w. apply list_lookup_insert_eq. by eapply lookup_lt_Some.
    + by eapply elem_of_moved.
  - intros Hk. apply elem_of_new in Hk as [|]; [done|by apply H10].
Qed.

Lemma worker_end_ok n w p : pool_ok n p -> workers_ p !! w = Some at_pop -> jobs_closed p = true ->
  pool_ok n (move_worker w at_end p).
Proof.
  intros [H1 H2 H3 H4 H5 H6 H7 H8 H9 H10] Hw Hc.
  pose proof (n_busy_insert _ _ _ at_end Hw) as Hb. simpl in Hb.
  pool_fields; try done.
  - lia.
  - by rewrite length_insert.
  - intros k [Hk|Hk]; [apply H5; by left|].
    apply elem_of_new in Hk as [|Hk]; [done|apply H5; by right].
  - intros k Hk. destruct (H6 k Hk) as [[Hin|Hin]|Hs]; [left; by left|left; right|by right].
    by eapply elem_of_moved.
Qed.

Lemma worker_job_ok n w i p : pool_ok n p -> workers_ p !! w = Some (at_job i) ->
  pool_ok n (move_worker w (at_lock i) (fill_slot i p)).
Proof.
  intros [H1 H2 H3 H4 H5 H6 H7 H8 H9 H10] Hw.
  pose proof (n_busy_insert _ _ _ (at_lock i) Hw) as Hb. simpl in Hb.
  assert (Hi : (i < count)%nat) by (apply H5; right; by eapply list_elem_of_lookup_2).
  pool_fields; try done.
  - lia.
  - by rewrite length_insert.
  - by rewrite length_insert.
  - intros k [Hk|Hk]; [apply H5; by left|].
    apply elem_of_new in Hk as [|Hk]; [done|apply H5; by right].
  - intros k Hk. destruct (decide (k = i)) as [->|Hne].
    { right. apply list_lookup_insert_eq. lia. }
    rewrite list_lookup_insert_ne by done.
    destruct (H6 k Hk) as [[Hin|Hin]|Hs]; [left; by left|left; right|by right].
    eapply elem_of_moved; [done|congruence|done].
  - intros Hk. apply elem_of_new in Hk as [|]; [done|by apply H10].
Qed.

Lemma busy_positive (ws : list PoolWorkerAt) (w : nat) a : ws !! w = Some a -> busy a = true -> (0 < n_busy ws)%nat.
Proof.
  unfold n_busy. revert w. induction ws as [|b ws IH]; intros [|w] Hw Ha; simplify_eq/=;
    [rewrite Ha; simpl; lia|]. specialize (IH w Hw Ha). destruct (busy b); simpl; lia.
Qed.

Lemma worker_lock_ok n w i p p' : pool_ok n p -> workers_ p !! w = Some (at_lock i) ->
  worker_step w p = Some p' -> pool_ok n p'.
Proof.
  intros [H1 H2 H3 H4 H5 H6 H7 H8 H9 H10] Hw Hs. unfold worker_step in Hs. rewrite Hw in Hs.
  pose proof (n_busy_insert _ _ _ at_pop Hw) as Hb. simpl in Hb.
  pose proof (busy_positive _ _ _ Hw eq_refl) as Hp.
  assert (Hbelow : forall k, k ∈ jobs p \/ at_job k ∈ <[w:=at_pop]> (workers_ p) -> (k < count)%nat).
  { intros k [Hk|Hk]; [apply H5; by left|].
    apply elem_of_new in Hk as [|Hk]; [done|apply H5; by right]. }
  assert (Hfill : forall k, (k < pushed_jobs p)%nat ->
    (k ∈ jobs p \/ at_job k ∈ <[w:=at_pop]> (workers_ p)) \/ slots p !! k = Some (Some (fn k))).
  { intros k Hk. destruct (H6 k Hk) as [[Hin|Hin]|Hd]; [left; by left|left; right|by right].
    by eapply elem_of_moved. }
  assert (Hend : at_end ∈ <[w:=at_pop]> (workers_ p) -> jobs_closed p = true).
  { intros Hk. apply elem_of_new in Hk as [|]; [done|by apply H10]. }
  unfold wake_owner, pushed_jobs, in_hand in *. cbn -[n_busy] in Hs.
  destruct (Nat.eqb_spec (remaining p - 1) 0), (owner p) eqn:Eo; simplify_eq/=;
    pool_fields; rewrite ?Eo, ?length_insert; try done; try lia;
    try (rewrite H9; naive_solver); naive_solver lia.
Qed.

Lemma pool_step_ok n l p p' : pool_ok n p -> pool_step l p = Some p' -> pool_ok n p'.
Proof.
  intros Hok Hs. pose proof Hok as [H1 H2 H3 H4 H5 H6 H7 H8 H9 H10].
  destruct l as [| | | | |w]; cbn in Hs.
  - unfold push_job, pushed_jobs in *. destruct (owner p) as [i| | | | |] eqn:Eo; try done.
    case_match eqn:Hc; [|done]. apply andb_true_iff in Hc as [Hc _]. apply Nat.ltb_lt in Hc.
    simplify_eq. pool_fields; rewrite ?length_app; try done; simpl.
    + lia.
    + intros k [Hk|Hk]; [|apply H5; by right]. apply elem_of_app in Hk as [Hk|Hk].
      * apply H5. by left.
      * by apply list_elem_of_singleton in Hk as ->.
    + intros k Hk. destruct (decide (k = i)) as [->|Hne].
      { left. left. apply elem_of_app. right. by apply list_elem_of_singleton. }
      destruct (H6 k) as [[Hin|Hin]|Hd]; [lia|left; left|left; by right|by right].
      apply elem_of_app. by left.
    + intros [|[|]]; done.
    + rewrite H9. naive_solver.
  - unfold check_done, pushed_jobs in *. destruct (owner p) as [i| | | | |] eqn:Eo; try done.
    + destruct (Nat.ltb_spec i count); [done|]. assert (i = count) as -> by lia.
      destruct (Nat.eqb_spec (remaining p) 0); simplify_eq; pool_fields; try done;
        try lia; try (rewrite H9; naive_solver); naive_solver.
    + destruct (Nat.eqb_spec (remaining p) 0); simplify_eq; pool_fields; try done;
        try (rewrite H9; naive_solver); naive_solver.
  - unfold wake_owner, pushed_jobs in *. destruct (owner p) eqn:Eo; try done. simplify_eq.
    pool_fields; try done; try (rewrite H9; naive_solver); naive_solver.
  - unfold close_pool, pushed_jobs in *. destruct (owner p) eqn:Eo; try done. simplify_eq.
    pool_fields; try done; naive_solver.
  - unfold join_all, pushed_jobs in *. destruct (owner p) eqn:Eo; try done. case_match; [|done].
    simplify_eq. pool_fields; try done; try (rewrite H9; naive_solver); naive_solver.
  - destruct (workers_ p !! w) as [[|i|i|]|] eqn:Hw.
    + unfold worker_step in Hs. rewrite Hw in Hs. destruct (jobs p) as [|i l] eqn:Ej.
      * case_match; simplify_eq. by apply worker_end_ok.
      * simplify_eq. by apply worker_pop_ok.
    + unfold worker_step in Hs. rewrite Hw in Hs. simplify_eq. by apply worker_job_ok.
    + by eapply worker_lock_ok.
    + unfold worker_step in Hs. by rewrite Hw in Hs.
    + unfold worker_step in Hs. by rewrite Hw in Hs.
Qed.

Lemma pool_run_ok n ls p p' : pool_ok n p -> pool_run ls p = Some p' -> pool_ok n p'.
Proof.
  revert p. induction ls as [|l ls IH]; intros p Hp Hr; simplify_eq/=; [done|].
  apply bind_Some in Hr as (p1 & H1 & Hr). by eapply IH; [eapply pool_step_ok|].
Qed.

(** ** Every call ends *)

Definition worker_work (a : PoolWorkerAt) : nat :=
  match a with at_pop => 1 | at_job _ => 4 | at_lock _ => 3 | at_end => 0 end.

Definition workers_work (ws : list PoolWorkerAt) : nat := sum_list_with worker_work ws.

(** The steps still to come: [5] for a job not yet pushed, its push, its pop, its run, its
    report and the wake-up the report may cause. *)
Definition pool_work (p : FitThreadPool) : nat :=
  match owner p with
  | owner_push i => 5 * (count - i) + 3
  | owner_awake => 3
  | owner_asleep | owner_returned => 2
  | owner_joining => 1
  | owner_gone => 0
  end + 4 * length (jobs p) + workers_work (workers_ p).

Definition spurious (l : pool_label) : bool := match l with pl_spurious => true | _ => false end.

Lemma workers_work_insert (ws : list PoolWorkerAt) (w : nat) a a' : ws !! w = Some a ->
  (workers_work (<[w := a']> ws) + worker_work a = workers_work ws + worker_work a')%nat.
Proof.
  unfold workers_work. revert w. induction ws as [|b ws IH]; intros [|w] Hw; simplify_eq/=; [lia|].
  specialize (IH w Hw). lia.
Qed.

Lemma worker_step_work w p p' : worker_step w p = Some p' -> (pool_work p' < pool_work p)%nat.
Proof.
  intros Hs. unfold worker_step in Hs. destruct (workers_ p !! w) as [a|] eqn:Hw; [|done].
  pose proof (workers_work_insert _ _ _ at_pop Hw) as Hp.
  pose proof (workers_work_insert _ _ _ at_end Hw) as He.
  pose proof (fun i => workers_work_insert _ _ _ (at_job i) Hw) as Hj.
  pose proof (fun i => workers_work_insert _ _ _ (at_lock i) Hw) as Hl.
  destruct a as [|i|i|]; simpl in *; [destruct (jobs p) as [|i l] eqn:Ej; [case_match|]|..];
    simplify_eq; unfold pool_work; cbn [owner jobs workers_ move_worker set_pool_jobs fill_slot].
  - rewrite Ej. lia.
  - rewrite Ej. specialize (Hj i). simpl. lia.
  - specialize (Hl i). lia.
  - destruct (_ =? 0)%nat; [unfold wake_owner; cbn [owner move_worker]|];
      destruct (owner p) eqn:Eo; cbn [owner jobs workers_ set_owner move_worker]; lia.
Qed.

Lemma pool_step_work l p p' : pool_step l p = Some p' ->
  (pool_work p' + 1 <= pool_work p + 2 * Nat.b2n (spurious l))%nat.
Proof.
  intros Hs. destruct l as [| | | | |w]; simpl in *;
    [..|apply worker_step_work in Hs; lia];
    unfold push_job, check_done, wake_owner, close_pool, join_all in Hs;
    destruct (owner p) eqn:Eo; try done; repeat case_match; simplify_eq;
    unfold pool_work; cbn [owner jobs workers_ set_owner set_pool_jobs]; rewrite ?Eo; try lia.
  rewrite length_app. simpl. rewrite andb_true_iff, Nat.ltb_lt in *. lia.
Qed.

Lemma pool_run_work ls p p' : pool_run ls p = Some p' ->
  (length ls + pool_work p' <= pool_work p + 2 * length (List.filter spurious ls))%nat.
Proof.
  revert p. induction ls as [|l ls IH]; intros p Hr; simplify_eq/=; [lia|].
  apply bind_Some in Hr as (p1 & H1 & Hr). apply IH in Hr. apply pool_step_work in H1.
  destruct (spurious l); simpl in *; lia.
Qed.

(** A worker with something to do. *)
Lemma worker_moves w a p : workers_ p !! w = Some a -> a <> at_end ->
  jobs p <> [] \/ jobs_closed p = true \/ busy a = true -> exists p', worker_step w p = Some p'.
Proof.
  intros Hw Ha Hc. unfold worker_step. rewrite Hw. destruct a as [|i|i|]; [|by eexists..|done].
  destruct (jobs p); [|by eexists]. destruct Hc as [|[->|]]; [done|by eexists|done].
Qed.

Lemma not_all_ended n p : pool_ok n p -> (1 <= n)%nat -> jobs_closed p = false ->
  exists a, workers_ p !! 0%nat = Some a /\ a <> at_end.
Proof.
  intros Hp Hn Hc. destruct (lookup_lt_is_Some_2 (workers_ p) 0) as [a Ha].
  { rewrite (ok_workers _ _ Hp). lia. }
  exists a. split; [done|]. intros ->. apply list_elem_of_lookup_2 in Ha.
  apply (ok_ended _ _ Hp) in Ha. congruence.
Qed.

Lemma busy_worker ws : (0 < n_busy ws)%nat -> exists w a, ws !! w = Some a /\ busy a = true.
Proof.
  unfold n_busy. induction ws as [|a ws IH]; simpl; [lia|]. destruct (busy a) eqn:E.
  - intros _. by exists 0%nat, a.
  - intros H. destruct (IH H) as (w & b & Hw & Hb). by exists (S w), b.
Qed.

(** Nothing is ever stuck before the workers are joined. *)
Lemma pool_progress n p : pool_ok n p -> (1 <= n)%nat -> owner p <> owner_gone ->
  exists l p', spurious l = false /\ pool_step l p = Some p'.
Proof.
  intros Hp Hn Hg.
  assert (Hworker : forall w a, workers_ p !! w = Some a -> a <> at_end ->
    jobs p <> [] \/ jobs_closed p = true \/ busy a = true ->
    exists l p', spurious l = false /\ pool_step l p = Some p').
  { intros w a Hw Ha Hc. destruct (worker_moves w a p Hw Ha Hc) as [p' Hs]. by exists (pl_worker w), p'. }
  assert (Hqueue : jobs_closed p = false -> jobs p <> [] ->
    exists l p', spurious l = false /\ pool_step l p = Some p').
  { intros Hc Hj. destruct (not_all_ended n p Hp Hn Hc) as (a & Ha & Hne).
    apply (Hworker 0%nat a); auto. }
  assert (Hopen : owner p <> owner_joining -> jobs_closed p = false).
  { intros Hj. destruct (jobs_closed p) eqn:Hc; [|done]. apply (ok_closed _ _ Hp) in Hc. by destruct Hc. }
  destruct (owner p) as [i| | | | |] eqn:Eo; [..|done].
  - destruct (decide (i < count)%nat) as [Hi|Hi].
    + destruct (decide (length (jobs p) < kJobQueueCapacity)%nat) as [Hl|Hl].
      * exists pl_push. simpl. unfold push_job. rewrite Eo.
        rewrite (proj2 (Nat.ltb_lt _ _) Hi), (proj2 (Nat.ltb_lt _ _) Hl). by eexists.
      * apply Hqueue; [by apply Hopen|]. unfold kJobQueueCapacity in Hl.
        destruct (jobs p); simpl in *; [lia|done].
    + exists pl_check. simpl. unfold check_done. rewrite Eo.
      rewrite (proj2 (Nat.ltb_ge _ _)) by lia. by eexists.
  - destruct (decide (jobs p = [])) as [Hj|Hj]; [|by apply Hqueue; [apply Hopen|]].
    pose proof (ok_asleep _ _ Hp Eo) as Hr. pose proof (ok_remaining _ _ Hp) as Hrem.
    unfold pushed_jobs in Hrem. rewrite Eo, Hj in Hrem. simpl in Hrem.
    destruct (busy_worker (workers_ p)) as (w & a & Hw & Hb); [lia|].
    apply (Hworker w a); [done|by intros ->|auto].
  - exists pl_check. simpl. unfold check_done. rewrite Eo. by eexists.
  - exists pl_close. simpl. unfold close_pool. rewrite Eo. by eexists.
  - assert (Hc : jobs_closed p = true) by (apply (ok_closed _ _ Hp); auto).
    destruct (forallb (fun a => bool_decide (a = at_end)) (workers_ p)) eqn:Ha.
    + exists pl_join. simpl. unfold join_all. rewrite Eo, Ha. by eexists.
    + destruct (list_find (fun a => a <> at_end) (workers_ p)) as [[w a]|] eqn:Ef.
      * apply list_find_Some in Ef as (Hw & Hne & _). apply (Hworker w a); auto.
      * exfalso. apply list_find_None in Ef. apply not_true_iff_false in Ha. apply Ha.
        apply forallb_forall. intros a Hin. apply bool_decide_eq_true. apply list_elem_of_In in Hin.
        rewrite Forall_forall in Ef. specialize (Ef a Hin). by destruct (decide (a = at_end)).
Qed.

(** The caller is inside [for_each_index]. *)
Definition in_call (p : FitThreadPool) : bool :=
  match owner p with owner_push _ | owner_asleep | owner_awake => true | _ => false end.

Definition back (p : FitThreadPool) : bool :=
  match owner p with owner_returned => true | _ => false end.

Lemma step_in_call l p p' : in_call p = true -> pool_step l p = Some p' ->
  in_call p' = true \/ back p' = true.
Proof.
  unfold in_call, back. intros Hi Hs. destruct l as [| | | | |w]; simpl in Hs;
    unfold push_job, check_done, wake_owner, close_pool, join_all, worker_step in Hs;
    [destruct (owner p) eqn:Eo; try done; repeat case_match; simplify_eq/=; auto..|].
  unfold wake_owner in Hs. repeat case_match; simplify_eq/=; rewrite ?Hi; auto; congruence.
Qed.

(** From anywhere inside a call it can be run to its return. *)
Lemma call_can_return n p : pool_ok n p -> (1 <= n)%nat -> in_call p = true ->
  exists ls p', pool_run ls p = Some p' /\ back p' = true.
Proof.
  intros Hp Hn. revert Hp.
  induction p as [p IH] using (well_founded_ind (well_founded_ltof _ pool_work)). intros Hp Hi.
  destruct (pool_progress n p Hp Hn) as (l & p1 & Hl & Hs).
  { unfold in_call in Hi. by destruct (owner p). }
  destruct (step_in_call l p p1 Hi Hs) as [Hi1|Hb]; [|by exists [l], p1; simpl; rewrite Hs].
  pose proof (pool_step_work l p p1 Hs) as Hw. rewrite Hl in Hw.
  destruct (IH p1) as (ls & p' & Hr & Hb); [unfold ltof; simpl in Hw; lia|by eapply pool_step_ok|done|].
  exists (l :: ls), p'. split; [|done]. simpl. by rewrite Hs.
Qed.

(** The results in order, as a serial loop would leave them. *)
Definition serial_results : list B := map fn (seq 0 count).

Lemma nothing_left n p : pool_ok n p -> owner p = owner_returned ->
  p = mkPool owner_returned 0 [] false (replicate n at_pop) (map Some serial_results).
Proof.
  intros Hp Ho. destruct Hp as [H1 H2 H3 H4 H5 H6 H7 H8 H9 H10].
  pose proof (H8 (or_introl Ho)) as Hr. unfold pushed_jobs in *. rewrite Ho in *.
  assert (Hj : jobs p = []) by (apply length_zero_iff_nil; lia).
  assert (Hb : n_busy (workers_ p) = 0%nat) by lia.
  assert (Hc : jobs_closed p = false).
  { destruct (jobs_closed p); [|done]. by destruct (proj1 H9 eq_refl). }
  assert (Hw : forall a, a ∈ workers_ p -> a = at_pop).
  { intros a Hin. destruct a as [|i|i|]; [done|..].
    - apply list_elem_of_lookup in Hin as [w Hw]. pose proof (busy_positive _ _ _ Hw eq_refl). lia.
    - apply list_elem_of_lookup in Hin as [w Hw]. pose proof (busy_positive _ _ _ Hw eq_refl). lia.
    - apply H10 in Hin. congruence. }
  assert (Hws : workers_ p = replicate n at_pop).
  { symmetry. apply replicate_as_elem_of. done. }
  assert (Hs : slots p = map Some serial_results).
  { apply list_eq. intros i. unfold serial_results. rewrite !list_lookup_fmap.
    destruct (decide (i < count)%nat) as [Hi|Hi].
    - destruct (H6 i Hi) as [[Hin|Hin]|Hin].
      + rewrite Hj in Hin. by apply not_elem_of_nil in Hin.
      + by apply Hw in Hin.
      + rewrite Hin. by rewrite lookup_seq_lt.
    - rewrite lookup_ge_None_2 by lia. by rewrite lookup_seq_ge by lia. }
  destruct p; simpl in *. congruence.
Qed.

Lemma resolve_positive hardware n_threads : (1 <= resolve_thread_count hardware n_threads)%nat.
Proof. unfold resolve_thread_count. destruct (Nat.eqb_spec n_threads 0); lia. Qed.

Definition call_bound (hardware n_threads : nat) : nat :=
  5 * count + 3 + resolve_thread_count hardware n_threads.

Lemma new_call_work hardware n_threads :
  pool_work (for_each_index (new_pool hardware n_threads)) = call_bound hardware n_threads.
Proof.
  assert (Hw : forall n, workers_work (replicate n at_pop) = n).
  { unfold workers_work. induction n as [|n IH]; simpl; [done|]. by rewrite IH. }
  unfold pool_work, call_bound. simpl. rewrite Hw. lia.
Qed.

(** When the call is back, nothing of it is left with the workers: no job refers to its
    local state any more, and the slots are the results of a serial loop. *)
Lemma call_results hardware n_threads ls p :
  pool_run ls (for_each_index (new_pool hardware n_threads)) = Some p -> owner p = owner_returned ->
  p = mkPool owner_returned 0 [] false (replicate (resolve_thread_count hardware n_threads) at_pop)
        (map Some serial_results).
Proof. intros Hr. apply nothing_left. by eapply pool_run_ok; [apply new_call_ok|]. Qed.

End pool.

Arguments FitThreadPool : clear implicits.

(** [C12] One call of the pool, for every number of jobs and workers and every interleaving
    of the caller and the workers, spurious wake-ups included. Short of the join in the
    destructor some thread can always move, and every run is bounded, so the call always
    returns; then every slot holds what a serial loop would have put there, whichever worker
    ran which job, and no job, which would refer to the local variables of the call, is
    still queued or running. *)
Theorem pool_call_returns {B : Type} count (fn : nat -> B) hardware n_threads ls p :
  pool_run count fn ls (for_each_index count (new_pool hardware n_threads)) = Some p ->
  (length ls <= call_bound count hardware n_threads + 2 * length (List.filter spurious ls))%nat /\
  (owner p <> owner_gone -> exists l p', spurious l = false /\ pool_step count fn l p = Some p') /\
  (owner p = owner_returned ->
     p = mkPool owner_returned 0 [] false (replicate (resolve_thread_count hardware n_threads) at_pop)
           (map (fun i => Some (fn i)) (seq 0 count))).
Proof.
  intros Hr. pose proof (pool_run_ok _ _ _ _ _ _ (new_call_ok count fn hardware n_threads) Hr) as Hp.
  split; [|split].
  - apply pool_run_work in Hr. rewrite new_call_work in Hr. lia.
  - apply (pool_progress _ _ _ _ Hp). apply resolve_positive.
  - intros Ho. rewrite (call_results count fn hardware n_threads ls p Hr Ho).
    unfold serial_results. by rewrite map_map.
Qed.

(** Three jobs on two workers, finished out of order; the owner sleeps, is woken for
    nothing, and is woken again by the last report. *)
Definition sample_schedule : list pool_label :=
  [pl_push; pl_push; pl_worker 0; pl_worker 1; pl_push; pl_check; pl_worker 1; pl_spurious; pl_check;
   pl_worker 1; pl_worker 1; pl_worker 1; pl_worker 0; pl_worker 1; pl_worker 0; pl_check].

Lemma pool_call_returns_witness :
  exists p, pool_run 3 (fun i => i * i)%nat sample_schedule (for_each_index 3 (new_pool 3 0)) = Some p /\
    owner p = owner_returned /\
    p = mkPool owner_returned 0 [] false (replicate (resolve_thread_count 3 0) at_pop)
          (map (fun i => Some (i * i)%nat) (seq 0 3)).
Proof.
  destruct (pool_run 3 (fun i => i * i)%nat sample_schedule (for_each_index 3 (new_pool 3 0)))
    as [p|] eqn:E; [|vm_compute in E; discriminate E].
  assert (Ho : owner p = owner_returned) by (vm_compute in E; by injection E as <-).
  exists p. split; [done|]. split; [done|].
  by apply (pool_call_returns 3 (fun i => i * i)%nat 3 0 sample_schedule p E).
Defined.
