(* ===== verification/WaferFit.v ===== *)
(** * Fitting a scan line

    src/analysis/line_fit.cpp with LineFitResult of include/ssim/analysis/types.hpp. The
    code is written once over the arithmetic it uses, a class: at the instance for IEEE
    doubles it is the program, at the instance for the real numbers it is the method the
    program approximates, which is proved to be the least-squares parabola. *)

From Stdlib Require Import Reals Lra Floats.SpecFloat.
From S2P Require Import CLibrary FloatOrder LineFilter Prelude.

(** ** Arithmetic *)

Class Arith (T : Type) := {
  a_of_Z : Z -> T;
  a_add : T -> T -> T;
  a_sub : T -> T -> T;
  a_mul : T -> T -> T;
  a_div : T -> T -> T;
  a_opp : T -> T;
  a_sqrt : T -> T;
  a_eqb : T -> T -> bool;
  a_ltb : T -> T -> bool
}.

Declare Scope arith_scope.
Delimit Scope arith_scope with arith.
Infix "+" := a_add : arith_scope.
Infix "-" := a_sub : arith_scope.
Infix "*" := a_mul : arith_scope.
Infix "/" := a_div : arith_scope.

(** [double], rounding to nearest. *)
#[export] Instance double_arith : Arith double := {|
  a_of_Z := double_of_Z;
  a_add := dadd;
  a_sub := dsub;
  a_mul := dmul;
  a_div := ddiv;
  a_opp := SFopp;
  a_sqrt := SFsqrt prec64 emax64;
  a_eqb := SFeqb;
  a_ltb := SFltb
|}.

(** Exact arithmetic. *)
#[export] Instance real_arith : Arith R := {|
  a_of_Z := IZR;
  a_add := Rplus;
  a_sub := Rminus;
  a_mul := Rmult;
  a_div := Rdiv;
  a_opp := Ropp;
  a_sqrt := sqrt;
  a_eqb := fun x y => if Req_dec_T x y then true else false;
  a_ltb := fun x y => if Rlt_dec x y then true else false
|}.

(** ** The fit *)

Section fit.
Context {T : Type} {A : Arith T}.
#[local] Open Scope arith_scope.

Record LineFitResult := mkFit {
  fit_angle_rad : T;
  fit_a : T;
  fit_b : T;
  fit_c : T;
  curvature_per_m : T;
  se_curvature_per_m : T;
  residual_rms_m : T;
  n_used : Z;
  fit_valid : bool
}.

(** The sums of one pass over the kept samples. *)
Record Sums := mkSums { s0 : T; s1 : T; s2 : T; s3 : T; s4 : T; t0 : T; t1 : T; t2 : T }.

Definition no_sums : Sums :=
  let z := a_of_Z 0 in mkSums z z z z z z z z.

Definition add_sample (q : Sums) (p : T * T) : Sums :=
  let '(s, z) := p in
  let s_sq := s * s in
  mkSums (s0 q + a_of_Z 1) (s1 q + s) (s2 q + s_sq) (s3 q + s_sq * s) (s4 q + s_sq * s_sq)
    (t0 q + z) (t1 q + s * z) (t2 q + s_sq * z).

Definition det3 (m : nat -> nat -> T) : T :=
  m 0%nat 0%nat * (m 1%nat 1%nat * m 2%nat 2%nat - m 1%nat 2%nat * m 2%nat 1%nat) -
  m 0%nat 1%nat * (m 1%nat 0%nat * m 2%nat 2%nat - m 1%nat 2%nat * m 2%nat 0%nat) +
  m 0%nat 2%nat * (m 1%nat 0%nat * m 2%nat 1%nat - m 1%nat 1%nat * m 2%nat 0%nat).

Definition cramer_solve (m : nat -> nat -> T) (rhs : nat -> T) (col : nat) (det_m : T) : T :=
  det3 (fun r c => if (c =? col)%nat then rhs r else m r c) / det_m.

Definition normal_matrix (q : Sums) (r c : nat) : T :=
  nth c (nth r [[s4 q; s3 q; s2 q]; [s3 q; s2 q; s1 q]; [s2 q; s1 q; s0 q]] []) (a_of_Z 0).

Definition normal_rhs (q : Sums) (r : nat) : T := nth r [t2 q; t1 q; t0 q] (a_of_Z 0).

Definition add_residual (a b c : T) (rss : T) (p : T * T) : T :=
  let '(s, z) := p in
  let predicted := a * s * s + b * s + c in
  let residual := z - predicted in
  rss + residual * residual.

Definition no_fit (angle : T) (n : Z) : LineFitResult :=
  let z := a_of_Z 0 in mkFit angle z z z z z z n false.

(** [fit_line] on the position and height of every kept sample. *)
Definition fit_points (angle : T) (kept : list (T * T)) : LineFitResult :=
  let n := Z.of_nat (length kept) in
  let q := foldl add_sample no_sums kept in
  if n <? 3 then no_fit angle n
  else
    let m := normal_matrix q in
    let rhs := normal_rhs q in
    let det_m := det3 m in
    if a_eqb det_m (a_of_Z 0) then no_fit angle n
    else
      let a := cramer_solve m rhs 0 det_m in
      let b := cramer_solve m rhs 1 det_m in
      let c := cramer_solve m rhs 2 det_m in
      let rss := foldl (add_residual a b c) (a_of_Z 0) kept in
      let se :=
        if 3 <? n then
          let sigma_sq := rss / a_of_Z (n - 3) in
          let cofactor00 := s2 q * s0 q - s1 q * s1 q in
          let var_a := sigma_sq * cofactor00 / det_m in
          a_of_Z 2 * a_sqrt (if a_ltb (a_of_Z 0) var_a then var_a else a_of_Z 0)
        else a_of_Z 0 in
      mkFit angle a b c (a_of_Z 2 * a) se (a_sqrt (rss / a_of_Z n)) n true.

End fit.

Arguments LineFitResult : clear implicits.
Arguments Sums : clear implicits.

Definition kept_points (r : FilterResult) : list (double * double) :=
  map (fun s => (s_m s, z_m s)) (List.filter is_kept (samples r)).

Definition fit_line (filtered : FilterResult) : LineFitResult double :=
  fit_points (angle_rad filtered) (kept_points filtered).

(** Five points of the parabola 2 s^2 + 1, and an outlier that is not used. *)
Example parabola_fit :
  let z := double_of_Z in
  let s x y := mkSample (z x) (z y) kKept in
  let r := fit_line (mkFilter dzero
    [s (-2) 9; s (-1) 3; mkSample (z 5) (z 5) kOutlier; s 0 1; s 1 3; s 2 9] 1 dzero) in
  (SFeqb (fit_a r) (z 2) && SFeqb (fit_c r) (z 1) && SFeqb (curvature_per_m r) (z 4) &&
   SFeqb (residual_rms_m r) dzero && fit_valid r, n_used r) = (true, 5).
Proof. vm_compute. reflexivity. Qed.

(** ** Least squares

    From here on over the real numbers. *)
Section least_squares.
#[local] Open Scope R_scope.
Implicit Types pts : list (R * R).

(** The sum of a quantity over the points. *)
Definition total (f : R -> R -> R) pts : R := foldr (fun p acc => f p.1 p.2 + acc) 0 pts.

Definition parabola (a b c s : R) : R := a * s * s + b * s + c.

(** The sum of the squared residuals of a parabola. *)
Definition rss (a b c : R) pts : R := total (fun s z => Rsqr (z - parabola a b c s)) pts.

Lemma total_ext f g pts : (forall s z, f s z = g s z) -> total f pts = total g pts.
Proof. intros H. induction pts as [|p pts IH]; simpl; [done|]. by rewrite H, IH. Qed.

Lemma total_add f g pts : total (fun s z => f s z + g s z) pts = total f pts + total g pts.
Proof. induction pts as [|p pts IH]; simpl; [|rewrite IH]; ring. Qed.

Lemma total_scale k f pts : total (fun s z => k * f s z) pts = k * total f pts.
Proof. induction pts as [|p pts IH]; simpl; [|rewrite IH]; ring. Qed.

Lemma total_nonneg f pts : (forall s z, 0 <= f s z) -> 0 <= total f pts.
Proof. intros H. induction pts as [|p pts IH]; simpl; [lra|]. specialize (H p.1 p.2). lra. Qed.

Lemma total_zero f pts : (forall s z, 0 <= f s z) -> total f pts = 0 ->
  Forall (fun p => f p.1 p.2 = 0) pts.
Proof.
  intros H. induction pts as [|p pts IH]; simpl; [by constructor|]. intros H0.
  pose proof (H p.1 p.2). pose proof (total_nonneg f pts H). constructor; [lra|apply IH; lra].
Qed.

(** The sums of the code. *)
Definition sums_of pts : Sums R :=
  mkSums (total (fun _ _ => 1) pts) (total (fun s _ => s) pts) (total (fun s _ => s * s) pts)
    (total (fun s _ => s * s * s) pts) (total (fun s _ => s * s * (s * s)) pts)
    (total (fun _ z => z) pts) (total (fun s z => s * z) pts) (total (fun s z => s * s * z) pts).

Lemma fold_sums_from pts q :
  foldl add_sample q pts =
  mkSums (s0 q + s0 (sums_of pts)) (s1 q + s1 (sums_of pts)) (s2 q + s2 (sums_of pts))
    (s3 q + s3 (sums_of pts)) (s4 q + s4 (sums_of pts)) (t0 q + t0 (sums_of pts))
    (t1 q + t1 (sums_of pts)) (t2 q + t2 (sums_of pts)).
Proof.
  revert q. induction pts as [|[s z] pts IH]; intros q; simpl.
  - destruct q; simpl. f_equal; ring.
  - rewrite IH. simpl. f_equal; ring.
Qed.

Lemma fold_sums pts : foldl add_sample no_sums pts = sums_of pts.
Proof. rewrite fold_sums_from. unfold no_sums, sums_of. simpl. f_equal; ring. Qed.

Lemma fold_rss_from a b c pts r : foldl (add_residual a b c) r pts = r + rss a b c pts.
Proof.
  revert r. induction pts as [|[s z] pts IH]; intros r; simpl; [unfold rss; simpl; ring|].
  rewrite IH. unfold rss, parabola, Rsqr. simpl. ring.
Qed.

(** ** The normal equations *)

Abbreviation det_of q := (det3 (normal_matrix q)).

Definition solves (q : Sums R) (x y w r1 r2 r3 : R) : Prop :=
  x * s4 q + y * s3 q + w * s2 q = r1 /\
  x * s3 q + y * s2 q + w * s1 q = r2 /\
  x * s2 q + y * s1 q + w * s0 q = r3.

(** The first row of the adjugate. *)
Definition cof0 (q : Sums R) : R := s2 q * s0 q - s1 q * s1 q.
Definition cof1 (q : Sums R) : R := s1 q * s2 q - s3 q * s0 q.
Definition cof2 (q : Sums R) : R := s3 q * s1 q - s2 q * s2 q.

Lemma cof_solves q : solves q (cof0 q) (cof1 q) (cof2 q) (det_of q) 0 0.
Proof.
  unfold solves, cof0, cof1, cof2, det3, normal_matrix. simpl. split_and!; ring.
Qed.

Lemma cof_det q x y w r1 r2 r3 : solves q x y w r1 r2 r3 ->
  det_of q * x = cof0 q * r1 + cof1 q * r2 + cof2 q * r3.
Proof.
  intros (<- & <- & <-). unfold cof0, cof1, cof2, det3, normal_matrix. simpl. ring.
Qed.

Lemma cramer_solves q : det_of q <> 0 ->
  solves q (cramer_solve (normal_matrix q) (normal_rhs q) 0 (det_of q))
    (cramer_solve (normal_matrix q) (normal_rhs q) 1 (det_of q))
    (cramer_solve (normal_matrix q) (normal_rhs q) 2 (det_of q)) (t2 q) (t1 q) (t0 q).
Proof.
  intros Hd. unfold solves, cramer_solve. simpl in *. revert Hd.
  unfold det3, normal_matrix, normal_rhs. simpl. intros Hd. split_and!; field; exact Hd.
Qed.

Lemma quadratic_form x y w pts :
  let q := sums_of pts in
  total (fun s _ => Rsqr (parabola x y w s)) pts =
  x * (x * s4 q + y * s3 q + w * s2 q) + y * (x * s3 q + y * s2 q + w * s1 q) +
  w * (x * s2 q + y * s1 q + w * s0 q).
Proof.
  induction pts as [|[s z] pts IH]; simpl in *; [ring|]. rewrite IH. unfold parabola, Rsqr. ring.
Qed.

Lemma residual_form a b c x y w pts :
  let q := sums_of pts in
  total (fun s z => (z - parabola a b c s) * parabola x y w s) pts =
  x * (t2 q - (a * s4 q + b * s3 q + c * s2 q)) + y * (t1 q - (a * s3 q + b * s2 q + c * s1 q)) +
  w * (t0 q - (a * s2 q + b * s1 q + c * s0 q)).
Proof.
  induction pts as [|[s z] pts IH]; simpl in *; [ring|]. rewrite IH. unfold parabola. ring.
Qed.

(** Pythagoras: away from the solution the residuals grow by the squares of the change. *)
Lemma rss_solution a b c a' b' c' pts :
  let q := sums_of pts in
  solves q a b c (t2 q) (t1 q) (t0 q) ->
  rss a' b' c' pts = rss a b c pts +
    total (fun s _ => Rsqr (parabola (a' - a) (b' - b) (c' - c) s)) pts.
Proof.
  intros q (E1 & E2 & E3). pose proof (residual_form a b c (a' - a) (b' - b) (c' - c) pts) as H.
  cbn zeta in H. fold q in H. rewrite E1, E2, E3 in H.
  unfold rss at 1. rewrite (total_ext _ (fun s z => Rsqr (z - parabola a b c s) +
    (Rsqr (parabola (a' - a) (b' - b) (c' - c) s) +
     (-2) * ((z - parabola a b c s) * parabola (a' - a) (b' - b) (c' - c) s)))).
  - rewrite !total_add, total_scale, H. unfold rss. ring.
  - intros s z. unfold parabola, Rsqr. ring.
Qed.

(** ** Distinct positions *)

Definition three_positions pts : Prop :=
  exists p1 p2 p3, p1 ∈ pts /\ p2 ∈ pts /\ p3 ∈ pts /\
    p1.1 <> p2.1 /\ p1.1 <> p3.1 /\ p2.1 <> p3.1.

Lemma few_positions pts :
  three_positions pts \/ exists u v, Forall (fun p => p.1 = u \/ p.1 = v) pts /\
    (u = v \/ (exists p1 p2, p1 ∈ pts /\ p2 ∈ pts /\ p1.1 = u /\ p2.1 = v)).
Proof.
  induction pts as [|p pts IH].
  { right. exists 0, 0. split; [constructor|by left]. }
  destruct IH as [(p1 & p2 & p3 & H1 & H2 & H3 & Hne)|(u & v & Huv & Hin)].
  { left. exists p1, p2, p3. split_and!; try (by right); apply Hne. }
  destruct (Req_dec p.1 u) as [Hu|Hu]; [|destruct (Req_dec p.1 v) as [Hv|Hv]].
  1,2: right; exists u, v; split; [constructor; auto|];
    destruct Hin as [|(p1 & p2 & ? & ? & ? & ?)]; [by left|right; exists p1, p2; split_and!; try done; by right].
  destruct Hin as [->|(p1 & p2 & H1 & H2 & <- & <-)].
  - right. destruct pts as [|p' pts].
    + exists p.1, p.1. split; [by repeat constructor|by left].
    + exists p.1, v. split.
      * constructor; [by left|]. eapply Forall_impl; [exact Huv|]. intros ? [|]; auto.
      * right. exists p, p'. split_and!; [left|right; left|done|]. inversion Huv; subst. tauto.
  - destruct (Req_dec p1.1 p2.1) as [He|He].
    + right. exists p.1, p1.1. split.
      * constructor; [by left|]. eapply Forall_impl; [exact Huv|]. simpl. intros ? [|]; right; congruence.
      * right. exists p, p1. split_and!; [left|by right|done..].
    + left. exists p, p1, p2. split_and!; [left|by right|by right|done..].
Qed.

Lemma positions_cases pts : three_positions pts \/ ~ three_positions pts.
Proof.
  destruct (few_positions pts) as [|(u & v & Huv & _)]; [by left|right].
  intros (p1 & p2 & p3 & H1 & H2 & H3 & N). rewrite Forall_forall in Huv.
  destruct (Huv _ H1), (Huv _ H2), (Huv _ H3); intuition congruence.
Qed.

Lemma three_roots x y w u1 u2 u3 : u1 <> u2 -> u1 <> u3 -> u2 <> u3 ->
  parabola x y w u1 = 0 -> parabola x y w u2 = 0 -> parabola x y w u3 = 0 -> x = 0 /\ y = 0 /\ w = 0.
Proof.
  unfold parabola. intros H12 H13 H23 E1 E2 E3.
  assert (A1 : x * (u1 + u2) + y = 0) by (apply (Rmult_eq_reg_l (u1 - u2)); lra).
  assert (A2 : x * (u1 + u3) + y = 0) by (apply (Rmult_eq_reg_l (u1 - u3)); lra).
  assert (x = 0) as -> by (apply (Rmult_eq_reg_l (u2 - u3)); lra).
  split; [done|]. assert (y = 0) as -> by lra. split; [done|lra].
Qed.

Lemma count_total pts : s0 (sums_of pts) = INR (length pts).
Proof.
  induction pts as [|p pts IH]; [done|]. cbn [sums_of total foldr s0 length] in *.
  rewrite S_INR, <- IH. unfold total. ring.
Qed.

Lemma three_positions_length pts : three_positions pts -> (3 <= length pts)%nat.
Proof.
  intros (p1 & p2 & p3 & H1 & H2 & H3 & N12 & N13 & N23).
  destruct pts as [|a [|b [|c pts]]]; simpl; try lia; exfalso;
    set_unfold; naive_solver.
Qed.

Lemma cof0_positive pts : three_positions pts -> 0 < cof0 (sums_of pts).
Proof.
  intros Hp. pose proof (three_positions_length pts Hp) as Hl.
  assert (H0 : 0 < s0 (sums_of pts)) by (rewrite count_total; apply lt_0_INR; lia).
  set (q := sums_of pts) in *.
  assert (E : total (fun s _ => Rsqr (parabola 0 (s0 q) (- s1 q) s)) pts = s0 q * cof0 q).
  { rewrite quadratic_form. fold q. unfold cof0. ring. }
  assert (Hn : 0 <= total (fun s _ => Rsqr (parabola 0 (s0 q) (- s1 q) s)) pts).
  { apply total_nonneg. intros. apply Rle_0_sqr. }
  destruct (Rle_lt_or_eq_dec _ _ Hn) as [Hlt|Heq]; [rewrite E in Hlt; nra|exfalso].
  symmetry in Heq. apply total_zero in Heq; [|intros; apply Rle_0_sqr].
  destruct Hp as (p1 & p2 & p3 & H1 & H2 & H3 & N12 & _). rewrite Forall_forall in Heq.
  pose proof (Rsqr_0_uniq _ (Heq _ H1)) as R1. pose proof (Rsqr_0_uniq _ (Heq _ H2)) as R2.
  unfold parabola in R1, R2. apply N12. apply (Rmult_eq_reg_l (s0 q)); lra.
Qed.

(** The normal matrix is regular exactly when the line was measured at three places. *)
Lemma det_positive pts : three_positions pts -> 0 < det_of (sums_of pts).
Proof.
  intros Hp. pose proof (cof0_positive pts Hp) as Hc. pose proof (cof_solves (sums_of pts)) as (E1 & E2 & E3).
  pose proof (quadratic_form (cof0 (sums_of pts)) (cof1 (sums_of pts)) (cof2 (sums_of pts)) pts) as E.
  cbn zeta in E. rewrite E1, E2, E3 in E.
  set (v := total _ _) in E. assert (Hn : 0 <= v) by (apply total_nonneg; intros; apply Rle_0_sqr).
  destruct (Rle_lt_or_eq_dec _ _ Hn) as [Hlt|Heq]; [nra|exfalso].
  symmetry in Heq. apply total_zero in Heq; [|intros; apply Rle_0_sqr].
  destruct Hp as (p1 & p2 & p3 & H1 & H2 & H3 & N12 & N13 & N23). rewrite Forall_forall in Heq.
  destruct (three_roots _ _ _ _ _ _ N12 N13 N23 (Rsqr_0_uniq _ (Heq _ H1)) (Rsqr_0_uniq _ (Heq _ H2))
    (Rsqr_0_uniq _ (Heq _ H3))) as [H _]. lra.
Qed.

Lemma det_zero pts : ~ three_positions pts -> det_of (sums_of pts) = 0.
Proof.
  intros Hp. destruct (few_positions pts) as [|(u & v & Huv & _)]; [done|].
  assert (Hz : forall f, total (fun s z => f s * parabola 1 (- (u + v)) (u * v) s) pts = 0).
  { intros f. clear Hp. induction Huv as [|p pts Hp _ IH]; simpl; [done|]. rewrite IH.
    unfold parabola. destruct Hp as [->| ->]; ring. }
  assert (Hs : solves (sums_of pts) 1 (- (u + v)) (u * v) 0 0 0).
  { assert (E : forall x y w, total (fun s z => parabola x y w s * parabola 1 (- (u + v)) (u * v) s) pts =
      x * (1 * s4 (sums_of pts) + - (u + v) * s3 (sums_of pts) + u * v * s2 (sums_of pts)) +
      y * (1 * s3 (sums_of pts) + - (u + v) * s2 (sums_of pts) + u * v * s1 (sums_of pts)) +
      w * (1 * s2 (sums_of pts) + - (u + v) * s1 (sums_of pts) + u * v * s0 (sums_of pts))).
    { intros x y w. clear. induction pts as [|[s z] pts IH]; simpl in *; [ring|]. rewrite IH.
      unfold parabola. ring. }
    pose proof (E 1 0 0) as E1. pose proof (E 0 1 0) as E2. pose proof (E 0 0 1) as E3.
    rewrite Hz in E1, E2, E3. unfold solves. split_and!; lra. }
  apply cof_det in Hs. lra.
Qed.

(** ** The fit over the reals *)

(** The fit in terms of the sums, where the code computes it. *)
Lemma fit_points_regular angle pts : three_positions pts ->
  let q := sums_of pts in
  let d := det_of q in
  let a := cramer_solve (normal_matrix q) (normal_rhs q) 0 d in
  let b := cramer_solve (normal_matrix q) (normal_rhs q) 1 d in
  let c := cramer_solve (normal_matrix q) (normal_rhs q) 2 d in
  let n := Z.of_nat (length pts) in
  fit_points angle pts =
  mkFit angle a b c (2 * a)
    (if (3 <? n)%Z then 2 * sqrt (rss a b c pts / IZR (n - 3) * cof0 q / d) else 0)
    (sqrt (rss a b c pts / IZR n)) n true.
Proof.
  intros Hp q d a b c n. pose proof (three_positions_length pts Hp) as Hl.
  pose proof (det_positive pts Hp) as Hd. pose proof (cof0_positive pts Hp) as Hc. fold q in Hd, Hc.
  unfold fit_points. fold n. rewrite fold_sums. fold q d a b c.
  rewrite (proj2 (Z.ltb_ge n 3)) by (unfold n; lia).
  cbn [a_eqb real_arith a_of_Z]. destruct (Req_dec_T d 0) as [Hz|_]; [unfold d in Hz; lra|].
  rewrite fold_rss_from, Rplus_0_l. f_equal.
  destruct (Z.ltb_spec 3 n) as [Hn|Hn]; [|done]. cbn [a_mul a_sqrt a_div a_sub a_ltb].
  do 2 f_equal. set (v := rss a b c pts / _ * _ / d).
  change ((if a_ltb (Arith := real_arith) 0 v then v else 0) = v). cbn [a_ltb real_arith].
  destruct (Rlt_dec 0 v) as [|Hv]; [done|]. symmetry. apply Rle_antisym; [lra|].
  assert (0 < IZR (n - 3)) by (apply IZR_lt; lia).
  assert (0 <= rss a b c pts) by (apply total_nonneg; intros; apply Rle_0_sqr).
  unfold v, Rdiv. repeat apply Rmult_le_pos; try lra; apply Rlt_le, Rinv_0_lt_compat; done.
Qed.

Lemma fit_points_singular angle pts : ~ three_positions pts ->
  fit_points angle pts = no_fit angle (Z.of_nat (length pts)).
Proof.
  intros Hp. unfold fit_points. rewrite fold_sums. destruct (_ <? 3)%Z; [done|].
  cbn [a_eqb real_arith a_of_Z]. rewrite (det_zero pts Hp). by destruct (Req_dec_T 0 0).
Qed.

Lemma rss_unique x y w pts : three_positions pts ->
  total (fun s _ => Rsqr (parabola x y w s)) pts = 0 -> x = 0 /\ y = 0 /\ w = 0.
Proof.
  intros (p1 & p2 & p3 & H1 & H2 & H3 & N12 & N13 & N23) Hz.
  apply total_zero in Hz; [|intros; apply Rle_0_sqr]. rewrite Forall_forall in Hz.
  by apply (three_roots x y w p1.1 p2.1 p3.1); try apply Rsqr_0_uniq, Hz.
Qed.

(** [C13] The method of [fit_line], in exact arithmetic, is the least-squares parabola: the
    fit is valid exactly when the line was kept at three different positions; then no
    parabola has a smaller sum of squared residuals and no other one has as small a sum;
    the curvature is the second derivative, the residual is the root mean square, and the
    standard error is that of the curvature, twice the root of the residual variance times
    the first entry [e] of the inverse of the normal matrix. *)
Theorem fit_is_least_squares angle pts :
  let r := fit_points angle pts in
  (fit_valid r = true <-> three_positions pts) /\ n_used r = Z.of_nat (length pts) /\
  (fit_valid r = true ->
     (forall a b c, rss (fit_a r) (fit_b r) (fit_c r) pts <= rss a b c pts) /\
     (forall a b c, rss a b c pts = rss (fit_a r) (fit_b r) (fit_c r) pts ->
        a = fit_a r /\ b = fit_b r /\ c = fit_c r) /\
     curvature_per_m r = 2 * fit_a r /\
     residual_rms_m r = sqrt (rss (fit_a r) (fit_b r) (fit_c r) pts / IZR (n_used r)) /\
     ((3 < n_used r)%Z -> exists e y w, solves (sums_of pts) e y w 1 0 0 /\
        se_curvature_per_m r =
          2 * sqrt (rss (fit_a r) (fit_b r) (fit_c r) pts / IZR (n_used r - 3) * e))).
Proof.
  destruct (positions_cases pts) as [Hp|Hp]; cbv zeta.
  2: { rewrite fit_points_singular by done. simpl. split; [by split|]. split; [done|]. intros [=]. }
  rewrite (fit_points_regular angle pts Hp).
  cbn [fit_valid n_used fit_a fit_b fit_c curvature_per_m residual_rms_m se_curvature_per_m].
  set (q := sums_of pts) in *. pose proof (det_positive pts Hp) as Hd. fold q in Hd.
  pose proof (cramer_solves q ltac:(lra)) as Hs.
  set (a := cramer_solve _ _ 0 _) in *. set (b := cramer_solve _ _ 1 _) in *.
  set (c := cramer_solve _ _ 2 _) in *. split; [done|]. split; [done|]. intros _.
  split_and!; try done.
  - intros a' b' c'. rewrite (rss_solution a b c a' b' c' pts Hs).
    pose proof (total_nonneg (fun s _ => Rsqr (parabola (a' - a) (b' - b) (c' - c) s)) pts
      ltac:(intros; apply Rle_0_sqr)). lra.
  - intros a' b' c' He. rewrite (rss_solution a b c a' b' c' pts Hs) in He.
    destruct (rss_unique (a' - a) (b' - b) (c' - c) pts Hp) as (? & ? & ?); lra.
  - intros Hn. destruct (cof_solves q) as (E1 & E2 & E3).
    exists (cof0 q / det_of q), (cof1 q / det_of q), (cof2 q / det_of q). split.
    + split_and!; [replace 1 with (det_of q / det_of q) by (field; lra); rewrite <- E1 at 4|
        transitivity (0 / det_of q); [rewrite <- E2|]|transitivity (0 / det_of q); [rewrite <- E3|]];
        field; lra.
    + rewrite (proj2 (Z.ltb_lt _ _) Hn). do 3 f_equal. unfold Rdiv. ring.
Qed.

Lemma fit_is_least_squares_witness :
  let pts := [(-1, 1); (0, 0); (1, 1); (2, 5)] in
  let r := fit_points 0 pts in
  fit_valid r = true /\ (forall a b c, rss (fit_a r) (fit_b r) (fit_c r) pts <= rss a b c pts) /\
  (3 < n_used r)%Z.
Proof.
  intros pts r. destruct (fit_is_least_squares 0 pts) as (Hv & Hn & Hf). fold r in Hv, Hn, Hf.
  assert (Ht : fit_valid r = true).
  { apply Hv. exists (-1, 1), (0, 0), (1, 1). unfold pts. simpl.
    split_and!; [left|right; left|right; right; left|lra..]. }
  split; [exact Ht|]. split; [apply (Hf Ht)|]. rewrite Hn. reflexivity.
Defined.

End least_squares.
