(* ===== verification/WaferStress.v ===== *)
(** * From the fits of the lines to a stress

    src/analysis/combine.cpp, stoney.cpp and uncertainty.cpp, over the same class of
    arithmetic as the fit, and what they compute over the real numbers. *)

From Stdlib Require Import Reals Lra Floats.SpecFloat.
From S2P Require Import CLibrary FloatOrder LineFilter WaferFit Prelude.

Section stress.
Context {T : Type} {A : Arith T}.
#[local] Open Scope arith_scope.

(** ** Combining the lines *)

(** [std::min] and [std::max]: the first of two when neither is less. *)
Definition std_min (x y : T) : T := if a_ltb y x then y else x.
Definition std_max (x y : T) : T := if a_ltb x y then y else x.

Record CombinedResult := mkCombined {
  mean_curvature_per_m : T;
  anisotropy : T;
  n_lines : Z
}.

Record Spread := mkSpread { spread_sum : T; spread_lo : T; spread_hi : T;
                            spread_first : bool; spread_lines : Z }.

Definition no_spread : Spread := mkSpread (a_of_Z 0) (a_of_Z 0) (a_of_Z 0) true 0.

Definition add_line (st : Spread) (fit : LineFitResult T) : Spread :=
  if fit_valid fit then
    let k := curvature_per_m fit in
    mkSpread (spread_sum st + k)
      (if spread_first st then k else std_min (spread_lo st) k)
      (if spread_first st then k else std_max (spread_hi st) k) false (spread_lines st + 1)%Z
  else st.

Definition combine_lines (fits : list (LineFitResult T)) : CombinedResult :=
  let st := foldl add_line no_spread fits in
  if spread_lines st =? 0 then mkCombined (a_of_Z 0) (a_of_Z 0) 0
  else
    let mean := spread_sum st / a_of_Z (spread_lines st) in
    mkCombined mean
      (if a_eqb mean (a_of_Z 0) then a_of_Z 0 else (spread_hi st - spread_lo st) / mean)
      (spread_lines st).

(** ** Stress and its uncertainty *)

Definition stoney_stress_pa (k_mean_per_m k0_per_m biaxial_modulus_pa substrate_thickness_m
    film_thickness_m : T) : T :=
  biaxial_modulus_pa * substrate_thickness_m * substrate_thickness_m * (k_mean_per_m - k0_per_m) /
  (a_of_Z 6 * film_thickness_m).

Definition stress_uncertainty_pa (fits : list (LineFitResult T)) (biaxial_modulus_pa
    substrate_thickness_m film_thickness_m : T) : T :=
  let '(sum_sq, n) := foldl (fun '(sum_sq, n) fit =>
    if fit_valid fit
    then (sum_sq + se_curvature_per_m fit * se_curvature_per_m fit, (n + 1)%Z)
    else (sum_sq, n)) (a_of_Z 0, 0%Z) fits in
  if n =? 0 then a_of_Z 0
  else
    let se_k_mean := a_sqrt sum_sq / a_of_Z n in
    biaxial_modulus_pa * substrate_thickness_m * substrate_thickness_m * se_k_mean /
    (a_of_Z 6 * film_thickness_m).

End stress.

Arguments CombinedResult : clear implicits.
Arguments Spread : clear implicits.

(** ** Over the reals *)

Section combined_exactly.
#[local] Open Scope R_scope.
Implicit Types fits : list (LineFitResult R).

Definition sum_curvature fits : R := foldr (fun fit acc => curvature_per_m fit + acc) 0 fits.

Lemma fold_lines fits st : Forall (fun fit => fit_valid fit = true) fits ->
  spread_sum (foldl add_line st fits) = spread_sum st + sum_curvature fits /\
  spread_lines (foldl add_line st fits) = (spread_lines st + Z.of_nat (length fits))%Z.
Proof.
  intros Hf. revert st. induction Hf as [|fit fits Hv _ IH]; intros st; simpl.
  - split; [ring|lia].
  - destruct (IH (add_line st fit)) as [-> ->]. unfold add_line. rewrite Hv. cbn [spread_sum spread_lines].
    split; [simpl; ring|lia].
Qed.

(** The mean of valid lines is the mean of their curvatures. *)
Lemma combined_mean fits : Forall (fun fit => fit_valid fit = true) fits -> fits <> [] ->
  n_lines (combine_lines fits) = Z.of_nat (length fits) /\
  mean_curvature_per_m (combine_lines fits) = sum_curvature fits / INR (length fits).
Proof.
  intros Hv Hne. unfold combine_lines. destruct (fold_lines fits no_spread Hv) as [-> ->].
  cbn [spread_lines no_spread spread_sum]. rewrite Z.add_0_l.
  destruct (Z.eqb_spec (Z.of_nat (length fits)) 0) as [H0|H0].
  { destruct fits; simpl in H0; [done|lia]. }
  cbn [n_lines mean_curvature_per_m a_of_Z real_arith]. split; [done|].
  rewrite INR_IZR_INZ. simpl. unfold Rdiv. ring.
Qed.

(** Stoney's formula inverts the curvature a stress gives a wafer. *)
Lemma stoney_inverts sigma k0 m ts tf : m <> 0 -> ts <> 0 -> tf <> 0 ->
  stoney_stress_pa (k0 + 6 * sigma * tf / (m * ts * ts)) k0 m ts tf = sigma.
Proof. intros. unfold stoney_stress_pa. simpl. field. auto. Qed.

End combined_exactly.
