(* ===== verification/WaferModel.v ===== *)
(** * The simulated wafer, and its stress recovered

    src/hw/wafer_model.cpp and the angles and positions of src/hw/scan_thread.cpp, over the
    class of arithmetic of [WaferFit] with the cosine and sine the code calls. Over the real
    numbers the analysis inverts the model: from a wafer of any stress, tilt and anisotropy,
    scanned along two or more evenly spaced lines, it recovers the stress exactly. *)

From Stdlib Require Import Reals Lra Floats.SpecFloat.
From S2P Require Import CLibrary FloatOrder LineFilter WaferFit WaferStress ConfigFile Prelude.

(** [std::cos] and [std::sin]. *)
Class Trig (T : Type) := { a_cos : T -> T; a_sin : T -> T }.

#[export] Instance real_trig : Trig R := {| a_cos := cos; a_sin := sin |}.

Section model.
Context {T : Type} {A : Arith T} {G : Trig T}.
#[local] Open Scope arith_scope.

(** ** The wafer (wafer_model.cpp) *)

Record WaferTruth := mkWaferTruth {
  truth_stress_pa : T;
  initial_curvature_per_m : T;
  tilt_x : T;
  tilt_y : T;
  wafer_anisotropy : T;
  film_curvature_per_m : T;
  total_curvature_per_m : T;
  kx_per_m : T;
  ky_per_m : T;
  truth_diameter_m : T
}.

(** The values of [WaferConfig] the model is made from. *)
Record WaferSettings := mkSettings {
  set_diameter_mm : T;
  set_thickness_um : T;
  set_film_thickness_um : T;
  set_biaxial_modulus_gpa : T;
  set_stress_mpa : T;
  set_initial_curvature : T;
  set_tilt_x_um_per_mm : T;
  set_tilt_y_um_per_mm : T;
  set_anisotropy : T
}.

(** The unit constants; dividing one by a power of ten rounds as the literal does. *)
Definition um_to_m : T := a_of_Z 1 / a_of_Z 1000000.
Definition mm_to_m : T := a_of_Z 1 / a_of_Z 1000.
Definition mpa_to_pa : T := a_of_Z 1000000.
Definition gpa_to_pa : T := a_of_Z 1000000000.

Definition wafer_model (w : WaferSettings) : WaferTruth :=
  let sigma_pa := set_stress_mpa w * mpa_to_pa in
  let t_f_m := set_film_thickness_um w * um_to_m in
  let t_s_m := set_thickness_um w * um_to_m in
  let m_s_pa := set_biaxial_modulus_gpa w * gpa_to_pa in
  let film := a_of_Z 6 * sigma_pa * t_f_m / (m_s_pa * t_s_m * t_s_m) in
  let total := set_initial_curvature w + film in
  mkWaferTruth sigma_pa (set_initial_curvature w) (set_tilt_x_um_per_mm w * mm_to_m)
    (set_tilt_y_um_per_mm w * mm_to_m) (set_anisotropy w) film total
    (total * (a_of_Z 1 - set_anisotropy w / a_of_Z 2))
    (total * (a_of_Z 1 + set_anisotropy w / a_of_Z 2))
    (set_diameter_mm w * mm_to_m).

Definition curvature_at_m (t : WaferTruth) (theta_rad : T) : T :=
  let c := a_cos theta_rad in
  let s := a_sin theta_rad in
  kx_per_m t * c * c + ky_per_m t * s * s.

Definition height_m (t : WaferTruth) (theta_rad s_m : T) : T :=
  let tilt_along_line := tilt_x t * a_cos theta_rad + tilt_y t * a_sin theta_rad in
  let k := curvature_at_m t theta_rad in
  tilt_along_line * s_m + a_of_Z 1 / a_of_Z 2 * k * s_m * s_m.

(** ** Where the scan measures (scan_thread.cpp) *)

(** [pi] is the constant [kPi] of the code. *)
Definition scan_angle (pi : T) (line n_lines : Z) : T := pi * a_of_Z line / a_of_Z n_lines.

Definition scan_position (radius_m : T) (p n_points : Z) : T :=
  a_opp radius_m + a_of_Z 2 * radius_m * a_of_Z p / a_of_Z (n_points - 1).

End model.

Arguments WaferTruth : clear implicits.
Arguments WaferSettings : clear implicits.

Definition settings_of (w : WaferConfig) : WaferSettings double :=
  mkSettings (diameter_mm w) (thickness_um w) (film_thickness_um w) (biaxial_modulus_gpa w)
    (truth_stress_mpa (truth w)) (initial_curvature_1_per_m (truth w)) (tilt_x_um_per_mm (truth w))
    (tilt_y_um_per_mm (truth w)) (truth_anisotropy (truth w)).

(** The constants are the literals of the code. *)
Example unit_constants :
  um_to_m = double_of_ratio false 1 1000000 /\ mm_to_m = milli /\
  a_div (a_of_Z 1) (a_of_Z 2) = LineFilter.half.
Proof. vm_compute. done. Qed.

(** ** The analysis of a clean wafer, over the reals *)

Section recovery.
#[local] Open Scope R_scope.

(** What is measured at some positions of a line. *)
Definition clean_line (t : WaferTruth R) (theta : R) (positions : list R) : list (R * R) :=
  map (fun s => (s, height_m t theta s)) positions.

(** Line [i] of [n], measured at [positions i]. *)
Definition clean_fit (t : WaferTruth R) (n : nat) (positions : nat -> list R) (i : nat) : LineFitResult R :=
  let theta := scan_angle PI (Z.of_nat i) (Z.of_nat n) in
  fit_points theta (clean_line t theta (positions i)).

(** The stress the pipeline computes from the fits of a wafer. *)
Definition analysed_stress (w : WaferSettings R) (fits : list (LineFitResult R)) : R :=
  stoney_stress_pa (mean_curvature_per_m (combine_lines fits)) (set_initial_curvature w)
    (set_biaxial_modulus_gpa w * gpa_to_pa) (set_thickness_um w * um_to_m)
    (set_film_thickness_um w * um_to_m).

Definition analysed_uncertainty (w : WaferSettings R) (fits : list (LineFitResult R)) : R :=
  stress_uncertainty_pa fits
    (set_biaxial_modulus_gpa w * gpa_to_pa) (set_thickness_um w * um_to_m)
    (set_film_thickness_um w * um_to_m).

(** *** A line of a parabola is fitted exactly *)

Lemma exact_fit angle a b c pts : three_positions pts ->
  Forall (fun p => p.2 = parabola a b c p.1) pts ->
  let r := fit_points angle pts in
  fit_valid r = true /\ curvature_per_m r = 2 * a /\ residual_rms_m r = 0 /\ se_curvature_per_m r = 0.
Proof.
  intros Hp Hz. cbv zeta. rewrite (fit_points_regular angle pts Hp).
  cbn [fit_valid curvature_per_m residual_rms_m se_curvature_per_m].
  pose proof (det_positive pts Hp) as Hd. pose proof (cramer_solves (sums_of pts) ltac:(lra)) as Hs.
  set (a0 := cramer_solve _ _ 0 _) in *. set (b0 := cramer_solve _ _ 1 _) in *.
  set (c0 := cramer_solve _ _ 2 _) in *.
  assert (H0 : rss a b c pts = 0).
  { unfold rss. clear -Hz. induction Hz as [|p pts Hp _ IH]; simpl; [done|]. rewrite Hp, IH.
    unfold Rsqr. ring. }
  pose proof (rss_solution a0 b0 c0 a b c pts Hs) as Hr. rewrite H0 in Hr.
  assert (H1 : 0 <= rss a0 b0 c0 pts) by (apply total_nonneg; intros; apply Rle_0_sqr).
  pose proof (total_nonneg (fun s _ => Rsqr (parabola (a - a0) (b - b0) (c - c0) s)) pts
    ltac:(intros; apply Rle_0_sqr)) as H2.
  destruct (rss_unique (a - a0) (b - b0) (c - c0) pts Hp) as (Ha & _ & _); [lra|].
  assert (Hrss : rss a0 b0 c0 pts = 0) by lra. rewrite Hrss.
  split; [done|]. split; [lra|]. unfold Rdiv. rewrite !Rmult_0_l, sqrt_0. split; [done|].
  case_match; ring.
Qed.

Lemma clean_line_positions t theta positions u1 u2 u3 :
  u1 ∈ positions -> u2 ∈ positions -> u3 ∈ positions -> u1 <> u2 -> u1 <> u3 -> u2 <> u3 ->
  three_positions (clean_line t theta positions).
Proof.
  intros H1 H2 H3 N12 N13 N23.
  exists (u1, height_m t theta u1), (u2, height_m t theta u2), (u3, height_m t theta u3).
  split_and!; try done; by apply (list_elem_of_fmap_2 (fun s => (s, height_m t theta s))).
Qed.

Lemma clean_line_parabola t theta positions :
  Forall (fun p => p.2 = parabola (curvature_at_m t theta / 2)
    (tilt_x t * cos theta + tilt_y t * sin theta) 0 p.1) (clean_line t theta positions).
Proof.
  apply Forall_forall. intros p Hp. apply list_elem_of_fmap in Hp as (s & -> & _).
  unfold height_m, parabola. simpl. field.
Qed.

(** *** Evenly spaced lines *)

(** [sin (pi/n)] times the sum of the cosines telescopes. *)
Lemma cos_sum n m : (0 < n)%nat ->
  2 * sin (PI / INR n) * foldr (fun i acc => cos (2 * (PI * INR i / INR n)) + acc) 0 (seq 0 m) =
  sin ((2 * INR m - 1) * (PI / INR n)) + sin (PI / INR n).
Proof.
  intros Hn. assert (H0 : INR n <> 0) by (apply not_0_INR; lia).
  induction m as [|m IH].
  - simpl. replace ((2 * 0 - 1) * (PI / INR n)) with (- (PI / INR n)) by ring. rewrite sin_neg. ring.
  - rewrite seq_S, foldr_app. simpl foldr at 2.
    assert (E : forall l b, foldr (fun i acc => cos (2 * (PI * INR i / INR n)) + acc) b l =
      foldr (fun i acc => cos (2 * (PI * INR i / INR n)) + acc) 0 l + b).
    { induction l as [|x l IHl]; intros b; simpl; [ring|]. rewrite IHl. ring. }
    rewrite E, Rmult_plus_distr_l, IH, S_INR, Rplus_0_r.
    replace ((2 * (INR m + 1) - 1) * (PI / INR n)) with (2 * (PI * INR m / INR n) + PI / INR n) by (field; done).
    replace ((2 * INR m - 1) * (PI / INR n)) with (2 * (PI * INR m / INR n) - PI / INR n) by (field; done).
    rewrite sin_plus, sin_minus. ring.
Qed.

Lemma cos_sum_zero n : (2 <= n)%nat ->
  foldr (fun i acc => cos (2 * (PI * INR i / INR n)) + acc) 0 (seq 0 n) = 0.
Proof.
  intros Hn. pose proof (cos_sum n n ltac:(lia)) as H.
  assert (H0 : 2 <= INR n) by (replace 2 with (INR 2) by (simpl; ring); by apply le_INR).
  pose proof PI_RGT_0 as Hpi.
  assert (Hs : 0 < sin (PI / INR n)).
  { apply sin_gt_0.
    - apply Rdiv_lt_0_compat; lra.
    - apply (Rmult_lt_reg_r (INR n)); [lra|]. unfold Rdiv. rewrite Rmult_assoc, Rinv_l by lra. nra. }
  replace ((2 * INR n - 1) * (PI / INR n)) with (- (PI / INR n) + 2 * PI) in H by (field; lra).
  rewrite sin_plus, cos_2PI, sin_2PI, sin_neg in H.
  assert (E : 2 * sin (PI / INR n) * foldr (fun i acc => cos (2 * (PI * INR i / INR n)) + acc) 0 (seq 0 n) = 0)
    by (rewrite H; ring).
  apply Rmult_integral in E as [E|E]; [lra|done].
Qed.

(** Along a direction the curvature is the mean of the two principal ones and a cosine. *)
Lemma curvature_cosine t theta :
  curvature_at_m t theta = (kx_per_m t + ky_per_m t) / 2 + (kx_per_m t - ky_per_m t) / 2 * cos (2 * theta).
Proof.
  unfold curvature_at_m. simpl. rewrite cos_2a.
  pose proof (sin2_cos2 theta) as H. unfold Rsqr in H.
  replace (sin theta * sin theta) with (1 - cos theta * cos theta) by lra.
  replace (ky_per_m t * sin theta * sin theta) with (ky_per_m t * (1 - cos theta * cos theta)) by
    (replace (1 - cos theta * cos theta) with (sin theta * sin theta) by lra; ring).
  field.
Qed.

(** The anisotropy cancels over two or more evenly spaced lines. *)
Lemma mean_curvature t n : (2 <= n)%nat ->
  foldr (fun i acc => curvature_at_m t (scan_angle PI (Z.of_nat i) (Z.of_nat n)) + acc) 0 (seq 0 n) =
  INR n * ((kx_per_m t + ky_per_m t) / 2).
Proof.
  intros Hn.
  assert (E : forall l, foldr (fun i acc => curvature_at_m t (scan_angle PI (Z.of_nat i) (Z.of_nat n)) + acc) 0 l =
    INR (length l) * ((kx_per_m t + ky_per_m t) / 2) +
    (kx_per_m t - ky_per_m t) / 2 * foldr (fun i acc => cos (2 * (PI * INR i / INR n)) + acc) 0 l).
  { induction l as [|i l IH]; [simpl; ring|]. cbn [foldr length]. rewrite IH, curvature_cosine, S_INR.
    unfold scan_angle. cbn [a_mul a_div a_of_Z real_arith]. rewrite <- !INR_IZR_INZ. ring. }
  rewrite E, (cos_sum_zero n Hn), length_seq. ring.
Qed.

Lemma total_curvature w : kx_per_m (wafer_model w) + ky_per_m (wafer_model w) =
  2 * total_curvature_per_m (wafer_model w).
Proof.
  unfold wafer_model. cbn [kx_per_m ky_per_m total_curvature_per_m].
  set (k := a_add (set_initial_curvature w) _). clearbody k. simpl. field.
Qed.

(** *** The wafer *)

(** Line [i] has three different positions. *)
Definition measured (positions : list R) : Prop :=
  exists u1 u2 u3, u1 ∈ positions /\ u2 ∈ positions /\ u3 ∈ positions /\ u1 <> u2 /\ u1 <> u3 /\ u2 <> u3.

Lemma clean_fit_exact t n positions i : measured (positions i) ->
  let r := clean_fit t n positions i in
  fit_valid r = true /\ curvature_per_m r = curvature_at_m t (scan_angle PI (Z.of_nat i) (Z.of_nat n)) /\
  residual_rms_m r = 0 /\ se_curvature_per_m r = 0.
Proof.
  intros (u1 & u2 & u3 & H1 & H2 & H3 & N12 & N13 & N23). cbv zeta. unfold clean_fit.
  set (theta := scan_angle _ _ _).
  pose proof (clean_line_positions t theta _ _ _ _ H1 H2 H3 N12 N13 N23) as Hp.
  destruct (exact_fit theta _ _ _ _ Hp (clean_line_parabola t theta (positions i))) as (Hv & Hk & Hr & Hs).
  split_and!; try done. rewrite Hk. field.
Qed.

Lemma clean_fits t n positions l : Forall (fun i => measured (positions i)) l ->
  let fits := map (clean_fit t n positions) l in
  Forall (fun fit => fit_valid fit = true) fits /\
  Forall (fun fit => residual_rms_m fit = 0 /\ se_curvature_per_m fit = 0) fits /\
  sum_curvature fits =
    foldr (fun i acc => curvature_at_m t (scan_angle PI (Z.of_nat i) (Z.of_nat n)) + acc) 0 l.
Proof.
  intros Hl. cbv zeta. induction Hl as [|i l Hi _ (IH1 & IH2 & IH3)]; [by repeat constructor|].
  destruct (clean_fit_exact t n positions i Hi) as (Hv & Hk & Hr & Hs).
  cbn [map sum_curvature foldr]. fold (sum_curvature (map (clean_fit t n positions) l)).
  rewrite Hk, IH3. split_and!; [by constructor|by constructor|done].
Qed.

Lemma no_uncertainty fits m ts tf :
  Forall (fun fit => residual_rms_m fit = 0 /\ se_curvature_per_m fit = 0) fits ->
  stress_uncertainty_pa fits m ts tf = 0.
Proof.
  intros Hf. unfold stress_uncertainty_pa.
  assert (E : forall n, exists n', foldl (fun '(sum_sq, n) (fit : LineFitResult R) =>
    if fit_valid fit then (a_add sum_sq (a_mul (se_curvature_per_m fit) (se_curvature_per_m fit)), (n + 1)%Z)
    else (sum_sq, n)) (a_of_Z 0, n) fits = (0, n')).
  { induction Hf as [|fit fits [_ Hs] _ IH]; intros n; simpl; [by eexists|].
    destruct (fit_valid fit); [|apply IH]. rewrite Hs.
    replace (IZR 0 + 0 * 0) with (IZR 0) by ring. apply IH. }
  destruct (E 0%Z) as [n' ->]. case_match; [done|]. simpl. rewrite sqrt_0. unfold Rdiv. ring.
Qed.

End recovery.

(** [C16] The known answer: over the real numbers the analysis recovers the hidden stress of a
    simulated wafer exactly, with no uncertainty and no residual, whatever the stress, the
    tilt, the anisotropy and the curvature before coating, from two or more evenly spaced
    lines each measured, or kept by the filters, at three or more positions; the anisotropy
    does not bias the mean. With a single line it does: the result is then off by the part
    of the curvature the anisotropy takes from that line. *)
Theorem stress_recovered (w : WaferSettings R) (n : nat) (positions : nat -> list R) :
  set_biaxial_modulus_gpa w <> 0%R -> set_thickness_um w <> 0%R -> set_film_thickness_um w <> 0%R ->
  (forall i, measured (positions i)) ->
  let t := wafer_model w in
  let fits := map (clean_fit t n positions) (seq 0 n) in
  ((2 <= n)%nat ->
     analysed_stress w fits = truth_stress_pa t /\ analysed_uncertainty w fits = 0%R /\
     Forall (fun fit => residual_rms_m fit = 0%R) fits) /\
  (n = 1%nat ->
     mean_curvature_per_m (combine_lines fits) =
       (total_curvature_per_m t * (1 - set_anisotropy w / 2))%R).
Proof.
  intros Hm Hts Htf Hpos t fits.
  destruct (clean_fits t n positions (seq 0 n)) as (Hv & Hz & Hsum);
    [by apply Forall_forall|]. fold fits in Hv, Hz, Hsum.
  assert (Hlen : length fits = n) by (unfold fits; by rewrite length_map, length_seq).
  split.
  - intros Hn. assert (Hne : fits <> []) by (intros E; rewrite E in Hlen; simpl in Hlen; lia).
    split_and!; [|by apply no_uncertainty|eapply Forall_impl; [exact Hz|by intros ? []]].
    destruct (combined_mean fits Hv Hne) as [_ Hmean]. unfold analysed_stress.
    rewrite Hmean, Hsum, (mean_curvature t n Hn), Hlen. unfold t. rewrite total_curvature.
    assert (H0 : INR n <> 0%R) by (apply not_0_INR; lia).
    replace (INR n * (2 * total_curvature_per_m (wafer_model w) / 2) / INR n)%R
      with (total_curvature_per_m (wafer_model w)) by (field; done).
    apply stoney_inverts; simpl; repeat apply Rmult_integral_contrapositive_currified; try done; lra.
  - intros ->. assert (Hne : fits <> []) by done.
    destruct (combined_mean fits Hv Hne) as [_ ->]. rewrite Hsum, Hlen. cbn [seq foldr].
    assert (E : scan_angle PI (Z.of_nat 0) (Z.of_nat 1) = 0%R) by (unfold scan_angle; simpl; field).
    rewrite curvature_cosine, E, Rmult_0_r, cos_0. unfold t, wafer_model.
    cbn [kx_per_m ky_per_m total_curvature_per_m].
    set (k := a_add (set_initial_curvature w) _). clearbody k. simpl. field.
Qed.

Lemma stress_recovered_witness :
  let w := (mkSettings 300 775 1 180 (-180) (1/500) (4/5) (-3/10) (1/20))%R in
  let positions := fun _ : nat => [-1; 0; 1]%R in
  analysed_stress w (map (clean_fit (wafer_model w) 6 positions) (seq 0 6)) = truth_stress_pa (wafer_model w).
Proof.
  intros w positions.
  assert (Hpos : forall i, measured (positions i)).
  { intros i. exists (-1)%R, 0%R, 1%R. unfold positions.
    split_and!; [left|right; left|right; right; left|lra..]. }
  apply (stress_recovered w 6 positions); simpl; first [lra|exact Hpos|lia].
Defined.
