(* ===== verification/FaultInjector.v ===== *)
(** * Faults of the simulated sensor

    src/hw/fault_injector.cpp: the seven kinds of fault, applied to one sample after the
    other. The engine and the distribution of the C++ library are a parameter, [Random]. A
    run of bad samples, once triggered, has exactly the length that was asked for. *)

From S2P Require Import CLibrary FloatOrder LineFilter ConfigFile Prelude.

(** [std::mt19937_64] with [std::bernoulli_distribution]: the state after seeding, and one
    draw with a probability. *)
Class Random (G : Type) := {
  seeded : Z -> G;
  bernoulli : double -> G -> bool * G
}.

Inductive FaultType := kSpike | kBurst | kDropout | kStuck | kDrift | kSaturation | kStageStall.

#[export] Instance FaultType_eq_dec : EqDecision FaultType.
Proof. solve_decision. Defined.

Record FaultSpec := mkFaultSpec {
  spec_type : FaultType;
  spec_rate : double;
  spec_amplitude_um : double;
  spec_length_samples : Z;
  spec_drift_um_per_s : double;
  spec_saturation_limit_um : double;
  spec_stall_duration_s : double
}.

(** [sample_height_m] is [None] for a sample that was dropped. *)
Record FaultSample := mkFaultSample { sample_height_m : option double; stage_stall : bool }.

(** [kUmToM]. *)
Definition micro : double := double_of_ratio false 1 1000000.

Definition d_one : double := double_of_Z 1.

(** [std::clamp], for bounds in order. *)
Definition std_clamp (v lo hi : double) : double :=
  if SFltb v lo then lo else if SFltb hi v then hi else v.

Section injector.
Context {G : Type} {R : Random G}.

Record FaultInjector := mkInjector {
  spec_ : FaultSpec;
  rng_ : G;
  run_remaining_ : Z;
  stuck_value_m_ : double
}.

Definition new_injector (spec : FaultSpec) (seed : Z) : FaultInjector :=
  mkInjector spec (seeded seed) 0 (double_of_Z 0).

(** [trigger_(rng_)]. *)
Definition trigger (i : FaultInjector) : bool * FaultInjector :=
  let '(b, g) := bernoulli (spec_rate (spec_ i)) (rng_ i) in
  (b, mkInjector (spec_ i) g (run_remaining_ i) (stuck_value_m_ i)).

(** The sign of a spike: [bernoulli_distribution(0.5)]. *)
Definition draw_sign (i : FaultInjector) : double * FaultInjector :=
  let '(b, g) := bernoulli LineFilter.half (rng_ i) in
  (if b then d_one else SFopp d_one, mkInjector (spec_ i) g (run_remaining_ i) (stuck_value_m_ i)).

Definition offset_sample (i : FaultInjector) (clean_height_m : double) : FaultSample * FaultInjector :=
  let '(sign, i) := draw_sign i in
  (mkFaultSample
     (Some (dadd clean_height_m (dmul (dmul sign (spec_amplitude_um (spec_ i))) micro))) false, i).

Definition clean_sample (h : double) : FaultSample := mkFaultSample (Some h) false.

Definition run_length (i : FaultInjector) : Z := Z.max 1 (spec_length_samples (spec_ i)).

(** [if (run_remaining_ == 0 && trigger_(rng_))]: the start of a run, where a stuck sensor
    also keeps the value it is stuck at. *)
Definition maybe_start (clean_height_m : double) (i : FaultInjector) : FaultInjector :=
  if run_remaining_ i =? 0 then
    let '(b, i) := trigger i in
    if b then
      mkInjector (spec_ i) (rng_ i) (run_length i)
        (if bool_decide (spec_type (spec_ i) = kStuck) then clean_height_m else stuck_value_m_ i)
    else i
  else i.

Definition count_down (i : FaultInjector) : FaultInjector :=
  mkInjector (spec_ i) (rng_ i) (run_remaining_ i - 1) (stuck_value_m_ i).

Definition fault_apply (elapsed_s clean_height_m : double) (i : FaultInjector) : FaultSample * FaultInjector :=
  match spec_type (spec_ i) with
  | kSpike =>
      let '(b, i) := trigger i in
      if b then offset_sample i clean_height_m else (clean_sample clean_height_m, i)
  | kBurst =>
      let i := maybe_start clean_height_m i in
      if 0 <? run_remaining_ i then offset_sample (count_down i) clean_height_m
      else (clean_sample clean_height_m, i)
  | kDropout =>
      let i := maybe_start clean_height_m i in
      if 0 <? run_remaining_ i then (mkFaultSample None false, count_down i)
      else (clean_sample clean_height_m, i)
  | kStuck =>
      let i := maybe_start clean_height_m i in
      if 0 <? run_remaining_ i then (clean_sample (stuck_value_m_ i), count_down i)
      else (clean_sample clean_height_m, i)
  | kDrift =>
      (clean_sample (dadd clean_height_m
         (dmul (dmul (spec_drift_um_per_s (spec_ i)) micro) elapsed_s)), i)
  | kSaturation =>
      let limit_m := dmul (spec_saturation_limit_um (spec_ i)) micro in
      (clean_sample (std_clamp clean_height_m (SFopp limit_m) limit_m), i)
  | kStageStall =>
      let '(b, i) := trigger i in (mkFaultSample (Some clean_height_m) b, i)
  end.

(** One sample after the other: the times and the clean heights. *)
Fixpoint fault_stream (samples : list (double * double)) (i : FaultInjector) : list FaultSample * FaultInjector :=
  match samples with
  | [] => ([], i)
  | (t, h) :: rest =>
      let '(s, i) := fault_apply t h i in
      let '(out, i) := fault_stream rest i in (s :: out, i)
  end.

(** ** Runs *)

Definition run_fault (t : FaultType) : Prop := t = kBurst \/ t = kDropout \/ t = kStuck.

(** What a run makes of a sample; [first] is the height at which it began. *)
Definition run_effect (s : FaultSpec) (first h : double) (out : FaultSample) : Prop :=
  stage_stall out = false /\
  match spec_type s with
  | kDropout => sample_height_m out = None
  | kStuck => sample_height_m out = Some first
  | _ => exists sign, (sign = d_one \/ sign = SFopp d_one) /\
      sample_height_m out = Some (dadd h (dmul (dmul sign (spec_amplitude_um s)) micro))
  end.

(** The engine after [n] samples of a run: one draw of a sign for each sample of a burst, and
    none for the others. *)
Definition signs_drawn (s : FaultSpec) (n : nat) (g : G) : G :=
  Nat.iter n (fun g => if bool_decide (spec_type s = kBurst) then (bernoulli LineFilter.half g).2 else g) g.

Lemma signs_drawn_S s n g : signs_drawn s (S n) g = signs_drawn s n (signs_drawn s 1 g).
Proof. apply Nat.iter_succ_r. Qed.

Lemma trigger_keeps i : let '(b, i') := trigger i in
  spec_ i' = spec_ i /\ run_remaining_ i' = run_remaining_ i /\ stuck_value_m_ i' = stuck_value_m_ i /\
  (b, rng_ i') = bernoulli (spec_rate (spec_ i)) (rng_ i).
Proof. unfold trigger. by destruct (bernoulli _ _). Qed.

Lemma offset_effect i h : let '(out, i') := offset_sample i h in
  spec_ i' = spec_ i /\ run_remaining_ i' = run_remaining_ i /\ stuck_value_m_ i' = stuck_value_m_ i /\
  rng_ i' = (bernoulli LineFilter.half (rng_ i)).2 /\ stage_stall out = false /\
  exists sign, (sign = d_one \/ sign = SFopp d_one) /\
    sample_height_m out = Some (dadd h (dmul (dmul sign (spec_amplitude_um (spec_ i))) micro)).
Proof.
  unfold offset_sample, draw_sign. destruct (bernoulli _ _) as [[] g]; split_and!; try done; eauto.
Qed.

(** A sample inside a run. *)
Lemma run_step t h i : run_fault (spec_type (spec_ i)) -> 0 < run_remaining_ i ->
  let '(out, i') := fault_apply t h i in
  run_effect (spec_ i) (stuck_value_m_ i) h out /\ spec_ i' = spec_ i /\
  run_remaining_ i' = run_remaining_ i - 1 /\ stuck_value_m_ i' = stuck_value_m_ i /\
  rng_ i' = signs_drawn (spec_ i) 1 (rng_ i).
Proof.
  intros Hf Hr. unfold fault_apply, run_effect, maybe_start, signs_drawn. cbn [Nat.iter nat_rect].
  rewrite (proj2 (Z.eqb_neq _ 0)), (proj2 (Z.ltb_lt 0 _)) by lia.
  destruct Hf as [E|[E|E]]; rewrite E; [|done..].
  pose proof (offset_effect (count_down i) h) as H. destruct (offset_sample _ _) as [out i'].
  by destruct H as (? & ? & ? & ? & ? & ?).
Qed.

(** The first sample of a run. *)
Lemma run_start t h i : run_fault (spec_type (spec_ i)) -> run_remaining_ i = 0 ->
  let '(out, i') := fault_apply t h i in
  spec_ i' = spec_ i /\
  if (bernoulli (spec_rate (spec_ i)) (rng_ i)).1 then
    run_effect (spec_ i) h h out /\ run_remaining_ i' = run_length i - 1 /\
    (spec_type (spec_ i) = kStuck -> stuck_value_m_ i' = h) /\
    rng_ i' = signs_drawn (spec_ i) 1 (bernoulli (spec_rate (spec_ i)) (rng_ i)).2
  else out = clean_sample h /\ run_remaining_ i' = 0 /\
    rng_ i' = (bernoulli (spec_rate (spec_ i)) (rng_ i)).2.
Proof.
  intros Hf Hr. unfold fault_apply, run_effect, maybe_start.
  pose proof (trigger_keeps i) as Ht. destruct (trigger i) as [b j].
  destruct Ht as (Es & Er & Est & Eb). rewrite Hr, <- Eb. cbn [fst snd].
  assert (Hl : 0 < run_length i) by (unfold run_length; lia).
  assert (El : run_length j = run_length i) by (unfold run_length; by rewrite Es).
  change (0 =? 0) with true. cbv iota.
  destruct b.
  2:{ rewrite Er, Hr. change (0 <? 0) with false. destruct Hf as [E|[E|E]]; rewrite E; by split_and!; congruence. }
  cbn [run_remaining_ stuck_value_m_]. rewrite Es, El, (proj2 (Z.ltb_lt 0 _)) by lia.
  destruct Hf as [E|[E|E]]; rewrite E.
  - set (k := count_down _). pose proof (offset_effect k h) as H. destruct (offset_sample k h) as [out i'].
    destruct H as (H1 & H2 & H3 & H4 & H5 & H6). subst k. unfold signs_drawn. rewrite E, bool_decide_true by done.
    cbn in *. by split_and!.
  - unfold signs_drawn. rewrite E. simpl. by split_and!.
  - unfold signs_drawn. rewrite E. simpl. by rewrite ?bool_decide_true by done.
Qed.

(** The rest of a run, and the samples after it. *)
Lemma run_rest samples i : run_fault (spec_type (spec_ i)) -> 0 <= run_remaining_ i ->
  let k := Z.to_nat (run_remaining_ i) in
  exists rest j, fault_stream (take k samples) i = (rest, j) /\
    Forall2 (fun s out => run_effect (spec_ i) (stuck_value_m_ i) s.2 out) (take k samples) rest /\
    spec_ j = spec_ i /\ rng_ j = signs_drawn (spec_ i) (length rest) (rng_ i) /\
    ((k <= length samples)%nat -> run_remaining_ j = 0).
Proof.
  intros Hf. revert i Hf. induction samples as [|[t h] samples IH]; intros i Hf Hr k.
  { rewrite take_nil. exists [], i. split_and!; try done. simpl. subst k. lia. }
  destruct (Z.eq_dec (run_remaining_ i) 0) as [E|E].
  { subst k. rewrite E. exists [], i. by split_and!. }
  pose proof (run_step t h i Hf ltac:(lia)) as Hs. destruct (fault_apply t h i) as [out i'] eqn:Ea.
  destruct Hs as (Ho & Es & Er & Est & Eg).
  destruct (IH i') as (rest & j & Ef & Hall & Ej & Ejg & Hend); [by rewrite Es|lia|].
  assert (Ek : k = S (Z.to_nat (run_remaining_ i'))) by (unfold k; lia).
  rewrite Ek. cbn [take fault_stream]. rewrite Ea, Ef. exists (out :: rest), j.
  rewrite Es, Est in Hall. split_and!; [done| |congruence| |simpl; intros; apply Hend; lia].
  2:{ rewrite Ejg, Eg, Es. symmetry. apply signs_drawn_S. }
  by constructor.
Qed.

Lemma fault_stream_app a b i :
  fault_stream (a ++ b) i =
    let '(outa, i) := fault_stream a i in let '(outb, i) := fault_stream b i in (outa ++ outb, i).
Proof.
  revert i. induction a as [|[t h] a IH]; intros i; simpl; [by destruct (fault_stream b i)|].
  destruct (fault_apply t h i) as [s i1]. rewrite IH. destruct (fault_stream a i1) as [oa i2].
  by destruct (fault_stream b i2).
Qed.

End injector.

Arguments FaultInjector : clear implicits.

(** [C37] Bursts, dropouts and a stuck sensor last exactly as long as they were asked to: from an
    injector at rest, a sample whose draw does not trigger passes unchanged and leaves it at
    rest; one whose draw does is the first of a run of exactly the configured number of
    samples, at least one, or of all that are left. In a run every sample is affected, by
    nothing but the fault: missing, frozen at the height of the first, or off by the
    amplitude to either side. The trigger is drawn for the first sample only: in the run the
    engine moves on by one draw of a sign per sample of a burst, and not at all for
    the others. After the run the injector is at rest again. *)
Theorem fault_runs_exact {G} {R : Random G} (i : FaultInjector G) t h samples :
  run_fault (spec_type (spec_ i)) -> run_remaining_ i = 0 ->
  let '(b, drawn) := bernoulli (spec_rate (spec_ i)) (rng_ i) in
  let run := take (Z.to_nat (run_length i)) ((t, h) :: samples) in
  (b = false -> exists i', fault_apply t h i = (clean_sample h, i') /\
     run_remaining_ i' = 0 /\ spec_ i' = spec_ i /\ rng_ i' = drawn) /\
  (b = true -> exists out j, fault_stream run i = (out, j) /\
     Forall2 (fun s o => run_effect (spec_ i) h s.2 o) run out /\ spec_ j = spec_ i /\
     rng_ j = signs_drawn (spec_ i) (length out) drawn /\
     (run_length i <= Z.of_nat (S (length samples)) ->
        run_remaining_ j = 0 /\ Z.of_nat (length out) = run_length i)).
Proof.
  intros Hf Hr. pose proof (run_start t h i Hf Hr) as Hs.
  destruct (bernoulli (spec_rate (spec_ i)) (rng_ i)) as [b drawn]. cbn [fst snd] in Hs. cbv zeta.
  destruct (fault_apply t h i) as [o i'] eqn:Ea. destruct Hs as [Es Hs].
  split; intros Hb; rewrite Hb in Hs; [destruct Hs as (-> & Er & Eg); by eexists|].
  destruct Hs as (He & Er & Est & Eg).
  assert (Hn : Z.to_nat (run_length i) = S (Z.to_nat (run_length i - 1))) by (unfold run_length; lia).
  rewrite Hn. cbn [take fault_stream]. rewrite Ea.
  destruct (run_rest samples i') as (rest & j & Ef & Hall & Ej & Ejg & Hend); [by rewrite Es|unfold run_length in *; lia|].
  rewrite Er in *. rewrite Ef.
  exists (o :: rest), j. pose proof (Forall2_length _ _ _ Hall) as Hlen. rewrite length_take in Hlen.
  split_and!; [done| |congruence| |intros; split; [apply Hend|simpl]; unfold run_length in *; lia].
  2:{ rewrite Ejg, Eg, Es. symmetry. apply signs_drawn_S. }
  constructor; [done|]. rewrite Es in Hall. eapply Forall2_impl; [exact Hall|].
  intros s out [Ho1 Ho2]. split; [done|]. destruct Hf as [E|[E|E]]; rewrite E in *; [done..|].
  by rewrite Est in Ho2.
Qed.

(** An engine whose draws are written out. *)
Definition scripted : Random (list bool) := {|
  seeded := fun _ => [];
  bernoulli := fun _ g => match g with b :: g => (b, g) | [] => (false, []) end
|}.

Lemma fault_runs_exact_witness :
  let i := mkInjector (mkFaultSpec kStuck d_one d_one 2 d_one d_one d_one) [true] 0 (double_of_Z 0) in
  let z := double_of_Z in
  exists j, fault_stream (R := scripted) [(z 0, z 7); (z 1, z 8)] i =
      ([clean_sample (z 7); clean_sample (z 7)], j) /\ run_remaining_ j = 0.
Proof.
  intros i z. assert (Hf : run_fault (spec_type (spec_ i))) by (right; right; reflexivity).
  destruct (fault_runs_exact (R := scripted) i (z 0) (z 7) [(z 1, z 8)] Hf eq_refl)
    as [_ (out & j & Ej & Hall & _ & Hend)]; [reflexivity|].
  change (take _ _) with [(z 0, z 7); (z 1, z 8)] in Ej, Hall. exists j. rewrite Ej.
  split; [|apply Hend; vm_compute; discriminate]. f_equal.
  vm_compute in Ej. injection Ej as <- _. reflexivity.
Defined.
