(* ===== verification/ScanThread.v ===== *)
(** * The scan of a wafer

    src/hw/scan_thread.cpp with the simulated stage and laser it drives
    (src/hw/stage_sim.cpp, src/hw/laser_sensor_sim.cpp): every position of every line, the
    faults injected into the readings, the progress reported and the blocks pushed. What the
    thread meets is a parameter: the abort flag at each check, the clock at each sample, and
    whether the queue takes a block. *)

From S2P Require Import CLibrary FloatOrder LineFilter Controller WaferFit ConfigFile WaferModel FaultInjector Prelude.

#[local] Abbreviation dz := double_of_Z.

(** [kPi]. *)
Definition scan_pi : double := S754_finite false 7074237752028440 (-51).

(** [static_cast<int>] of a double; what it does out of range is undefined. *)
Definition trunc_Z (x : double) : option Z :=
  match x with
  | S754_zero _ => Some 0
  | S754_finite s m e =>
      let v := if 0 <=? e then Zpos m * 2 ^ e else Zpos m / 2 ^ (- e) in
      Some (if s then - v else v)
  | _ => None
  end.

Definition trunc_int (undefined : Z) (x : double) : Z :=
  match trunc_Z x with Some v => if bool_decide (sint_ok 32 v) then v else undefined | None => undefined end.

(** ** Stage and laser *)

Record StageSim := mkStage {
  speed_mm_per_s_ : double;
  realtime_factor_ : double;
  position_m_ : double;
  angle_rad_ : double
}.

Definition new_stage (speed rtf : double) : StageSim := mkStage speed rtf (dz 0) (dz 0).

Definition set_line (angle_rad : double) (s : StageSim) : StageSim :=
  mkStage (speed_mm_per_s_ s) (realtime_factor_ s) (dz 0) angle_rad.

(** [move_to], with the time it sleeps for. *)
Definition move_to (position_m : double) (s : StageSim) : option double * StageSim :=
  let distance_mm := dmul (SFabs (dsub position_m (position_m_ s))) (dz 1000) in
  (if SFltb (dz 0) (realtime_factor_ s) && SFltb (dz 0) (speed_mm_per_s_ s)
   then Some (ddiv (ddiv distance_mm (speed_mm_per_s_ s)) (realtime_factor_ s)) else None,
   mkStage (speed_mm_per_s_ s) (realtime_factor_ s) position_m (angle_rad_ s)).

(** [std::mt19937_64] with a [std::normal_distribution] about 0, which keeps a value
    between draws: the state after seeding, and one draw. *)
Class Gaussian (N : Type) := {
  normal_seeded : Z -> N;
  normal : double -> N -> double * N
}.

Section scan.
Context {G N : Type} {R : Random G} {D : Gaussian N} {T : Trig double}.

Record LaserSensorSim := mkLaser { sigma_m_ : double; noisy_ : bool; laser_rng_ : N }.

Definition new_laser (sigma_m : double) (seed : Z) : LaserSensorSim :=
  mkLaser (if SFltb (dz 0) sigma_m then sigma_m else dz 1) (SFltb (dz 0) sigma_m) (normal_seeded seed).

Definition read_height_m (wafer : WaferTruth double) (stage : StageSim) (l : LaserSensorSim) : double * LaserSensorSim :=
  let ideal := height_m wafer (angle_rad_ stage) (position_m_ stage) in
  if noisy_ l then
    let '(noise, g) := normal (sigma_m_ l) (laser_rng_ l) in
    (dadd ideal noise, mkLaser (sigma_m_ l) (noisy_ l) g)
  else (ideal, l).

(** ** Faults of the scan *)

Definition parse_fault_type (type : string) : option FaultType :=
  if String.eqb type "spike" then Some kSpike
  else if String.eqb type "burst" then Some kBurst
  else if String.eqb type "dropout" then Some kDropout
  else if String.eqb type "stuck" then Some kStuck
  else if String.eqb type "drift" then Some kDrift
  else if String.eqb type "saturation" then Some kSaturation
  else if String.eqb type "stage_stall" then Some kStageStall
  else None.

Definition to_fault_spec (fc : FaultConfig) (type : FaultType) : FaultSpec :=
  mkFaultSpec type (rate fc) (amplitude_um fc) (length_samples fc) (drift_um_per_s fc)
    (saturation_limit_um fc) (stall_duration_s fc).

Record ActiveFault := mkActive { injector : FaultInjector G; active_stall_duration_s : double }.

(** The injectors of a wafer. *)
Definition active_faults (fault_configs : list FaultConfig) (seed : Z) (wafer_id : string) : list ActiveFault :=
  omap (fun fc =>
    if String.eqb (fault_wafer fc) wafer_id then
      type ← parse_fault_type (fault_type fc);
      Some (mkActive (new_injector (to_fault_spec fc type) seed) (stall_duration_s fc))
    else None) fault_configs.

(** ** What the thread does *)

(** [SampleBlock], without the timestamps. *)
Record SampleBlock := mkBlockSamples {
  line_index_ : Z;
  block_angle_rad : double;
  positions_m : list double;
  block_heights_m : list double
}.

Inductive ScanAction :=
| act_sleep (seconds : double)
| act_alarm_set (id : AlarmId) (reason : string)
| act_alarm_clear (id : AlarmId)
| act_progress (wafer_id : string) (percent : double)
| act_push (block : SampleBlock)
| act_lines_complete (wafer_id : string)
| act_stopped.

Record ScanState := mkScanState {
  stage_ : StageSim;
  laser_ : LaserSensorSim;
  injectors : list ActiveFault;
  sample_index : nat;
  last_percent_published : Z;
  done_ : list ScanAction
}.

Definition act (l : list ScanAction) (st : ScanState) : ScanState :=
  mkScanState (stage_ st) (laser_ st) (injectors st) (sample_index st) (last_percent_published st)
    (done_ st ++ l).

Section run.
Context (undefined_int : Z) (wafer : WaferTruth double) (config : ScanConfig) (wafer_id : string)
  (abort_at : nat -> bool) (elapsed_at : nat -> nat -> double) (push_accepts : Z -> bool).

(** The injectors in turn, up to one that drops the sample: the injectors after it, the
    height, whether it was dropped, and the stalls. *)
Fixpoint apply_faults (elapsed : nat -> double) (k : nat) (fs : list ActiveFault) (height : double) :
    list ActiveFault * double * bool * list ScanAction :=
  match fs with
  | [] => ([], height, false, [])
  | active :: rest =>
      let '(sample, inj) := fault_apply (elapsed k) height (injector active) in
      let active := mkActive inj (active_stall_duration_s active) in
      match sample_height_m sample with
      | None => (active :: rest, height, true, [])
      | Some height =>
          let stall :=
            if stage_stall sample then
              [act_alarm_set kScanStall "stage stall fault triggered"] ++
              (if SFltb (dz 0) (realtime_factor config) && SFltb (dz 0) (active_stall_duration_s active)
               then [act_sleep (ddiv (active_stall_duration_s active) (realtime_factor config))] else []) ++
              [act_alarm_clear kScanStall]
            else [] in
          let '(rest, height, dropped, acts) := apply_faults elapsed (S k) rest height in
          (active :: rest, height, dropped, stall ++ acts)
      end
  end.

Definition radius_m : double := ddiv (truth_diameter_m wafer) (dz 2).

Definition n_points : Z :=
  trunc_int undefined_int
    (dmul (dmul (dmul radius_m (dz 2)) (dz 1000)) (dz (points_per_mm config))) + 1.

Definition n_lines : Z := scan_lines config.

Definition done_fraction (line p : Z) : double :=
  ddiv (dmul (dz 100) (dadd (dz line) (ddiv (dz (p + 1)) (dz n_points)))) (dz n_lines).

Definition percent_done (line p : Z) : Z := trunc_int undefined_int (done_fraction line p).

(** The body of the inner loop. *)
Definition scan_sample (line p : Z) (st : ScanState) (b : SampleBlock) : ScanState * SampleBlock :=
  let s := scan_position radius_m p n_points in
  let '(pause, stage) := move_to s (stage_ st) in
  let '(raw, laser) := read_height_m wafer stage (laser_ st) in
  let '(fs, height, dropped, stalls) :=
    apply_faults (elapsed_at (sample_index st)) 0 (injectors st) raw in
  let b := mkBlockSamples (line_index_ b) (block_angle_rad b) (positions_m b ++ [s])
             (block_heights_m b ++ [if dropped : bool then S754_nan else height]) in
  let percent := percent_done line p in
  let newer := last_percent_published st <? percent in
  (mkScanState stage laser fs (S (sample_index st))
     (if newer then percent else last_percent_published st)
     (done_ st ++ (if pause is Some d then [act_sleep d] else []) ++ stalls ++
      (if newer then [act_progress wafer_id (dz percent)] else [])), b).

(** The inner loop, which an abort ends. *)
Fixpoint scan_points (line : Z) (ps : list Z) (st : ScanState) (b : SampleBlock) : ScanState * SampleBlock * bool :=
  match ps with
  | [] => (st, b, false)
  | p :: ps =>
      if abort_at (sample_index st) then (st, b, true)
      else let '(st, b) := scan_sample line p st b in scan_points line ps st b
  end.

Definition line_percent (line : Z) (aborted : bool) : double :=
  ddiv (dmul (dz 100) (dz (line + (if aborted then 0 else 1)))) (dz n_lines).

(** One line. *)
Definition scan_one_line (line : Z) (st : ScanState) : ScanState * bool :=
  let theta := scan_angle scan_pi line n_lines in
  let st := mkScanState (set_line theta (stage_ st)) (laser_ st) (injectors st) (sample_index st)
              (last_percent_published st) (done_ st) in
  let '(st, b, aborted) := scan_points line (seqZ 0 n_points) st (mkBlockSamples line theta [] []) in
  (act ([act_progress wafer_id (line_percent line aborted); act_push b] ++
        (if negb (push_accepts line) && negb aborted
         then [act_alarm_set kQueueOverflow "sample queue full, block dropped"] else [])) st, aborted).

Fixpoint scan_all (lines : list Z) (st : ScanState) : ScanState * bool :=
  match lines with
  | [] => (st, false)
  | line :: lines =>
      let '(st, aborted) := scan_one_line line st in
      if aborted then (st, true) else scan_all lines st
  end.

(** [ScanThread::run], with the hardware as an earlier run left it. *)
Definition ScanThread_run (fault_configs : list FaultConfig) (seed : Z) (stage : StageSim) (laser : LaserSensorSim) : ScanState :=
  let st := mkScanState stage laser (active_faults fault_configs seed wafer_id) 0 (-1) [] in
  let '(st, aborted) := scan_all (seqZ 0 n_lines) st in
  act [if aborted : bool then act_stopped else act_lines_complete wafer_id] st.

End run.

Definition make_simulated_hardware (scan_config : ScanConfig) (noise_config : NoiseConfig) (seed : Z) : StageSim * LaserSensorSim :=
  (new_stage (speed_mm_per_s scan_config) (realtime_factor scan_config),
   new_laser (dmul (sigma_um noise_config) micro) seed).

End scan.

Arguments ActiveFault : clear implicits.
Arguments LaserSensorSim : clear implicits.
Arguments ScanState : clear implicits.

(** ** What a run pushes *)

Definition pushed (l : list ScanAction) : list SampleBlock :=
  omap (fun a => match a with act_push b => Some b | _ => None end) l.

(** The calls that end a run. *)
Definition endings (l : list ScanAction) : list ScanAction :=
  omap (fun a => match a with act_lines_complete _ | act_stopped => Some a | _ => None end) l.

Definition quiet (l : list ScanAction) : Prop := pushed l = [] /\ endings l = [].

Lemma pushed_app a b : pushed (a ++ b) = pushed a ++ pushed b.
Proof. apply omap_app. Qed.

Lemma endings_app a b : endings (a ++ b) = endings a ++ endings b.
Proof. apply omap_app. Qed.

Lemma quiet_app a b : quiet a -> quiet b -> quiet (a ++ b).
Proof. intros [H1 H2] [H3 H4]. split; by rewrite ?pushed_app, ?endings_app, ?H1, ?H2, ?H3, ?H4. Qed.

Section shape.
Context {G N : Type} {R : Random G} {D : Gaussian N} {T : Trig double}.
Context (undefined_int : Z) (wafer : WaferTruth double) (config : ScanConfig) (wafer_id : string)
  (abort_at : nat -> bool) (elapsed_at : nat -> nat -> double) (push_accepts : Z -> bool).

Abbreviation points := (n_points undefined_int wafer config).
Abbreviation sample_ := (scan_sample undefined_int wafer config wafer_id elapsed_at).
Abbreviation points_ := (scan_points undefined_int wafer config wafer_id abort_at elapsed_at).
Abbreviation line_ := (scan_one_line undefined_int wafer config wafer_id abort_at elapsed_at push_accepts).
Abbreviation all_ := (scan_all undefined_int wafer config wafer_id abort_at elapsed_at push_accepts).

(** How many of the next [m] samples are taken before the flag is seen. *)
Fixpoint clear_run (i m : nat) : nat :=
  match m with
  | O => O
  | S m => if abort_at i then O else S (clear_run (S i) m)
  end.

Lemma clear_run_le i m : (clear_run i m <= m)%nat.
Proof. revert i. induction m as [|m IH]; intros i; simpl; [done|]. specialize (IH (S i)). destruct (abort_at i); lia. Qed.

Lemma clear_run_app i a b :
  clear_run i (a + b) =
    if (clear_run i a <? a)%nat then clear_run i a else (a + clear_run (i + a) b)%nat.
Proof.
  revert i. induction a as [|a IH]; intros i; simpl; [by rewrite Nat.add_0_r|].
  destruct (abort_at i); [done|]. rewrite IH, Nat.add_succ_comm.
  destruct (Nat.ltb_spec (clear_run (S i) a) a), (Nat.ltb_spec (S (clear_run (S i) a)) (S a)); lia || done.
Qed.

Definition at_point (p : Z) : double := scan_position (radius_m wafer) p points.

Lemma apply_faults_quiet elapsed k fs h :
  let '(_, _, _, acts) := apply_faults (G := G) config elapsed k fs h in quiet acts.
Proof.
  revert k h. induction fs as [|f fs IH]; intros k h; simpl; [done|].
  destruct (fault_apply _ _ _) as [s inj]. destruct (sample_height_m s) as [h'|]; [|done].
  specialize (IH (S k) h'). destruct (apply_faults _ _ _ _ _) as [[[fs' h''] d] acts].
  apply quiet_app; [|done]. destruct (stage_stall s); [|done]. by destruct (_ && _).
Qed.

Lemma sample_shape line p st b : let '(st', b') := sample_ line p st b in
  sample_index st' = S (sample_index st) /\
  (exists acts, done_ st' = done_ st ++ acts /\ quiet acts) /\
  line_index_ b' = line_index_ b /\ block_angle_rad b' = block_angle_rad b /\
  positions_m b' = positions_m b ++ [at_point p] /\
  length (block_heights_m b') = S (length (block_heights_m b)).
Proof.
  unfold scan_sample. destruct (move_to _ _) as [pause stage]. destruct (read_height_m _ _ _) as [raw laser].
  pose proof (apply_faults_quiet (elapsed_at (sample_index st)) 0 (injectors st) raw) as Hq.
  destruct (apply_faults _ _ _ _ _) as [[[fs h] d] acts]. cbn [sample_index done_ line_index_ block_angle_rad positions_m block_heights_m].
  split_and!; try done; [|rewrite length_app; simpl; lia]. eexists. split; [done|].
  apply quiet_app; [by destruct pause|]. apply quiet_app; [done|]. by destruct (_ <? _).
Qed.

Lemma points_shape line ps st b : let '(st', b', aborted) := points_ line ps st b in
  let j := clear_run (sample_index st) (length ps) in
  sample_index st' = (sample_index st + j)%nat /\ aborted = (j <? length ps)%nat /\
  (exists acts, done_ st' = done_ st ++ acts /\ quiet acts) /\
  line_index_ b' = line_index_ b /\ block_angle_rad b' = block_angle_rad b /\
  positions_m b' = positions_m b ++ map at_point (take j ps) /\
  length (block_heights_m b') = (length (block_heights_m b) + j)%nat.
Proof.
  revert st b. induction ps as [|p ps IH]; intros st b; cbn [scan_points length clear_run].
  { rewrite take_nil, app_nil_r, Nat.add_0_r. split_and!; try done. exists []. by rewrite app_nil_r. }
  destruct (abort_at (sample_index st)).
  { simpl. rewrite !app_nil_r, !Nat.add_0_r. split_and!; try done. exists []. by rewrite app_nil_r. }
  pose proof (sample_shape line p st b) as Hs. destruct (sample_ line p st b) as [st1 b1].
  destruct Hs as (Hi & (a1 & Ha1 & Hq1) & Hl & Han & Hp & Hh).
  specialize (IH st1 b1). destruct (points_ line ps st1 b1) as [[st2 b2] ab]. rewrite Hi in IH.
  destruct IH as (Hi2 & Hab & (a2 & Ha2 & Hq2) & Hl2 & Han2 & Hp2 & Hh2).
  split_and!; [lia|done| |congruence|congruence| |lia].
  - exists (a1 ++ a2). rewrite Ha2, Ha1, app_assoc. split; [done|by apply quiet_app].
  - rewrite Hp2, Hp, <- app_assoc. done.
Qed.

(** Block [k] of a run, cut after [j] samples. *)
Definition block_shape (k j : nat) : Z * double * list double :=
  (Z.of_nat k, scan_angle scan_pi (Z.of_nat k) (n_lines config),
   take j (map at_point (seqZ 0 points))).

Definition shape_of (b : SampleBlock) : Z * double * list double :=
  (line_index_ b, block_angle_rad b, positions_m b).

Definition complete_block (b : SampleBlock) : Prop := length (positions_m b) = length (block_heights_m b).

Lemma line_shape k st : let n := Z.to_nat points in
  let j := clear_run (sample_index st) n in
  let '(st', aborted) := line_ (Z.of_nat k) st in
  sample_index st' = (sample_index st + j)%nat /\ aborted = (j <? n)%nat /\
  exists b, pushed (done_ st') = pushed (done_ st) ++ [b] /\ endings (done_ st') = endings (done_ st) /\
    shape_of b = block_shape k j /\ complete_block b.
Proof.
  cbv zeta. unfold scan_one_line. set (theta := scan_angle _ _ _).
  match goal with |- context [points_ _ _ ?s ?b] => set (st0 := s); set (b0 := b) end.
  pose proof (points_shape (Z.of_nat k) (seqZ 0 points) st0 b0) as H.
  destruct (points_ _ _ st0 b0) as [[st' b'] ab]. rewrite length_seqZ in H.
  change (sample_index st0) with (sample_index st) in H.
  destruct H as (Hi & Hab & (acts & Ha & Hq1 & Hq2) & Hl & Han & Hp & Hh). cbn [sample_index act done_].
  split_and!; [done|done|]. exists b'. change (done_ st0) with (done_ st) in Ha. rewrite Ha.
  rewrite !pushed_app, !endings_app, Hq1, Hq2, !app_nil_r. split_and!.
  - f_equal. simpl. f_equal. by destruct (_ && _).
  - simpl. destruct (_ && _); simpl; by rewrite app_nil_r.
  - unfold shape_of, block_shape. rewrite Hl, Han, Hp. simpl. by rewrite firstn_map.
  - unfold complete_block. rewrite Hp, Hh. simpl. rewrite length_map, length_take, length_seqZ.
    pose proof (clear_run_le (sample_index st) (Z.to_nat points)). lia.
Qed.

Lemma all_shape m k st : let n := Z.to_nat points in
  (0 < n)%nat ->
  let j := clear_run (sample_index st) (m * n) in
  let '(st', aborted) := all_ (seqZ (Z.of_nat k) (Z.of_nat m)) st in
  aborted = (j <? m * n)%nat /\
  exists bs, pushed (done_ st') = pushed (done_ st) ++ bs /\ endings (done_ st') = endings (done_ st) /\
    map shape_of bs = map (fun i => block_shape (k + i) (j - i * n)) (seq 0 (Nat.min m (j / n + 1))) /\
    Forall complete_block bs.
Proof.
  cbv zeta. set (n := Z.to_nat points). intros Hn. revert k st. induction m as [|m IH]; intros k st.
  { simpl. split; [done|]. exists []. rewrite app_nil_r. by split_and!. }
  rewrite seqZ_cons by lia. replace (Z.pred (Z.of_nat (S m))) with (Z.of_nat m) by lia.
  replace (Z.succ (Z.of_nat k)) with (Z.of_nat (S k)) by lia. cbn [scan_all].
  pose proof (line_shape k st) as Hl. cbv zeta in Hl. fold n in Hl.
  destruct (line_ (Z.of_nat k) st) as [st1 ab]. destruct Hl as (Hi & Hab & b & Hb & He & Hs & Hc).
  cbn [Nat.mul]. rewrite clear_run_app. pose proof (clear_run_le (sample_index st) n) as Hle.
  set (j1 := clear_run (sample_index st) n) in *. rewrite Hab.
  destruct (Nat.ltb_spec j1 n) as [Hlt|Hge].
  { rewrite (proj2 (Nat.ltb_lt j1 (n + m * n))) by lia. split; [done|]. exists [b].
    rewrite Nat.div_small by done. split_and!; [done|done| |by constructor].
    simpl. rewrite Nat.min_0_r. simpl. by rewrite Hs, Nat.add_0_r, Nat.sub_0_r. }
  assert (Ej : j1 = n) by lia. rewrite Ej in *. specialize (IH (S k) st1). rewrite Hi in IH.
  set (j' := clear_run (sample_index st + n) (m * n)) in *.
  destruct (all_ (seqZ (Z.of_nat (S k)) (Z.of_nat m)) st1) as [st2 ab2].
  destruct IH as (Hab2 & bs & Hbs & He2 & Hs2 & Hc2).
  split. { rewrite Hab2. destruct (Nat.ltb_spec j' (m * n)), (Nat.ltb_spec (n + j') (n + m * n)); lia || done. }
  exists (b :: bs). rewrite Hbs, Hb, <- app_assoc, He2, He. split_and!; [done|done| |by constructor].
  replace ((n + j') / n + 1)%nat with (S (j' / n + 1)).
  2:{ replace (n + j')%nat with (j' + 1 * n)%nat by lia. rewrite Nat.div_add by lia. lia. }
  cbn [Nat.min seq map]. rewrite Hs, Nat.add_0_r, Nat.sub_0_r. f_equal.
  - unfold block_shape. f_equal. rewrite !take_ge; [done|..]; rewrite length_map, length_seqZ; lia.
  - rewrite Hs2, <- seq_shift, map_map. apply map_ext. intros i. f_equal; lia.
Qed.

(** Without faults and noise the heights are those of the wafer. *)
Definition undisturbed (st : ScanState G N) : Prop := injectors st = [] /\ noisy_ (laser_ st) = false.

Definition faithful (b : SampleBlock) : Prop :=
  block_heights_m b = map (height_m wafer (block_angle_rad b)) (positions_m b).

Lemma points_faithful line ps st b : undisturbed st -> angle_rad_ (stage_ st) = block_angle_rad b -> faithful b ->
  let '(st', b', _) := points_ line ps st b in undisturbed st' /\ faithful b'.
Proof.
  revert st b. induction ps as [|p ps IH]; intros st b Hu Ha Hf; cbn [scan_points]; [done|].
  destruct (abort_at _); [done|]. destruct Hu as [Hi Hn].
  unfold scan_sample. cbn [move_to]. unfold read_height_m. rewrite Hn, Hi. cbn [apply_faults].
  match goal with |- context [points_ _ _ ?s ?b] => specialize (IH s b) end.
  destruct (points_ _ _ _ _) as [[st2 b2] ab]. apply IH; [done|done|].
  unfold faithful in *. cbn [block_heights_m block_angle_rad positions_m angle_rad_ position_m_].
  by rewrite map_app, <- Hf, <- Ha.
Qed.

Lemma all_faithful ls st : undisturbed st ->
  exists bs, pushed (done_ (all_ ls st).1) = pushed (done_ st) ++ bs /\ Forall faithful bs.
Proof.
  revert st. induction ls as [|line ls IH]; intros st Hu; cbn [scan_all].
  { exists []. by rewrite app_nil_r. }
  unfold scan_one_line. match goal with |- context [points_ _ _ ?s ?b] => set (st0 := s); set (b0 := b) end.
  pose proof (points_faithful line (seqZ 0 points) st0 b0 Hu ltac:(done) ltac:(done)) as Hp.
  pose proof (points_shape line (seqZ 0 points) st0 b0) as Hs.
  destruct (points_ _ _ st0 b0) as [[st1 b1] ab]. destruct Hp as [Hu1 Hf], Hs as (_ & _ & (acts & Ha & Hq & _) & _).
  set (L := if _ && _ then _ else _).
  assert (Hpush : pushed (done_ (act ([act_progress wafer_id (line_percent config line ab); act_push b1] ++ L) st1)) =
                  pushed (done_ st) ++ [b1]).
  { cbn [act done_]. rewrite !pushed_app, Ha, pushed_app, Hq, app_nil_r. f_equal. simpl. f_equal.
    unfold L. by destruct (_ && _). }
  destruct ab; cbn [fst]; [exists [b1]; split; [done|by constructor]|].
  destruct (IH (act ([act_progress wafer_id (line_percent config line false); act_push b1] ++ L) st1) Hu1) as (bs & Hbs & Hall).
  exists (b1 :: bs). rewrite Hbs, Hpush, <- app_assoc. split; [done|by constructor].
Qed.

End shape.

Section theorems.
Context {G N : Type} {R : Random G} {D : Gaussian N} {T : Trig double}.
Context (undefined_int : Z) (wafer : WaferTruth double) (config : ScanConfig) (wafer_id : string)
  (abort_at : nat -> bool) (elapsed_at : nat -> nat -> double) (push_accepts : Z -> bool).

(** [C17] What a scan hands over: with [j] the number of samples taken before the abort flag is
    seen, or all of them, the run pushes one block for every line begun, in order, each at
    the angle of its line with the first positions of the grid, all of them but in the
    block that an abort cuts short, and a height for every position. It ends with one call,
    to the one of its two callbacks that fits, after the last push. Without faults for the
    wafer and without noise the heights are those of the wafer. *)
Theorem scan_hands_over fault_configs seed stage laser :
  1 <= n_points undefined_int wafer config -> 0 <= scan_lines config ->
  let n := Z.to_nat (n_points undefined_int wafer config) in
  let lines := Z.to_nat (scan_lines config) in
  let j := clear_run abort_at 0 (lines * n) in
  let done := done_ (ScanThread_run (G := G) (N := N) undefined_int wafer config wafer_id abort_at elapsed_at
                       push_accepts fault_configs seed stage laser) in
  map shape_of (pushed done) =
    map (fun k => block_shape undefined_int wafer config k (j - k * n)) (seq 0 (Nat.min lines (j / n + 1))) /\
  Forall complete_block (pushed done) /\
  (exists before, done = before ++ [if (j <? lines * n)%nat then act_stopped else act_lines_complete wafer_id] /\
     endings before = []) /\
  (active_faults (G := G) fault_configs seed wafer_id = [] -> noisy_ laser = false ->
     Forall (faithful wafer) (pushed done)).
Proof.
  intros Hp Hl n lines j done. subst done. unfold ScanThread_run.
  set (st0 := mkScanState _ _ _ _ _ _).
  pose proof (all_shape undefined_int wafer config wafer_id abort_at elapsed_at push_accepts lines 0 st0 ltac:(lia)) as H.
  pose proof (all_faithful undefined_int wafer config wafer_id abort_at elapsed_at push_accepts
                (seqZ 0 (scan_lines config)) st0) as Hf.
  cbv zeta in H. change (Z.of_nat 0) with 0 in H. fold n in H. cbn [sample_index st0] in H. fold j in H.
  replace (Z.of_nat lines) with (scan_lines config) in H by lia. unfold n_lines.
  destruct (scan_all _ _ _ _ _ _ _ _ _) as [st aborted]. destruct H as (Hab & bs & Hb & He & Hs & Hc).
  cbn [act done_]. rewrite pushed_app.
  assert (Hq : pushed [if aborted : bool then act_stopped else act_lines_complete wafer_id] = []) by by destruct aborted.
  rewrite Hq, app_nil_r. split_and!.
  - rewrite Hb. done.
  - by rewrite Hb.
  - exists (done_ st). split; [by rewrite Hab|done].
  - intros Hi Hn. destruct (Hf (conj Hi Hn)) as (bs' & Hb' & Hall). cbn [fst] in Hb'. by rewrite Hb'.
Qed.

End theorems.

(** ** Examples *)

#[local] Instance two_trig : Trig double := {| a_cos := fun _ => dz 1; a_sin := fun _ => dz 0 |}.
#[local] Instance no_noise : Gaussian unit := {| normal_seeded := fun _ => tt; normal := fun _ g => (dz 0, g) |}.

(** Two lines of four points, every sample of which is dropped, the abort flag raised
    before the seventh. *)
Definition small_truth : WaferTruth double :=
  mkWaferTruth (dz 0) (dz 0) (dz 0) (dz 0) (dz 0) (dz 0) (dz 0) (dz 1) (dz 1) (double_of_ratio false 3 1000).

Definition small_scan : ScanConfig := mkScan 2 1 (dz 1) (dz 0) (dz 0).

Definition small_faults : list FaultConfig :=
  [mkFault "W1" "dropout" (dz 1) (dz 0) 1 (dz 0) (dz 0) (dz 0); mkFault "W2" "spike" (dz 1) (dz 0) 1 (dz 0) (dz 0) (dz 0)].

#[local] Instance every_time : Random unit := {| seeded := fun _ => tt; bernoulli := fun p g => (SFltb (dz 0) p, g) |}.

Definition small_run : ScanState unit unit :=
  ScanThread_run 0 small_truth small_scan "W1" (fun n => (6 <=? n)%nat) (fun _ _ => dz 0) (fun _ => true)
    small_faults 1 (new_stage (dz 1) (dz 0)) (new_laser (dz 0) 1).

Lemma scan_hands_over_witness :
  map (fun b => (line_index_ b, length (positions_m b))) (pushed (done_ small_run)) = [(0, 4%nat); (1, 2%nat)] /\
  Forall complete_block (pushed (done_ small_run)) /\ endings (done_ small_run) = [act_stopped].
Proof.
  unfold small_run. destruct (scan_hands_over 0 small_truth small_scan "W1" (fun n => (6 <=? n)%nat) (fun _ _ => dz 0) (fun _ => true)
    small_faults 1 (new_stage (dz 1) (dz 0)) (new_laser (dz 0) 1)) as (Hs & Hc & (before & Hb & He) & _);
    [vm_compute; discriminate|vm_compute; discriminate|].
  split; [|split; [exact Hc|by rewrite Hb, endings_app, He]].
  rewrite (map_ext _ (fun b => ((shape_of b).1.1, length (shape_of b).2)) (fun b => eq_refl)).
  rewrite <- (map_map shape_of (fun s => (s.1.1, length s.2))), Hs. vm_compute. reflexivity.
Defined.
