(* ===== verification/ScanProgress.v ===== *)
(** * The progress and the grid of a scan

    What the scan of [ScanThread] computes with doubles: the percentages it reports, which
    rise to exactly 100, and the positions and angles at which it measures, for every
    accepted configuration. *)

From S2P Require Import CLibrary FloatOrder FloatScale LineFilter Controller WaferFit ConfigFile WaferModel FaultInjector ScanThread Prelude.

#[local] Abbreviation dz := double_of_Z.

(** ** The percentages *)

(** A number that is not negative and in range. *)
Definition ok (x : double) : Prop := valid64 x /\ nonneg x = true.

Definition unit64 : Z := unit_value prec64 emax64.

Abbreviation top := (largest prec64 emax64).

Lemma unit64_pos : 0 < unit64.
Proof. by vm_compute. Qed.

Lemma top_units : 2 ^ 1000 * unit64 <= top.
Proof. by vm_compute. Qed.

Lemma ok_finite x : ok x -> finite x.
Proof. intros [Hv Hn]. split; [done|]. by destruct x as [[]| | |[] m e]. Qed.

Lemma ok_number x : ok x -> number x.
Proof. intros H. by apply finite_number, ok_finite. Qed.

Lemma ok_val x : ok x -> 0 <= val x < top.
Proof.
  intros [Hv Hn]. destruct x as [[]| | |[] m e]; try done.
  apply valid_canonical in Hv; [|done..]. apply magnitude_pos in Hv; [|done..].
  simpl. lia.
Qed.

Lemma rounds_ok x v : rounds_to prec64 emax64 x v -> v < top -> ok x /\ val x = v.
Proof.
  intros [Hv Hx Hn] Hlt. rewrite Z.min_r in Hv by lia. split; [|done]. split; [done|]. apply Hn. lia.
Qed.

Lemma dz_ok v : 0 <= v < 2 ^ 53 -> ok (dz v) /\ val (dz v) = v * unit64.
Proof.
  intros Hv. unfold double_of_Z.
  assert (Hval : val (binary_normalize prec64 emax64 v 0 false) = v * unit64).
  { destruct (binary_normalize_value prec64 emax64 ltac:(done) ltac:(done) v 0 false) as [-> _]; [done|].
    change (2 ^ (0 - emin prec64 emax64)) with unit64. unfold saturated.
    pose proof unit64_pos. rewrite (proj2 (Z.ltb_ge _ _)), Z.abs_eq by nia.
    change unit64 with (2 ^ 1074) at 1. rewrite rounded_id by (try lia; done).
    pose proof top_units. change (2 ^ 1074) with unit64. cbn [signed]. rewrite Z.min_r; [done|]. nia. }
  split; [|done]. split; [by apply binary_normalize_valid|].
  assert (Hf : val (binary_normalize prec64 emax64 v 0 false) < top).
  { rewrite Hval. pose proof top_units. pose proof unit64_pos. nia. }
  destruct v as [|v|v]; [done| |lia]. cbn [binary_normalize] in *. clear Hval.
  unfold binary_round in *. destruct (shl_align _ _ _) as [mz ez].
  eapply (aux_sign prec64 emax64 (Zpos mz) ez loc_Exact); [lia|done| |exact Hf].
  by apply binary_round_aux_not_nan.
Qed.

Lemma dz_mono a b : 0 <= a <= b -> b < 2 ^ 53 -> val (dz a) <= val (dz b).
Proof.
  intros Ha Hb. destruct (dz_ok a ltac:(lia)) as [_ ->]. destruct (dz_ok b ltac:(lia)) as [_ ->].
  pose proof unit64_pos. nia.
Qed.

Lemma ratio_le_number a b x : 0 <= a -> 0 < b -> ok x -> a <= val x * b -> rounded_ratio prec64 a b <= val x.
Proof.
  intros Ha Hb [Hv Hn] Hle. transitivity (rounded_ratio prec64 (val x * b) b).
  - apply rounded_ratio_mono; lia || done.
  - by rewrite rounded_ratio_number.
Qed.

(** Quotients and products of such numbers, below a number. *)
Lemma ddiv_below x y u : ok x -> ok y -> 0 < val y -> ok u -> val x * unit64 <= val u * val y ->
  ok (ddiv x y) /\ val (ddiv x y) <= val u.
Proof.
  intros Hx Hy Hpos Hu Hle. pose proof (ok_val x Hx). pose proof (ok_val u Hu). pose proof unit64_pos.
  pose proof (ratio_le_number (val x * unit64) (val y) u ltac:(nia) Hpos Hu Hle) as Hr.
  destruct Hx as [Vx Nx], Hy as [Vy Ny].
  destruct (rounds_ok _ _ (div_rounds prec64 emax64 ltac:(done) ltac:(done) x y Vx Vy Nx Ny Hpos)) as [Hok Hv];
    [fold unit64; lia|]. split; [done|]. unfold ddiv. rewrite Hv. done.
Qed.

Lemma dmul_below x y u : ok x -> ok y -> ok u -> val x * val y <= val u * unit64 ->
  ok (dmul x y) /\ val (dmul x y) <= val u.
Proof.
  intros Hx Hy Hu Hle. pose proof (ok_val x Hx). pose proof (ok_val y Hy). pose proof (ok_val u Hu).
  pose proof (ratio_le_number (val x * val y) unit64 u ltac:(nia) unit64_pos Hu Hle) as Hr.
  destruct Hx as [Vx Nx], Hy as [Vy Ny].
  destruct (rounds_ok _ _ (mul_rounds prec64 emax64 ltac:(done) ltac:(done) x y Vx Vy Nx Ny)) as [Hok Hv];
    [fold unit64; lia|]. split; [done|]. unfold dmul. rewrite Hv. done.
Qed.

Lemma ddiv_mono x x' y : ok x -> ok x' -> ok y -> 0 < val y -> ok (ddiv x' y) -> val x <= val x' ->
  ok (ddiv x y) /\ val (ddiv x y) <= val (ddiv x' y).
Proof.
  intros Hx Hx' Hy Hpos Hok Hle. pose proof (ok_val x Hx). pose proof (ok_val _ Hok). pose proof unit64_pos.
  destruct Hx as [Vx Nx], Hx' as [Vx' Nx'], Hy as [Vy Ny].
  pose proof (div_rounds prec64 emax64 ltac:(done) ltac:(done) x y Vx Vy Nx Ny Hpos) as Hd.
  pose proof (div_rounds prec64 emax64 ltac:(done) ltac:(done) x' y Vx' Vy Nx' Ny Hpos) as Hd'.
  fold unit64 in Hd, Hd'. pose proof (rounded_ratio_mono prec64 ltac:(done) (val x * unit64) (val x' * unit64) (val y)
    ltac:(nia) Hpos) as Hm.
  pose proof (rounds_value _ _ _ _ Hd') as Hv'. unfold ddiv in *.
  destruct (rounds_ok _ _ Hd) as [Ho Hv]; [lia|]. split; [done|]. rewrite Hv. lia.
Qed.

Lemma dadd_between x y lo hi : ok x -> ok y -> ok lo -> ok hi ->
  val lo <= val x + val y <= val hi -> ok (dadd x y) /\ val lo <= val (dadd x y) <= val hi.
Proof.
  intros Hx Hy Hlo Hhi Hle.
  destruct (add_value prec64 emax64 ltac:(done) ltac:(done) x y (proj1 Hx) (proj1 Hy)) as (Hv & Hn & Hva);
    [by apply ok_finite..|]. fold (dadd x y) in *.
  assert (Hsat : val lo <= val (dadd x y) <= val hi).
  { pose proof (saturated_value prec64 emax64 ltac:(done) ltac:(done) lo (proj1 Hlo)) as Elo.
    pose proof (saturated_value prec64 emax64 ltac:(done) ltac:(done) hi (proj1 Hhi)) as Ehi.
    pose proof (saturated_mono prec64 emax64 ltac:(done) ltac:(done) (val lo) (val x + val y) (proj1 Hle)).
    pose proof (saturated_mono prec64 emax64 ltac:(done) ltac:(done) (val x + val y) (val hi) (proj2 Hle)).
    lia. }
  split; [|done]. split; [done|]. pose proof (ok_val lo Hlo). pose proof (ok_val hi Hhi).
  destruct Hx as [_ Nx], Hy as [_ Ny]. revert Hsat Hn. unfold dadd.
  destruct x as [[]| | |[] m1 e1], y as [[]| | |[] m2 e2]; try done. cbn [SFadd].
  intros Hsat Hn. cbn [cond_Zopp] in *.
  remember (Zpos (shl_align m1 e1 (Z.min e1 e2)).1 + Zpos (shl_align m2 e2 (Z.min e1 e2)).1) as sum eqn:E.
  destruct sum as [|mz|mz]; [done| |lia]. cbn [binary_normalize] in *.
  unfold binary_round in *. destruct (shl_align mz _ _) as [ma ea].
  eapply (aux_sign prec64 emax64 (Zpos ma) ea loc_Exact); [lia|done|done|]. lia.
Qed.

Lemma ok_eq x y : ok x -> ok y -> val x = val y -> x = y.
Proof.
  intros Hx Hy E. pose proof (same_val x y (ok_number x Hx) (ok_number y Hy) E) as H.
  destruct Hx as [_ Nx], Hy as [_ Ny]. destruct H as [|[] []]; done.
Qed.

Lemma trunc_ok x : ok x -> trunc_Z x = Some (val x / unit64).
Proof.
  intros [Hv Hn]. destruct x as [[]| | |[] m e]; try done.
  apply valid_canonical in Hv as [_ He _]; [|done..]. cbn [trunc_Z value signed]. f_equal. unfold magnitude.
  change unit64 with (2 ^ (- emin prec64 emax64)).
  destruct (Z.leb_spec 0 e).
  - replace (e - emin prec64 emax64) with (e + - emin prec64 emax64) by lia.
    rewrite Z.pow_add_r, Z.mul_assoc, Z.div_mul by (try lia; done). done.
  - replace (- emin prec64 emax64) with (- e + (e - emin prec64 emax64)) by lia.
    rewrite Z.pow_add_r by lia. rewrite Z.div_mul_cancel_r by lia. done.
Qed.

Definition progress_of (l : list ScanAction) : list double :=
  omap (fun a => match a with act_progress _ x => Some x | _ => None end) l.

Lemma progress_of_app a b : progress_of (a ++ b) = progress_of a ++ progress_of b.
Proof. apply omap_app. Qed.

Section progress.
Context {G N : Type} {R : Random G} {D : Gaussian N} {T : Trig double}.
Context (undefined_int : Z) (wafer : WaferTruth double) (config : ScanConfig) (wafer_id : string)
  (abort_at : nat -> bool) (elapsed_at : nat -> nat -> double) (push_accepts : Z -> bool).

Abbreviation points := (n_points undefined_int wafer config).
Abbreviation lines := (scan_lines config).
Abbreviation sample_ := (scan_sample undefined_int wafer config wafer_id elapsed_at).
Abbreviation points_ := (scan_points undefined_int wafer config wafer_id abort_at elapsed_at).
Abbreviation line_ := (scan_one_line undefined_int wafer config wafer_id abort_at elapsed_at push_accepts).
Abbreviation all_ := (scan_all undefined_int wafer config wafer_id abort_at elapsed_at push_accepts).

Context (Hlines : 1 <= lines <= 32) (Hpoints : 1 <= points < 2 ^ 31).

(** The percentage after [k] lines. *)
Definition after_lines (k : Z) : double := ddiv (dmul (dz 100) (dz k)) (dz lines).

Lemma hundred_times k : 0 <= k <= 32 -> ok (dmul (dz 100) (dz k)) /\ val (dmul (dz 100) (dz k)) <= val (dz (100 * k)).
Proof.
  intros Hk. destruct (dz_ok 100 ltac:(lia)) as [H1 V1]. destruct (dz_ok k ltac:(lia)) as [H2 V2].
  destruct (dz_ok (100 * k) ltac:(lia)) as [H3 V3]. pose proof unit64_pos.
  apply dmul_below; try assumption. rewrite V1, V2, V3. lia.
Qed.

Lemma hundred_times_val v : 0 <= v <= 32 -> val (dmul (dz 100) (dz v)) = 100 * v * unit64.
Proof.
  intros Hv. assert (Hin : v ∈ seqZ 0 33) by (apply elem_of_seqZ; lia).
  assert (Hall : Forall (fun v => val (dmul (dz 100) (dz v)) = 100 * v * unit64) (seqZ 0 33))
    by (apply (bool_decide_unpack _); vm_compute; exact I).
  rewrite Forall_forall in Hall. by apply Hall.
Qed.

Lemma after_lines_ok k : 0 <= k <= lines -> ok (after_lines k) /\ val (after_lines k) <= 100 * unit64.
Proof.
  intros Hk. destruct (hundred_times k ltac:(lia)) as [Hm Vm]. destruct (dz_ok lines ltac:(lia)) as [Hn Vn].
  destruct (dz_ok 100 ltac:(lia)) as [H1 V1]. destruct (dz_ok (100 * k) ltac:(lia)) as [_ V3].
  pose proof unit64_pos. rewrite <- V1. apply ddiv_below; try assumption; [nia|]. rewrite Vn, V1. rewrite V3 in Vm. nia.
Qed.

Lemma after_lines_mono k k' : 0 <= k <= k' -> k' <= lines -> val (after_lines k) <= val (after_lines k').
Proof.
  intros Hk Hk'. destruct (dz_ok lines ltac:(lia)) as [Hn Vn]. pose proof unit64_pos.
  apply ddiv_mono; [apply hundred_times; lia|apply hundred_times; lia|done|nia|apply after_lines_ok; lia|].
  rewrite !hundred_times_val by lia. nia.
Qed.

(** What is done at sample [p] of a line lies between the line's start and its end. *)
Lemma done_fraction_bound line p : 0 <= line < lines -> 0 <= p < points ->
  ok (done_fraction undefined_int wafer config line p) /\
  val (done_fraction undefined_int wafer config line p) <= val (after_lines (line + 1)).
Proof.
  intros Hl Hp. destruct (dz_ok (p + 1) ltac:(lia)) as [Hp1 Vp1]. destruct (dz_ok points ltac:(lia)) as [Hn Vn].
  destruct (dz_ok 1 ltac:(lia)) as [H1 V1]. destruct (dz_ok line ltac:(lia)) as [Hk Vk].
  destruct (dz_ok (line + 1) ltac:(lia)) as [Hk1 Vk1]. destruct (dz_ok lines ltac:(lia)) as [HN VN].
  destruct (dz_ok 100 ltac:(lia)) as [Hh Vh]. pose proof unit64_pos.
  destruct (ddiv_below (dz (p + 1)) (dz points) (dz 1)) as [Hq Vq]; try assumption; [nia|rewrite Vp1, V1, Vn; nia|].
  pose proof (ok_val _ Hq).
  destruct (dadd_between (dz line) (ddiv (dz (p + 1)) (dz points)) (dz line) (dz (line + 1))) as [Ha Va]; try assumption; [lia|].
  destruct (hundred_times (line + 1) ltac:(lia)) as [Hm _].
  assert (Hmul : ok (dmul (dz 100) (dadd (dz line) (ddiv (dz (p + 1)) (dz points)))) /\
    val (dmul (dz 100) (dadd (dz line) (ddiv (dz (p + 1)) (dz points)))) <= val (dmul (dz 100) (dz (line + 1)))).
  { apply dmul_below; try assumption. rewrite hundred_times_val, Vh by lia. nia. }
  unfold done_fraction, after_lines. apply ddiv_mono; try assumption; [apply Hmul|nia| |apply Hmul].
  apply (after_lines_ok (line + 1)). lia.
Qed.

Lemma done_fraction_last line : 0 <= line < lines ->
  done_fraction undefined_int wafer config line (points - 1) = after_lines (line + 1).
Proof.
  intros Hl. unfold done_fraction, after_lines. do 2 f_equal. replace (points - 1 + 1) with points by lia.
  destruct (dz_ok points ltac:(lia)) as [Hn Vn]. destruct (dz_ok 1 ltac:(lia)) as [H1 V1].
  destruct (dz_ok line ltac:(lia)) as [Hk Vk]. destruct (dz_ok (line + 1) ltac:(lia)) as [Hk1 Vk1].
  pose proof unit64_pos.
  assert (Hq : ok (ddiv (dz points) (dz points)) /\ val (ddiv (dz points) (dz points)) = val (dz 1)).
  { destruct Hn as [Vn' Nn].
    pose proof (div_rounds prec64 emax64 ltac:(done) ltac:(done) _ _ Vn' Vn' Nn Nn ltac:(nia)) as Hd.
    fold unit64 in Hd. rewrite (Z.mul_comm (val _) unit64) in Hd.
    replace (rounded_ratio prec64 (unit64 * val (dz points)) (val (dz points))) with (val (dz 1)) in Hd.
    - apply (rounds_ok _ _ Hd). by apply ok_val.
    - symmetry. replace unit64 with (val (dz 1)) by lia. apply (rounded_ratio_number prec64 emax64); try done; [nia|apply H1..]. }
  destruct Hq as [Hq Vq].
  destruct (dadd_between (dz line) (ddiv (dz points) (dz points)) (dz (line + 1)) (dz (line + 1))) as [Ha Va];
    try assumption; [lia|]. apply ok_eq; try assumption. lia.
Qed.

(** The percentage of a sample, as an integer. *)
Lemma percent_done_bound line p : 0 <= line < lines -> 0 <= p < points ->
  0 <= percent_done undefined_int wafer config line p <= val (after_lines (line + 1)) / unit64.
Proof.
  intros Hl Hp. destruct (done_fraction_bound line p Hl Hp) as [Hok Hle]. pose proof unit64_pos.
  destruct (after_lines_ok (line + 1) ltac:(lia)) as [_ Hup]. pose proof (ok_val _ Hok).
  unfold percent_done, trunc_int. rewrite trunc_ok by done. set (v := val (done_fraction _ _ _ _ _)) in *.
  assert (Hq : 0 <= v / unit64 <= val (after_lines (line + 1)) / unit64) by (split; [apply Z.div_pos|apply Z.div_le_mono]; lia).
  assert (v / unit64 <= 100) by (apply Z.div_le_upper_bound; lia).
  rewrite bool_decide_true; [done|]. int_lia.
Qed.

Lemma percent_done_last line : 0 <= line < lines ->
  percent_done undefined_int wafer config line (points - 1) = val (after_lines (line + 1)) / unit64.
Proof.
  intros Hl. destruct (after_lines_ok (line + 1) ltac:(lia)) as [Hok Hup]. pose proof unit64_pos.
  pose proof (ok_val _ Hok).
  unfold percent_done, trunc_int. rewrite done_fraction_last, trunc_ok by done.
  assert (0 <= val (after_lines (line + 1)) / unit64) by (apply Z.div_pos; lia).
  assert (val (after_lines (line + 1)) / unit64 <= 100) by (apply Z.div_le_upper_bound; lia).
  rewrite bool_decide_true; [done|]. int_lia.
Qed.

(** What has been reported is in order, below [B] and below the next whole percent. *)
Record reported (B count : Z) (st : ScanState G N) : Prop := mkReported {
  reported_sorted : StronglySorted Z.le (map val (progress_of (done_ st)));
  reported_bound : Forall (fun x => ok x /\ val x <= B /\ val x < (last_percent_published st + 1) * unit64)
                     (progress_of (done_ st));
  reported_last : -1 <= last_percent_published st <= B / unit64;
  reported_count : Z.of_nat (length (progress_of (done_ st))) <= last_percent_published st + 1 + count
}.

Lemma sorted_snoc l x : StronglySorted Z.le l -> Forall (fun y => y <= x) l -> StronglySorted Z.le (l ++ [x]).
Proof.
  intros Hs. induction Hs as [|y l Hs IH Hy]; intros Hf; simpl; [by repeat constructor|].
  apply Forall_cons in Hf as [Hyx Hf]. constructor; [by apply IH|].
  apply Forall_app. split; [done|by constructor].
Qed.

Lemma progress_of_faults elapsed k fs h :
  let '(_, _, _, acts) := apply_faults (G := G) config elapsed k fs h in progress_of acts = [].
Proof.
  revert k h. induction fs as [|f fs IH]; intros k h; simpl; [done|].
  destruct (fault_apply _ _ _) as [s inj]. destruct (sample_height_m s) as [h'|]; [|done].
  specialize (IH (S k) h'). destruct (apply_faults _ _ _ _ _) as [[[fs' h''] d] acts].
  rewrite progress_of_app, IH, app_nil_r. destruct (stage_stall s); [|done]. by destruct (_ && _).
Qed.

Lemma sample_progress line p st b : let '(st', b') := sample_ line p st b in
  let percent := percent_done undefined_int wafer config line p in
  last_percent_published st' = Z.max (last_percent_published st) percent /\
  progress_of (done_ st') = progress_of (done_ st) ++
    if last_percent_published st <? percent then [dz percent] else [].
Proof.
  unfold scan_sample. destruct (move_to _ _) as [pause stage]. destruct (read_height_m _ _ _) as [raw laser].
  pose proof (progress_of_faults (elapsed_at (sample_index st)) 0 (injectors st) raw) as Hq.
  destruct (apply_faults _ _ _ _ _) as [[[fs h] d] acts]. cbn [done_ last_percent_published].
  rewrite !progress_of_app, Hq. set (percent := percent_done _ _ _ _ _).
  split; [destruct (Z.ltb_spec (last_percent_published st) percent); lia|].
  f_equal. assert (Hp : progress_of (if pause is Some d then [act_sleep d] else []) = []) by by destruct pause.
  rewrite Hp. simpl. by destruct (_ <? _).
Qed.

Lemma sample_reported count line p st b : 0 <= line < lines -> 0 <= p < points ->
  reported (val (after_lines (line + 1))) count st ->
  let '(st', b') := sample_ line p st b in
  reported (val (after_lines (line + 1))) count st' /\
  Z.max (last_percent_published st) (percent_done undefined_int wafer config line p) <= last_percent_published st'.
Proof.
  intros Hl Hp [Hs Hb Hlast Hc]. pose proof (sample_progress line p st b) as H.
  destruct (sample_ line p st b) as [st' b']. destruct H as [El Ep]. pose proof unit64_pos.
  destruct (percent_done_bound line p Hl Hp) as [H0 Hpb]. set (percent := percent_done _ _ _ _ _) in *.
  split; [|lia]. destruct (after_lines_ok (line + 1) ltac:(lia)) as [Hok Hup].
  set (B := val (after_lines (line + 1))) in *.
  assert (HB : B / unit64 <= 100) by (apply Z.div_le_upper_bound; lia).
  destruct (dz_ok percent ltac:(lia)) as [Hpo Hpv].
  destruct (Z.ltb_spec (last_percent_published st) percent) as [Hlt|Hge].
  - rewrite Z.max_r in El by lia. constructor; rewrite ?El, ?Ep; [..|lia|].
    + rewrite map_app. apply sorted_snoc; [done|]. apply Forall_map. eapply Forall_impl; [exact Hb|].
      intros x (_ & _ & Hx). rewrite Hpv. cbv beta. nia.
    + apply Forall_app. split.
      * eapply Forall_impl; [exact Hb|]. intros x (? & ? & ?). split_and!; try done. nia.
      * apply Forall_singleton. split_and!; [done| |rewrite Hpv; nia]. rewrite Hpv.
        pose proof (Z.mul_div_le B unit64). nia.
    + rewrite length_app. simpl. lia.
  - rewrite Z.max_l in El by lia. rewrite app_nil_r in Ep. constructor; rewrite ?El, ?Ep; try done; lia.
Qed.

Lemma points_reported count line ps st b : 0 <= line < lines -> Forall (fun p => 0 <= p < points) ps ->
  reported (val (after_lines (line + 1))) count st ->
  let '(st', b', aborted) := points_ line ps st b in
  reported (val (after_lines (line + 1))) count st' /\ last_percent_published st <= last_percent_published st' /\
  (aborted = false ->
     Forall (fun p => percent_done undefined_int wafer config line p <= last_percent_published st') ps).
Proof.
  intros Hl Hps. revert st b. induction Hps as [|p ps Hp _ IH]; intros st b Hr; cbn [scan_points].
  { split_and!; [done|done|by constructor]. }
  destruct (abort_at _); [by split_and!|].
  pose proof (sample_reported count line p st b Hl Hp Hr) as H. destruct (sample_ line p st b) as [st1 b1].
  destruct H as [Hr1 Hm]. specialize (IH st1 b1 Hr1). destruct (points_ line ps st1 b1) as [[st2 b2] ab].
  destruct IH as (Hr2 & Hm2 & Hall). split_and!; [done|lia|]. intros E. constructor; [lia|by apply Hall].
Qed.

Lemma line_progress (k : Z) (st : ScanState G N) ab b over :
  progress_of ([act_progress wafer_id (line_percent config k ab); act_push b] ++
    (if over : bool then [act_alarm_set kQueueOverflow "sample queue full, block dropped"] else [])) =
  [line_percent config k ab].
Proof. by destruct over. Qed.

(** One line: either it ends with its percentage, or it is cut short. *)
Lemma line_reported k st : 0 <= k < lines ->
  reported (val (after_lines k)) k st \/ (k = 0 /\ progress_of (done_ st) = [] /\ last_percent_published st = -1) ->
  let '(st', aborted) := line_ k st in
  exists qs, progress_of (done_ st') = qs ++ [after_lines (if aborted then k else k + 1)] /\
    if aborted then
      StronglySorted Z.le (map val qs) /\
      Forall (fun x => ok x /\ val x <= 100 * unit64) qs /\ Z.of_nat (length qs) <= 101 + k
    else reported (val (after_lines (k + 1))) (k + 1) st'.
Proof.
  intros Hk Hr. pose proof unit64_pos. destruct (after_lines_ok (k + 1) ltac:(lia)) as [Hok Hup].
  pose proof (ok_val _ Hok).
  assert (Hr' : reported (val (after_lines (k + 1))) k st).
  { destruct Hr as [[Hs Hb Hlast Hc]|(-> & Hp & Hlast)].
    - pose proof (after_lines_mono k (k + 1) ltac:(lia) ltac:(lia)).
      assert (val (after_lines k) / unit64 <= val (after_lines (k + 1)) / unit64) by (apply Z.div_le_mono; lia).
      constructor; [done| |lia|done]. eapply Forall_impl; [exact Hb|]. intros x (? & ? & ?). split_and!; try done; lia.
    - constructor; rewrite ?Hp, ?Hlast; [by constructor..| |done].
      split; [done|]. transitivity 0; [done|]. apply Z.div_pos; lia. }
  unfold scan_one_line. match goal with |- context [points_ _ _ ?s ?b] => set (st0 := s); set (b0 := b) end.
  pose proof (points_reported k k (seqZ 0 points) st0 b0 Hk) as Hpr.
  destruct (points_ k (seqZ 0 points) st0 b0) as [[st1 b1] ab].
  destruct Hpr as (Hr1 & _ & Hall); [apply Forall_seqZ; lia|by destruct Hr'|].
  cbn [act done_]. rewrite progress_of_app, (line_progress k st).
  set (B := val (after_lines (k + 1))) in *. assert (HB : B / unit64 <= 100) by (apply Z.div_le_upper_bound; lia).
  destruct Hr1 as [Hs Hb Hlast Hc].
  exists (progress_of (done_ st1)). destruct ab.
  - unfold line_percent. rewrite Z.add_0_r. split_and!; [done|done| |lia].
    eapply Forall_impl; [exact Hb|]. intros x (? & ? & ?). split; [done|lia].
  - split; [done|]. assert (EL : last_percent_published st1 = B / unit64).
    { apply Z.le_antisymm; [lia|]. unfold B. rewrite <- percent_done_last by done.
      specialize (Hall eq_refl). rewrite Forall_forall in Hall. apply Hall. apply elem_of_seqZ. lia. }
    pose proof (Z.div_mod B unit64). pose proof (Z.mod_pos_bound B unit64).
    constructor; cbn [act done_ last_percent_published]; rewrite ?EL;
      try rewrite (progress_of_app (done_ st1)), (line_progress k st); change (line_percent config k false) with (after_lines (k + 1)).
    + rewrite map_app. apply sorted_snoc; [done|]. apply Forall_map. eapply Forall_impl; [exact Hb|].
      by intros x (? & ? & ?).
    + apply Forall_app. split.
      * rewrite EL in Hb. done.
      * apply Forall_singleton. fold B. split_and!; [done|done|]. fold B. lia.
    + split; [|lia]. transitivity 0; [lia|]. apply Z.div_pos; lia.
    + rewrite length_app. simpl. lia.
Qed.

Lemma all_reported m k st : 0 <= k -> k + Z.of_nat m = lines ->
  reported (val (after_lines k)) k st \/ (k = 0 /\ progress_of (done_ st) = [] /\ last_percent_published st = -1) ->
  (0 < m)%nat ->
  let '(st', aborted) := all_ (seqZ k (Z.of_nat m)) st in
  exists qs i, progress_of (done_ st') = qs ++ [after_lines i] /\ k <= i <= lines /\ (aborted = false -> i = lines) /\
    StronglySorted Z.le (map val qs) /\
    Forall (fun x => ok x /\ val x <= 100 * unit64) qs /\ Z.of_nat (length qs) <= 100 + lines.
Proof.
  revert k st. induction m as [|m IH]; intros k st Hk Em Hr Hm; [lia|].
  rewrite seqZ_cons by lia. replace (Z.pred (Z.of_nat (S m))) with (Z.of_nat m) by lia. cbn [scan_all].
  pose proof (line_reported k st ltac:(lia) Hr) as Hl. destruct (line_ k st) as [st1 ab].
  destruct Hl as (qs & Hq & Hl). destruct ab.
  { destruct Hl as (? & ? & ?). exists qs, k. split_and!; try done; lia. }
  destruct (after_lines_ok (k + 1) ltac:(lia)) as [Hok Hup].
  destruct m as [|m].
  - cbn [scan_all Z.of_nat seqZ]. change (seqZ (Z.succ k) 0) with (@nil Z). cbn [scan_all].
    destruct Hl as [Hs Hb Hlast Hc]. rewrite Hq in Hs, Hb, Hc. rewrite map_app in Hs.
    apply Forall_app in Hb as [Hb _]. rewrite length_app in Hc. simpl in Hc.
    pose proof unit64_pos. assert (val (after_lines (k + 1)) / unit64 <= 100) by (apply Z.div_le_upper_bound; lia).
    exists qs, (k + 1). split_and!; [done|lia|lia|lia|by apply StronglySorted_app_1_l in Hs| |lia].
    eapply Forall_impl; [exact Hb|]. intros x (? & ? & ?). split; [done|lia].
  - specialize (IH (Z.succ k) st1 ltac:(lia) ltac:(lia)). rewrite <- Z.add_1_r in *.
    specialize (IH (or_introl Hl) ltac:(lia)). destruct (all_ _ st1) as [st2 ab2].
    destruct IH as (qs2 & i & ? & ? & ? & ? & ? & ?). exists qs2, i. split_and!; done || lia.
Qed.

End progress.

Lemma whole_is_hundred n : 1 <= n <= 32 -> val (ddiv (dmul (dz 100) (dz n)) (dz n)) = val (dz 100).
Proof.
  intros Hn. assert (Hin : n ∈ seqZ 1 32) by (apply elem_of_seqZ; lia).
  assert (Hall : Forall (fun v => val (ddiv (dmul (dz 100) (dz v)) (dz v)) = val (dz 100)) (seqZ 1 32))
    by (apply (bool_decide_unpack _); vm_compute; exact I).
  rewrite Forall_forall in Hall. by apply Hall.
Qed.

Section theorems.
Context {G N : Type} {R : Random G} {D : Gaussian N} {T : Trig double}.
Context (undefined_int : Z) (wafer : WaferTruth double) (config : ScanConfig) (wafer_id : string)
  (abort_at : nat -> bool) (elapsed_at : nat -> nat -> double) (push_accepts : Z -> bool).

(** [C21] The progress a scan reports, for 1 to 32 lines, which is the range of validation, and any
    number of points that is a positive [int], whatever the rounding of the doubles. Every
    percentage lies between 0 and 100, and there are at most one for every whole percent and
    one for every line. On a completed scan they never fall and the last is exactly 100. On a scan
    cut short they never fall but for the last, which is that of the number of whole lines
    and may be below the one before. *)
Theorem scan_progress_rises fault_configs seed stage laser :
  1 <= scan_lines config <= 32 -> 1 <= n_points undefined_int wafer config < 2 ^ 31 ->
  let acts := done_ (ScanThread_run (G := G) (N := N) undefined_int wafer config wafer_id abort_at elapsed_at
                       push_accepts fault_configs seed stage laser) in
  exists ps k, progress_of acts = ps ++ [ddiv (dmul (dz 100) (dz k)) (dz (scan_lines config))] /\
    0 <= k <= scan_lines config /\
    StronglySorted (fun x y => SFleb x y = true) ps /\
    Forall (fun x => SFleb (dz 0) x = true /\ SFleb x (dz 100) = true) (progress_of acts) /\
    Z.of_nat (length ps) <= 100 + scan_lines config /\
    (act_lines_complete wafer_id ∈ acts ->
       k = scan_lines config /\ last (progress_of acts) = Some (dz 100) /\
       StronglySorted (fun x y => SFleb x y = true) (progress_of acts)).
Proof.
  intros Hl Hp acts. subst acts. unfold ScanThread_run. set (st0 := mkScanState _ _ _ _ _ _).
  pose proof (all_reported undefined_int wafer config wafer_id abort_at elapsed_at push_accepts Hl Hp
    (Z.to_nat (scan_lines config)) 0 st0 ltac:(lia) ltac:(lia)) as H.
  pose proof (all_shape undefined_int wafer config wafer_id abort_at elapsed_at push_accepts
    (Z.to_nat (scan_lines config)) 0 st0 ltac:(lia)) as Hs. cbv zeta in Hs. change (Z.of_nat 0) with 0 in Hs.
  rewrite Z2Nat.id in H, Hs by lia. unfold n_lines.
  destruct (scan_all _ _ _ _ _ _ _ _ _) as [st aborted].
  destruct H as (ps & k & Hq & Hk & Hdone & Hsort & Hb & Hc); [right; by split_and!|lia|].
  destruct Hs as (_ & bs & _ & He & _). exists ps, k. cbn [act done_]. rewrite progress_of_app.
  assert (Hn : Forall number ps) by (eapply Forall_impl; [exact Hb|]; intros x [Hx _]; by apply ok_number).
  pose proof (dz_ok 0 ltac:(lia)) as [Z0 V0]. pose proof (dz_ok 100 ltac:(lia)) as [Z1 V1].
  assert (Eq : progress_of (done_ st) ++ progress_of [if aborted then act_stopped else act_lines_complete wafer_id] =
    ps ++ [after_lines config k]) by (rewrite Hq; destruct aborted; by rewrite app_nil_r).
  rewrite Eq.
  assert (Hb' : Forall (fun x => SFleb (dz 0) x = true /\ SFleb x (dz 100) = true) (ps ++ [after_lines config k])).
  { destruct (after_lines_ok config Hl k ltac:(lia)) as [Hok Hle].
    apply Forall_app. split; [eapply Forall_impl; [exact Hb|]|constructor; [|done]]; [intros x [Hx Hlx]|rename Hok into Hx, Hle into Hlx];
      pose proof (ok_val _ Hx); rewrite !SFleb_val by (by apply ok_number); rewrite V0, V1; lia. }
  assert (Hs' : StronglySorted (fun x y => SFleb x y = true) ps).
  { clear -Hsort Hn. induction ps as [|x ps IH]; [by constructor|]. simpl in Hsort. inv Hsort as [|? ? Hs Hx].
    apply Forall_cons in Hn as [Hnx Hn]. constructor; [by apply IH|].
    rewrite Forall_map in Hx. rewrite Forall_forall in Hx, Hn. apply Forall_forall. intros y Hy.
    rewrite SFleb_val by auto. apply Z.leb_le. by apply Hx. }
  split_and!; try done; try lia.
  - intros Hin. apply elem_of_app in Hin as [Hin|Hin].
    + exfalso. assert (Hend : act_lines_complete wafer_id ∈ endings (done_ st)); [|by rewrite He in Hend; apply elem_of_nil in Hend].
      apply list_elem_of_omap. by exists (act_lines_complete wafer_id).
    + destruct aborted; [apply list_elem_of_singleton in Hin; done|]. rewrite (Hdone eq_refl) in *. split; [done|].
      destruct (after_lines_ok config Hl (scan_lines config) ltac:(lia)) as [Hok _].
      assert (E100 : after_lines config (scan_lines config) = dz 100) by (apply ok_eq; [done|done|]; by apply whole_is_hundred).
      rewrite E100 in *. split; [by rewrite last_snoc|]. apply StronglySorted_app_2; [|done|by repeat constructor].
      intros x y Hx Hy. apply list_elem_of_singleton in Hy as ->.
      apply Forall_app in Hb' as [Hb' _]. rewrite Forall_forall in Hb'. by apply Hb'.
Qed.

End theorems.

(** ** The grid *)

Lemma SFeqb_finite x m e : SFeqb x (S754_finite false m e) = true -> x = S754_finite false m e.
Proof.
  unfold SFeqb. destruct x as [[]|[]| |[] m' e']; simpl; try done.
  destruct (Z.compare_spec e' e) as [->|?|?]; try done.
  destruct (Pos.compare_cont Eq m' m) eqn:E; try done. by apply Pos.compare_eq in E as ->.
Qed.

Definition diameters : list Z := [100; 150; 200; 300].

(** What a scan needs of a configuration, which validation gives. *)
Definition scannable (cfg : Config) : Prop :=
  1 <= scan_lines (scan cfg) <= 32 /\ 10 <= points_per_mm (scan cfg) <= 80 /\
  exists d, d ∈ diameters /\ diameter_mm (wafer cfg) = dz d.

Lemma valid_scan cfg : validate cfg = None -> scannable cfg.
Proof.
  unfold validate. intros Hv.
  destruct (int_outside (scan_lines _) _ _) eqn:E1; [done|].
  destruct (int_outside (points_per_mm _) _ _) eqn:E2; [done|].
  destruct (outside _ _ _); [done|]. destruct (SFltb _ _); [done|]. destruct (SFleb _ _); [done|].
  unfold int_outside in E1, E2. split; [lia|]. split; [lia|].
  destruct (SFeqb (diameter_mm (wafer cfg)) (dz 100)) eqn:D1; [exists 100; split; [set_solver|by apply SFeqb_finite]|].
  destruct (SFeqb (diameter_mm (wafer cfg)) (dz 150)) eqn:D2; [exists 150; split; [set_solver|by apply SFeqb_finite]|].
  destruct (SFeqb (diameter_mm (wafer cfg)) (dz 200)) eqn:D3; [exists 200; split; [set_solver|by apply SFeqb_finite]|].
  destruct (SFeqb (diameter_mm (wafer cfg)) (dz 300)) eqn:D4; [exists 300; split; [set_solver|by apply SFeqb_finite]|].
  done.
Qed.

(** The radius, the points and the ends of the grid, for every diameter and density. *)
Definition radius_of (d : Z) : double := ddiv (dmul (dz d) mm_to_m) (dz 2).

(** What [grid_theorem] needs of one configuration, decided by evaluation. *)
Definition grid_cell (d ppm : Z) : bool :=
  let r := radius_of d in
  let n := d * ppm in
  let count := dmul (dmul (dmul r (dz 2)) (dz 1000)) (dz ppm) in
  let width := dmul (dz 2) r in
  valid_binary prec64 emax64 r && nonneg r && valid_binary prec64 emax64 width && nonneg width &&
  bool_decide (trunc_Z count = Some n) &&
  nonneg (dmul width (dz n)) && valid_binary prec64 emax64 (dmul width (dz n)) &&
  nonneg (ddiv (dmul width (dz n)) (dz n)) && valid_binary prec64 emax64 (ddiv (dmul width (dz n)) (dz n)) &&
  SFeqb (scan_position r n (n + 1)) r && SFeqb (scan_position r 0 (n + 1)) (SFopp r).

Lemma grid_cells d ppm : d ∈ diameters -> 10 <= ppm <= 80 -> grid_cell d ppm = true.
Proof.
  intros Hd Hp.
  assert (Hall : forallb (fun '(d, ppm) => grid_cell d ppm) (list_prod diameters (seqZ 10 71)) = true)
    by (vm_compute; reflexivity).
  rewrite forallb_forall in Hall. apply (Hall (d, ppm)). apply in_prod; apply list_elem_of_In; [done|].
  apply elem_of_seqZ. lia.
Qed.
Lemma dmul_mono_r x y y' : ok x -> ok y -> ok y' -> ok (dmul x y') -> val y <= val y' ->
  ok (dmul x y) /\ val (dmul x y) <= val (dmul x y').
Proof.
  intros Hx Hy Hy' Hok Hle. pose proof (ok_val x Hx). pose proof (ok_val y Hy). pose proof (ok_val _ Hok).
  pose proof unit64_pos. destruct Hx as [Vx Nx], Hy as [Vy Ny], Hy' as [Vy' Ny'].
  pose proof (mul_rounds prec64 emax64 ltac:(done) ltac:(done) x y Vx Vy Nx Ny) as Hm.
  pose proof (mul_rounds prec64 emax64 ltac:(done) ltac:(done) x y' Vx Vy' Nx Ny') as Hm'.
  fold unit64 in Hm, Hm'.
  pose proof (rounded_ratio_mono prec64 ltac:(done) (val x * val y) (val x * val y') unit64 ltac:(nia) ltac:(done)) as Hmono.
  pose proof (rounds_value _ _ _ _ Hm') as Hv'. unfold dmul in *.
  destruct (rounds_ok _ _ Hm) as [Ho Hv]; [lia|]. split; [done|]. rewrite Hv. lia.
Qed.

Section grid.
Context (d ppm : Z) (Hd : d ∈ diameters) (Hppm : 10 <= ppm <= 80).

Abbreviation r := (radius_of d).
Abbreviation cells := (d * ppm).
Abbreviation width := (dmul (dz 2) r).

Lemma diameter_bounds : 100 <= d <= 300.
Proof. unfold diameters in Hd. set_unfold in Hd. lia. Qed.

Record grid_facts : Prop := mkGrid {
  grid_r : ok r;
  grid_width : ok width;
  grid_count : trunc_Z (dmul (dmul (dmul r (dz 2)) (dz 1000)) (dz ppm)) = Some cells;
  grid_mul : ok (dmul width (dz cells));
  grid_div : ok (ddiv (dmul width (dz cells)) (dz cells));
  grid_last : scan_position r cells (cells + 1) = r;
  grid_first : SFeqb (scan_position r 0 (cells + 1)) (SFopp r) = true
}.

Lemma grid_fact : grid_facts.
Proof.
  pose proof (grid_cells d ppm Hd Hppm) as H. unfold grid_cell in H. rewrite !andb_true_iff in H.
  destruct H as [[[[[[[[[[H1 H2] H3] H4] H5] H6] H7] H8] H9] H10] H11]. apply bool_decide_eq_true in H5.
  constructor; try (by split); try done.
  assert (Hr : exists m e, r = S754_finite false m e).
  { clear -Hd. unfold diameters in Hd. set_unfold in Hd.
    destruct Hd as [->|[->|[->|[->|[]]]]]; vm_compute; eauto. }
  destruct Hr as (m & e & Hr). rewrite Hr in H10 |- *. by apply SFeqb_finite.
Qed.

Definition offset_of (p : Z) : double := ddiv (dmul width (dz p)) (dz cells).

Lemma offset_mono p p' : 0 <= p <= p' -> p' <= cells -> ok (offset_of p) /\ ok (offset_of p') /\ val (offset_of p) <= val (offset_of p').
Proof.
  intros Hp Hp'. pose proof diameter_bounds as Hdb. destruct grid_fact as [Hr Hw _ Hm Hv _ _]. pose proof unit64_pos.
  destruct (dz_ok p ltac:(nia)) as [O1 V1]. destruct (dz_ok p' ltac:(nia)) as [O2 V2].
  destruct (dz_ok cells ltac:(nia)) as [O3 V3].
  destruct (dmul_mono_r width (dz p') (dz cells)) as [Om' Lm']; try assumption; [nia|].
  destruct (dmul_mono_r width (dz p) (dz p')) as [Om Lm]; try assumption; [nia|].
  destruct (ddiv_mono (dmul width (dz p')) (dmul width (dz cells)) (dz cells)) as [Oq' Lq']; try assumption; [nia|].
  destruct (ddiv_mono (dmul width (dz p)) (dmul width (dz p')) (dz cells)) as [Oq Lq]; try assumption; [nia|].
  by split_and!.
Qed.

Lemma position_value p : 0 <= p <= cells ->
  val (scan_position r p (cells + 1)) = saturated prec64 emax64 (- val r + val (offset_of p)) /\
  number (scan_position r p (cells + 1)).
Proof.
  intros Hp. destruct (offset_mono p cells ltac:(lia) ltac:(lia)) as (Ho & _ & _). destruct grid_fact as [Hr _ _ _ _ _ _].
  unfold scan_position. replace (cells + 1 - 1) with cells by lia.
  change (a_add (a_opp r) _) with (dadd (SFopp r) (offset_of p)).
  assert (Hopp : finite (SFopp r) /\ val (SFopp r) = - val r).
  { destruct Hr as [Vr Nr]. destruct r as [[]| | |[] m e]; try done. }
  destruct Hopp as [[Vo Fo] Eo]. destruct (ok_finite _ Ho) as [Vq Fq].
  destruct (add_value prec64 emax64 ltac:(done) ltac:(done) (SFopp r) (offset_of p) Vo Vq Fo Fq) as (Hv & Hn & Hva).
  rewrite Eo in Hv. split; [done|]. by split.
Qed.

Lemma position_mono p p' : 0 <= p <= p' -> p' <= cells ->
  val (scan_position r p (cells + 1)) <= val (scan_position r p' (cells + 1)).
Proof.
  intros Hp Hp'. destruct (offset_mono p p' Hp Hp') as (_ & _ & Hle).
  rewrite (proj1 (position_value p ltac:(lia))), (proj1 (position_value p' ltac:(lia))).
  apply saturated_mono; lia || done.
Qed.

End grid.

Lemma seqZ_sorted (f : Z -> double) a n : (forall p p', a <= p <= p' -> p' < a + n -> SFleb (f p) (f p') = true) ->
  StronglySorted (fun x y => SFleb x y = true) (map f (seqZ a n)).
Proof.
  intros Hf. destruct (Z.le_gt_cases n 0); [by rewrite seqZ_nil by lia; constructor|].
  replace n with (Z.of_nat (Z.to_nat n)) in * by lia. generalize dependent a.
  generalize (Z.to_nat n) as m. clear n H. induction m as [|m IH]; intros a Hf; [constructor|].
  rewrite seqZ_cons by lia. replace (Z.pred (Z.of_nat (S m))) with (Z.of_nat m) by lia.
  simpl. constructor; [apply IH; intros; apply Hf; lia|]. apply Forall_map, Forall_seqZ.
  intros p Hp. apply Hf; lia.
Qed.

Lemma scan_angles n k : 1 <= n <= 32 -> 0 <= k < n ->
  ok (scan_angle scan_pi k n) /\ SFltb (scan_angle scan_pi k n) scan_pi = true.
Proof.
  intros Hn Hk.
  assert (Hall : forallb (fun '(n, k) => (n <=? k) ||
    valid_binary prec64 emax64 (scan_angle scan_pi k n) && nonneg (scan_angle scan_pi k n) &&
    SFltb (scan_angle scan_pi k n) scan_pi) (list_prod (seqZ 1 32) (seqZ 0 32)) = true)
    by (vm_compute; reflexivity).
  rewrite forallb_forall in Hall. specialize (Hall (n, k)).
  assert (Hin : In (n, k) (list_prod (seqZ 1 32) (seqZ 0 32)))
    by (apply in_prod; apply list_elem_of_In, elem_of_seqZ; lia).
  specialize (Hall Hin). rewrite orb_true_iff, !andb_true_iff in Hall.
  destruct Hall as [Hc|[[? ?] ?]]; [lia|]. done.
Qed.

Lemma radius_valid cfg d : diameter_mm (wafer cfg) = dz d ->
  radius_m (wafer_model (settings_of (wafer cfg))) = radius_of d.
Proof. intros Ed. unfold radius_m, wafer_model, settings_of. cbn [truth_diameter_m set_diameter_mm]. by rewrite Ed. Qed.

Lemma n_points_valid undefined_int cfg d : 10 <= points_per_mm (scan cfg) <= 80 -> d ∈ diameters ->
  diameter_mm (wafer cfg) = dz d ->
  n_points undefined_int (wafer_model (settings_of (wafer cfg))) (scan cfg) = d * points_per_mm (scan cfg) + 1.
Proof.
  intros Hppm Hd Ed. pose proof (diameter_bounds d Hd).
  destruct (grid_fact d (points_per_mm (scan cfg)) Hd Hppm) as [_ _ Hcount _ _ _ _].
  unfold n_points, trunc_int. rewrite (radius_valid cfg d Ed), Hcount, bool_decide_true by (unfold sint_ok; nia). done.
Qed.

(** The grid of every accepted configuration: the number of positions of a line is exactly
    the diameter in millimetres times the points per millimetre, and one; they rise, on the
    doubles the code computes, from minus the radius to exactly the radius; the angles of
    the lines lie from 0 to below pi. *)
Theorem scan_grid (undefined_int : Z) (cfg : Config) : validate cfg = None ->
  let t := wafer_model (settings_of (wafer cfg)) in
  let n := n_points undefined_int t (scan cfg) in
  let positions := map (at_point undefined_int t (scan cfg)) (seqZ 0 n) in
  (exists d, d ∈ diameters /\ diameter_mm (wafer cfg) = dz d /\ n = d * points_per_mm (scan cfg) + 1) /\
  StronglySorted (fun x y => SFleb x y = true) positions /\
  (exists first, head positions = Some first /\ SFeqb first (SFopp (radius_m t)) = true) /\
  last positions = Some (radius_m t) /\
  forall line, 0 <= line < scan_lines (scan cfg) ->
    SFleb (dz 0) (scan_angle scan_pi line (scan_lines (scan cfg))) = true /\
    SFltb (scan_angle scan_pi line (scan_lines (scan cfg))) scan_pi = true.
Proof.
  intros Hv. destruct (valid_scan cfg Hv) as (Hl & Hppm & d & Hd & Ed). intros t n positions.
  pose proof (diameter_bounds d Hd) as Hdb.
  destruct (grid_fact d (points_per_mm (scan cfg)) Hd Hppm) as [Hr Hw Hcount Hm Hq Hlast Hfirst].
  set (cells := d * points_per_mm (scan cfg)) in *. assert (Hcells : 1000 <= cells <= 24000) by (unfold cells; nia).
  assert (Er : radius_m t = radius_of d) by (by apply radius_valid).
  assert (En : n = cells + 1) by (by apply n_points_valid).
  assert (Epos : positions = map (fun p => scan_position (radius_of d) p (cells + 1)) (seqZ 0 (cells + 1))).
  { unfold positions, at_point. fold n. by rewrite Er, En. }
  rewrite Epos, Er. split_and!.
  - by exists d.
  - apply seqZ_sorted. intros p p' Hp Hp'.
    rewrite SFleb_val by (apply (position_value d (points_per_mm (scan cfg)) Hd Hppm); fold cells; lia).
    apply Z.leb_le. apply (position_mono d (points_per_mm (scan cfg)) Hd Hppm); fold cells; lia.
  - exists (scan_position (radius_of d) 0 (cells + 1)). split; [|done]. rewrite seqZ_cons by lia. done.
  - rewrite last_lookup, length_map, length_seqZ, list_lookup_fmap, lookup_seqZ_lt by lia. cbn [fmap option_fmap option_map].
    replace (0 + Z.of_nat (Init.Nat.pred (Z.to_nat (cells + 1)))) with cells by lia. by rewrite Hlast.
  - intros line Hline. destruct (scan_angles (scan_lines (scan cfg)) line Hl Hline) as [Ha Hlt]. split; [|done].
    destruct (dz_ok 0 ltac:(lia)) as [Hz Ez].
    rewrite SFleb_val by (by apply ok_number). pose proof (ok_val _ Ha). rewrite Ez. lia.
Qed.

(** ** Examples *)

#[local] Existing Instances two_trig no_noise every_time.

Lemma scan_progress_rises_witness :
  exists ps k, progress_of (done_ small_run) = ps ++ [ddiv (dmul (dz 100) (dz k)) (dz 2)] /\ 0 <= k <= 2 /\
    StronglySorted (fun x y => SFleb x y = true) ps.
Proof.
  unfold small_run. destruct (scan_progress_rises 0 small_truth small_scan "W1" (fun n => (6 <=? n)%nat) (fun _ _ => dz 0) (fun _ => true)
    small_faults 1 (new_stage (dz 1) (dz 0)) (new_laser (dz 0) 1)) as (ps & k & Hp & Hk & Hs & _);
    [split; vm_compute; discriminate|split; [vm_compute; discriminate|vm_compute; reflexivity]|].
  exists ps, k. split; [exact Hp|]. split; [exact Hk|exact Hs].
Defined.

(** An abort in the middle of a line takes the progress back to the whole lines. *)
Lemma progress_falls_on_abort :
  map trunc_Z (progress_of (done_ small_run)) = map Some [12; 25; 37; 50; 50; 62; 75; 50].
Proof. vm_compute. reflexivity. Qed.

Lemma scan_grid_witness :
  let t := wafer_model (settings_of (wafer default_config)) in
  last (map (at_point 0 t (scan default_config)) (seqZ 0 (n_points 0 t (scan default_config)))) = Some (radius_m t).
Proof.
  intros t. destruct (scan_grid 0 default_config) as (_ & _ & _ & Hl & _); [vm_compute; reflexivity|]. exact Hl.
Defined.
