(* ===== verification/SpscRing.v ===== *)
(** * The lock-free ring

    include/ssim/core/spsc_ring_queue.hpp: [SpscRingQueue<T>], the sample-path queue.
    Every access to a shared variable, every lock operation and every wait is a step
    of its own, so the runs are the interleavings of one producer, one consumer and
    any number of threads that call [close]. The sequentially consistent accesses see
    the current value; the acquire loads of the other side's index, which the code
    lets lag behind, return any value that side stored since the one last seen (the
    coherence order of a variable with a single writer). *)

From S2P Require Import Prelude Queue.

(** ** Data *)

(** [round_up_to_power_of_two]: the loop doubles the 64-bit [p] while it is below [n]. *)
Fixpoint round_up_loop (fuel : nat) (n p : Z) : option Z :=
  match fuel with
  | O => None
  | S fuel => if p <? n then round_up_loop fuel n (wrap 64 (Z.shiftl p 1)) else Some p
  end.

Definition round_up_to_power_of_two (n : Z) : option Z := round_up_loop 65 n 1.

Definition kSpinTries : nat := 64.

(** The constant members. *)
Record RingConfig := mkRingConfig { capacity_ : Z; policy_ : BackpressurePolicy; mask_ : Z }.

(** The constructor; [None] if the loop of [round_up_to_power_of_two] does not end. *)
Definition ring_config (capacity : Z) (policy : BackpressurePolicy) : option RingConfig :=
  let capacity := Z.max 1 capacity in
  match round_up_to_power_of_two capacity with
  | Some p => Some (mkRingConfig capacity policy (p - 1))
  | None => None
  end.

Inductive Side := producer | consumer.

#[global] Instance Side_eq_dec : EqDecision Side.
Proof. solve_decision. Defined.

(** Where [try_push] was called from: [push], the spin loop of [push_blocking] at its
    [n]th try, or under the lock; likewise for [try_pop], where the locked caller has
    read [was_closed]. *)
Inductive PushSite := push_fast | push_spin (n : nat) | push_locked.
Inductive PopSite := pop_spin (n : nat) | pop_locked (was_closed : bool).

(** The producer between two accesses, named after what it does next. *)
Inductive ProducerAt (T : Type) :=
| P_idle
| P_read_closed (x : T)
| P_spin (n : nat) (x : T)
| P_try (k : PushSite) (x : T)
| P_load_tail (k : PushSite) (x : T)
| P_emplace (k : PushSite) (x : T)
| P_store_head (k : PushSite) (x : T)
| P_unlock
| P_read_waiting
| P_pass_lock
| P_notify
| P_lock (x : T)
| P_set_waiting (x : T)
| P_check_closed (x : T)
| P_check_space (x : T)
| P_sleep (x : T)
| P_asleep (x : T)
| P_relock (x : T)
| P_clear_waiting (x : T)
| P_reread_closed (x : T).
Arguments P_idle {T}. Arguments P_read_closed {T}. Arguments P_spin {T}. Arguments P_try {T}.
Arguments P_load_tail {T}. Arguments P_emplace {T}. Arguments P_store_head {T}.
Arguments P_unlock {T}. Arguments P_read_waiting {T}. Arguments P_pass_lock {T}.
Arguments P_notify {T}. Arguments P_lock {T}. Arguments P_set_waiting {T}.
Arguments P_check_closed {T}. Arguments P_check_space {T}. Arguments P_sleep {T}.
Arguments P_asleep {T}. Arguments P_relock {T}. Arguments P_clear_waiting {T}.
Arguments P_reread_closed {T}.

Inductive ConsumerAt (T : Type) :=
| C_idle
| C_spin (n : nat)
| C_try (k : PopSite)
| C_load_head (k : PopSite)
| C_take (k : PopSite)
| C_store_tail (k : PopSite) (x : T)
| C_unlock (x : T)
| C_read_waiting (x : T)
| C_pass_lock (x : T)
| C_notify (x : T)
| C_lock
| C_read_closed
| C_set_waiting
| C_check_closed
| C_check_item
| C_sleep
| C_asleep
| C_relock
| C_clear_waiting.
Arguments C_idle {T}. Arguments C_spin {T}. Arguments C_try {T}. Arguments C_load_head {T}.
Arguments C_take {T}. Arguments C_store_tail {T}. Arguments C_unlock {T}.
Arguments C_read_waiting {T}. Arguments C_pass_lock {T}. Arguments C_notify {T}.
Arguments C_lock {T}. Arguments C_read_closed {T}. Arguments C_set_waiting {T}.
Arguments C_check_closed {T}. Arguments C_check_item {T}. Arguments C_sleep {T}.
Arguments C_asleep {T}. Arguments C_relock {T}. Arguments C_clear_waiting {T}.

(** The atomics, the slots and the mutex. *)
Record Shared (T : Type) := mkShared {
  head_ : Z;
  tail_ : Z;
  slots_ : gmap Z T;
  producer_waiting_ : bool;
  consumer_waiting_ : bool;
  closed_ : bool;
  dropped_ : Z;
  mutex_ : option Side
}.
Arguments mkShared {T}. Arguments head_ {T}. Arguments tail_ {T}. Arguments slots_ {T}.
Arguments producer_waiting_ {T}. Arguments consumer_waiting_ {T}. Arguments closed_ {T}.
Arguments dropped_ {T}. Arguments mutex_ {T}.

(** The producer: its position and its copy of [tail_]. As history: which store to
    [tail_] that copy is ([tail_seen]), the oldest store the producer may still see
    ([tail_floor]), the items it made visible and what its [push]es returned. *)
Record Producer (T : Type) := mkProducer {
  p_at : ProducerAt T;
  cached_tail_ : Z;
  tail_seen : nat;
  tail_floor : nat;
  pushed : list T;
  push_results : list bool
}.
Arguments mkProducer {T}. Arguments p_at {T}. Arguments cached_tail_ {T}.
Arguments tail_seen {T}. Arguments tail_floor {T}. Arguments pushed {T}. Arguments push_results {T}.

(** The consumer, likewise with its copy of [head_]. *)
Record Consumer (T : Type) := mkConsumer {
  c_at : ConsumerAt T;
  cached_head_ : Z;
  head_seen : nat;
  head_floor : nat;
  popped : list T;
  pop_results : list (option T)
}.
Arguments mkConsumer {T}. Arguments c_at {T}. Arguments cached_head_ {T}.
Arguments head_seen {T}. Arguments head_floor {T}. Arguments popped {T}.
Arguments pop_results {T}.

(** The threads inside [close]: those before the lock and those before the two
    [notify_all]s; and, of the first close, whether it was ordered after the
    producer's last push and how many stores to [head_] came before it. *)
Record Closers := mkClosers {
  before_lock : nat;
  before_notify_empty : nat;
  before_notify_full : nat;
  close_ordered : bool;
  closed_at : nat
}.

Record Ring (T : Type) := mkRing {
  shared : Shared T;
  prod : Producer T;
  cons_ : Consumer T;
  closers : Closers
}.
Arguments mkRing {T}. Arguments shared {T}. Arguments prod {T}. Arguments cons_ {T}.
Arguments closers {T}.

Definition new_ring {T} : Ring T :=
  mkRing (mkShared 0 0 ∅ false false false 0 None) (mkProducer P_idle 0 0 0 [] [])
    (mkConsumer C_idle 0 0 0 [] []) (mkClosers 0 0 0 false 0).

(** ** The operations, access by access *)

Section ring.
Context {T : Type} (c : RingConfig).

Definition on_shared (f : Shared T -> Shared T) (r : Ring T) : Ring T :=
  mkRing (f (shared r)) (prod r) (cons_ r) (closers r).
Definition on_prod (f : Producer T -> Producer T) (r : Ring T) : Ring T :=
  mkRing (shared r) (f (prod r)) (cons_ r) (closers r).
Definition on_cons (f : Consumer T -> Consumer T) (r : Ring T) : Ring T :=
  mkRing (shared r) (prod r) (f (cons_ r)) (closers r).
Definition on_closers (f : Closers -> Closers) (r : Ring T) : Ring T :=
  mkRing (shared r) (prod r) (cons_ r) (f (closers r)).

Definition set_head (v : Z) (m : Shared T) : Shared T :=
  mkShared v (tail_ m) (slots_ m) (producer_waiting_ m) (consumer_waiting_ m) (closed_ m)
    (dropped_ m) (mutex_ m).
Definition set_tail (v : Z) (m : Shared T) : Shared T :=
  mkShared (head_ m) v (slots_ m) (producer_waiting_ m) (consumer_waiting_ m) (closed_ m)
    (dropped_ m) (mutex_ m).
Definition set_slots (v : gmap Z T) (m : Shared T) : Shared T :=
  mkShared (head_ m) (tail_ m) v (producer_waiting_ m) (consumer_waiting_ m) (closed_ m)
    (dropped_ m) (mutex_ m).
Definition set_producer_waiting (v : bool) (m : Shared T) : Shared T :=
  mkShared (head_ m) (tail_ m) (slots_ m) v (consumer_waiting_ m) (closed_ m) (dropped_ m)
    (mutex_ m).
Definition set_consumer_waiting (v : bool) (m : Shared T) : Shared T :=
  mkShared (head_ m) (tail_ m) (slots_ m) (producer_waiting_ m) v (closed_ m) (dropped_ m)
    (mutex_ m).
Definition set_closed (v : bool) (m : Shared T) : Shared T :=
  mkShared (head_ m) (tail_ m) (slots_ m) (producer_waiting_ m) (consumer_waiting_ m) v
    (dropped_ m) (mutex_ m).
Definition set_dropped (v : Z) (m : Shared T) : Shared T :=
  mkShared (head_ m) (tail_ m) (slots_ m) (producer_waiting_ m) (consumer_waiting_ m)
    (closed_ m) v (mutex_ m).
Definition set_mutex (v : option Side) (m : Shared T) : Shared T :=
  mkShared (head_ m) (tail_ m) (slots_ m) (producer_waiting_ m) (consumer_waiting_ m)
    (closed_ m) (dropped_ m) v.

Definition p_goto (a : ProducerAt T) : Ring T -> Ring T :=
  on_prod (fun p => mkProducer a (cached_tail_ p) (tail_seen p) (tail_floor p) (pushed p)
                      (push_results p)).
Definition c_goto (a : ConsumerAt T) : Ring T -> Ring T :=
  on_cons (fun k => mkConsumer a (cached_head_ k) (head_seen k) (head_floor k) (popped k)
                      (pop_results k)).

Definition p_return (b : bool) : Ring T -> Ring T :=
  on_prod (fun p => mkProducer P_idle (cached_tail_ p) (tail_seen p) (tail_floor p) (pushed p)
                      (push_results p ++ [b])).
Definition c_return (x : option T) : Ring T -> Ring T :=
  on_cons (fun k => mkConsumer C_idle (cached_head_ k) (head_seen k) (head_floor k) (popped k)
                      (pop_results k ++ [x])).

(** The producer's [cached_tail_] becomes the [n]th store to [tail_]. *)
Definition p_cache (n : nat) : Ring T -> Ring T :=
  on_prod (fun p => mkProducer (p_at p) (wrap 64 (Z.of_nat n)) n n (pushed p) (push_results p)).
Definition c_cache (n : nat) : Ring T -> Ring T :=
  on_cons (fun k => mkConsumer (c_at k) (wrap 64 (Z.of_nat n)) n n (popped k) (pop_results k)).

(** A thread that has seen the other side's [n]th store sees no older one. *)
Definition p_saw (n : nat) : Ring T -> Ring T :=
  on_prod (fun p => mkProducer (p_at p) (cached_tail_ p) (tail_seen p) (Nat.max (tail_floor p) n)
                      (pushed p) (push_results p)).
Definition c_saw (n : nat) : Ring T -> Ring T :=
  on_cons (fun k => mkConsumer (c_at k) (cached_head_ k) (head_seen k) (Nat.max (head_floor k) n)
                      (popped k) (pop_results k)).

Definition p_made_visible (x : T) : Ring T -> Ring T :=
  on_prod (fun p => mkProducer (p_at p) (cached_tail_ p) (tail_seen p) (tail_floor p)
                      (pushed p ++ [x]) (push_results p)).
Definition c_made_visible (x : T) : Ring T -> Ring T :=
  on_cons (fun k => mkConsumer (c_at k) (cached_head_ k) (head_seen k) (head_floor k)
                      (popped k ++ [x]) (pop_results k)).

(** [not_empty_.notify_*] and [not_full_.notify_*]: at most one thread waits on each. *)
Definition notify_not_empty (r : Ring T) : Ring T :=
  match c_at (cons_ r) with C_asleep => c_goto C_relock r | _ => r end.
Definition notify_not_full (r : Ring T) : Ring T :=
  match p_at (prod r) with P_asleep x => p_goto (P_relock x) r | _ => r end.

Definition lock (who : Side) (k : Ring T -> Ring T) (r : Ring T) : option (Ring T) :=
  match mutex_ (shared r) with
  | None => Some (k (on_shared (set_mutex (Some who)) r))
  | Some _ => None
  end.
Definition pass_lock (k : Ring T -> Ring T) (r : Ring T) : option (Ring T) :=
  match mutex_ (shared r) with None => Some (k r) | Some _ => None end.
Definition unlock : Ring T -> Ring T := on_shared (set_mutex None).

Definition looks_full (r : Ring T) : bool :=
  capacity_ c <=? wrap 64 (head_ (shared r) - cached_tail_ (prod r)).
Definition looks_empty (r : Ring T) : bool := tail_ (shared r) =? cached_head_ (cons_ r).
Definition has_space (r : Ring T) : bool :=
  wrap 64 (head_ (shared r) - tail_ (shared r)) <? capacity_ c.
Definition has_item (r : Ring T) : bool := negb (head_ (shared r) =? tail_ (shared r)).

(** What each caller of [try_push] does when it failed, and of [try_pop]. *)
Definition push_failed (k : PushSite) (x : T) (r : Ring T) : Ring T :=
  match k with
  | push_fast =>
      match policy_ c with
      | kDropNewest =>
          p_return false (on_shared (set_dropped (wrap 64 (dropped_ (shared r) + 1))) r)
      | kBlock => p_goto (P_spin 0 x) r
      end
  | push_spin n => p_goto (P_spin (S n) x) r
  | push_locked => p_goto (P_set_waiting x) r
  end.

Definition pop_failed (k : PopSite) (r : Ring T) : Ring T :=
  match k with
  | pop_spin n => c_goto (C_spin (S n)) r
  | pop_locked true => c_return None (unlock r)
  | pop_locked false => c_goto C_set_waiting r
  end.

(** The producer's next access; an acquire load returns the [n]th store. *)
Definition producer_step (n : nat) (r : Ring T) : option (Ring T) :=
  let m := shared r in
  match p_at (prod r) with
  | P_idle | P_asleep _ => None
  | P_read_closed x =>
      Some (if closed_ m then p_return false r else p_goto (P_try push_fast x) r)
  | P_spin i x =>
      Some
        (if (i <? kSpinTries)%nat then
           if closed_ m then p_return false r else p_goto (P_try (push_spin i) x) r
         else p_goto (P_lock x) r)
  | P_try k x => Some (p_goto (if looks_full r then P_load_tail k x else P_emplace k x) r)
  | P_load_tail k x =>
      if (tail_floor (prod r) <=? n)%nat && (n <=? length (popped (cons_ r)))%nat then
        let r := p_cache n r in
        Some (if looks_full r then push_failed k x r else p_goto (P_emplace k x) r)
      else None
  | P_emplace k x =>
      Some (p_goto (P_store_head k x)
              (on_shared (set_slots (<[Z.land (head_ m) (mask_ c) := x]> (slots_ m))) r))
  | P_store_head k x =>
      Some (p_goto match k with push_locked => P_unlock | _ => P_read_waiting end
              (p_made_visible x (on_shared (set_head (wrap 64 (head_ m + 1))) r)))
  | P_unlock => Some (p_goto P_read_waiting (unlock r))
  | P_read_waiting =>
      Some (if consumer_waiting_ m then p_goto P_pass_lock r else p_return true r)
  | P_pass_lock => pass_lock (p_goto P_notify) r
  | P_notify => Some (p_return true (notify_not_empty r))
  | P_lock x => lock producer (p_goto (P_set_waiting x)) r
  | P_set_waiting x => Some (p_goto (P_check_closed x) (on_shared (set_producer_waiting true) r))
  | P_check_closed x =>
      Some (p_goto (if closed_ m then P_clear_waiting x else P_check_space x) r)
  | P_check_space x =>
      Some (p_goto (if has_space r then P_clear_waiting x else P_sleep x)
              (p_saw (length (popped (cons_ r))) r))
  | P_sleep x => Some (p_goto (P_asleep x) (unlock r))
  | P_relock x => lock producer (p_goto (P_check_closed x)) r
  | P_clear_waiting x =>
      Some (p_goto (P_reread_closed x) (on_shared (set_producer_waiting false) r))
  | P_reread_closed x =>
      Some (if closed_ m then p_return false (unlock r) else p_goto (P_try push_locked x) r)
  end.

(** The consumer's. Reading an empty slot is undefined behaviour: no step. *)
Definition consumer_step (n : nat) (r : Ring T) : option (Ring T) :=
  let m := shared r in
  match c_at (cons_ r) with
  | C_idle | C_asleep => None
  | C_spin i => Some (c_goto (if (i <? kSpinTries)%nat then C_try (pop_spin i) else C_lock) r)
  | C_try k => Some (c_goto (if looks_empty r then C_load_head k else C_take k) r)
  | C_load_head k =>
      if (head_floor (cons_ r) <=? n)%nat && (n <=? length (pushed (prod r)))%nat then
        let r := c_cache n r in
        Some (if looks_empty r then pop_failed k r else c_goto (C_take k) r)
      else None
  | C_take k =>
      match slots_ m !! Z.land (tail_ m) (mask_ c) with
      | None => None
      | Some x =>
          Some (c_goto (C_store_tail k x)
                  (on_shared (set_slots (delete (Z.land (tail_ m) (mask_ c)) (slots_ m))) r))
      end
  | C_store_tail k x =>
      Some (c_goto match k with pop_locked _ => C_unlock x | _ => C_read_waiting x end
              (c_made_visible x (on_shared (set_tail (wrap 64 (tail_ m + 1))) r)))
  | C_unlock x => Some (c_goto (C_read_waiting x) (unlock r))
  | C_read_waiting x =>
      Some (if producer_waiting_ m then c_goto (C_pass_lock x) r else c_return (Some x) r)
  | C_pass_lock x => pass_lock (c_goto (C_notify x)) r
  | C_notify x => Some (c_return (Some x) (notify_not_full r))
  | C_lock => lock consumer (c_goto C_read_closed) r
  | C_read_closed =>
      Some (c_goto (C_try (pop_locked (closed_ m)))
              (if closed_ m && close_ordered (closers r) then c_saw (closed_at (closers r)) r
               else r))
  | C_set_waiting => Some (c_goto C_check_closed (on_shared (set_consumer_waiting true) r))
  | C_check_closed => Some (c_goto (if closed_ m then C_clear_waiting else C_check_item) r)
  | C_check_item =>
      Some (c_goto (if has_item r then C_clear_waiting else C_sleep)
              (c_saw (length (pushed (prod r))) r))
  | C_sleep => Some (c_goto C_asleep (unlock r))
  | C_relock => lock consumer (c_goto C_check_closed) r
  | C_clear_waiting => Some (c_goto C_read_closed (on_shared (set_consumer_waiting false) r))
  end.

(** [close]: [ordered] says that the call is made while no [push] runs and happens
    after the last one, as the header of the class asks. *)
Definition close_store (ordered : bool) (r : Ring T) : option (Ring T) :=
  match ordered, p_at (prod r) with
  | true, P_idle | false, _ =>
      Some
        (on_closers
           (fun k => mkClosers (S (before_lock k)) (before_notify_empty k) (before_notify_full k)
                       (if closed_ (shared r) then close_ordered k else ordered)
                       (if closed_ (shared r) then closed_at k else length (pushed (prod r))))
           (on_shared (set_closed true) r))
  | _, _ => None
  end.

Definition close_lock (r : Ring T) : option (Ring T) :=
  match before_lock (closers r) with
  | O => None
  | S n =>
      pass_lock
        (on_closers (fun k => mkClosers n (S (before_notify_empty k)) (before_notify_full k)
                                (close_ordered k) (closed_at k))) r
  end.

Definition close_notify_empty (r : Ring T) : option (Ring T) :=
  match before_notify_empty (closers r) with
  | O => None
  | S n =>
      Some (notify_not_empty
        (on_closers (fun k => mkClosers (before_lock k) n (S (before_notify_full k))
                                (close_ordered k) (closed_at k)) r))
  end.

Definition close_notify_full (r : Ring T) : option (Ring T) :=
  match before_notify_full (closers r) with
  | O => None
  | S n =>
      Some (notify_not_full
        (on_closers (fun k => mkClosers (before_lock k) (before_notify_empty k) n
                                (close_ordered k) (closed_at k)) r))
  end.

Inductive ring_label :=
| ring_push (x : T)
| ring_pop
| ring_producer (n : nat)
| ring_consumer (n : nat)
| ring_close (ordered : bool)
| ring_close_lock
| ring_close_notify_empty
| ring_close_notify_full
| ring_spurious_empty
| ring_spurious_full.

Definition ring_step (l : ring_label) (r : Ring T) : option (Ring T) :=
  match l with
  | ring_push x =>
      match p_at (prod r) with P_idle => Some (p_goto (P_read_closed x) r) | _ => None end
  | ring_pop => match c_at (cons_ r) with C_idle => Some (c_goto (C_spin 0) r) | _ => None end
  | ring_producer n => producer_step n r
  | ring_consumer n => consumer_step n r
  | ring_close ordered => close_store ordered r
  | ring_close_lock => close_lock r
  | ring_close_notify_empty => close_notify_empty r
  | ring_close_notify_full => close_notify_full r
  | ring_spurious_empty => Some (notify_not_empty r)
  | ring_spurious_full => Some (notify_not_full r)
  end.

Fixpoint ring_run (ls : list ring_label) (r : Ring T) : option (Ring T) :=
  match ls with
  | [] => Some r
  | l :: ls => ring_step l r ≫= ring_run ls
  end.

(** ** The invariant *)

(** Stores to [head_] and [tail_] so far. *)
Definition heads (r : Ring T) : nat := length (pushed (prod r)).
Definition tails (r : Ring T) : nat := length (popped (cons_ r)).

(** The items whose slot is filled, and those whose slot is empty again. *)
Definition filled (r : Ring T) : list T :=
  pushed (prod r) ++ match p_at (prod r) with P_store_head _ x => [x] | _ => [] end.
Definition taken (r : Ring T) : list T :=
  popped (cons_ r) ++ match c_at (cons_ r) with C_store_tail _ x => [x] | _ => [] end.

Definition slot_of (i : nat) : Z := Z.of_nat i mod (mask_ c + 1).

Record config_ok : Prop := mkConfigOk {
  cf_capacity : 1 <= capacity_ c <= mask_ c + 1;
  cf_mask : exists k, 0 <= k <= 63 /\ mask_ c + 1 = 2 ^ k
}.

Record index_ok (r : Ring T) : Prop := mkIndexOk {
  ix_head : head_ (shared r) = wrap 64 (Z.of_nat (heads r));
  ix_tail : tail_ (shared r) = wrap 64 (Z.of_nat (tails r));
  ix_cached_tail : cached_tail_ (prod r) = wrap 64 (Z.of_nat (tail_seen (prod r)));
  ix_cached_head : cached_head_ (cons_ r) = wrap 64 (Z.of_nat (head_seen (cons_ r)));
  ix_tail_seen : (tail_seen (prod r) <= tail_floor (prod r) <= tails r)%nat;
  ix_head_seen : (head_seen (cons_ r) <= head_floor (cons_ r) <= heads r)%nat;
  ix_item : (tails r <= head_seen (cons_ r))%nat;
  ix_room : Z.of_nat (heads r) <= Z.of_nat (tail_seen (prod r)) + capacity_ c;
  ix_producer :
    match p_at (prod r) with
    | P_emplace _ _ | P_store_head _ _ =>
        Z.of_nat (heads r) < Z.of_nat (tail_seen (prod r)) + capacity_ c
    | _ => True
    end;
  ix_consumer :
    match c_at (cons_ r) with
    | C_take _ | C_store_tail _ _ => (tails r < head_seen (cons_ r))%nat
    | _ => True
    end;
  ix_prefix : exists l, filled r = taken r ++ l;
  ix_filled : forall i x, (length (taken r) <= i)%nat -> filled r !! i = Some x ->
    slots_ (shared r) !! slot_of i = Some x;
  ix_empty : forall j x, slots_ (shared r) !! j = Some x ->
    exists i, (length (taken r) <= i < length (filled r))%nat /\ j = slot_of i
}.

Context (Hc : config_ok).

Lemma wrap_diff a b : 0 <= a - b < 2 ^ 64 -> wrap 64 (wrap 64 a - wrap 64 b) = a - b.
Proof.
  intros H. unfold wrap. rewrite <- Zminus_mod. by apply Z.mod_small.
Qed.

Lemma wrap_eqb a b : 0 <= a - b < 2 ^ 64 -> (wrap 64 a =? wrap 64 b) = (a =? b).
Proof.
  intros H. apply eq_true_iff_eq. rewrite !Z.eqb_eq.
  split; [|by intros ->]. intros He.
  pose proof (wrap_diff a b H) as Hd. rewrite He, Z.sub_diag in Hd.
  unfold wrap in Hd. rewrite Z.mod_0_l in Hd; lia.
Qed.

Lemma wrap_64_succ a : wrap 64 (wrap 64 a + 1) = wrap 64 (a + 1).
Proof. unfold wrap. by rewrite Zplus_mod_idemp_l. Qed.

Lemma capacity_small : 1 <= capacity_ c < 2 ^ 64.
Proof.
  destruct Hc as [Hcap (k & Hk & He)]. split; [lia|].
  pose proof (Z.pow_le_mono_r 2 k 63 ltac:(lia) ltac:(lia)). lia.
Qed.

Lemma land_mask i : Z.land (wrap 64 (Z.of_nat i)) (mask_ c) = slot_of i.
Proof.
  destruct Hc as [_ (k & Hk & He)]. unfold slot_of. rewrite He.
  replace (mask_ c) with (Z.ones k) by (rewrite Z.ones_equiv; lia).
  rewrite Z.land_ones by lia. unfold wrap.
  rewrite Z.mod_mod_divide; [done|]. exists (2 ^ (64 - k)). rewrite <- Z.pow_add_r by lia.
  f_equal. lia.
Qed.

(** Two indices less than the ring apart have different slots. *)
Lemma slot_of_inj i j :
  (i <= j)%nat -> Z.of_nat j - Z.of_nat i < mask_ c + 1 -> slot_of i = slot_of j -> i = j.
Proof.
  intros Hij Hd He. unfold slot_of in He. destruct Hc as [[Hcap1 Hcap2] _].
  assert (Hz : (Z.of_nat j - Z.of_nat i) mod (mask_ c + 1) = 0).
  { by rewrite Zminus_mod, He, Z.sub_diag, Z.mod_0_l by lia. }
  rewrite Z.mod_small in Hz; lia.
Qed.

Section index.
Context (r : Ring T) (Hi : index_ok r).

Lemma heads_tails : (tails r <= heads r)%nat /\ Z.of_nat (heads r) <= Z.of_nat (tails r) + capacity_ c.
Proof. destruct Hi. lia. Qed.

Lemma looks_full_eq :
  looks_full r = (capacity_ c <=? Z.of_nat (heads r) - Z.of_nat (tail_seen (prod r))).
Proof.
  pose proof capacity_small. destruct Hi. unfold looks_full.
  rewrite ix_head0, ix_cached_tail0, wrap_diff by lia. done.
Qed.

Lemma has_space_eq : has_space r = (Z.of_nat (heads r) - Z.of_nat (tails r) <? capacity_ c).
Proof.
  pose proof capacity_small. destruct Hi. unfold has_space.
  rewrite ix_head0, ix_tail0, wrap_diff by lia. done.
Qed.

Lemma has_item_eq : has_item r = negb (heads r =? tails r)%nat.
Proof.
  pose proof capacity_small. destruct Hi. unfold has_item.
  rewrite ix_head0, ix_tail0, wrap_eqb by lia. f_equal.
  apply eq_true_iff_eq. rewrite Z.eqb_eq, Nat.eqb_eq. lia.
Qed.

Lemma looks_empty_eq : looks_empty r = (head_seen (cons_ r) =? tails r)%nat.
Proof.
  pose proof capacity_small. destruct Hi. unfold looks_empty.
  rewrite ix_tail0, ix_cached_head0, Z.eqb_sym, wrap_eqb by lia.
  apply eq_true_iff_eq. rewrite Z.eqb_eq, Nat.eqb_eq. lia.
Qed.

End index.

Ltac ring_simpl :=
  unfold p_goto, c_goto, p_return, c_return, p_cache, c_cache, p_saw, c_saw, p_made_visible,
    c_made_visible, unlock, on_shared, on_prod, on_cons, on_closers, set_head, set_tail, set_slots,
    set_producer_waiting, set_consumer_waiting, set_closed, set_dropped, set_mutex in *;
  cbn [shared prod cons_ closers head_ tail_ slots_ producer_waiting_ consumer_waiting_ closed_
       dropped_ mutex_ p_at cached_tail_ tail_seen tail_floor pushed push_results c_at cached_head_
       head_seen head_floor popped pop_results before_lock before_notify_empty before_notify_full
       close_ordered closed_at] in *.

(** A step that touches neither the indices nor the slots. *)
Ltac index_frame :=
  match goal with H : index_ok _ |- _ => destruct H end;
  split; unfold heads, tails, filled, taken in *; ring_simpl;
  repeat match goal with
  | H : p_at (prod ?r) = _ |- _ => rewrite H in *; clear H
  | H : c_at (cons_ ?r) = _ |- _ => rewrite H in *; clear H
  end; try done; try lia.

Lemma notify_empty_index r : index_ok r -> index_ok (notify_not_empty r).
Proof. intros Hi. unfold notify_not_empty. destruct (c_at (cons_ r)) eqn:E; try done. index_frame. Qed.

Lemma notify_full_index r : index_ok r -> index_ok (notify_not_full r).
Proof. intros Hi. unfold notify_not_full. destruct (p_at (prod r)) eqn:E; try done. index_frame. Qed.

(** The slot the producer fills is empty. *)
Lemma slot_free r k x :
  index_ok r -> p_at (prod r) = P_emplace k x ->
  slots_ (shared r) !! Z.land (head_ (shared r)) (mask_ c) = None.
Proof.
  intros Hi Hp. pose proof (heads_tails r Hi) as [Hle Hroom]. destruct Hi.
  rewrite Hp in ix_producer0. rewrite ix_head0, land_mask.
  assert (Hlen : length (filled r) = heads r).
  { unfold filled. by rewrite Hp, app_nil_r. }
  assert (Htk : (tails r <= length (taken r))%nat).
  { unfold taken. rewrite length_app. unfold tails. lia. }
  destruct (slots_ (shared r) !! slot_of (heads r)) as [y|] eqn:Es; [|done].
  destruct (ix_empty0 _ _ Es) as (i & Hlt & He). symmetry in He. destruct Hc as [Hcap _].
  apply slot_of_inj in He; lia.
Qed.

Lemma emplace_index r k x :
  index_ok r -> p_at (prod r) = P_emplace k x ->
  index_ok (p_goto (P_store_head k x)
    (on_shared (set_slots (<[Z.land (head_ (shared r)) (mask_ c) := x]> (slots_ (shared r)))) r)).
Proof.
  intros Hi Hp. pose proof (slot_free r k x Hi Hp) as Hfr. destruct Hi.
  rewrite Hp in ix_producer0. rewrite ix_head0, land_mask in *.
  assert (Hlen : length (filled r) = heads r).
  { unfold filled. by rewrite Hp, app_nil_r. }
  assert (Hfl : filled r = pushed (prod r)) by (unfold filled; by rewrite Hp, app_nil_r).
  split; unfold heads, tails in *; ring_simpl; try done.
  - unfold filled, taken in *. ring_simpl. destruct ix_prefix0 as [l Hl]. exists (l ++ [x]).
    by rewrite app_assoc, <- Hl, Hfl.
  - intros i y Hge. change (taken _) with (taken r) in Hge. unfold filled. ring_simpl.
    intros [Hl|[Hl Hy]]%lookup_app_Some.
    + rewrite lookup_insert_ne; [apply ix_filled0; [done|by rewrite Hfl]|].
      pose proof (ix_filled0 i y Hge) as Hs. rewrite Hfl in Hs. intros He.
      rewrite He in Hfr. by rewrite Hs in Hfr.
    + destruct (i - length (pushed (prod r)))%nat eqn:Ed; [|done]. injection Hy as ->.
      replace i with (length (pushed (prod r))) by lia. by rewrite lookup_insert_eq.
  - intros j y. unfold filled. ring_simpl. change (taken _) with (taken r).
    rewrite length_app. simpl. intros [[<- <-]|[Hne Hs]]%lookup_insert_Some.
    + exists (length (pushed (prod r))). split; [|done].
      destruct ix_prefix0 as [l Hl]. apply (f_equal length) in Hl. rewrite length_app in Hl. lia.
    + destruct (ix_empty0 _ _ Hs) as (i & Hlt & He). exists i. split; [|done].
      rewrite Hlen in Hlt. unfold heads in Hlt. lia.
Qed.

Lemma store_head_index r k x :
  index_ok r -> p_at (prod r) = P_store_head k x -> forall a,
  match a with P_emplace _ _ | P_store_head _ _ => False | _ => True end ->
  index_ok (p_goto a (p_made_visible x (on_shared (set_head (wrap 64 (head_ (shared r) + 1))) r))).
Proof.
  intros Hi Hp a Ha. destruct Hi. rewrite Hp in ix_producer0.
  assert (Hfl : filled (p_goto a (p_made_visible x
    (on_shared (set_head (wrap 64 (head_ (shared r) + 1))) r))) = filled r).
  { unfold filled. ring_simpl. rewrite Hp. destruct a; try done; by rewrite app_nil_r. }
  split; rewrite ?Hfl; unfold heads, tails in *; ring_simpl; try done;
    rewrite ?length_app; simpl; try lia.
  - rewrite ix_head0, wrap_64_succ. f_equal. lia.
  - by destruct a.
Qed.

Lemma push_failed_index r k k' x :
  index_ok r -> p_at (prod r) = P_load_tail k x -> index_ok (push_failed k' x r).
Proof.
  intros Hi Hp. unfold push_failed. destruct k'; [destruct (policy_ c)|..]; index_frame.
Qed.

Lemma emplace_goto_index r k x a :
  index_ok r -> p_at (prod r) = a ->
  match a with P_try _ _ | P_load_tail _ _ => True | _ => False end ->
  looks_full r = false -> index_ok (p_goto (P_emplace k x) r).
Proof.
  intros Hi Hp Ha. rewrite looks_full_eq by done. intros Hf%Z.leb_gt.
  destruct a; try done; index_frame.
Qed.

Lemma producer_index n r r' :
  index_ok r -> producer_step n r = Some r' -> index_ok r'.
Proof.
  intros Hi. unfold producer_step. destruct (p_at (prod r)) eqn:Hp; try done.
  - destruct (closed_ _); intros [= <-]; index_frame.
  - destruct (_ <? _)%nat; [destruct (closed_ _)|]; intros [= <-]; index_frame.
  - destruct (looks_full r) eqn:Hf; intros [= <-]; [index_frame|by eapply emplace_goto_index].
  - destruct (Nat.leb_spec (tail_floor (prod r)) n); [|done].
    destruct (Nat.leb_spec n (length (popped (cons_ r)))); [|done]. simpl.
    assert (Hi' : index_ok (p_cache n r)) by index_frame.
    destruct (looks_full (p_cache n r)) eqn:Hf; intros [= <-];
      [by eapply push_failed_index|by eapply emplace_goto_index].
  - intros [= <-]. by apply emplace_index.
  - intros [= <-]. eapply store_head_index; [done..|]. by destruct k.
  - intros [= <-]. index_frame.
  - destruct (consumer_waiting_ _); intros [= <-]; index_frame.
  - unfold pass_lock. destruct (mutex_ _); intros [= <-]. index_frame.
  - intros [= <-]. pose proof (notify_empty_index r Hi) as Hi'.
    assert (Hp' : p_at (prod (notify_not_empty r)) = P_notify).
    { unfold notify_not_empty. by destruct (c_at (cons_ r)). }
    clear Hi Hp. revert Hi' Hp'. generalize (notify_not_empty r). intros r1 Hi' Hp'. index_frame.
  - unfold lock. destruct (mutex_ _); intros [= <-]. index_frame.
  - intros [= <-]. index_frame.
  - destruct (closed_ _); intros [= <-]; index_frame.
  - destruct (has_space r); intros [= <-]; index_frame.
  - intros [= <-]. index_frame.
  - unfold lock. destruct (mutex_ _); intros [= <-]. index_frame.
  - intros [= <-]. index_frame.
  - destruct (closed_ _); intros [= <-]; index_frame.
Qed.

Lemma filled_bound r :
  index_ok r -> Z.of_nat (length (filled r)) <= Z.of_nat (tails r) + capacity_ c /\
  (heads r <= length (filled r))%nat.
Proof.
  intros []. unfold filled, heads in *. rewrite length_app.
  destruct (p_at (prod r)); simpl in *; lia.
Qed.

(** The slot the consumer reads holds the oldest item. *)
Lemma take_item r k :
  index_ok r -> c_at (cons_ r) = C_take k ->
  exists x l, filled r = popped (cons_ r) ++ x :: l /\
    slots_ (shared r) !! Z.land (tail_ (shared r)) (mask_ c) = Some x.
Proof.
  intros Hi Hk. pose proof (filled_bound r Hi) as [_ Hlen]. destruct Hi.
  rewrite Hk in ix_consumer0. rewrite ix_tail0, land_mask.
  unfold taken in *. rewrite Hk, app_nil_r in *. destruct ix_prefix0 as [[|x l] Hl].
  { rewrite Hl, app_nil_r in Hlen. unfold tails in *. lia. }
  exists x, l. split; [done|]. apply ix_filled0; [unfold tails; lia|].
  rewrite Hl. unfold tails. by apply list_lookup_middle.
Qed.

Lemma take_index r k x :
  index_ok r -> c_at (cons_ r) = C_take k ->
  slots_ (shared r) !! Z.land (tail_ (shared r)) (mask_ c) = Some x ->
  index_ok (c_goto (C_store_tail k x)
    (on_shared (set_slots (delete (Z.land (tail_ (shared r)) (mask_ c)) (slots_ (shared r)))) r)).
Proof.
  intros Hi Hk Hx. destruct (take_item r k Hi Hk) as (x' & l & Hl & Hx').
  rewrite Hx in Hx'. injection Hx' as <-. pose proof (filled_bound r Hi) as [Hb _]. destruct Hi.
  rewrite Hk in ix_consumer0. rewrite ix_tail0, land_mask in *.
  assert (Htk : taken r = popped (cons_ r)) by (unfold taken; by rewrite Hk, app_nil_r).
  rewrite Htk in *. destruct Hc as [Hcap _].
  split; unfold heads, tails in *; ring_simpl; try done.
  - unfold taken. ring_simpl. exists l. change (filled _) with (filled r). by rewrite Hl, <- app_assoc.
  - unfold taken. ring_simpl. intros i y Hge. change (filled _) with (filled r). intros Hy.
    rewrite length_app in Hge. simpl in Hge. pose proof (lookup_lt_Some _ _ _ Hy).
    rewrite lookup_delete_ne; [apply ix_filled0; [lia|done]|].
    intros He. apply slot_of_inj in He; lia.
  - unfold taken. ring_simpl. change (filled _) with (filled r). rewrite length_app. simpl.
    intros j y [Hne Hs]%lookup_delete_Some. destruct (ix_empty0 _ _ Hs) as (i & Hlt & He).
    exists i. split; [|done]. destruct (decide (i = length (popped (cons_ r)))) as [->|]; [done|lia].
Qed.

Lemma store_tail_index r k x :
  index_ok r -> c_at (cons_ r) = C_store_tail k x -> forall a,
  match a with C_take _ | C_store_tail _ _ => False | _ => True end ->
  index_ok (c_goto a (c_made_visible x (on_shared (set_tail (wrap 64 (tail_ (shared r) + 1))) r))).
Proof.
  intros Hi Hk a Ha. destruct Hi. rewrite Hk in ix_consumer0.
  assert (Htk : taken (c_goto a (c_made_visible x
    (on_shared (set_tail (wrap 64 (tail_ (shared r) + 1))) r))) = taken r).
  { unfold taken. ring_simpl. rewrite Hk. destruct a; try done; by rewrite app_nil_r. }
  split; rewrite ?Htk; unfold heads, tails in *; ring_simpl; try done;
    rewrite ?length_app; simpl; try lia.
  - rewrite ix_tail0, wrap_64_succ. f_equal. lia.
  - by destruct a.
Qed.

Lemma take_goto_index r k a :
  index_ok r -> c_at (cons_ r) = a ->
  match a with C_try _ | C_load_head _ => True | _ => False end ->
  looks_empty r = false -> index_ok (c_goto (C_take k) r).
Proof.
  intros Hi Hk Ha. rewrite looks_empty_eq by done. intros Hf%Nat.eqb_neq.
  destruct a; try done; index_frame.
Qed.

Lemma pop_failed_index r k k' :
  index_ok r -> c_at (cons_ r) = C_load_head k -> index_ok (pop_failed k' r).
Proof. intros Hi Hk. unfold pop_failed. destruct k' as [|[|]]; index_frame. Qed.

(** The other closers of a state: what the close history says of the indices. *)
Definition closed_at_ok (r : Ring T) : Prop :=
  closed_ (shared r) = true -> (closed_at (closers r) <= heads r)%nat.

Lemma consumer_index n r r' :
  index_ok r -> closed_at_ok r -> consumer_step n r = Some r' -> index_ok r'.
Proof.
  intros Hi Hcl. unfold consumer_step. destruct (c_at (cons_ r)) eqn:Hk; try done.
  - destruct (_ <? _)%nat; intros [= <-]; index_frame.
  - destruct (looks_empty r) eqn:Hf; intros [= <-]; [index_frame|by eapply take_goto_index].
  - destruct (Nat.leb_spec (head_floor (cons_ r)) n); [|done].
    destruct (Nat.leb_spec n (length (pushed (prod r)))); [|done]. simpl.
    assert (Hi' : index_ok (c_cache n r)) by index_frame.
    destruct (looks_empty (c_cache n r)) eqn:Hf; intros [= <-];
      [by eapply pop_failed_index|by eapply take_goto_index].
  - destruct (slots_ _ !! _) as [x|] eqn:Hx; [|done]. intros [= <-]. by apply take_index.
  - intros [= <-]. eapply store_tail_index; [done..|]. by destruct k.
  - intros [= <-]. index_frame.
  - destruct (producer_waiting_ _); intros [= <-]; index_frame.
  - unfold pass_lock. destruct (mutex_ _); intros [= <-]. index_frame.
  - intros [= <-]. pose proof (notify_full_index r Hi) as Hi'.
    assert (Hk' : c_at (cons_ (notify_not_full r)) = C_notify x).
    { unfold notify_not_full. by destruct (p_at (prod r)). }
    clear Hi Hcl Hk. revert Hi' Hk'. generalize (notify_not_full r). intros r1 Hi' Hk'. index_frame.
  - unfold lock. destruct (mutex_ _); intros [= <-]. index_frame.
  - destruct (closed_ _) eqn:Ec; [|intros [= <-]; index_frame]. specialize (Hcl Ec).
    destruct (close_ordered _); intros [= <-]; index_frame.
  - intros [= <-]. index_frame.
  - destruct (closed_ _); intros [= <-]; index_frame.
  - destruct (has_item r); intros [= <-]; index_frame.
  - intros [= <-]. index_frame.
  - unfold lock. destruct (mutex_ _); intros [= <-]. index_frame.
  - intros [= <-]. index_frame.
Qed.

(** Where each side holds the mutex, where its waiting flag is up, and where it is
    bound to wake the other side. *)
Definition p_holds (a : ProducerAt T) : bool :=
  match a with
  | P_try push_locked _ | P_load_tail push_locked _ | P_emplace push_locked _
  | P_store_head push_locked _ | P_unlock | P_set_waiting _ | P_check_closed _ | P_check_space _
  | P_sleep _ | P_clear_waiting _ | P_reread_closed _ => true
  | _ => false
  end.
Definition c_holds (a : ConsumerAt T) : bool :=
  match a with
  | C_try (pop_locked _) | C_load_head (pop_locked _) | C_take (pop_locked _)
  | C_store_tail (pop_locked _) _ | C_unlock _ | C_read_closed | C_set_waiting | C_check_closed
  | C_check_item | C_sleep | C_clear_waiting => true
  | _ => false
  end.

Definition p_waits (a : ProducerAt T) : bool :=
  match a with
  | P_check_closed _ | P_check_space _ | P_sleep _ | P_asleep _ | P_relock _ | P_clear_waiting _ =>
      true
  | _ => false
  end.
Definition c_waits (a : ConsumerAt T) : bool :=
  match a with
  | C_check_closed | C_check_item | C_sleep | C_asleep | C_relock | C_clear_waiting => true
  | _ => false
  end.

Definition p_looks (a : ProducerAt T) : bool :=
  match a with P_read_waiting | P_pass_lock => true | _ => false end.
Definition c_looks (a : ConsumerAt T) : bool :=
  match a with C_read_waiting _ | C_pass_lock _ => true | _ => false end.
Definition p_tells (a : ProducerAt T) : bool :=
  match a with P_unlock | P_notify => true | _ => p_looks a end.
Definition c_tells (a : ConsumerAt T) : bool :=
  match a with C_unlock _ | C_notify _ => true | _ => c_looks a end.

Definition full (r : Ring T) : Prop := Z.of_nat (heads r) - Z.of_nat (tails r) >= capacity_ c.

(** The handshake. A consumer that has found the ring empty goes to sleep, and while
    it sleeps either the ring is empty and open or someone is bound to notify it. *)
Record control_ok (r : Ring T) : Prop := mkControlOk {
  ct_mutex : mutex_ (shared r) =
    if p_holds (p_at (prod r)) then Some producer
    else if c_holds (c_at (cons_ r)) then Some consumer else None;
  ct_exclusive : p_holds (p_at (prod r)) = true -> c_holds (c_at (cons_ r)) = false;
  ct_p_waits : producer_waiting_ (shared r) = p_waits (p_at (prod r));
  ct_c_waits : consumer_waiting_ (shared r) = c_waits (c_at (cons_ r));
  ct_c_item :
    match c_at (cons_ r) with
    | C_sleep => heads r <> tails r -> p_looks (p_at (prod r)) = true
    | C_asleep => heads r <> tails r -> p_tells (p_at (prod r)) = true
    | _ => True
    end;
  ct_p_space :
    match p_at (prod r) with
    | P_sleep _ => ~ full r -> c_looks (c_at (cons_ r)) = true
    | P_asleep _ => ~ full r -> c_tells (c_at (cons_ r)) = true
    | _ => True
    end;
  ct_c_close :
    match c_at (cons_ r) with
    | C_check_item | C_sleep => closed_ (shared r) = true -> (0 < before_lock (closers r))%nat
    | C_asleep => closed_ (shared r) = true ->
        (0 < before_lock (closers r) + before_notify_empty (closers r))%nat
    | _ => True
    end;
  ct_p_close :
    match p_at (prod r) with
    | P_check_space _ | P_sleep _ =>
        closed_ (shared r) = true -> (0 < before_lock (closers r))%nat
    | P_asleep _ => closed_ (shared r) = true ->
        (0 < before_lock (closers r) + before_notify_empty (closers r) +
             before_notify_full (closers r))%nat
    | _ => True
    end
}.

(** The clauses after a step from those before it. *)
Ltac control_close :=
  simpl in *;
  repeat match goal with
  | H : true = true -> _ = _ |- _ => specialize (H eq_refl); rewrite ?H in *
  end; try done; try congruence;
  try (let H := fresh in intros H;
       repeat match goal with H' : _ -> (_ < _)%nat |- _ => specialize (H' H) end; lia);
  try lia.

Ltac control_frame :=
  match goal with H : control_ok _ |- _ => destruct H end;
  split; unfold full, heads, tails in *; ring_simpl;
  repeat match goal with
  | H : p_at (prod ?r) = _ |- _ => rewrite H in *; clear H
  | H : c_at (cons_ ?r) = _ |- _ => rewrite H in *; clear H
  end; control_close.

Lemma mutex_free r :
  control_ok r -> mutex_ (shared r) = None ->
  p_holds (p_at (prod r)) = false /\ c_holds (c_at (cons_ r)) = false.
Proof. intros [] Hm. rewrite Hm in *. by repeat case_match. Qed.

Lemma producer_control n r r' :
  index_ok r -> control_ok r -> producer_step n r = Some r' -> control_ok r'.
Proof.
  intros Hi Hct. unfold producer_step. destruct (p_at (prod r)) eqn:Hp; try done.
  - destruct (closed_ _); intros [= <-]; control_frame.
  - destruct (_ <? _)%nat; [destruct (closed_ _)|]; intros [= <-]; control_frame.
  - destruct (looks_full r); intros [= <-]; destruct k; control_frame.
  - destruct (_ && _); [|done]. destruct (looks_full _); intros [= <-].
    + destruct k; simpl; [destruct (policy_ c)|..]; control_frame.
    + destruct k; control_frame.
  - intros [= <-]. destruct k; control_frame.
  - intros [= <-]. destruct k; control_frame; destruct (c_at (cons_ r)); control_close.
  - intros [= <-]. control_frame; destruct (c_at (cons_ r)); control_close.
  - destruct (consumer_waiting_ _) eqn:Hw; intros [= <-];
      control_frame; destruct (c_at (cons_ r)); control_close.
  - unfold pass_lock. destruct (mutex_ _) eqn:Hm; intros [= <-].
    control_frame; destruct (c_at (cons_ r)); control_close.
  - intros [= <-]. unfold notify_not_empty. destruct (c_at (cons_ r)) eqn:Hk; control_frame.
  - unfold lock. destruct (mutex_ _) eqn:Hm; intros [= <-].
    destruct (mutex_free r Hct Hm) as [_ Hch]. control_frame.
  - intros [= <-]. control_frame.
  - destruct (closed_ _) eqn:Hcl; intros [= <-]; control_frame.
  - rewrite has_space_eq by done.
    destruct (Z.ltb_spec (Z.of_nat (heads r) - Z.of_nat (tails r)) (capacity_ c));
      intros [= <-]; control_frame.
  - intros [= <-]. control_frame; destruct (c_at (cons_ r)); control_close.
  - unfold lock. destruct (mutex_ _) eqn:Hm; intros [= <-].
    destruct (mutex_free r Hct Hm) as [_ Hch]. control_frame.
  - intros [= <-]. control_frame.
  - destruct (closed_ _) eqn:Hcl; intros [= <-]; control_frame.
Qed.

Lemma consumer_control n r r' :
  index_ok r -> control_ok r -> consumer_step n r = Some r' -> control_ok r'.
Proof.
  intros Hi Hct. pose proof (heads_tails r Hi) as Hht.
  assert (Hex : c_holds (c_at (cons_ r)) = true -> p_holds (p_at (prod r)) = false).
  { destruct Hct as [_ Hex _ _ _ _ _ _]. destruct (p_holds _); [|done].
    by rewrite (Hex eq_refl). }
  unfold consumer_step. destruct (c_at (cons_ r)) eqn:Hk; try done.
  - destruct (_ <? _)%nat; intros [= <-]; control_frame.
  - destruct (looks_empty r); intros [= <-]; destruct k; control_frame.
  - destruct (_ && _); [|done]. destruct (looks_empty _); intros [= <-].
    + destruct k as [|[|]]; simpl; control_frame.
    + destruct k; control_frame.
  - destruct (slots_ _ !! _); [|done]. intros [= <-]. destruct k; control_frame.
  - intros [= <-]. destruct k; control_frame; destruct (p_at (prod r)); control_close.
  - intros [= <-]. control_frame; destruct (p_at (prod r)); control_close.
  - destruct (producer_waiting_ _) eqn:Hw; intros [= <-];
      control_frame; destruct (p_at (prod r)); control_close.
  - unfold pass_lock. destruct (mutex_ _) eqn:Hm; intros [= <-].
    control_frame; destruct (p_at (prod r)); control_close.
  - intros [= <-]. unfold notify_not_full. destruct (p_at (prod r)) eqn:Hp; control_frame.
  - unfold lock. destruct (mutex_ _) eqn:Hm; intros [= <-].
    destruct (mutex_free r Hct Hm) as [Hph _]. control_frame; by rewrite Hph.
  - destruct (closed_ _ && _); intros [= <-]; control_frame.
  - intros [= <-]. control_frame.
  - destruct (closed_ _) eqn:Hcl; intros [= <-]; control_frame.
  - rewrite has_item_eq by done. destruct (Nat.eqb_spec (heads r) (tails r)); intros [= <-];
      control_frame.
  - intros [= <-]. control_frame; destruct (p_at (prod r)); control_close.
  - unfold lock. destruct (mutex_ _) eqn:Hm; intros [= <-].
    destruct (mutex_free r Hct Hm) as [Hph _]. control_frame; by rewrite Hph.
  - intros [= <-]. control_frame.
Qed.

(** What the calls returned, and what a close promises. *)
Definition accepted (l : list bool) : nat := length (filter (fun b => b = true) l).

Definition carried (a : ConsumerAt T) : list T :=
  match a with
  | C_unlock x | C_read_waiting x | C_pass_lock x | C_notify x => [x]
  | _ => []
  end.

Definition p_outside (a : ProducerAt T) : bool :=
  match a with P_idle | P_read_closed _ => true | _ => false end.

Record history_ok (r : Ring T) : Prop := mkHistoryOk {
  hs_push : (accepted (push_results (prod r)) +
             (if p_tells (p_at (prod r)) then 1 else 0) = heads r)%nat;
  hs_pop : omap id (pop_results (cons_ r)) ++ carried (c_at (cons_ r)) = popped (cons_ r);
  hs_closed_at : closed_at_ok r;
  hs_ordered : closed_ (shared r) = true -> close_ordered (closers r) = true ->
    heads r = closed_at (closers r) /\ p_outside (p_at (prod r)) = true;
  hs_was_closed :
    match c_at (cons_ r) with
    | C_try (pop_locked true) | C_load_head (pop_locked true) =>
        closed_ (shared r) = true /\
        (close_ordered (closers r) = true -> (closed_at (closers r) <= head_floor (cons_ r))%nat)
    | _ => True
    end;
  hs_none : None ∈ pop_results (cons_ r) ->
    closed_ (shared r) = true /\ (close_ordered (closers r) = true -> tails r = heads r)
}.

Lemma accepted_app l b : accepted (l ++ [b]) = (accepted l + if b then 1 else 0)%nat.
Proof. unfold accepted. rewrite filter_app, length_app. by destruct b. Qed.

Lemma none_app_some (l : list (option T)) x : None ∈ l ++ [Some x] <-> None ∈ l.
Proof. rewrite elem_of_app, list_elem_of_singleton. naive_solver. Qed.

Ltac history_frame :=
  match goal with H : history_ok _ |- _ => destruct H end;
  split; unfold closed_at_ok, heads, tails in *; ring_simpl;
  repeat match goal with
  | H : p_at (prod ?r) = _ |- _ => rewrite H in *; clear H
  | H : c_at (cons_ ?r) = _ |- _ => rewrite H in *; clear H
  end; simpl in *; rewrite ?accepted_app, ?length_app, ?omap_app, ?app_nil_r, ?none_app_some in *; simpl in *;
  try done; try lia;
  try (let H1 := fresh in let H2 := fresh in intros H1 H2;
       match goal with H : _ = true -> _ = true -> _ /\ _ |- _ => destruct (H H1 H2) end; done);
  try congruence.

Lemma producer_history n r r' :
  history_ok r -> producer_step n r = Some r' -> history_ok r'.
Proof.
  intros Hh. unfold producer_step. destruct (p_at (prod r)) eqn:Hp; try done.
  - destruct (closed_ _) eqn:Ec; intros [= <-]; history_frame.
  - destruct (_ <? _)%nat; [destruct (closed_ _) eqn:Ec|]; intros [= <-]; history_frame.
  - destruct (looks_full r); intros [= <-]; history_frame.
  - destruct (_ && _); [|done]. destruct (looks_full _); intros [= <-]; [|history_frame].
    destruct k; simpl; [destruct (policy_ c)|..]; history_frame.
  - intros [= <-]. history_frame.
  - intros [= <-]. assert (Hk : p_tells match k with push_locked => P_unlock | _ => P_read_waiting end
      = true) by by destruct k.
    destruct Hh. rewrite Hp in *. split; unfold closed_at_ok, heads, tails in *; ring_simpl; try done.
    + rewrite Hk, length_app. simpl in *. lia.
    + intros Hcl. specialize (hs_closed_at0 Hcl). rewrite length_app. lia.
    + intros Hcl Ho. by destruct (hs_ordered0 Hcl Ho).
    + intros Hn. destruct (hs_none0 Hn) as [Hcl _]. split; [done|]. intros Ho.
      by destruct (hs_ordered0 Hcl Ho).
  - intros [= <-]. history_frame.
  - destruct (consumer_waiting_ _); intros [= <-]; history_frame.
  - unfold pass_lock. destruct (mutex_ _); intros [= <-]; history_frame.
  - intros [= <-]. unfold notify_not_empty. destruct (c_at (cons_ r)) eqn:Hk; history_frame.
  - unfold lock. destruct (mutex_ _); intros [= <-]; history_frame.
  - intros [= <-]. history_frame.
  - destruct (closed_ _) eqn:Ec; intros [= <-]; history_frame.
  - destruct (has_space r); intros [= <-]; history_frame.
  - intros [= <-]. history_frame.
  - unfold lock. destruct (mutex_ _); intros [= <-]; history_frame.
  - intros [= <-]. history_frame.
  - destruct (closed_ _) eqn:Ec; intros [= <-]; history_frame.
Qed.

Lemma consumer_history n r r' :
  index_ok r -> history_ok r -> consumer_step n r = Some r' -> history_ok r'.
Proof.
  intros Hi Hh. unfold consumer_step. destruct (c_at (cons_ r)) eqn:Hk; try done.
  - destruct (_ <? _)%nat; intros [= <-]; history_frame.
  - destruct (looks_empty r); intros [= <-]; history_frame.
  - destruct (Nat.leb_spec (head_floor (cons_ r)) n); [|done].
    destruct (Nat.leb_spec n (length (pushed (prod r)))); [|done]. simpl.
    assert (Hi' : index_ok (c_cache n r)) by index_frame.
    destruct (looks_empty (c_cache n r)) eqn:He; intros [= <-]; [|history_frame].
    rewrite looks_empty_eq in He by done. apply Nat.eqb_eq in He. ring_simpl.
    destruct k as [|[|]]; simpl; history_frame.
    intros _. destruct hs_was_closed0 as [Hcl Hf]. split; [done|]. intros Ho.
    destruct (hs_ordered0 Hcl Ho) as [Ha _]. specialize (Hf Ho). lia.
  - destruct (slots_ _ !! _); [|done]. intros [= <-]. history_frame.
  - intros [= <-]. pose proof (ix_consumer r Hi) as Hlt. pose proof (ix_head_seen r Hi) as Hle.
    rewrite Hk in Hlt. unfold heads, tails in *. destruct k; history_frame.
    all: intros Hn; destruct (hs_none0 Hn) as [Hcl Ho]; split; [done|]; intros Hor;
      specialize (Ho Hor); lia.
  - intros [= <-]. history_frame.
  - destruct (producer_waiting_ _); intros [= <-]; history_frame.
  - unfold pass_lock. destruct (mutex_ _); intros [= <-]; history_frame.
  - intros [= <-]. unfold notify_not_full. destruct (p_at (prod r)) eqn:Hp; history_frame.
  - unfold lock. destruct (mutex_ _); intros [= <-]; history_frame.
  - destruct (closed_ _) eqn:Ec; [|intros [= <-]; history_frame].
    destruct (close_ordered _) eqn:Eo; intros [= <-]; history_frame.
    all: split; [done|]; (congruence || lia).
  - intros [= <-]. history_frame.
  - destruct (closed_ _) eqn:Ec; intros [= <-]; history_frame.
  - destruct (has_item r); intros [= <-]; history_frame.
  - intros [= <-]. history_frame.
  - unfold lock. destruct (mutex_ _); intros [= <-]; history_frame.
  - intros [= <-]. history_frame.
Qed.

(** ** Every run keeps the invariant *)

Record ring_ok (r : Ring T) : Prop := mkRingOk {
  rg_index : index_ok r;
  rg_control : control_ok r;
  rg_history : history_ok r
}.

Lemma new_ring_ok : ring_ok new_ring.
Proof.
  split.
  - pose proof capacity_small. split; unfold heads, tails, filled, taken; simpl; try done; try lia.
    by exists [].
  - by split.
  - split; simpl; try done. by intros Hn%elem_of_nil.
Qed.

Lemma notify_empty_ok r :
  index_ok r -> history_ok r -> index_ok (notify_not_empty r) /\ history_ok (notify_not_empty r).
Proof.
  intros Hi Hh. split; [by apply notify_empty_index|].
  unfold notify_not_empty. destruct (c_at (cons_ r)) eqn:Hk; try done. history_frame.
Qed.

Lemma notify_full_ok r :
  index_ok r -> history_ok r -> index_ok (notify_not_full r) /\ history_ok (notify_not_full r).
Proof.
  intros Hi Hh. split; [by apply notify_full_index|].
  unfold notify_not_full. destruct (p_at (prod r)) eqn:Hp; try done. history_frame.
Qed.

Lemma close_store_ok b r r' : ring_ok r -> close_store b r = Some r' -> ring_ok r'.
Proof.
  intros [Hi Hct Hh] Hs.
  assert (Ho : b = true -> p_outside (p_at (prod r)) = true).
  { intros ->. unfold close_store in Hs. by destruct (p_at (prod r)). }
  assert (Hs' : r' = on_closers
       (fun k => mkClosers (S (before_lock k)) (before_notify_empty k) (before_notify_full k)
                   (if closed_ (shared r) then close_ordered k else b)
                   (if closed_ (shared r) then closed_at k else length (pushed (prod r))))
       (on_shared (set_closed true) r)).
  { unfold close_store in Hs. by destruct b, (p_at (prod r)); simplify_eq. }
  subst r'. clear Hs. split.
  - index_frame.
  - control_frame.
    + destruct (c_at (cons_ r)); control_close.
    + destruct (p_at (prod r)); control_close.
  - destruct Hh. split; unfold closed_at_ok, heads, tails in *; ring_simpl; try done.
    + intros _. destruct (closed_ (shared r)); [auto|lia].
    + intros _. destruct (closed_ (shared r)) eqn:Ec; [auto|]. intros ->. auto.
    + destruct (closed_ (shared r)); [done|].
      destruct (c_at (cons_ r)) as [| |[|[|]]|[|[|]]| | | | | | | | | | | | | | |]; try done;
        by destruct hs_was_closed0.
    + intros Hn. destruct (hs_none0 Hn) as [Hcl Hf]. by rewrite Hcl.
Qed.

Lemma ring_step_ok l r r' : ring_ok r -> ring_step l r = Some r' -> ring_ok r'.
Proof.
  intros Hok. pose proof Hok as [Hi Hct Hh]. destruct l as [x| |n|n|b| | | | |]; simpl.
  - destruct (p_at (prod r)) eqn:Hp; intros [= <-]. split; [index_frame|control_frame|history_frame].
  - destruct (c_at (cons_ r)) eqn:Hk; intros [= <-]. split; [index_frame|control_frame|history_frame].
  - intros Hs. split; [by eapply producer_index|by eapply producer_control|by eapply producer_history].
  - intros Hs. split; [|by eapply consumer_control|by eapply consumer_history].
    eapply consumer_index; [done|apply Hh|done].
  - by apply close_store_ok.
  - unfold close_lock. destruct (before_lock (closers r)) as [|m] eqn:Eb; [done|].
    unfold pass_lock. destruct (mutex_ _) eqn:Hm; intros [= <-].
    destruct (mutex_free r Hct Hm) as [Hph Hch].
    split; [index_frame| |history_frame]. control_frame.
    + destruct (c_at (cons_ r)); control_close.
    + destruct (p_at (prod r)); control_close.
  - unfold close_notify_empty. destruct (before_notify_empty (closers r)) as [|m] eqn:Eb; [done|].
    intros [= <-]. set (r1 := on_closers _ r).
    assert (Hi1 : index_ok r1) by (unfold r1; index_frame).
    assert (Hh1 : history_ok r1) by (unfold r1; history_frame).
    destruct (notify_empty_ok r1 Hi1 Hh1) as [Hi2 Hh2]. split; [done| |done].
    unfold notify_not_empty, r1. ring_simpl. destruct (c_at (cons_ r)) eqn:Hk; control_frame.
    all: destruct (p_at (prod r)); control_close.
  - unfold close_notify_full. destruct (before_notify_full (closers r)) as [|m] eqn:Eb; [done|].
    intros [= <-]. set (r1 := on_closers _ r).
    assert (Hi1 : index_ok r1) by (unfold r1; index_frame).
    assert (Hh1 : history_ok r1) by (unfold r1; history_frame).
    destruct (notify_full_ok r1 Hi1 Hh1) as [Hi2 Hh2]. split; [done| |done].
    unfold notify_not_full, r1. ring_simpl. destruct (p_at (prod r)) eqn:Hp; control_frame.
  - intros [= <-]. destruct (notify_empty_ok r Hi Hh) as [Hi2 Hh2]. split; [done| |done].
    unfold notify_not_empty. destruct (c_at (cons_ r)) eqn:Hk; control_frame.
  - intros [= <-]. destruct (notify_full_ok r Hi Hh) as [Hi2 Hh2]. split; [done| |done].
    unfold notify_not_full. destruct (p_at (prod r)) eqn:Hp; control_frame.
Qed.

Lemma ring_run_ok ls r r' : ring_ok r -> ring_run ls r = Some r' -> ring_ok r'.
Proof.
  revert r. induction ls as [|l ls IH]; simpl; intros r Hr He; [by simplify_eq|].
  apply bind_Some in He as (r1 & H1 & He). by eapply IH, He; eapply ring_step_ok.
Qed.

(** ** Nobody sleeps through a wake-up *)

Lemma ring_run_app ls1 ls2 r r1 :
  ring_run ls1 r = Some r1 -> ring_run (ls1 ++ ls2) r = ring_run ls2 r1.
Proof.
  revert r. induction ls1 as [|l ls IH]; simpl; intros r He; [by simplify_eq|].
  apply bind_Some in He as (r2 & H2 & He). rewrite H2. simpl. by apply IH.
Qed.

(** The steps of the threads inside [push], [pop] or [close], no new call and no
    spurious wake-up among them. *)
Definition by_producer (l : ring_label) : bool :=
  match l with
  | ring_producer _ | ring_close_lock | ring_close_notify_empty | ring_close_notify_full => true
  | _ => false
  end.
Definition by_consumer (l : ring_label) : bool :=
  match l with
  | ring_consumer _ | ring_close_lock | ring_close_notify_empty | ring_close_notify_full => true
  | _ => false
  end.

(** [r] can get to [P] by such steps alone. *)
Definition leads (by_ : ring_label -> bool) (r : Ring T) (P : Ring T -> Prop) : Prop :=
  exists ls r', Forall (fun l => by_ l = true) ls /\ ring_run ls r = Some r' /\ P r'.

Lemma leads_now by_ r (P : Ring T -> Prop) : P r -> leads by_ r P.
Proof. intros. by exists [], r. Qed.

Lemma leads_step (by_ : ring_label -> bool) l r r1 P :
  by_ l = true -> ring_step l r = Some r1 -> leads by_ r1 P -> leads by_ r P.
Proof.
  intros Hb Hs (ls & r' & Hf & Hr & HP). exists (l :: ls), r'.
  split_and!; [by constructor|simpl; by rewrite Hs|done].
Qed.

Lemma leads_trans (by_ : ring_label -> bool) r (P Q : Ring T -> Prop) :
  leads by_ r P -> (forall r1, P r1 -> leads by_ r1 Q) -> leads by_ r Q.
Proof.
  intros (ls & r1 & Hf & Hr & HP) Hq. destruct (Hq r1 HP) as (ls' & r' & Hf' & Hr' & HQ).
  exists (ls ++ ls'), r'. split_and!; [by apply Forall_app|by rewrite (ring_run_app _ _ _ r1)|done].
Qed.

(** Under the lock and with the queue closed, a thread reaches its unlock. *)
Definition p_rank (a : ProducerAt T) : nat :=
  match a with
  | P_try _ _ => 12 | P_load_tail _ _ => 11 | P_emplace _ _ => 10 | P_store_head _ _ => 9
  | P_set_waiting _ => 6 | P_check_closed _ => 5 | P_check_space _ => 4
  | P_clear_waiting _ => 2 | P_reread_closed _ | P_sleep _ | P_unlock => 1
  | _ => 0
  end.
Definition c_rank (a : ConsumerAt T) : nat :=
  match a with
  | C_try (pop_locked false) => 13 | C_load_head (pop_locked false) => 12
  | C_set_waiting => 11 | C_check_closed => 10 | C_check_item => 9 | C_clear_waiting => 7
  | C_read_closed => 6 | C_try _ => 5 | C_load_head _ => 4 | C_take _ => 3
  | C_store_tail _ _ => 2 | C_unlock _ | C_sleep => 1
  | _ => 0
  end.

Lemma producer_releases_step r :
  ring_ok r -> closed_ (shared r) = true -> p_holds (p_at (prod r)) = true ->
  exists n r1, ring_step (ring_producer n) r = Some r1 /\
    closed_ (shared r1) = true /\ cons_ r1 = cons_ r /\ closers r1 = closers r /\
    (p_rank (p_at (prod r1)) < p_rank (p_at (prod r)))%nat.
Proof.
  intros [Hi _ _] Hcl Hh. exists (length (popped (cons_ r))). simpl. unfold producer_step.
  destruct (p_at (prod r)) eqn:Hp; try done; rewrite ?Hcl.
  - eexists. split; [done|]. ring_simpl. destruct (looks_full r); simpl; by split_and!; [..|lia].
  - destruct k; try done. pose proof (ix_tail_seen r Hi). unfold tails in *.
    rewrite (proj2 (Nat.leb_le _ _)), (proj2 (Nat.leb_le _ _)) by lia. simpl.
    eexists. split; [done|]. destruct (looks_full _); ring_simpl; simpl; by split_and!; [..|lia].
  - eexists. split; [done|]. ring_simpl. simpl. by split_and!; [..|lia].
  - destruct k; try done. eexists. split; [done|]. ring_simpl. simpl. by split_and!; [..|lia].
  - eexists. split; [done|]. ring_simpl. simpl. by split_and!; [..|lia].
  - eexists. split; [done|]. ring_simpl. simpl. by split_and!; [..|lia].
  - eexists. split; [done|]. ring_simpl. simpl. by split_and!; [..|lia].
  - eexists. split; [done|]. ring_simpl. destruct (has_space r); simpl; by split_and!; [..|lia].
  - eexists. split; [done|]. ring_simpl. simpl. by split_and!; [..|lia].
  - eexists. split; [done|]. ring_simpl. simpl. by split_and!; [..|lia].
  - eexists. split; [done|]. ring_simpl. simpl. by split_and!; [..|lia].
Qed.

Lemma consumer_releases_step r :
  ring_ok r -> closed_ (shared r) = true -> c_holds (c_at (cons_ r)) = true ->
  exists n r1, ring_step (ring_consumer n) r = Some r1 /\
    closed_ (shared r1) = true /\ prod r1 = prod r /\ closers r1 = closers r /\
    (c_rank (c_at (cons_ r1)) < c_rank (c_at (cons_ r)))%nat.
Proof.
  intros [Hi _ _] Hcl Hh. exists (length (pushed (prod r))). simpl. unfold consumer_step.
  destruct (c_at (cons_ r)) eqn:Hk; try done; rewrite ?Hcl.
  - eexists. split; [done|]. ring_simpl.
    destruct (looks_empty r), k as [|[|]]; try done; simpl; by split_and!; [..|lia].
  - destruct k as [|[|]]; try done; pose proof (ix_head_seen r Hi); unfold heads in *;
      rewrite (proj2 (Nat.leb_le _ _)), (proj2 (Nat.leb_le _ _)) by lia; simpl;
      (eexists; split; [done|]; destruct (looks_empty _); ring_simpl; simpl;
       by split_and!; [..|lia]).
  - destruct (take_item r k Hi Hk) as (x & l & _ & ->).
    eexists. split; [done|]. ring_simpl. simpl. by split_and!; [..|lia].
  - destruct k; try done. eexists. split; [done|]. ring_simpl. simpl. by split_and!; [..|lia].
  - eexists. split; [done|]. ring_simpl. simpl. by split_and!; [..|lia].
  - eexists. split; [done|]. destruct (close_ordered _); ring_simpl; simpl; by split_and!; [..|lia].
  - eexists. split; [done|]. ring_simpl. simpl. by split_and!; [..|lia].
  - eexists. split; [done|]. ring_simpl. simpl. by split_and!; [..|lia].
  - eexists. split; [done|]. ring_simpl. destruct (has_item r); simpl; by split_and!; [..|lia].
  - eexists. split; [done|]. ring_simpl. simpl. by split_and!; [..|lia].
  - eexists. split; [done|]. ring_simpl. simpl. by split_and!; [..|lia].
Qed.

Lemma producer_releases r :
  ring_ok r -> closed_ (shared r) = true ->
  leads by_producer r (fun r1 => ring_ok r1 /\ closed_ (shared r1) = true /\
    cons_ r1 = cons_ r /\ closers r1 = closers r /\ p_holds (p_at (prod r1)) = false).
Proof.
  remember (p_rank (p_at (prod r))) as k eqn:Hk. revert r Hk.
  induction k as [k IH] using lt_wf_ind. intros r -> Hr Hcl.
  destruct (p_holds (p_at (prod r))) eqn:Hp; [|by apply leads_now].
  destruct (producer_releases_step r Hr Hcl Hp) as (n & r1 & Hs & Hcl1 & Hcs & Hcr & Hlt).
  eapply leads_step; [|exact Hs|]; [done|]. rewrite <- Hcs, <- Hcr.
  eapply IH; [exact Hlt|done|by eapply ring_step_ok|done].
Qed.

Lemma consumer_releases r :
  ring_ok r -> closed_ (shared r) = true ->
  leads by_consumer r (fun r1 => ring_ok r1 /\ closed_ (shared r1) = true /\
    prod r1 = prod r /\ closers r1 = closers r /\ c_holds (c_at (cons_ r1)) = false).
Proof.
  remember (c_rank (c_at (cons_ r))) as k eqn:Hk. revert r Hk.
  induction k as [k IH] using lt_wf_ind. intros r -> Hr Hcl.
  destruct (c_holds (c_at (cons_ r))) eqn:Hp; [|by apply leads_now].
  destruct (consumer_releases_step r Hr Hcl Hp) as (n & r1 & Hs & Hcl1 & Hcs & Hcr & Hlt).
  eapply leads_step; [|exact Hs|]; [done|]. rewrite <- Hcs, <- Hcr.
  eapply IH; [exact Hlt|done|by eapply ring_step_ok|done].
Qed.

Abbreviation consumer_woken := (fun r1 => c_at (cons_ r1) = C_relock).
Abbreviation producer_woken := (fun r1 => exists x, p_at (prod r1) = P_relock x).

Lemma close_wakes_consumer r :
  ring_ok r -> c_at (cons_ r) = C_asleep -> closed_ (shared r) = true ->
  leads by_producer r consumer_woken.
Proof.
  intros Hr Hk Hcl.
  assert (Hnotify : forall r, c_at (cons_ r) = C_asleep -> (0 < before_notify_empty (closers r))%nat ->
    leads by_producer r consumer_woken).
  { clear. intros r Hk Hn. destruct (before_notify_empty (closers r)) as [|n] eqn:E; [lia|].
    eapply (leads_step _ ring_close_notify_empty); [done|simpl; unfold close_notify_empty; by rewrite E|].
    apply leads_now. unfold notify_not_empty. ring_simpl. by rewrite Hk. }
  pose proof (ct_c_close r (rg_control r Hr)) as Hb. rewrite Hk in Hb. specialize (Hb Hcl).
  destruct (decide (0 < before_notify_empty (closers r))%nat); [by apply Hnotify|].
  eapply leads_trans; [by apply producer_releases|].
  intros r1 (Hr1 & Hcl1 & Hcs & Hcr & Hp).
  destruct (before_lock (closers r1)) as [|b] eqn:Eb; [rewrite Hcr in Eb; lia|].
  eapply (leads_step _ ring_close_lock); [done| |].
  { simpl. unfold close_lock, pass_lock.
    by rewrite Eb, (ct_mutex r1 (rg_control r1 Hr1)), Hp, Hcs, Hk. }
  apply Hnotify; ring_simpl; [by rewrite Hcs|lia].
Qed.

Lemma close_wakes_producer r x :
  ring_ok r -> p_at (prod r) = P_asleep x -> closed_ (shared r) = true ->
  leads by_consumer r producer_woken.
Proof.
  intros Hr Hp Hcl.
  assert (Hnf : forall r, p_at (prod r) = P_asleep x -> (0 < before_notify_full (closers r))%nat ->
    leads by_consumer r producer_woken).
  { clear. intros r Hp Hn. destruct (before_notify_full (closers r)) as [|n] eqn:E; [lia|].
    eapply (leads_step _ ring_close_notify_full); [done|simpl; unfold close_notify_full; by rewrite E|].
    apply leads_now. exists x. unfold notify_not_full. ring_simpl. by rewrite Hp. }
  assert (Hne : forall r, p_at (prod r) = P_asleep x -> (0 < before_notify_empty (closers r))%nat ->
    leads by_consumer r producer_woken).
  { intros r0 Hp0 Hn. destruct (before_notify_empty (closers r0)) as [|n] eqn:E; [lia|].
    eapply (leads_step _ ring_close_notify_empty); [done|simpl; unfold close_notify_empty; by rewrite E|].
    apply Hnf; unfold notify_not_empty; ring_simpl; destruct (c_at (cons_ r0)); simpl; (done || lia). }
  pose proof (ct_p_close r (rg_control r Hr)) as Hb. rewrite Hp in Hb. specialize (Hb Hcl).
  destruct (decide (0 < before_notify_full (closers r))%nat); [by apply Hnf|].
  destruct (decide (0 < before_notify_empty (closers r))%nat); [by apply Hne|].
  eapply leads_trans; [by apply consumer_releases|].
  intros r1 (Hr1 & Hcl1 & Hps & Hcr & Hk).
  destruct (before_lock (closers r1)) as [|b] eqn:Eb; [rewrite Hcr in Eb; lia|].
  eapply (leads_step _ ring_close_lock); [done| |].
  { simpl. unfold close_lock, pass_lock.
    by rewrite Eb, (ct_mutex r1 (rg_control r1 Hr1)), Hk, Hps, Hp. }
  apply Hne; ring_simpl; [by rewrite Hps|lia].
Qed.

Lemma push_wakes_consumer r :
  ring_ok r -> c_at (cons_ r) = C_asleep -> p_tells (p_at (prod r)) = true ->
  leads by_producer r consumer_woken.
Proof.
  assert (H1 : forall r, c_at (cons_ r) = C_asleep -> p_at (prod r) = P_notify ->
    leads by_producer r consumer_woken).
  { clear. intros r Hk Hp. eapply (leads_step _ (ring_producer 0)); [done|simpl; unfold producer_step; by rewrite Hp|].
    apply leads_now. unfold notify_not_empty. by rewrite Hk. }
  assert (H2 : forall r, ring_ok r -> c_at (cons_ r) = C_asleep -> p_at (prod r) = P_pass_lock ->
    leads by_producer r consumer_woken).
  { intros r0 Hr Hk Hp. eapply (leads_step _ (ring_producer 0)); [done| |].
    - simpl. unfold producer_step, pass_lock.
      by rewrite Hp, (ct_mutex r0 (rg_control r0 Hr)), Hp, Hk.
    - by apply H1. }
  assert (H3 : forall r, ring_ok r -> c_at (cons_ r) = C_asleep -> p_at (prod r) = P_read_waiting ->
    leads by_producer r consumer_woken).
  { intros r0 Hr Hk Hp.
    assert (Hs : ring_step (ring_producer 0) r0 = Some (p_goto P_pass_lock r0)).
    { simpl. unfold producer_step. by rewrite Hp, (ct_c_waits r0 (rg_control r0 Hr)), Hk. }
    eapply (leads_step _ (ring_producer 0)); [done|exact Hs|].
    apply H2; [by eapply ring_step_ok|done|done]. }
  intros Hr Hk Hp. destruct (p_at (prod r)) eqn:Hpa; try done; [|by apply H3|by apply H2|by apply H1].
  assert (Hs : ring_step (ring_producer 0) r = Some (p_goto P_read_waiting (unlock r))).
  { simpl. unfold producer_step. by rewrite Hpa. }
  eapply (leads_step _ (ring_producer 0)); [done|exact Hs|].
  apply H3; [by eapply ring_step_ok|done|done].
Qed.

Lemma pop_wakes_producer r x :
  ring_ok r -> p_at (prod r) = P_asleep x -> c_tells (c_at (cons_ r)) = true ->
  leads by_consumer r producer_woken.
Proof.
  assert (H1 : forall r y, p_at (prod r) = P_asleep x -> c_at (cons_ r) = C_notify y ->
    leads by_consumer r producer_woken).
  { clear. intros r y Hp Hk. eapply (leads_step _ (ring_consumer 0)); [done|simpl; unfold consumer_step; by rewrite Hk|].
    apply leads_now. exists x. unfold notify_not_full. by rewrite Hp. }
  assert (H2 : forall r y, ring_ok r -> p_at (prod r) = P_asleep x -> c_at (cons_ r) = C_pass_lock y ->
    leads by_consumer r producer_woken).
  { intros r0 y Hr Hp Hk. eapply (leads_step _ (ring_consumer 0)); [done| |].
    - simpl. unfold consumer_step, pass_lock.
      by rewrite Hk, (ct_mutex r0 (rg_control r0 Hr)), Hp, Hk.
    - by apply (H1 _ y). }
  assert (H3 : forall r y, ring_ok r -> p_at (prod r) = P_asleep x -> c_at (cons_ r) = C_read_waiting y ->
    leads by_consumer r producer_woken).
  { intros r0 y Hr Hp Hk.
    assert (Hs : ring_step (ring_consumer 0) r0 = Some (c_goto (C_pass_lock y) r0)).
    { simpl. unfold consumer_step. by rewrite Hk, (ct_p_waits r0 (rg_control r0 Hr)), Hp. }
    eapply (leads_step _ (ring_consumer 0)); [done|exact Hs|].
    apply (H2 _ y); [by eapply ring_step_ok|done|done]. }
  intros Hr Hp Hk. destruct (c_at (cons_ r)) eqn:Hka; try done;
    [|by eapply H3|by eapply H2|by eapply H1].
  assert (Hs : ring_step (ring_consumer 0) r = Some (c_goto (C_read_waiting x0) (unlock r))).
  { simpl. unfold consumer_step. by rewrite Hka. }
  eapply (leads_step _ (ring_consumer 0)); [done|exact Hs|].
  eapply H3; [by eapply ring_step_ok|done|done].
Qed.

(** ** It is a bounded first-in first-out buffer *)

Definition contents (r : Ring T) : list T := drop (tails r) (pushed (prod r)).

Lemma pushed_popped r :
  index_ok r -> pushed (prod r) = popped (cons_ r) ++ contents r /\
  Z.of_nat (length (contents r)) <= capacity_ c.
Proof.
  intros Hi. pose proof (heads_tails r Hi) as [Hle Hcap]. unfold contents. split.
  - destruct (ix_prefix r Hi) as [l Hl]. unfold filled, taken in Hl.
    apply (f_equal (take (tails r))) in Hl. unfold heads, tails in *.
    rewrite <- app_assoc, take_app_length, take_app_le in Hl by lia.
    rewrite <- Hl at 1. by rewrite take_drop.
  - rewrite length_drop. unfold heads, tails in *. lia.
Qed.

Lemma ring_step_moves l r r' :
  ring_step l r = Some r' ->
  (pushed (prod r') = pushed (prod r) /\ popped (cons_ r') = popped (cons_ r)) \/
  (exists k x, p_at (prod r) = P_store_head k x /\ pushed (prod r') = pushed (prod r) ++ [x] /\
     popped (cons_ r') = popped (cons_ r)) \/
  (exists k x, c_at (cons_ r) = C_store_tail k x /\ pushed (prod r') = pushed (prod r) /\
     popped (cons_ r') = popped (cons_ r) ++ [x]).
Proof.
  intros Hs. destruct l; simpl in Hs;
    unfold producer_step, consumer_step, close_store, close_lock, close_notify_empty,
      close_notify_full, pass_lock, lock, push_failed, pop_failed, notify_not_empty,
      notify_not_full in Hs.
  3: destruct (p_at (prod r)) eqn:Hp; try done.
  22: destruct (c_at (cons_ r)) eqn:Hk; try done.
  all: repeat (case_match; simplify_eq); ring_simpl; simplify_eq/=; try by left.
  all: right; (left; by do 2 eexists) || (right; by do 2 eexists).
Qed.

Lemma ring_step_fifo l r r' :
  ring_ok r -> ring_step l r = Some r' ->
  exists e, fifo_step (Z.to_nat (capacity_ c)) (contents r) e (contents r').
Proof.
  intros Hr Hs. pose proof (ring_step_ok l r r' Hr Hs) as Hr'.
  destruct (pushed_popped r (rg_index r Hr)) as [Hpp _].
  destruct (pushed_popped r' (rg_index r' Hr')) as [Hpp' _].
  destruct (ring_step_moves l r r' Hs) as [[E1 E2]|[(k & x & Hp & E1 & E2)|(k & x & Hk & E1 & E2)]].
  - exists fifo_silent. unfold contents, tails. rewrite E1, E2. constructor.
  - exists (fifo_push x). destruct (rg_index r Hr). rewrite Hp in ix_producer0.
    rewrite E1, E2, Hpp, <- app_assoc in Hpp'. apply app_inv_head in Hpp'. rewrite <- Hpp'.
    constructor. unfold contents. rewrite length_drop. unfold heads, tails in *. lia.
  - exists (fifo_pop x). rewrite E1, E2, Hpp, <- app_assoc in Hpp'.
    apply app_inv_head in Hpp'. rewrite Hpp'. constructor.
Qed.
End ring.

Arguments ring_label : clear implicits.

(** ** The capacity of the ring *)

Lemma round_up_loop_spec fuel n j :
  0 <= j -> (Z.to_nat (64 - j) < fuel)%nat -> n <= 2 ^ 63 -> (j = 0 \/ 2 ^ (j - 1) < n) ->
  exists k, j <= k <= 63 /\ round_up_loop fuel n (2 ^ j) = Some (2 ^ k) /\ n <= 2 ^ k /\
    (k = 0 \/ 2 ^ (k - 1) < n).
Proof.
  revert j. induction fuel as [|fuel IH]; intros j Hj Hf Hn Hlow; [lia|].
  assert (Hj63 : j <= 63).
  { destruct Hlow as [->|Hlow]; [lia|]. apply Z.nlt_ge. intros Hlt.
    pose proof (Z.pow_le_mono_r 2 63 (j - 1) ltac:(lia) ltac:(lia)). lia. }
  simpl. destruct (Z.ltb_spec (2 ^ j) n) as [Hlt|Hge].
  - assert (j < 63) by (destruct (Z.eq_dec j 63) as [->|]; lia).
    rewrite Z.shiftl_mul_pow2 by lia. replace (2 ^ j * 2 ^ 1) with (2 ^ (j + 1))
      by (rewrite Z.pow_add_r by lia; lia).
    rewrite wrap_id.
    2: { unfold uint_ok. split; [lia|]. apply Z.pow_lt_mono_r; lia. }
    destruct (IH (j + 1)) as (k & Hk & He & Hle & Hl); [lia|lia|lia|right; by replace (j + 1 - 1) with j by lia|].
    exists k. split_and!; [lia|lia|done..].
  - exists j. split_and!; [lia|lia|done|done|done].
Qed.

Lemma ring_config_spec capacity policy :
  0 <= capacity <= 2 ^ 63 ->
  exists c k, ring_config capacity policy = Some c /\ capacity_ c = Z.max 1 capacity /\
    policy_ c = policy /\ mask_ c + 1 = 2 ^ k /\ 0 <= k <= 63 /\
    capacity_ c <= 2 ^ k /\ (k = 0 \/ 2 ^ (k - 1) < capacity_ c).
Proof.
  intros Hcap. unfold ring_config, round_up_to_power_of_two.
  destruct (round_up_loop_spec 65 (Z.max 1 capacity) 0) as (k & Hk & He & Hle & Hl);
    [lia|lia|lia|by left|].
  change (2 ^ 0) with 1 in He. rewrite He. do 2 eexists.
  split_and!; simpl; [done..| | | | |done]; cbn [capacity_ mask_]; lia.
Qed.

Lemma ring_config_ok capacity policy c :
  0 <= capacity <= 2 ^ 63 -> ring_config capacity policy = Some c -> config_ok c.
Proof.
  intros Hcap Hc. destruct (ring_config_spec capacity policy Hcap)
    as (c' & k & Hc' & Hca & _ & Hm & Hk & Hle & _).
  rewrite Hc in Hc'. injection Hc' as <-. split; [lia|]. by exists k.
Qed.

(** Above 2^63 the doubling wraps to 0 and the constructor's loop never ends. *)
Lemma ring_config_diverges fuel n : 2 ^ 63 < n -> round_up_loop fuel n 1 = None.
Proof.
  intros Hn. change 1 with (2 ^ 0).
  assert (H0 : forall fuel, round_up_loop fuel n 0 = None).
  { clear fuel. induction fuel as [|fuel IH]; simpl; [done|].
    by destruct (Z.ltb_spec 0 n); [|lia]. }
  assert (Hgen : forall j, 0 <= j <= 63 -> round_up_loop fuel n (2 ^ j) = None); [|by apply Hgen].
  induction fuel as [|fuel IH]; intros j Hj; simpl; [done|].
  pose proof (Z.pow_le_mono_r 2 j 63 ltac:(lia) ltac:(lia)).
  destruct (Z.ltb_spec (2 ^ j) n); [|lia].
  rewrite Z.shiftl_mul_pow2 by lia. replace (2 ^ j * 2 ^ 1) with (2 ^ (j + 1))
    by (rewrite Z.pow_add_r by lia; lia).
  destruct (Z.eq_dec j 63) as [->|]; [apply H0|].
  rewrite wrap_id; [apply IH; lia|]. unfold uint_ok. split; [lia|]. apply Z.pow_lt_mono_r; lia.
Qed.

Section ring_theorems.
Context {T : Type}.

Lemma ring_reachable_ok capacity policy c ls (r : Ring T) :
  0 <= capacity <= 2 ^ 63 -> ring_config capacity policy = Some c ->
  ring_run c ls new_ring = Some r -> config_ok c /\ ring_ok c r.
Proof.
  intros Hcap Hc Hr. pose proof (ring_config_ok capacity policy c Hcap Hc) as Hok.
  split; [done|]. eapply ring_run_ok; [done| |done]. by apply new_ring_ok.
Qed.

(** [C26] The lock-free ring is a bounded queue, in every interleaving of its two
    threads and of the threads that close it, with acquire loads as stale as the
    memory model lets them be: the items come out in the order in which they went in,
    never more than [capacity] are inside, [push] answered true once for every item
    that went in and [pop] returned exactly the items that came out; no item is ever
    written over another and no empty slot is ever read. *)
Theorem ring_fifo capacity policy c ls (r : Ring T) :
  0 <= capacity <= 2 ^ 63 -> ring_config capacity policy = Some c ->
  ring_run c ls new_ring = Some r ->
  (exists l, pushed (prod r) = popped (cons_ r) ++ l /\ Z.of_nat (length l) <= Z.max 1 capacity) /\
  (accepted (push_results (prod r)) + (if p_tells (p_at (prod r)) then 1 else 0) =
     length (pushed (prod r)))%nat /\
  omap id (pop_results (cons_ r)) ++ carried (c_at (cons_ r)) = popped (cons_ r) /\
  (forall k x, p_at (prod r) = P_emplace k x ->
     slots_ (shared r) !! Z.land (head_ (shared r)) (mask_ c) = None) /\
  (forall k, c_at (cons_ r) = C_take k -> exists x l,
     slots_ (shared r) !! Z.land (tail_ (shared r)) (mask_ c) = Some x /\
     pushed (prod r) = popped (cons_ r) ++ x :: l).
Proof.
  intros Hcap Hc Hr. destruct (ring_config_spec capacity policy Hcap) as (c' & _ & Hc' & Hm & _).
  rewrite Hc in Hc'. injection Hc' as <-.
  destruct (ring_reachable_ok capacity policy c ls r Hcap Hc Hr) as [Hok [Hi Hct Hh]].
  destruct (pushed_popped c r Hi) as [Hpp Hlen]. split_and!.
  - exists (contents r). by rewrite <- Hm.
  - apply Hh.
  - apply Hh.
  - intros k x Hp. by eapply slot_free.
  - intros k Hk. destruct (take_item c Hok r k Hi Hk) as (x & l & Hl & Hx).
    pose proof (ix_consumer c r Hi) as Hlt. rewrite Hk in Hlt.
    pose proof (ix_head_seen c r Hi). unfold heads, tails in *.
    destruct (contents r) as [|y l'] eqn:El.
    { rewrite app_nil_r in Hpp. rewrite Hpp in *. lia. }
    exists x, l'. split; [done|]. rewrite Hpp. do 2 f_equal.
    unfold filled in Hl. rewrite Hpp, <- app_assoc in Hl. apply app_inv_head in Hl. by injection Hl.
Qed.

(** [C27] No wake-up is lost. If the consumer sleeps although there is an item, or the
    queue is closed, then the threads already inside [push] and [close], by steps of
    their own and without any new call or spurious wake-up, come to wake it; likewise a
    sleeping producer, if there is room or the queue is closed. And the two never
    sleep at once. *)
Theorem ring_no_lost_wakeup capacity policy c ls (r : Ring T) :
  0 <= capacity <= 2 ^ 63 -> ring_config capacity policy = Some c ->
  ring_run c ls new_ring = Some r ->
  (c_at (cons_ r) = C_asleep ->
     pushed (prod r) <> popped (cons_ r) \/ closed_ (shared r) = true ->
     leads c by_producer r (fun r' => c_at (cons_ r') = C_relock)) /\
  (forall x, p_at (prod r) = P_asleep x ->
     Z.of_nat (length (pushed (prod r))) - Z.of_nat (length (popped (cons_ r))) < capacity_ c \/
     closed_ (shared r) = true ->
     leads c by_consumer r (fun r' => exists x, p_at (prod r') = P_relock x)) /\
  ~ (exists x, c_at (cons_ r) = C_asleep /\ p_at (prod r) = P_asleep x).
Proof.
  intros Hcap Hc Hr. destruct (ring_reachable_ok capacity policy c ls r Hcap Hc Hr) as [Hok Hrok].
  pose proof Hrok as [Hi Hct Hh]. destruct (pushed_popped c r Hi) as [Hpp Hlen].
  assert (Hne : pushed (prod r) <> popped (cons_ r) -> heads r <> tails r).
  { intros Hne He. apply Hne. unfold heads, tails in He. rewrite Hpp, length_app in He.
    destruct (contents r); [by rewrite Hpp, app_nil_r|simpl in He; lia]. }
  split_and!.
  - intros Hk [Hd|Hcl]; [|by apply close_wakes_consumer].
    apply push_wakes_consumer; try done. pose proof (ct_c_item c r Hct) as Hw. rewrite Hk in Hw.
    by apply Hw, Hne.
  - intros x Hp [Hd|Hcl]; [|by eapply close_wakes_producer].
    eapply pop_wakes_producer; try done. pose proof (ct_p_space c r Hct) as Hw. rewrite Hp in Hw.
    apply Hw. unfold full, heads, tails. lia.
  - intros (x & Hk & Hp). pose proof (ct_c_item c r Hct) as Hw1. pose proof (ct_p_space c r Hct) as Hw2.
    rewrite Hk, Hp in *. simpl in *. unfold full in *.
    destruct (decide (heads r = tails r)) as [He|He]; [|by specialize (Hw1 He)].
    assert (Hnf : ~ Z.of_nat (heads r) - Z.of_nat (tails r) >= capacity_ c).
    { rewrite He. destruct Hok as [Hk1 _]. lia. }
    by specialize (Hw2 Hnf).
Qed.

(** What [pop] promises when it returns nothing: the queue is closed; and if the
    close came, as the class asks, after the producer's last push, every item has been
    taken and none will come. *)
Theorem ring_close_drains capacity policy c ls (r : Ring T) :
  0 <= capacity <= 2 ^ 63 -> ring_config capacity policy = Some c ->
  ring_run c ls new_ring = Some r -> None ∈ pop_results (cons_ r) ->
  closed_ (shared r) = true /\
  (close_ordered (closers r) = true -> forall ls' r',
     ring_run c ls' r = Some r' -> pushed (prod r') = popped (cons_ r) /\
       popped (cons_ r') = popped (cons_ r)).
Proof.
  intros Hcap Hc Hr Hn. destruct (ring_reachable_ok capacity policy c ls r Hcap Hc Hr) as [Hok Hrok].
  destruct (hs_none r (rg_history c r Hrok) Hn) as [Hcl Ho]. split; [done|]. intros Hor.
  specialize (Ho Hor).
  assert (Heq : pushed (prod r) = popped (cons_ r)).
  { destruct (pushed_popped c r (rg_index c r Hrok)) as [Hpp _]. unfold heads, tails in Ho.
    destruct (contents r); [by rewrite Hpp, app_nil_r|].
    rewrite Hpp, length_app in Ho. simpl in Ho. lia. }
  clear Hr Hn Ho. intros ls'. revert r Hrok Hcl Hor Heq.
  induction ls' as [|l ls' IH]; simpl; intros r Hrok Hcl Hor Heq r' Hr'; [by simplify_eq|].
  apply bind_Some in Hr' as (r1 & H1 & Hr'). pose proof (ring_step_ok c Hok l r r1 Hrok H1) as Hrok1.
  destruct (hs_ordered r (rg_history c r Hrok) Hcl Hor) as [_ Hout].
  assert (Hkeep : closed_ (shared r1) = true /\ close_ordered (closers r1) = true).
  { clear -H1 Hcl Hor. destruct l; simpl in H1;
      unfold producer_step, consumer_step, close_store, close_lock, close_notify_empty,
        close_notify_full, pass_lock, lock, push_failed, pop_failed, notify_not_empty,
        notify_not_full in H1; repeat (case_match; simplify_eq); simpl in *; by rewrite ?Hcl. }
  destruct Hkeep as [Hcl1 Hor1].
  assert (Hsame : pushed (prod r1) = popped (cons_ r1) /\ popped (cons_ r1) = popped (cons_ r)).
  { destruct (ring_step_moves c l r r1 H1) as [[-> ->]|[(k & x & Hp & _)|(k & x & Hk & _)]]; [done| |].
    - by rewrite Hp in Hout.
    - pose proof (ix_consumer c r (rg_index c r Hrok)) as Hlt. rewrite Hk in Hlt.
      pose proof (ix_head_seen c r (rg_index c r Hrok)). unfold heads, tails in *.
      rewrite Heq in *. lia. }
  destruct Hsame as [Hs1 Hs2]. rewrite <- Hs2. by eapply IH.
Qed.

#[export] Instance ring_fifo_instance (c : RingConfig) (Hc : config_ok c) :
  Fifo (Ring T) (ring_label T) T.
Proof.
  refine {|
    fifo_new := new_ring;
    fifo_run := ring_step c;
    fifo_contents := contents;
    fifo_capacity := Z.to_nat (capacity_ c);
    fifo_invariant := ring_ok c
  |}.
  - done.
  - by apply new_ring_ok.
  - intros l q q' Hq Hs. split; [by eapply ring_step_ok|by eapply ring_step_fifo].
Defined.

End ring_theorems.

(** ** Concrete runs *)

Definition small : RingConfig := mkRingConfig 2 kBlock 1.

Lemma small_config : ring_config 2 kBlock = Some small.
Proof. reflexivity. Qed.

(** The producer's first push, up to its return, and the consumer's spin phase. *)
Definition push_run (x : Z) : list (ring_label Z) := ring_push x :: replicate 5 (ring_producer 0).
Definition spin_run : list (ring_label Z) :=
  concat (replicate 64 [ring_consumer 0; ring_consumer 0; ring_consumer 0]) ++ [ring_consumer 0].

(** The consumer finds the ring empty and goes to sleep. *)
Definition sleep_run : list (ring_label Z) :=
  ring_pop :: spin_run ++
    [ring_consumer 0; ring_consumer 0; ring_consumer 0; ring_consumer 0; ring_consumer 0;
     ring_consumer 0; ring_consumer 0; ring_consumer 0].

Definition ring_after (ls : list (ring_label Z)) : Ring Z := default new_ring (ring_run small ls new_ring).

Lemma after_sleep : c_at (cons_ (ring_after sleep_run)) = C_asleep.
Proof. vm_compute. reflexivity. Qed.

Lemma ring_fifo_witness :
  exists l, pushed (prod (ring_after (push_run 7 ++ push_run 8))) =
    popped (cons_ (ring_after (push_run 7 ++ push_run 8))) ++ l /\
  Z.of_nat (length l) <= 2.
Proof.
  destruct (ring_fifo 2 kBlock small (push_run 7 ++ push_run 8)
    (ring_after (push_run 7 ++ push_run 8))) as [(l & Hl & Hb) _].
  - lia.
  - reflexivity.
  - vm_compute. reflexivity.
  - by exists l.
Defined.

(** The item arrives while the consumer sleeps: it is woken. *)
Lemma ring_no_lost_wakeup_witness :
  let r := ring_after (sleep_run ++ [ring_push 7; ring_producer 0; ring_producer 0; ring_producer 0;
                                ring_producer 0]) in
  c_at (cons_ r) = C_asleep /\ pushed (prod r) = [7] /\
  leads small by_producer r (fun r' => c_at (cons_ r') = C_relock).
Proof.
  intros r. split_and!; [vm_compute; reflexivity|vm_compute; reflexivity|].
  refine (proj1 (ring_no_lost_wakeup 2 kBlock small
    (sleep_run ++ [ring_push 7; ring_producer 0; ring_producer 0; ring_producer 0;
                   ring_producer 0]) r _ eq_refl _) _ _).
  - lia.
  - vm_compute. reflexivity.
  - vm_compute. reflexivity.
  - left. vm_compute. discriminate.
Defined.

(** The producer pushes, stops and closes; the consumer takes the item and then hears
    that there is no more. *)
Definition drain_run (ordered : bool) : list (ring_label Z) :=
  push_run 7 ++ [ring_close ordered; ring_close_lock; ring_close_notify_empty;
                 ring_close_notify_full] ++
  [ring_pop; ring_consumer 0; ring_consumer 1; ring_consumer 1; ring_consumer 1; ring_consumer 1;
   ring_consumer 1] ++
  ring_pop :: concat (replicate 64 [ring_consumer 1; ring_consumer 1; ring_consumer 1]) ++
  [ring_consumer 1; ring_consumer 1; ring_consumer 1; ring_consumer 1; ring_consumer 1].

Lemma ring_close_drains_witness :
  pop_results (cons_ (ring_after (drain_run true))) = [Some 7; None] /\
  pushed (prod (ring_after (drain_run true))) = popped (cons_ (ring_after (drain_run true))).
Proof.
  split; [vm_compute; reflexivity|].
  refine (proj1 (proj2 (ring_close_drains 2 kBlock small (drain_run true) (ring_after (drain_run true))
    _ eq_refl _ _) _ [] _ _)).
  - lia.
  - vm_compute. reflexivity.
  - vm_compute. right. left.
  - vm_compute. reflexivity.
  - reflexivity.
Defined.

(** The documented exception: a push that overlaps the close answers true although the
    consumer has been told that there is no further item. *)
Definition overlap_run : list (ring_label Z) :=
  [ring_push 7; ring_producer 0; ring_close false; ring_close_lock; ring_close_notify_empty;
   ring_close_notify_full] ++ ring_pop :: spin_run ++
  [ring_consumer 0; ring_consumer 0; ring_consumer 0; ring_consumer 0] ++
  replicate 4 (ring_producer 0).

Lemma overlapping_close_loses_item :
  let r := ring_after overlap_run in
  push_results (prod r) = [true] /\ pop_results (cons_ r) = [None] /\ contents r = [7].
Proof. vm_compute. repeat split. Qed.
