(* ===== verification/EventBus.v ===== *)
(** * The event bus

    include/ssim/core/event_bus.hpp and src/core/event_bus.cpp: subscription,
    publication and the promise of [unsubscribe]. The steps are the critical sections
    of the bus lock and of the per-subscriber locks, taken by any number of threads;
    a handler may publish, subscribe and unsubscribe, so a thread carries a stack of
    publications. What a handler computes is not modelled. *)

From S2P Require Import Prelude.

(** [struct Subscriber], at the address the [shared_ptr]s hold. *)
Record Subscriber := mkSubscriber { sub_id : Z; running : Z; removed : bool }.

(** A call of [publish_erased]: the subscriber whose handler runs, and those of the
    copied list that come after it. *)
Record Publication := mkPublication { current : option nat; todo : list nat }.

(** A thread: its publications, innermost first, and the call of [unsubscribe] it is
    in, before it has set [removed] or waiting for the calls in flight. *)
Inductive Unsubscribing := not_unsubscribing | about_to_mark (o : nat) | waiting_idle (o : nat).

Record Thread := mkThread { stack : list Publication; unsubscribing : Unsubscribing }.

(** The bus, the threads that use it, and the subscribers whose [unsubscribe] has
    returned after waiting. *)
Record EventBus := mkBus {
  objects : list Subscriber;
  subscribers_by_type_ : gmap Z (list nat);
  type_by_id_ : gmap Z Z;
  next_id_ : Z;
  threads : list Thread;
  gone : list nat
}.

Definition new_bus (n : nat) : EventBus :=
  mkBus [] ∅ ∅ 1 (replicate n (mkThread [] not_unsubscribing)) [].

Definition set_thread (i : nat) (t : Thread) (b : EventBus) : EventBus :=
  mkBus (objects b) (subscribers_by_type_ b) (type_by_id_ b) (next_id_ b) (<[i := t]> (threads b))
    (gone b).
Definition set_object (o : nat) (s : Subscriber) (b : EventBus) : EventBus :=
  mkBus (<[o := s]> (objects b)) (subscribers_by_type_ b) (type_by_id_ b) (next_id_ b) (threads b)
    (gone b).
Definition set_gone (o : nat) (b : EventBus) : EventBus :=
  mkBus (objects b) (subscribers_by_type_ b) (type_by_id_ b) (next_id_ b) (threads b)
    (gone b ++ [o]).

(** [subscribe_erased]. *)
Definition subscribe_erased (type : Z) (b : EventBus) : Z * EventBus :=
  let id := next_id_ b in
  (id,
   mkBus (objects b ++ [mkSubscriber id 0 false])
     (<[type := default [] (subscribers_by_type_ b !! type) ++ [length (objects b)]]>
        (subscribers_by_type_ b))
     match type_by_id_ b !! id with Some _ => type_by_id_ b | None => <[id := type]> (type_by_id_ b) end
     (wrap 64 (next_id_ b + 1)) (threads b) (gone b)).

Definition has_id (b : EventBus) (id : Z) (o : nat) : bool :=
  match objects b !! o with Some s => sub_id s =? id | None => false end.

(** [unsubscribe], the section under the bus lock; the subscriber it took out. *)
Definition take_out (id : Z) (b : EventBus) : option nat * EventBus :=
  match type_by_id_ b !! id with
  | None => (None, b)
  | Some type =>
      let subscribers := default [] (subscribers_by_type_ b !! type) in
      match list_find (fun o => has_id b id o = true) subscribers with
      | None =>
          (None, mkBus (objects b) (<[type := subscribers]> (subscribers_by_type_ b))
                   (delete id (type_by_id_ b)) (next_id_ b) (threads b) (gone b))
      | Some (i, o) =>
          (Some o, mkBus (objects b) (<[type := delete i subscribers]> (subscribers_by_type_ b))
                     (delete id (type_by_id_ b)) (next_id_ b) (threads b) (gone b))
      end
  end.

(** The thread-local [t_executing]. *)
Definition t_executing (t : Thread) : list nat := omap current (stack t).

(** What a thread does next. *)
Inductive bus_action :=
| do_subscribe (type : Z)
| do_unsubscribe (id : Z)
| do_mark
| do_stop_waiting
| do_publish (type : Z)
| do_begin
| do_end
| do_return.

Definition bus_step (i : nat) (a : bus_action) (b : EventBus) : option EventBus :=
  match threads b !! i with
  | None => None
  | Some t =>
      match a, unsubscribing t with
      | do_mark, about_to_mark o =>
          match objects b !! o with
          | None => None
          | Some s =>
              Some
                (set_object o (mkSubscriber (sub_id s) (running s) true)
                   (set_thread i
                      (mkThread (stack t)
                         (if bool_decide (o ∈ t_executing t) then not_unsubscribing
                          else waiting_idle o)) b))
          end
      | do_stop_waiting, waiting_idle o =>
          match objects b !! o with
          | None => None
          | Some s =>
              if running s =? 0 then
                Some (set_gone o (set_thread i (mkThread (stack t) not_unsubscribing) b))
              else None
          end
      | do_subscribe type, not_unsubscribing => Some (subscribe_erased type b).2
      | do_unsubscribe id, not_unsubscribing =>
          let '(r, b) := take_out id b in
          Some (match r with
                | None => b
                | Some o => set_thread i (mkThread (stack t) (about_to_mark o)) b
                end)
      | do_publish type, not_unsubscribing =>
          Some
            match subscribers_by_type_ b !! type with
            | None => b
            | Some l => set_thread i (mkThread (mkPublication None l :: stack t) not_unsubscribing) b
            end
      | do_begin, not_unsubscribing =>
          match stack t with
          | mkPublication None (o :: rest) :: st =>
              match objects b !! o with
              | None => None
              | Some s =>
                  if removed s then
                    Some (set_thread i (mkThread (mkPublication None rest :: st) not_unsubscribing) b)
                  else
                    Some (set_object o (mkSubscriber (sub_id s) (running s + 1) (removed s))
                            (set_thread i (mkThread (mkPublication (Some o) rest :: st)
                                             not_unsubscribing) b))
              end
          | _ => None
          end
      | do_end, not_unsubscribing =>
          match stack t with
          | mkPublication (Some o) rest :: st =>
              match objects b !! o with
              | None => None
              | Some s =>
                  Some (set_object o (mkSubscriber (sub_id s) (running s - 1) (removed s))
                          (set_thread i (mkThread (mkPublication None rest :: st) not_unsubscribing) b))
              end
          | _ => None
          end
      | do_return, not_unsubscribing =>
          match stack t with
          | mkPublication None [] :: st => Some (set_thread i (mkThread st not_unsubscribing) b)
          | _ => None
          end
      | _, _ => None
      end
  end.

Fixpoint bus_run (l : list (nat * bus_action)) (b : EventBus) : option EventBus :=
  match l with
  | [] => Some b
  | (i, a) :: l => bus_step i a b ≫= bus_run l
  end.

(** ** The invariant *)

(** Handler calls of [o] in flight, over all threads. *)
Definition in_flight (o : nat) (t : Thread) : nat :=
  length (filter (fun o' => o' = o) (t_executing t)).
Definition calls (o : nat) (l : list Thread) : nat := sum_list_with (in_flight o) l.

Record bus_ok (b : EventBus) : Prop := mkBusOk {
  bus_running : forall o s, objects b !! o = Some s -> running s = Z.of_nat (calls o (threads b));
  bus_dangling : forall o, (length (objects b) <= o)%nat -> calls o (threads b) = 0%nat;
  bus_known : forall type l, subscribers_by_type_ b !! type = Some l ->
    Forall (fun o => (o < length (objects b))%nat) l;
  bus_threads : Forall (fun t =>
    Forall (fun f => Forall (fun o => (o < length (objects b))%nat) (todo f)) (stack t) /\
    match unsubscribing t with
    | about_to_mark o => (o < length (objects b))%nat
    | waiting_idle o => exists s, objects b !! o = Some s /\ removed s = true
    | not_unsubscribing => True
    end) (threads b);
  bus_gone : forall o, o ∈ gone b ->
    exists s, objects b !! o = Some s /\ removed s = true /\ running s = 0
}.

Lemma calls_insert o l i t t' :
  l !! i = Some t -> (calls o (<[i := t']> l) + in_flight o t = calls o l + in_flight o t')%nat.
Proof.
  revert i. induction l as [|x l IH]; intros [|i] Hi; unfold calls in *; simplify_eq/=.
  - lia.
  - specialize (IH i Hi). lia.
Qed.

Lemma in_flight_idle o l st u :
  in_flight o (mkThread (mkPublication None l :: st) u) = in_flight o (mkThread st u).
Proof. done. Qed.

Lemma in_flight_same o l st u :
  in_flight o (mkThread (mkPublication (Some o) l :: st) u) = S (in_flight o (mkThread st u)).
Proof. unfold in_flight, t_executing. simpl. by rewrite filter_cons, decide_True. Qed.

Lemma in_flight_other o o' l st u :
  o' <> o -> in_flight o' (mkThread (mkPublication (Some o) l :: st) u) = in_flight o' (mkThread st u).
Proof.
  intros Hne. unfold in_flight, t_executing. simpl. by rewrite filter_cons, decide_False by congruence.
Qed.

(** A thread that changes nothing but its own frames, with no handler started or
    ended. *)
Lemma set_thread_ok i t t' b :
  bus_ok b -> threads b !! i = Some t -> (forall o, in_flight o t' = in_flight o t) ->
  (Forall (fun f => Forall (fun o => (o < length (objects b))%nat) (todo f)) (stack t') /\
   match unsubscribing t' with
   | about_to_mark o => (o < length (objects b))%nat
   | waiting_idle o => exists s, objects b !! o = Some s /\ removed s = true
   | not_unsubscribing => True
   end) ->
  bus_ok (set_thread i t' b).
Proof.
  intros [Hr Hd Hk Ht Hg] Hi Hf Hs.
  assert (Hc : forall o, calls o (<[i := t']> (threads b)) = calls o (threads b)).
  { intros o. pose proof (calls_insert o _ i t t' Hi). rewrite Hf in *. lia. }
  split; simpl; try done.
  - intros o s Ho. rewrite Hc. by apply Hr.
  - intros o Ho. rewrite Hc. by apply Hd.
  - by apply Forall_insert.
Qed.

(** The lock section of one subscriber: its count moves with the thread's frames. *)
Lemma set_object_ok i t t' o s s' b :
  bus_ok b -> threads b !! i = Some t -> objects b !! o = Some s ->
  (o ∈ gone b -> removed s' = true /\ running s' = 0) ->
  (removed s = true -> removed s' = true) ->
  running s' = running s + Z.of_nat (in_flight o t') - Z.of_nat (in_flight o t) ->
  (forall o', o' <> o -> in_flight o' t' = in_flight o' t) ->
  Forall (fun f => Forall (fun o => (o < length (objects b))%nat) (todo f)) (stack t') ->
  (unsubscribing t' = not_unsubscribing \/ unsubscribing t' = waiting_idle o /\ removed s' = true) ->
  bus_ok (set_object o s' (set_thread i t' b)).
Proof.
  intros [Hr Hd Hk Ht Hg] Hi Ho Hng Hrm Hrun Hf Hs Hu.
  pose proof (lookup_lt_Some _ _ _ Ho) as Hlt.
  assert (Hlen : length (<[o := s']> (objects b)) = length (objects b)) by apply length_insert.
  split; simpl; rewrite ?Hlen.
  - intros o' x Hx. pose proof (calls_insert o' _ i t t' Hi) as Hc.
    destruct (decide (o' = o)) as [->|Hne].
    + rewrite list_lookup_insert_eq in Hx by done. injection Hx as <-.
      rewrite Hrun, (Hr o s Ho). lia.
    + rewrite list_lookup_insert_ne in Hx by done. rewrite (Hr o' x Hx).
      rewrite (Hf o' Hne) in Hc. lia.
  - intros o' Ho'. pose proof (calls_insert o' _ i t t' Hi) as Hc.
    rewrite (Hf o') in Hc by lia. specialize (Hd o' Ho'). lia.
  - done.
  - apply Forall_insert.
    2: { split; [done|]. destruct Hu as [->|[-> Hrm']]; [done|]. exists s'.
         by rewrite list_lookup_insert_eq. }
    eapply Forall_impl; [exact Ht|]. intros th [Hf1 Hf2]. split; [done|].
    destruct (unsubscribing th) as [|o'|o']; try done. destruct Hf2 as (x & Hx & Hrx).
    destruct (decide (o' = o)) as [->|Hne].
    + exists s'. rewrite list_lookup_insert_eq by done. split; [done|]. apply Hrm. by simplify_eq.
    + exists x. by rewrite list_lookup_insert_ne.
  - intros o' Ho'. destruct (decide (o' = o)) as [->|Hne].
    + exists s'. rewrite list_lookup_insert_eq by done. split; [done|]. by apply Hng.
    + destruct (Hg o' Ho') as (x & Hx & Hrx). exists x. by rewrite list_lookup_insert_ne.
Qed.

Lemma subscribe_ok type b : bus_ok b -> bus_ok (subscribe_erased type b).2.
Proof.
  intros [Hr Hd Hk Ht Hg].
  assert (Hold : forall o s, objects b !! o = Some s ->
    (objects b ++ [mkSubscriber (next_id_ b) 0 false]) !! o = Some s)
    by (intros; by apply lookup_app_l_Some).
  split; simpl; rewrite ?length_app; simpl.
  - intros o s [Ho|[Hge Ho]]%lookup_app_Some; [by apply Hr|].
    destruct (o - length (objects b))%nat; [|done]. injection Ho as <-. simpl. by rewrite Hd.
  - intros o Ho. apply Hd. lia.
  - intros ty l [[<- <-]|[Hne Hl]]%lookup_insert_Some.
    + apply Forall_app. split; [|apply Forall_singleton; lia].
      destruct (subscribers_by_type_ b !! type) as [l|] eqn:E; [|apply Forall_nil_2].
      simpl. eapply Forall_impl; [by eapply Hk|]. simpl. lia.
    + eapply Forall_impl; [by eapply Hk|]. simpl. lia.
  - eapply Forall_impl; [exact Ht|]. intros t [Hf Hu]. split.
    + eapply Forall_impl; [exact Hf|]. intros f Hft. eapply Forall_impl; [exact Hft|]. simpl. lia.
    + destruct (unsubscribing t) as [|o|o]; [done|lia|].
      destruct Hu as (s & Hs & Hrm). exists s. auto.
  - intros o Ho. destruct (Hg o Ho) as (s & Hs & Hrs). exists s. auto.
Qed.

Lemma take_out_ok id b r b' :
  bus_ok b -> take_out id b = (r, b') ->
  bus_ok b' /\ objects b' = objects b /\ threads b' = threads b /\
  match r with Some o => (o < length (objects b))%nat | None => True end.
Proof.
  intros Hb. pose proof Hb as [Hr Hd Hk Ht Hg]. unfold take_out.
  destruct (type_by_id_ b !! id) as [type|]; [|by intros [= <- <-]].
  assert (Hl : Forall (fun o => (o < length (objects b))%nat)
                 (default [] (subscribers_by_type_ b !! type))).
  { destruct (subscribers_by_type_ b !! type) as [l|] eqn:E; [by eapply Hk|apply Forall_nil_2]. }
  revert Hl. generalize (default [] (subscribers_by_type_ b !! type)). intros l Hl.
  assert (Hins : forall ids l', Forall (fun o => (o < length (objects b))%nat) l' ->
    bus_ok (mkBus (objects b) (<[type := l']> (subscribers_by_type_ b)) ids (next_id_ b)
              (threads b) (gone b))).
  { intros ids l' Hl'. split; simpl; try done.
    intros ty l0 [[<- <-]|[Hne Hl0]]%lookup_insert_Some; [done|by eapply Hk]. }
  destruct (list_find _ l) as [[j o]|] eqn:E; intros [= <- <-]; split_and!; try done.
  - by apply Hins, Forall_delete.
  - apply list_find_Some in E as (E & _ & _). rewrite Forall_lookup in Hl. by eapply Hl.
  - by apply Hins.
Qed.

Lemma in_flight_calls o l i t : l !! i = Some t -> (in_flight o t <= calls o l)%nat.
Proof.
  revert i. induction l as [|x l IH]; intros [|i] Hi; unfold calls in *; simplify_eq/=; [lia|].
  specialize (IH i Hi). lia.
Qed.

Lemma bus_step_ok i a b b' : bus_ok b -> bus_step i a b = Some b' -> bus_ok b'.
Proof.
  intros Hb. pose proof Hb as [Hr Hd Hk Ht Hg]. unfold bus_step.
  destruct (threads b !! i) as [t|] eqn:Hi; [|done].
  pose proof Ht as Ht'. rewrite Forall_lookup in Ht'. destruct (Ht' i t Hi) as [Hfr Hun].
  destruct t as [st un]. simpl in *.
  destruct a as [type|id| | |type| | |]; destruct un as [|o|o]; try done.
  - intros [= <-]. by apply subscribe_ok.
  - destruct (take_out id b) as [r b1] eqn:E. intros [= <-].
    destruct (take_out_ok id b r b1 Hb E) as (Hb1 & Eo & Et & Hlt).
    destruct r as [o|]; [|done].
    eapply set_thread_ok; simpl; [done|by rewrite Et|done|]. by rewrite Eo.
  - destruct (objects b !! o) as [s|] eqn:Ho; [|done]. intros [= <-].
    apply (set_object_ok i (mkThread st (about_to_mark o)) _ o s); simpl; try done; try lia.
    + intros Hgo. destruct (Hg o Hgo) as (x & Hx & Hrm & Hrn). split; [done|]. by simplify_eq.
    + unfold in_flight, t_executing. simpl. lia.
    + case_bool_decide; [by left|by right].
  - destruct (objects b !! o) as [s|] eqn:Ho; [|done].
    destruct (Z.eqb_spec (running s) 0); [|done]. intros [= <-].
    assert (Hb1 : bus_ok (set_thread i (mkThread st not_unsubscribing) b)) by by eapply set_thread_ok.
    destruct Hb1 as [Hr1 Hd1 Hk1 Ht1 Hg1]. split; simpl in *; try done.
    intros o' [Ho'| ->%list_elem_of_singleton]%elem_of_app; [by apply Hg|].
    destruct Hun as (x & Hx & Hrm). exists x. by simplify_eq.
  - intros [= <-]. destruct (subscribers_by_type_ b !! type) as [l|] eqn:E; [|done].
    eapply set_thread_ok; [done..| |].
    + intros o'. done.
    + simpl. split; [|done]. apply Forall_cons. split; [by eapply Hk|done].
  - destruct st as [|[[y|] [|o rest]] st]; try done.
    apply Forall_cons in Hfr as [Hf1 Hf2]. simpl in Hf1. apply Forall_cons in Hf1 as [Hlt Hf1].
    destruct (objects b !! o) as [s|] eqn:Ho; [|done]. destruct (removed s) eqn:Erm; intros [= <-].
    + eapply set_thread_ok; [done..| |].
      * intros o'. done.
      * simpl. split; [|done]. by apply Forall_cons.
    + apply (set_object_ok i (mkThread (mkPublication None (o :: rest) :: st) not_unsubscribing) _ o s);
        simpl; try done; rewrite ?in_flight_same, ?in_flight_idle.
      * intros Hgo. destruct (Hg o Hgo) as (x & Hx & Hrm & _). simplify_eq. congruence.
      * by rewrite Erm.
      * lia.
      * intros o' Hne. by rewrite in_flight_other.
      * by apply Forall_cons.
      * by left.
  - destruct st as [|[[o|] rest] st]; try done.
    apply Forall_cons in Hfr as [Hf1 Hf2].
    destruct (objects b !! o) as [s|] eqn:Ho; [|done]. intros [= <-].
    apply (set_object_ok i (mkThread (mkPublication (Some o) rest :: st) not_unsubscribing) _ o s);
      simpl; try done; rewrite ?in_flight_same, ?in_flight_idle.
    + intros Hgo. exfalso. destruct (Hg o Hgo) as (x & Hx & _ & Hrn). simplify_eq.
      pose proof (in_flight_calls o _ _ _ Hi) as Hc. rewrite in_flight_same in Hc.
      rewrite (Hr o s Ho) in Hrn. lia.
    + lia.
    + intros o' Hne. by rewrite in_flight_other.
    + by apply Forall_cons.
    + by left.
  - destruct st as [|[[y|] [|o rest]] st]; try done. intros [= <-].
    apply Forall_cons in Hfr as [_ Hf2].
    eapply set_thread_ok; [done..| |done]. intros o. done.
Qed.

Lemma bus_run_ok l b b' : bus_ok b -> bus_run l b = Some b' -> bus_ok b'.
Proof.
  revert b. induction l as [|[i a] l IH]; simpl; intros b Hb Hr; [by simplify_eq|].
  apply bind_Some in Hr as (b1 & H1 & Hr). by eapply IH, Hr; eapply bus_step_ok.
Qed.

Lemma new_bus_ok n : bus_ok (new_bus n).
Proof.
  split; simpl; try done.
  - intros o _. induction n as [|n IH]; [done|]. unfold calls in *. simpl. by rewrite IH.
  - apply Forall_replicate. simpl. split; [apply Forall_nil_2|done].
  - by intros o Ho%elem_of_nil.
Qed.

Lemma bus_gone_grows l b b' : bus_run l b = Some b' -> forall o, o ∈ gone b -> o ∈ gone b'.
Proof.
  revert b. induction l as [|[i a] l IH]; simpl; intros b Hr o Ho; [by simplify_eq|].
  apply bind_Some in Hr as (b1 & H1 & Hr). eapply IH; [exact Hr|]. unfold bus_step in H1.
  assert (Htk : forall id r b2, take_out id b = (r, b2) -> gone b2 = gone b).
  { intros id r b2. unfold take_out. repeat case_match; by intros [= <- <-]. }
  repeat (case_match; simplify_eq/=; try done); try (by erewrite Htk).
  by apply elem_of_app; left.
Qed.

(** A subscriber that is marked stays marked, and none of its calls starts. *)
Lemma step_marked i a b b' o s :
  objects b !! o = Some s -> removed s = true -> bus_step i a b = Some b' ->
  exists s', objects b' !! o = Some s' /\ removed s' = true /\ running s' <= running s.
Proof.
  intros Ho Hrm H. unfold bus_step in H.
  assert (Hset : forall o1 s1 s1' b1, objects b1 = objects b -> objects b !! o1 = Some s1 ->
    (o1 = o -> removed s1' = true /\ running s1' <= running s1) ->
    exists s', objects (set_object o1 s1' b1) !! o = Some s' /\ removed s' = true /\ running s' <= running s).
  { intros o1 s1 s1' b1 E H1 Hs1. cbn [objects set_object]. rewrite E. destruct (decide (o1 = o)) as [->|Hne].
    - rewrite list_lookup_insert_eq by (by eapply lookup_lt_Some). exists s1'. simplify_eq. by destruct (Hs1 eq_refl).
    - rewrite list_lookup_insert_ne by done. exists s. split_and!; [done..|lia]. }
  assert (Hsame : forall b1, objects b1 = objects b ->
    exists s', objects b1 !! o = Some s' /\ removed s' = true /\ running s' <= running s).
  { intros b1 ->. exists s. split_and!; [done..|lia]. }
  destruct (threads b !! i) as [[st un]|]; [|done]. cbn [unsubscribing stack] in H.
  destruct a as [type|id| | |type| | |]; destruct un as [|o1|o1]; try done.
  - injection H as <-. exists s. cbn [subscribe_erased snd objects]. split_and!; [|done|lia]. by apply lookup_app_l_Some.
  - assert (Et : objects (take_out id b).2 = objects b) by (unfold take_out; repeat case_match; done).
    destruct (take_out id b) as [r b1]. injection H as <-. apply Hsame. by destruct r.
  - destruct (objects b !! o1) as [s1|] eqn:E; [|done]. injection H as <-. eapply Hset; [done|exact E|]. simpl. intros _. split; [done|lia].
  - destruct (objects b !! o1) as [s1|] eqn:E; [|done]. destruct (running s1 =? 0); [|done]. injection H as <-. by apply Hsame.
  - injection H as <-. apply Hsame. by destruct (subscribers_by_type_ b !! type).
  - destruct st as [|[[y|] [|o1 rest]] st]; try done. destruct (objects b !! o1) as [s1|] eqn:E; [|done].
    destruct (removed s1) eqn:E1; injection H as <-; [by apply Hsame|]. eapply Hset; [done|exact E|]. intros ->. simplify_eq. congruence.
  - destruct st as [|[[y|] rest] st]; try done. destruct (objects b !! y) as [s1|] eqn:E; [|done].
    injection H as <-. eapply Hset; [done|exact E|]. intros ->. simplify_eq. simpl. split; [done|lia].
  - destruct st as [|[[y|] [|o1 rest]] st]; try done. injection H as <-. by apply Hsame.
Qed.

Lemma run_marked l : forall b b' o s,
  objects b !! o = Some s -> removed s = true -> bus_run l b = Some b' ->
  exists s', objects b' !! o = Some s' /\ removed s' = true /\ running s' <= running s.
Proof.
  induction l as [|[i a] l IH]; intros b b' o s Ho Hrm; simpl; [intros [= <-]; exists s; split_and!; [done..|lia]|].
  intros (b1 & H1 & H2)%bind_Some. destruct (step_marked _ _ _ _ _ _ Ho Hrm H1) as (s1 & Ho1 & Hrm1 & Hle).
  destruct (IH _ _ _ _ Ho1 Hrm1 H2) as (s2 & ? & ? & ?). exists s2. split_and!; [done..|lia].
Qed.

(** [C29] What [unsubscribe] keeps of its promise. The call that takes the subscription out marks
    it; from then on, whatever any thread does, no call of the handler starts: those in flight
    never become more. Once that call has returned after its wait, which it does unless
    it was made inside the handler itself, the handler runs on no thread and never runs
    again. The count of calls in flight is exact throughout. (Another call of
    [unsubscribe] for the same subscription, made before the first has marked it,
    returns at once and promises nothing: [second_unsubscribe_early].) *)
Theorem unsubscribe_final n l l' b b' o s :
  bus_run l (new_bus n) = Some b -> objects b !! o = Some s -> removed s = true -> bus_run l' b = Some b' ->
  (calls o (threads b') <= calls o (threads b))%nat /\
  (o ∈ gone b -> Forall (fun t => o ∉ t_executing t) (threads b')) /\
  (forall o' s', objects b' !! o' = Some s' -> running s' = Z.of_nat (calls o' (threads b'))).
Proof.
  intros Hr Hos Hrm Hr'. pose proof (bus_run_ok _ _ _ (new_bus_ok n) Hr) as Hb.
  pose proof (bus_run_ok _ _ _ Hb Hr') as [Hrun _ _ _ Hg]. split; [|split; [|done]].
  { destruct (run_marked _ _ _ _ _ Hos Hrm Hr') as (s' & Hs' & _ & Hle).
    rewrite (Hrun o s' Hs'), (bus_running _ Hb o s Hos) in Hle. lia. }
  intros Ho. clear s Hos Hrm. destruct (Hg o (bus_gone_grows _ _ _ Hr' o Ho)) as (s & Hs & _ & H0).
  rewrite (Hrun o s Hs) in H0. apply Forall_lookup. intros i t Ht Hin.
  pose proof (in_flight_calls o _ i t Ht) as Hle. unfold in_flight in Hle.
  apply list_elem_of_lookup_1 in Hin as [j Hj].
  assert (Hf : o ∈ filter (fun o' => o' = o) (t_executing t)).
  { apply list_elem_of_filter. split; [done|]. by eapply list_elem_of_lookup_2. }
  destruct (filter _ _); [by apply elem_of_nil in Hf|simpl in Hle; lia].
Qed.

(** ** Concrete runs *)

(** Two threads: the first publishes while the second unsubscribes and waits. *)
Definition waiting_run : list (nat * bus_action) :=
  [(0, do_subscribe 5); (0, do_publish 5); (0, do_begin); (1, do_unsubscribe 1); (1, do_mark)]%nat.
Definition returned_run : list (nat * bus_action) :=
  (waiting_run ++ [(0, do_end); (1, do_stop_waiting)])%nat.

Definition bus_after (l : list (nat * bus_action)) : EventBus :=
  default (new_bus 2) (bus_run l (new_bus 2)).

Lemma unsubscribe_waits : bus_step 1 do_stop_waiting (bus_after waiting_run) = None.
Proof. vm_compute. reflexivity. Qed.

Lemma unsubscribe_final_witness :
  Forall (fun t => 0%nat ∉ t_executing t)
    (threads (default (new_bus 2) (bus_run [(0, do_publish 5); (0, do_return)]%nat
                                     (bus_after returned_run)))).
Proof.
  refine (proj1 (proj2 (unsubscribe_final 2 returned_run [(0, do_publish 5); (0, do_return)]%nat
    (bus_after returned_run) _ 0 (mkSubscriber 1 0 true) _ _ _ _)) _).
  - vm_compute. reflexivity.
  - vm_compute. reflexivity.
  - reflexivity.
  - vm_compute. reflexivity.
  - vm_compute. left.
Defined.

(** The header promises that once [unsubscribe] returns the handler will not be started again. A
    second call for the same subscription finds it gone from the list and returns while the
    first has not marked it yet: thread 2 has returned, and thread 0 starts the handler. *)
Lemma second_unsubscribe_early :
  let returned := [(0, do_subscribe 5); (0, do_publish 5); (1, do_unsubscribe 1); (2, do_unsubscribe 1)]%nat in
  (b ← bus_run returned (new_bus 3); unsubscribing <$> threads b !! 2%nat) = Some not_unsubscribing /\
  (b ← bus_run (returned ++ [(0, do_begin)])%nat (new_bus 3); t_executing <$> threads b !! 0%nat) = Some [0%nat].
Proof. vm_compute. done. Qed.

(** A handler that unsubscribes itself does not wait at all, not even for the calls
    that other threads are making: here [unsubscribe] has returned on thread 0 while
    thread 1 still runs the handler. *)
Lemma unsubscribe_inside_handler :
  let b := bus_after [(0, do_subscribe 5); (1, do_publish 5); (1, do_begin); (0, do_publish 5);
                      (0, do_begin); (0, do_unsubscribe 1); (0, do_mark); (0, do_end)]%nat in
  unsubscribing <$> threads b !! 0%nat = Some not_unsubscribing /\
  t_executing <$> threads b !! 1%nat = Some [0%nat].
Proof. vm_compute. done. Qed.
