(* ===== verification/MachineRuntime.v ===== *)
(** * The machine runtime

    src/machine/machine_runtime.cpp with the thread structure of
    src/hw/scan_thread.cpp: one wafer after another, through the controller thread,
    the scan thread and the processing thread, and the two queues between them. The
    queues are what Queue.v proves them to be, bounded first-in first-out buffers.
    The samples themselves are not modelled (a block is the wafer and line it
    belongs to), nor is the numeric pipeline: its verdict is a parameter of the step
    that runs it. Log lines are the matter of RuntimeLog, output files of WaferOutput, the
    end of the threads of Shutdown. *)

From S2P Require Import Prelude ProcessFsm Controller.

(** ** State *)

(** [SampleBlock]: a line of a wafer, whole or cut short by an abort. *)
Record Block := mkBlock { block_wafer : string; line_index : nat; whole : bool }.

(** The scan thread: the line it is measuring, the block it is about to push, and
    the calls that end [ScanThread::run]. *)
Inductive ScanAt :=
| scan_off
| scan_line (w : string) (k : nat)
| scan_push (b : Block)
| scan_report (w : string)
| scan_post_wafer (w : string)
| scan_post_discard.

(** [WorkItem]. *)
Inductive WorkItem := kProcessWafer (w : string) | kDiscardSamples.

(** What [run_pipeline] and the quality gates make of a wafer. *)
Record Verdict := mkVerdict {
  out_of_spec : bool; stress_mpa : Z; raised : option AlarmId; reason : string
}.

(** The processing thread: [worker_loop], [discard_queued_samples] and the stages of
    [process_wafer]. *)
Inductive WorkerAt :=
| worker_pop
| worker_exit
| worker_discard
| worker_stopped
| worker_collect (w : string) (lines : list Block)
| worker_check (w : string) (lines : list Block)
| worker_analyse (w : string) (lines : list Block)
| worker_recheck (w : string) (v : Verdict)
| worker_output (w : string) (v : Verdict).

(** [MachineRuntime], with the history of the wafers analysed and of the results
    published. [joining] is the wafer for which the controller thread is inside
    [RestartableScanDriver::start], waiting for the previous scan thread. *)
Record Runtime := mkRuntime {
  controller_ : Controller;
  joining : option string;
  abort_requested_ : bool;
  scan_at : ScanAt;
  sample_queue_ : list Block;
  jobs_ : list WorkItem;
  worker_at : WorkerAt;
  closing : bool;
  analysed : list (string * list Block);
  published : list string
}.

Definition new_runtime : Runtime :=
  mkRuntime new_controller None false scan_off [] [] worker_pop false [] [].

Definition set_controller (c : Controller) (r : Runtime) : Runtime :=
  mkRuntime c (joining r) (abort_requested_ r) (scan_at r) (sample_queue_ r) (jobs_ r)
    (worker_at r) (closing r) (analysed r) (published r).
Definition set_joining (j : option string) (r : Runtime) : Runtime :=
  mkRuntime (controller_ r) j (abort_requested_ r) (scan_at r) (sample_queue_ r) (jobs_ r)
    (worker_at r) (closing r) (analysed r) (published r).
Definition set_abort (b : bool) (r : Runtime) : Runtime :=
  mkRuntime (controller_ r) (joining r) b (scan_at r) (sample_queue_ r) (jobs_ r)
    (worker_at r) (closing r) (analysed r) (published r).
Definition set_scan (s : ScanAt) (r : Runtime) : Runtime :=
  mkRuntime (controller_ r) (joining r) (abort_requested_ r) s (sample_queue_ r) (jobs_ r)
    (worker_at r) (closing r) (analysed r) (published r).
Definition set_samples (l : list Block) (r : Runtime) : Runtime :=
  mkRuntime (controller_ r) (joining r) (abort_requested_ r) (scan_at r) l (jobs_ r)
    (worker_at r) (closing r) (analysed r) (published r).
Definition set_jobs (l : list WorkItem) (r : Runtime) : Runtime :=
  mkRuntime (controller_ r) (joining r) (abort_requested_ r) (scan_at r) (sample_queue_ r) l
    (worker_at r) (closing r) (analysed r) (published r).
Definition set_worker (w : WorkerAt) (r : Runtime) : Runtime :=
  mkRuntime (controller_ r) (joining r) (abort_requested_ r) (scan_at r) (sample_queue_ r)
    (jobs_ r) w (closing r) (analysed r) (published r).
Definition set_closing (r : Runtime) : Runtime :=
  mkRuntime (controller_ r) (joining r) (abort_requested_ r) (scan_at r) (sample_queue_ r)
    (jobs_ r) (worker_at r) true (analysed r) (published r).
Definition log_analysed (w : string) (l : list Block) (r : Runtime) : Runtime :=
  mkRuntime (controller_ r) (joining r) (abort_requested_ r) (scan_at r) (sample_queue_ r)
    (jobs_ r) (worker_at r) (closing r) (analysed r ++ [(w, l)]) (published r).
Definition log_published (w : string) (r : Runtime) : Runtime :=
  mkRuntime (controller_ r) (joining r) (abort_requested_ r) (scan_at r) (sample_queue_ r)
    (jobs_ r) (worker_at r) (closing r) (analysed r) (published r ++ [w]).

Section runtime.
Context {order : HashOrder} (lines : nat).

(** ** The controller thread *)

(** The calls of [IScanDriver] among the actions: [start] begins its wait for the
    previous scan thread, [request_abort] sets the flag. *)
Definition driver_call (a : Action) (r : Runtime) : Runtime :=
  match a with
  | driver_start w => set_joining (Some w) r
  | driver_request_abort => set_abort true r
  | publish _ => r
  end.

(** One inbox item; the controller takes none while it waits for the scan thread. *)
Definition controller_step (i : ctl_input) (r : Runtime) : option Runtime :=
  match joining r with
  | Some _ => None
  | None =>
      let '(_, c, acts) := ctl_handle i (controller_ r) in
      Some (foldl (fun r a => driver_call a r) (set_controller c r) acts)
  end.

(** The end of the wait: [ScanThread::start]. *)
Definition join_done (r : Runtime) : option Runtime :=
  match joining r, scan_at r with
  | Some w, scan_off => Some (set_joining None (set_scan (scan_line w 0) (set_abort false r)))
  | _, _ => None
  end.

(** ** The scan thread *)

Definition sample_capacity : nat := lines + 1.
Definition job_capacity : nat := 8.

(** [push] on a queue with the [kBlock] policy: no step while it blocks, dropped once
    the queue is closed. *)
Definition push_job (j : WorkItem) (r : Runtime) : option Runtime :=
  if closing r then Some r
  else if (job_capacity <=? length (jobs_ r))%nat then None
  else Some (set_jobs (jobs_ r ++ [j]) r).

Definition scan_step (r : Runtime) : option Runtime :=
  match scan_at r with
  | scan_off => None
  | scan_line w k =>
      if (k <? lines)%nat then Some (set_scan (scan_push (mkBlock w k (negb (abort_requested_ r)))) r)
      else Some (set_scan (scan_report w) r)
  | scan_push b =>
      let next := if whole b then scan_line (block_wafer b) (S (line_index b))
                  else scan_post_discard in
      if closing r then
        let '(a, _) := if whole b then alarms_set kQueueOverflow
                                         "sample queue full, block dropped" (alarms_ (controller_ r))
                       else (alarms_ (controller_ r), []) in
        Some (set_scan next (set_controller (set_alarms a (controller_ r)) r))
      else if (sample_capacity <=? length (sample_queue_ r))%nat then None
      else Some (set_scan next (set_samples (sample_queue_ r ++ [b]) r))
  | scan_report w =>
      r' ← controller_step (in_scan_complete w) r; Some (set_scan (scan_post_wafer w) r')
  | scan_post_wafer w => set_scan scan_off <$> push_job (kProcessWafer w) r
  | scan_post_discard => set_scan scan_off <$> push_job kDiscardSamples r
  end.

(** ** The processing thread *)

(** [v] is the verdict of the pipeline, for the step that runs it. *)
Definition worker_step (v : Verdict) (r : Runtime) : option Runtime :=
  match worker_at r with
  | worker_exit => None
  | worker_pop =>
      match jobs_ r with
      | kDiscardSamples :: rest => Some (set_worker worker_discard (set_jobs rest r))
      | kProcessWafer w :: rest => Some (set_worker (worker_collect w []) (set_jobs rest r))
      | [] => if closing r then Some (set_worker worker_exit r) else None
      end
  | worker_discard =>
      match sample_queue_ r with
      | [] => Some (set_worker worker_stopped r)
      | _ :: rest => Some (set_samples rest r)
      end
  | worker_stopped =>
      r' ← controller_step in_stage_stopped r; Some (set_worker worker_pop r')
  | worker_collect w got =>
      if (length got <? lines)%nat then
        match sample_queue_ r with
        | b :: rest => Some (set_worker (worker_collect w (got ++ [b])) (set_samples rest r))
        | [] => if closing r then Some (set_worker worker_pop r) else None
        end
      else Some (set_worker (worker_check w got) r)
  | worker_check w got =>
      Some (set_worker (if bool_decide (state_ (controller_ r) = kStopping) then worker_stopped
                        else worker_analyse w got) r)
  | worker_analyse w got =>
      r' ← controller_step (in_result (out_of_spec v) (stress_mpa v) (raised v) (reason v) false) r;
      Some (set_worker (worker_recheck w v) (log_analysed w got r'))
  | worker_recheck w v =>
      Some (set_worker (if bool_decide (state_ (controller_ r) = kStopping) then worker_stopped
                        else worker_output w v) r)
  | worker_output w v =>
      Some (set_worker worker_pop
              (match raised v with None => log_published w r | Some _ => r end))
  end.

(** [shutdown], up to its joins. *)
Definition shutdown (r : Runtime) : Runtime := set_abort true (set_closing r).

Inductive runtime_label :=
| rt_command (cmd : Command)
| rt_join_done
| rt_scan
| rt_worker (v : Verdict)
| rt_shutdown.

Definition runtime_step (l : runtime_label) (r : Runtime) : option Runtime :=
  match l with
  | rt_command cmd => controller_step (in_command cmd) r
  | rt_join_done => join_done r
  | rt_scan => scan_step r
  | rt_worker v => worker_step v r
  | rt_shutdown => Some (shutdown r)
  end.

Fixpoint runtime_run (ls : list runtime_label) (r : Runtime) : option Runtime :=
  match ls with
  | [] => Some r
  | l :: ls => runtime_step l r ≫= runtime_run ls
  end.

End runtime.

(** ** What the controller does to the scan thread *)

Definition is_call (a : Action) : bool :=
  match a with publish _ => false | _ => true end.
Definition calls (acts : list Action) : list Action := filter (fun a => is_call a = true) acts.

Lemma driver_calls acts r :
  foldl (fun r a => driver_call a r) r acts = foldl (fun r a => driver_call a r) r (calls acts).
Proof.
  revert r. induction acts as [|a acts IH]; intros r; [done|]. unfold calls in *.
  rewrite filter_cons. destruct a; simpl; apply IH.
Qed.

Lemma calls_app a b : calls (a ++ b) = calls a ++ calls b.
Proof. apply filter_app. Qed.

Lemma calls_changed s s' : calls (changed s s') = [].
Proof. unfold changed. by case_bool_decide. Qed.

Lemma calls_publish e l : calls (publish e :: l) = calls l.
Proof. done. Qed.

Lemma calls_published l : calls (map publish l) = [].
Proof. by induction l. Qed.

Section effects.
Context {order : HashOrder}.

Ltac effect_transition t g c Hc s m Hp Hno :=
  destruct (transition_cases t g c (proj1 Hc)) as [(s & m & Hp & ? & ->)|(? & Hno & ->)];
  simpl; rewrite ?calls_publish, ?calls_app, ?calls_publish, ?calls_changed, ?calls_published, ?app_nil_r.

Lemma command_effect cmd c :
  ctl_ok c ->
  let '(_, c', acts) := ctl_handle (in_command cmd) c in
  (state_ c' = state_ c /\ calls acts = []) \/
  (exists w slot, payload cmd = StartCommand w slot /\ state_ c = kIdle /\ state_ c' = kScanning /\
     calls acts = [driver_start w]) \/
  ((state_ c = kScanning \/ state_ c = kProcessing) /\ state_ c' = kStopping /\
     calls acts = [driver_request_abort]) \/
  (state_ c = kAlarm /\ state_ c' = kIdle /\ calls acts = []).
Proof.
  intros Hc. destruct cmd as [[w slot| | | |mode] src id]; simpl; unfold handle_command; simpl.
  - unfold handle_start. ctl_unfold. effect_transition kStart (mkGuards (control_allows_start (control_mode_ c) src) (has_active_alarm_ c)
       (negb (bool_decide (w = ""%string))) false true) c Hc s m Hp Hno; [|by left].
    right. left. exists w, slot. inversion Hp; subst. by split_and!.
  - unfold handle_stop. ctl_unfold. destruct (negb _); [by left|].
    effect_transition kStop default_guards c Hc s m Hp Hno; [|by left].
    left. inversion Hp; subst; split; congruence || done.
  - unfold handle_abort. ctl_unfold. destruct (negb _); [by left|].
    effect_transition kAbort default_guards c Hc s m Hp Hno; [|by left].
    right. right. left. inversion Hp; subst; split_and!; auto.
  - unfold handle_clear_alarm. ctl_unfold. destruct (negb _); [by left|].
    effect_transition kClearAlarm default_guards c Hc s m Hp Hno; [|by left].
    right. right. right. inversion Hp; subst; by split_and!.
  - unfold handle_set_mode. ctl_unfold. destruct (negb _); by left.
Qed.

Lemma scan_complete_effect w c :
  ctl_ok c ->
  let '(_, c', acts) := ctl_handle (in_scan_complete w) c in
  calls acts = [] /\
  state_ c' = if bool_decide (state_ c = kScanning) then kProcessing else state_ c.
Proof.
  intros Hc. simpl. unfold notify_scan_complete. ctl_unfold.
  effect_transition kLinesComplete default_guards c Hc s m Hp Hno.
  - split; [done|]. inversion Hp as [Hq|Hq|Hq|Hq|Hq|Hq|Hq|Hq|Hq|Hq|Hq]; by rewrite bool_decide_eq_true_2.
  - split; [done|]. case_bool_decide as E; [|done].
    exfalso. apply (Hno kProcessing).
    rewrite E. constructor.
Qed.

Lemma stage_stopped_effect c :
  ctl_ok c -> state_ c = kStopping ->
  let '(_, c', acts) := ctl_handle in_stage_stopped c in calls acts = [] /\ state_ c' = kIdle.
Proof.
  intros Hc Hs. simpl. unfold notify_stage_stopped. ctl_unfold.
  effect_transition kStageStopped default_guards c Hc s m Hp Hno.
  - split; [done|]. by inversion Hp.
  - exfalso. apply (Hno kIdle). rewrite Hs. constructor.
Qed.

Lemma result_effect oos st al why c :
  ctl_ok c -> state_ c = kProcessing \/ state_ c = kStopping ->
  let '(_, c', acts) := ctl_handle (in_result oos st al why false) c in
  calls acts = [] /\
  (state_ c = kStopping /\ state_ c' = kStopping \/ state_ c' = kIdle \/ state_ c' = kAlarm).
Proof.
  intros Hc Hs. simpl. unfold notify_processing_result. destruct al as [id|].
  - unfold notify_fault. ctl_unfold.
    effect_transition kFault default_guards c Hc s m Hp Hno.
    + unfold ctl_alarms. destruct (alarms_set id why _) as [a evs]. simpl.
      rewrite app_nil_r, calls_app, calls_changed, calls_published. split; [done|]. right. right.
      by inversion Hp.
    + split; [done|]. destruct Hs as [Hs|Hs]; [|by left].
      exfalso. apply (Hno kAlarm). rewrite Hs. constructor.
  - ctl_unfold. effect_transition kResultReady (mkGuards true false true false true) c Hc s m Hp Hno.
    + assert (Ho : calls (if oos then [publish (WaferOutOfSpec (current_wafer_id_ c) st)] else []) = [])
        by by destruct oos.
      rewrite Ho. split; [done|]. right. left. by inversion Hp.
    + assert (Ho : calls (if oos then [publish (WaferOutOfSpec (current_wafer_id_ c) st)] else []) = [])
        by by destruct oos.
      rewrite Ho. split; [done|]. destruct Hs as [Hs|Hs]; [|by left].
      exfalso. apply (Hno kIdle). rewrite Hs.
      apply prd_last_wafer. by left.
Qed.
End effects.

(** ** The phases of a run *)

Section phases.
Context {order : HashOrder} (lines : nat).

(** The blocks of lines 0 to [k] - 1 of wafer [w]. *)
Definition blocks (w : string) (k : nat) : list Block :=
  map (fun i => mkBlock w i true) (seq 0 k).

Lemma blocks_S w k : blocks w (S k) = blocks w k ++ [mkBlock w k true].
Proof. unfold blocks. by rewrite seq_S, map_app. Qed.

Lemma blocks_length w k : length (blocks w k) = k.
Proof. unfold blocks. by rewrite length_map, length_seq. Qed.

(** The processing thread has no part in the run that is under way. *)
Definition free_worker (wk : WorkerAt) : Prop :=
  match wk with worker_pop | worker_output _ _ => True | _ => False end.

(** Scanning, or stopping with the abort flag up. *)
Definition under_way (s : ProcessState) (ab : bool) : Prop :=
  (s = kScanning /\ ab = false) \/ (s = kStopping /\ ab = true).

Definition after_scan (s : ProcessState) : Prop := s = kProcessing \/ s = kStopping.

Inductive phase : ProcessState -> option string -> bool -> ScanAt -> list Block ->
    list WorkItem -> WorkerAt -> Prop :=
| ph_quiet s ab wk :
    s = kIdle \/ s = kAlarm ->
    free_worker wk \/ (exists w v, wk = worker_recheck w v) ->
    phase s None ab scan_off [] [] wk
| ph_starting w ab wk :
    free_worker wk -> phase kScanning (Some w) ab scan_off [] [] wk
| ph_line s ab w k wk :
    under_way s ab -> (k <= lines)%nat -> free_worker wk ->
    phase s None ab (scan_line w k) (blocks w k) [] wk
| ph_push s ab w k wk :
    under_way s ab -> (k < lines)%nat -> free_worker wk ->
    phase s None ab (scan_push (mkBlock w k true)) (blocks w k) [] wk
| ph_report s ab w wk :
    under_way s ab -> free_worker wk ->
    phase s None ab (scan_report w) (blocks w lines) [] wk
| ph_post s ab w wk :
    after_scan s -> free_worker wk ->
    phase s None ab (scan_post_wafer w) (blocks w lines) [] wk
| ph_posted s ab w wk :
    after_scan s -> free_worker wk ->
    phase s None ab scan_off (blocks w lines) [kProcessWafer w] wk
| ph_collect s ab w got rest :
    after_scan s -> got ++ rest = blocks w lines ->
    phase s None ab scan_off rest [] (worker_collect w got)
| ph_check s ab w :
    after_scan s -> phase s None ab scan_off [] [] (worker_check w (blocks w lines))
| ph_analyse s ab w :
    after_scan s -> phase s None ab scan_off [] [] (worker_analyse w (blocks w lines))
| ph_recheck ab w v :
    phase kStopping None ab scan_off [] [] (worker_recheck w v)
| ph_cut w k wk :
    (k < lines)%nat -> free_worker wk ->
    phase kStopping None true (scan_push (mkBlock w k false)) (blocks w k) [] wk
| ph_post_discard ab l wk :
    free_worker wk -> phase kStopping None ab scan_post_discard l [] wk
| ph_discard ab l wk :
    free_worker wk -> phase kStopping None ab scan_off l [kDiscardSamples] wk
| ph_discarding ab l :
    phase kStopping None ab scan_off l [] worker_discard
| ph_stopped ab :
    phase kStopping None ab scan_off [] [] worker_stopped.

Definition phase_of (r : Runtime) : Prop :=
  phase (state_ (controller_ r)) (joining r) (abort_requested_ r) (scan_at r) (sample_queue_ r)
    (jobs_ r) (worker_at r).

Record runtime_ok (r : Runtime) : Prop := mkRuntimeOk {
  rt_controller : ctl_ok (controller_ r);
  rt_open : closing r = false;
  rt_phase : phase_of r;
  rt_analysed : Forall (fun p => p.2 = blocks p.1 lines) (analysed r)
}.

(** The one schedule the runtime does not guard against: a Start taken while the
    processing thread is between reporting a result and looking at the state again. *)
Definition hasty_start (l : runtime_label) (r : Runtime) : bool :=
  match l, worker_at r with
  | rt_command (mkCommand (StartCommand _ _) _ _), worker_recheck _ _ => true
  | _, _ => false
  end.

Lemma controller_step_ok i r r' :
  ctl_ok (controller_ r) -> controller_step i r = Some r' ->
  joining r = None /\ exists res c acts, ctl_handle i (controller_ r) = (res, c, acts) /\
    ctl_ok c /\
    r' = foldl (fun r a => driver_call a r) (set_controller c r) (calls acts).
Proof.
  intros Hc. unfold controller_step. destruct (joining r); [done|].
  pose proof (ctl_handle_step i _ Hc) as [Hok _].
  destruct (ctl_handle i (controller_ r)) as [[res c] acts]. intros [= <-].
  split; [done|]. exists res, c, acts. by rewrite driver_calls.
Qed.

Lemma command_ok cmd r r' :
  runtime_ok r -> hasty_start (rt_command cmd) r = false ->
  controller_step (in_command cmd) r = Some r' -> runtime_ok r'.
Proof.
  intros [Hc Ho Hp Ha] Hh Hs.
  destruct (controller_step_ok _ _ _ Hc Hs) as (Hj & res & c & acts & He & Hc' & ->).
  pose proof (command_effect cmd _ Hc) as Hf. rewrite He in Hf. unfold phase_of in Hp.
  rewrite Hj in Hp.
  destruct Hf as [[Es ->]|[(w & slot & Ep & E1 & E2 & ->)|[(E1 & E2 & ->)|(E1 & E2 & ->)]]]; simpl.
  - split; simpl; try done. unfold phase_of. simpl. by rewrite Hj, Es.
  - split; simpl; try done. unfold phase_of. simpl. rewrite E1 in Hp. rewrite E2.
    inversion Hp; subst; unfold under_way, after_scan in *; try naive_solver.
    constructor. destruct cmd as [pl src id]. simpl in Ep, Hh. subst pl.
    destruct (worker_at r); naive_solver.
  - split; simpl; try done. unfold phase_of. simpl. rewrite Hj, E2.
    inversion Hp; subst; unfold under_way, after_scan in *; try naive_solver congruence.
    all: first [apply ph_line|apply ph_push|apply ph_report|apply ph_post|apply ph_posted
               |apply ph_collect|apply ph_check|apply ph_analyse]; unfold under_way, after_scan; auto.
  - split; simpl; try done. unfold phase_of. simpl. rewrite Hj, E2. rewrite E1 in Hp.
    inversion Hp; subst; unfold under_way, after_scan in *; try naive_solver congruence.
    constructor; [by left|done].
Qed.

Lemma phase_scan_active r :
  phase_of r -> scan_at r <> scan_off -> free_worker (worker_at r) /\ jobs_ r = [] /\ joining r = None.
Proof. intros Hp Hs. unfold phase_of in Hp. by inversion Hp. Qed.

Lemma scan_ok r r' : runtime_ok r -> scan_step lines r = Some r' -> runtime_ok r'.
Proof.
  intros [Hc Ho Hp Ha] Hs. pose proof Hp as Hp'. unfold phase_of in Hp. unfold scan_step in Hs.
  destruct (scan_at r) as [|w k|b|w|w|] eqn:Es; [done| | | | |].
  - destruct (Nat.ltb_spec k lines); simplify_eq/=; split; try done; unfold phase_of; simpl.
    + inversion Hp; subst. destruct (abort_requested_ r) eqn:Ea; simpl.
      * match goal with H : under_way _ _ |- _ => destruct H as [[_ ?]|[-> _]] end; [done|].
        by constructor.
      * by constructor.
    + inversion Hp; subst. replace k with lines by lia. by constructor.
  - rewrite Ho in Hs. destruct (Nat.leb_spec (sample_capacity lines) (length (sample_queue_ r)));
      [done|]. simplify_eq/=. split; try done. unfold phase_of. simpl.
    inversion Hp; subst; simpl.
    + rewrite <- blocks_S. by constructor.
    + by constructor.
  - destruct (controller_step _ _) as [r1|] eqn:Er; simplify_eq/=.
    destruct (controller_step_ok _ _ _ Hc Er) as (Hj & res & c & acts & He & Hc' & ->).
    pose proof (scan_complete_effect w _ Hc) as Hf. rewrite He in Hf. destruct Hf as [-> Hst].
    split; try done. unfold phase_of. simpl. rewrite Hst. inversion Hp; subst.
    match goal with H : under_way _ _ |- _ => destruct H as [[-> _]|[-> _]] end; simpl;
      constructor; unfold after_scan; auto.
  - unfold push_job in Hs. rewrite Ho in Hs.
    destruct (phase_scan_active r Hp') as (_ & Hj & _); [by rewrite Es|]. rewrite Hj in Hs.
    simplify_eq/=. split; try done. unfold phase_of. simpl. inversion Hp; subst. by constructor.
  - unfold push_job in Hs. rewrite Ho in Hs.
    destruct (phase_scan_active r Hp') as (_ & Hj & _); [by rewrite Es|]. rewrite Hj in Hs.
    simplify_eq/=. split; try done. unfold phase_of. simpl. inversion Hp; subst. by constructor.
Qed.

Lemma worker_ok v r r' : runtime_ok r -> worker_step lines v r = Some r' -> runtime_ok r'.
Proof.
  intros [Hc Ho Hp Ha] Hs. pose proof Hp as Hp'. unfold phase_of in Hp. unfold worker_step in Hs.
  destruct (worker_at r) as [| | | |w got|w got|w got|w v'|w v'] eqn:Ew.
  - destruct (jobs_ r) as [|[w|] rest] eqn:Ej; [by rewrite Ho in Hs|..]; simplify_eq/=;
      (split; try done); unfold phase_of; simpl; inversion Hp; subst; by constructor.
  - done.
  - destruct (sample_queue_ r) eqn:Eq; simplify_eq/=; (split; try done); unfold phase_of; simpl;
      rewrite ?Eq, ?Ew; inversion Hp; subst; try naive_solver; by constructor.
  - destruct (controller_step _ _) as [r1|] eqn:Er; simplify_eq/=.
    destruct (controller_step_ok _ _ _ Hc Er) as (Hj & res & c & acts & He & Hc' & ->).
    assert (Est : state_ (controller_ r) = kStopping) by (by inversion Hp; naive_solver).
    pose proof (stage_stopped_effect _ Hc Est) as Hf. rewrite He in Hf. destruct Hf as [-> Hst].
    split; try done. unfold phase_of. simpl. rewrite Hst.
    inversion Hp; subst; try naive_solver. constructor; [by left|by left].
  - destruct (Nat.ltb_spec (length got) lines) as [Hlt|Hge].
    + destruct (sample_queue_ r) as [|b rest] eqn:Eq; [by rewrite Ho in Hs|]. simplify_eq/=.
      split; try done. unfold phase_of. simpl. inversion Hp; subst; try naive_solver.
      constructor; [done|]. by rewrite <- app_assoc.
    + simplify_eq/=. split; try done. unfold phase_of. simpl.
      inversion Hp as [| | | | | | |s ab w' got' rest Hst Hrest| | | | | | | |]; subst; try naive_solver.
      pose proof (f_equal length Hrest) as Hl. rewrite length_app, blocks_length in Hl.
      destruct (sample_queue_ r); [|simpl in Hl; lia]. rewrite app_nil_r in Hrest. subst got.
      by constructor.
  - simplify_eq/=. split; try done. unfold phase_of. simpl.
    inversion Hp; subst; try naive_solver. case_bool_decide as E; [rewrite E|]; by constructor.
  - destruct (controller_step _ _) as [r1|] eqn:Er; simplify_eq/=.
    destruct (controller_step_ok _ _ _ Hc Er) as (Hj & res & c & acts & He & Hc' & ->).
    assert (Hph : after_scan (state_ (controller_ r)) /\ got = blocks w lines /\ jobs_ r = [] /\
      scan_at r = scan_off /\ sample_queue_ r = []).
    { inversion Hp; subst; try naive_solver. }
    destruct Hph as (Hst & -> & Ej & Es & Eq).
    pose proof (result_effect (out_of_spec v) (stress_mpa v) (raised v) (reason v) _ Hc Hst) as Hf.
    rewrite He in Hf. destruct Hf as [-> Hf]. split; try done.
    + unfold phase_of. simpl. rewrite Hj, Es, Eq, Ej.
      destruct Hf as [[_ ->]|Hf]; constructor; [done|]. right. by exists w, v.
    + simpl. apply Forall_app. split; [done|]. by apply Forall_singleton.
  - simplify_eq/=. split; try done. unfold phase_of. simpl.
    inversion Hp; subst; try naive_solver.
    + rewrite bool_decide_eq_false_2
        by (match goal with H : _ \/ _ = kAlarm |- _ => destruct H end; congruence).
      constructor; [done|]. by left.
    + rewrite bool_decide_eq_true_2 by done. apply ph_stopped.
  - destruct (raised v'); simplify_eq/=; (split; try done); unfold phase_of; simpl;
      inversion Hp; subst; try naive_solver; constructor; try done; by left.
Qed.

Definition internal (l : runtime_label) : bool :=
  match l with rt_join_done | rt_scan | rt_worker _ => true | _ => false end.

Lemma runtime_step_ok l r r' :
  runtime_ok r -> hasty_start l r = false -> l <> rt_shutdown ->
  runtime_step lines l r = Some r' -> runtime_ok r'.
Proof.
  intros Hr Hh Hl Hs. destruct l as [cmd| | |v|]; simpl in Hs; [| | | |done].
  - by eapply command_ok.
  - destruct Hr as [Hc Ho Hp Ha]. unfold join_done in Hs. unfold phase_of in Hp.
    destruct (joining r) as [w|] eqn:Ej; [|done]. destruct (scan_at r) eqn:Es; [|done..].
    simplify_eq/=. split; try done. unfold phase_of. simpl. inversion Hp; subst.
    apply (ph_line _ _ w 0); [by left|lia|done].
  - by eapply scan_ok.
  - by eapply worker_ok.
Qed.

(** The schedules in which no Start is hasty and the machine is not shut down. *)
Fixpoint orderly (ls : list runtime_label) (r : Runtime) : bool :=
  match ls with
  | [] => true
  | l :: ls =>
      negb (hasty_start l r) && match l with rt_shutdown => false | _ => true end &&
      match runtime_step lines l r with Some r' => orderly ls r' | None => true end
  end.

Lemma runtime_run_ok ls r r' :
  runtime_ok r -> orderly ls r = true -> runtime_run lines ls r = Some r' -> runtime_ok r'.
Proof.
  revert r. induction ls as [|l ls IH]; simpl; intros r Hr Ho Hs; [by simplify_eq|].
  apply andb_prop in Ho as [[Hh Hl]%andb_prop Ho]. apply negb_true_iff in Hh.
  apply bind_Some in Hs as (r1 & H1 & Hs). rewrite H1 in Ho.
  eapply IH; [|exact Ho|exact Hs]. eapply runtime_step_ok; [done..| |exact H1]. by destruct l.
Qed.

Lemma new_runtime_ok : runtime_ok new_runtime.
Proof. split; try done. apply ph_quiet; by left. Qed.

(** ** A run always comes to an end *)

Definition scan_work (a : ScanAt) : nat :=
  match a with
  | scan_off => 0
  | scan_line _ k => 9 + 4 * (lines - k)
  | scan_push b => 8 + 4 * (lines - line_index b)
  | scan_report _ => 8
  | scan_post_wafer _ | scan_post_discard => 7
  end.
Definition worker_work (a : WorkerAt) : nat :=
  match a with
  | worker_exit => 0
  | worker_pop => 1
  | worker_stopped | worker_output _ _ => 2
  | worker_recheck _ _ | worker_discard => 3
  | worker_analyse _ _ => 4
  | worker_check _ _ => 5
  | worker_collect _ _ => 6
  end.
Definition work (r : Runtime) : nat :=
  match joining r with Some _ => 10 + 4 * lines | None => 0 end + scan_work (scan_at r) +
  2 * length (sample_queue_ r) + 6 * length (jobs_ r) + worker_work (worker_at r).

(** What the scan and processing threads tell the controller. *)
Definition notification (i : ctl_input) : bool :=
  match i with in_scan_complete _ | in_result _ _ _ _ _ | in_stage_stopped => true | _ => false end.

(** It never makes the controller call the scan driver. *)
Lemma notification_quiet i c :
  ctl_ok c -> notification i = true -> calls (ctl_handle i c).2 = [].
Proof.
  intros Hc. destruct i as [|w|oos st al why more|id why| |id why|id]; try done; intros _; simpl.
  - unfold notify_scan_complete. ctl_unfold.
    by destruct (transition_cases kLinesComplete default_guards c (proj1 Hc)) as [(s & m & _ & _ & ->)|(? & _ & ->)];
      simpl; rewrite ?calls_publish, ?calls_changed.
  - unfold notify_processing_result. destruct al as [id|].
    + unfold notify_fault. ctl_unfold.
      destruct (transition_cases kFault default_guards c (proj1 Hc)) as [(s & m & _ & _ & ->)|(? & _ & ->)]; simpl; [|done].
      unfold ctl_alarms. destruct (alarms_set id why _) as [a evs]. simpl.
      by rewrite app_nil_r, calls_app, calls_changed, calls_published.
    + ctl_unfold.
      destruct (transition_cases kResultReady (mkGuards true false true more true) c (proj1 Hc))
        as [(s & m & _ & _ & ->)|(? & _ & ->)]; simpl; rewrite ?app_nil_r, ?calls_app, ?calls_changed; by destruct oos.
  - unfold notify_stage_stopped. ctl_unfold.
    by destruct (transition_cases kStageStopped default_guards c (proj1 Hc)) as [(s & m & _ & _ & ->)|(? & _ & ->)];
      simpl; rewrite ?app_nil_r, ?calls_app, ?calls_changed.
Qed.

Lemma notify_work i r r' :
  ctl_ok (controller_ r) -> controller_step i r = Some r' -> notification i = true ->
  exists c, ctl_ok c /\ joining r = None /\ r' = set_controller c r.
Proof.
  intros Hc Hs Hi. destruct (controller_step_ok _ _ _ Hc Hs) as (Hj & res & c & acts & He & Hok & ->).
  pose proof (notification_quiet i _ Hc Hi) as Hq. rewrite He in Hq. cbn [snd] in Hq. rewrite Hq. by exists c.
Qed.

(** A block about to be pushed is one of the scan's lines. *)
Definition push_in_range (r : Runtime) : Prop := forall b, scan_at r = scan_push b -> (line_index b < lines)%nat.

(** Every step of the threads uses up work, in every state. *)
Lemma thread_work l r r' :
  ctl_ok (controller_ r) -> push_in_range r -> internal l = true -> runtime_step lines l r = Some r' ->
  (work r' < work r)%nat.
Proof.
  intros Hc Hp Hl Hs. destruct l as [cmd| | |v|]; try done; simpl in Hs.
  - unfold join_done in Hs. destruct (joining r) eqn:Ej; [|done]. destruct (scan_at r) eqn:Es; [|done..].
    simplify_eq/=. unfold work. simpl. rewrite Ej, Es. simpl. lia.
  - unfold scan_step in Hs. destruct (scan_at r) as [|w k|b|w|w|] eqn:Es; [done| | | | |].
    + destruct (Nat.ltb_spec k lines); simplify_eq/=; unfold work; simpl; rewrite Es; simpl; lia.
    + specialize (Hp b Es). destruct (closing r).
      * destruct (if whole b then _ else _) as [a evs]. simplify_eq/=. unfold work. simpl. rewrite Es.
        destruct (whole b); simpl; lia.
      * destruct (_ <=? _)%nat; [done|]. simplify_eq/=. unfold work. simpl. rewrite Es, length_app.
        destruct (whole b); simpl; lia.
    + destruct (controller_step _ _) as [r1|] eqn:Er; simplify_eq/=.
      destruct (notify_work _ _ _ Hc Er eq_refl) as (c & _ & _ & ->). unfold work. simpl. rewrite Es. simpl. lia.
    + unfold push_job in Hs. destruct (closing r); [|destruct (_ <=? _)%nat; [done|]]; simplify_eq/=;
        unfold work; simpl; rewrite Es, ?length_app; simpl; lia.
    + unfold push_job in Hs. destruct (closing r); [|destruct (_ <=? _)%nat; [done|]]; simplify_eq/=;
        unfold work; simpl; rewrite Es, ?length_app; simpl; lia.
  - unfold worker_step in Hs.
    destruct (worker_at r) as [| | | |w got|w got|w got|w v'|w v'] eqn:Ew; [|done|..].
    + destruct (jobs_ r) as [|[w|] rest] eqn:Ej; [destruct (closing r); [|done]|..]; simplify_eq/=; unfold work; simpl;
        rewrite Ew, Ej; simpl; lia.
    + destruct (sample_queue_ r) eqn:Eq; simplify_eq/=; unfold work; simpl; rewrite Eq, Ew; simpl; lia.
    + destruct (controller_step _ _) as [r1|] eqn:Er; simplify_eq/=.
      destruct (notify_work _ _ _ Hc Er eq_refl) as (c & _ & _ & ->). unfold work. simpl. rewrite Ew. simpl. lia.
    + destruct (_ <? _)%nat; [destruct (sample_queue_ r) eqn:Eq; [destruct (closing r); [|done]|]|];
        simplify_eq/=; unfold work; simpl; rewrite ?Eq, Ew; simpl; lia.
    + simplify_eq/=. unfold work. simpl. rewrite Ew. case_bool_decide; simpl; lia.
    + destruct (controller_step _ _) as [r1|] eqn:Er; simplify_eq/=.
      destruct (notify_work _ _ _ Hc Er eq_refl) as (c & _ & _ & ->). unfold work. simpl. rewrite Ew. simpl. lia.
    + simplify_eq/=. unfold work. simpl. rewrite Ew. case_bool_decide; simpl; lia.
    + destruct (raised v'); simplify_eq/=; unfold work; simpl; rewrite Ew; simpl; lia.
Qed.

Lemma runtime_internal_work l r r' :
  runtime_ok r -> internal l = true -> runtime_step lines l r = Some r' -> (work r' < work r)%nat.
Proof.
  intros [Hc Ho Hp Ha]. apply thread_work; [done|]. intros b Hb. unfold phase_of in Hp. rewrite Hb in Hp.
  by inversion Hp.
Qed.

(** Everything at rest: only a command can move the machine. *)
Definition at_rest (r : Runtime) : Prop :=
  joining r = None /\ scan_at r = scan_off /\ sample_queue_ r = [] /\ jobs_ r = [] /\
  worker_at r = worker_pop /\ (state_ (controller_ r) = kIdle \/ state_ (controller_ r) = kAlarm).

Definition fine : Verdict := mkVerdict false 0 None "".

Lemma runtime_progress r :
  runtime_ok r -> at_rest r \/ exists l r', internal l = true /\ hasty_start l r = false /\
    l <> rt_shutdown /\ runtime_step lines l r = Some r'.
Proof.
  intros [Hc Ho Hp Ha]. unfold phase_of in Hp.
  assert (Hw : (exists r', worker_step lines fine r = Some r') -> exists l r', internal l = true /\
    hasty_start l r = false /\ l <> rt_shutdown /\ runtime_step lines l r = Some r').
  { intros [r' Hr']. by exists (rt_worker fine), r'. }
  assert (Hsc : (exists r', scan_step lines r = Some r') -> exists l r', internal l = true /\
    hasty_start l r = false /\ l <> rt_shutdown /\ runtime_step lines l r = Some r').
  { intros [r' Hr']. by exists rt_scan, r'. }
  assert (Hn : joining r = None -> forall i, is_Some (controller_step i r)).
  { intros Hj i. unfold controller_step. rewrite Hj. destruct (ctl_handle _ _) as [[? ?] ?]. done. }
  destruct (joining r) as [w|] eqn:Ej.
  { right. exists rt_join_done. simpl. unfold join_done. rewrite Ej.
    assert (scan_at r = scan_off) as -> by (by inversion Hp). by eexists. }
  specialize (Hn eq_refl). destruct (scan_at r) as [|w k|b|w|w|] eqn:Es.
  - destruct (worker_at r) as [| | | |w got|w got|w got|w v'|w v'] eqn:Ew.
    + destruct (jobs_ r) as [|j rest] eqn:Eq.
      * left. unfold at_rest. rewrite Ej, Es, Eq, Ew.
        inversion Hp; subst; split_and!; naive_solver.
      * right. apply Hw. unfold worker_step. rewrite Ew, Eq. destruct j; by eexists.
    + inversion Hp; subst; naive_solver.
    + right. apply Hw. unfold worker_step. rewrite Ew. destruct (sample_queue_ r); by eexists.
    + right. apply Hw. unfold worker_step. rewrite Ew.
      destruct (Hn in_stage_stopped) as [r1 ->]. by eexists.
    + right. apply Hw. unfold worker_step. rewrite Ew. case_match eqn:El; [|by eexists].
      apply Nat.ltb_lt in El. destruct (sample_queue_ r) as [|b rest] eqn:Eq; [|by eexists].
      exfalso. assert (Hg : got ++ [] = blocks w lines) by (inversion Hp; naive_solver).
      apply (f_equal length) in Hg. rewrite app_nil_r, blocks_length in Hg. lia.
    + right. apply Hw. unfold worker_step. rewrite Ew. by eexists.
    + right. apply Hw. unfold worker_step. rewrite Ew.
      match goal with |- context [controller_step ?i r] => destruct (Hn i) as [r1 ->] end.
      by eexists.
    + right. apply Hw. unfold worker_step. rewrite Ew. by eexists.
    + right. apply Hw. unfold worker_step. rewrite Ew. by eexists.
  - right. apply Hsc. unfold scan_step. rewrite Es. case_match; by eexists.
  - right. apply Hsc. unfold scan_step. rewrite Es, Ho.
    assert (Hl : (length (sample_queue_ r) < lines)%nat).
    { inversion Hp; subst; rewrite blocks_length; lia. }
    rewrite (proj2 (Nat.leb_gt _ _)) by (unfold sample_capacity; lia). by eexists.
  - right. apply Hsc. unfold scan_step. rewrite Es.
    destruct (Hn (in_scan_complete w)) as [r1 ->]. by eexists.
  - right. apply Hsc. unfold scan_step, push_job. rewrite Es, Ho.
    assert (jobs_ r = []) as -> by (by inversion Hp). by eexists.
  - right. apply Hsc. unfold scan_step, push_job. rewrite Es, Ho.
    assert (jobs_ r = []) as -> by (by inversion Hp). by eexists.
Qed.

Lemma runtime_settles r :
  runtime_ok r -> exists ls r', Forall (fun l => internal l = true) ls /\
    runtime_run lines ls r = Some r' /\ runtime_ok r' /\ at_rest r'.
Proof.
  induction r as [r IH] using (well_founded_ind (well_founded_ltof _ work)). intros Hr.
  destruct (runtime_progress r Hr) as [Hs|(l & r1 & Hi & Hh & Hl & Hs)]; [by exists [], r|].
  destruct (IH r1) as (ls & r' & Hf & Hrun & Hok & Hrest).
  - by eapply runtime_internal_work.
  - by eapply runtime_step_ok.
  - exists (l :: ls), r'. split_and!; try done; [by constructor|simpl; by rewrite Hs].
Qed.

Lemma internal_orderly l r : internal l = true -> hasty_start l r = false /\ l <> rt_shutdown.
Proof. by destruct l. Qed.

Lemma runtime_internal_bound ls r r' :
  runtime_ok r -> Forall (fun l => internal l = true) ls -> runtime_run lines ls r = Some r' ->
  (length ls <= work r)%nat.
Proof.
  intros Hr Hf. revert r Hr. induction Hf as [|l ls Hl Hf IH]; intros r Hr Hs; simpl in *; [lia|].
  apply bind_Some in Hs as (r1 & H1 & Hs). destruct (internal_orderly l r Hl) as [Hh Hne].
  assert (Hr1 : runtime_ok r1) by (by eapply runtime_step_ok).
  specialize (IH r1 Hr1 Hs). pose proof (runtime_internal_work l r r1 Hr Hl H1). lia.
Qed.

(** [C33] One wafer at a time, whole, in every run in which no Start is taken between a result and the
    processing thread's second look at the state and nothing is shut down ([orderly]; a Start
    in that gap can leave the machine waiting for ever: [hasty_start_hangs]). Whatever
    commands arrive, aborts included, and
    however the threads interleave: every wafer analysed was
    analysed from exactly its own lines, each once and in order, even right after an
    aborted scan; the sample queue never fills, so the scan thread never blocks; and
    left alone the machine always comes to rest in Idle or Alarm, with both queues
    empty, after at most [work r] steps. *)
Theorem wafers_analysed_whole ls r :
  orderly ls new_runtime = true -> runtime_run lines ls new_runtime = Some r ->
  Forall (fun p => p.2 = blocks p.1 lines) (analysed r) /\
  (forall b, scan_at r = scan_push b -> (length (sample_queue_ r) < sample_capacity lines)%nat) /\
  (forall ls' r', Forall (fun l => internal l = true) ls' -> runtime_run lines ls' r = Some r' ->
     (length ls' <= work r)%nat) /\
  exists ls' r', Forall (fun l => internal l = true) ls' /\ runtime_run lines ls' r = Some r' /\
    at_rest r'.
Proof.
  intros Ho Hs. pose proof (runtime_run_ok ls _ r new_runtime_ok Ho Hs) as Hr.
  split_and!.
  - apply Hr.
  - intros b Hb. pose proof (rt_phase r Hr) as Hp. unfold phase_of in Hp. rewrite Hb in Hp.
    unfold sample_capacity. inversion Hp; subst; rewrite blocks_length; lia.
  - intros ls' r' Hf Hr'. by eapply runtime_internal_bound.
  - destruct (runtime_settles r Hr) as (ls' & r' & Hf & Hr' & _ & Hrest). by exists ls', r'.
Qed.

End phases.

(** ** Concrete runs *)

#[local] Existing Instance ascending_order.

Definition ui_start (w : string) : runtime_label := rt_command (mkCommand (StartCommand w 1) kUi 1).
Definition ui_abort : runtime_label := rt_command (mkCommand AbortCommand kUi 1).
Definition worker_fine : runtime_label := rt_worker fine.

(** A scan of two lines, its analysis, and the start of an aborted one. *)
Definition scan_run (w : string) : list runtime_label :=
  ui_start w :: rt_join_done :: replicate 7 rt_scan.
Definition aborted_after : list runtime_label :=
  scan_run "W001" ++ replicate 7 worker_fine ++ [ui_start "W002"; rt_join_done; rt_scan; rt_scan; ui_abort].

Definition runtime_after (ls : list runtime_label) : Runtime :=
  default new_runtime (runtime_run 2 ls new_runtime).

Lemma wafers_analysed_whole_witness :
  map fst (analysed (runtime_after aborted_after)) = ["W001"%string] /\
  state_ (controller_ (runtime_after aborted_after)) = kStopping /\
  Forall (fun p => p.2 = blocks p.1 2) (analysed (runtime_after aborted_after)).
Proof.
  split_and!; [vm_compute; reflexivity|vm_compute; reflexivity|].
  refine (proj1 (wafers_analysed_whole 2 aborted_after _ _ _)); vm_compute; reflexivity.
Defined.

(** The schedule that is left open. W002 is started, and aborted, between the result of
    W001 and the processing thread's second look: the thread takes the Stopping of
    W002 for its own and reports the stage stopped while W002 is still being scanned.
    W001's result is never published; W003, started at once, loses blocks to the
    discard that W002's scan thread posts; and the machine then waits in Processing
    for lines that no one will send. *)
Definition hasty_run : list runtime_label :=
  scan_run "W001" ++ replicate 6 worker_fine ++
  [ui_start "W002"; rt_join_done; rt_scan; rt_scan; ui_abort; worker_fine; worker_fine;
   ui_start "W003"; rt_scan; rt_scan; rt_scan; rt_join_done; rt_scan; rt_scan] ++
  replicate 6 worker_fine ++ replicate 5 rt_scan ++ replicate 2 worker_fine.

Lemma hasty_start_hangs :
  let r := runtime_after hasty_run in
  runtime_run 2 hasty_run new_runtime = Some r /\
  state_ (controller_ r) = kProcessing /\ published r = [] /\
  scan_at r = scan_off /\ joining r = None /\
  (forall v, runtime_step 2 (rt_worker v) r = None).
Proof. vm_compute. repeat split. Qed.
