(* ===== verification/Shutdown.v ===== *)
(** * Shutting the machine down

    MachineRuntime::shutdown of src/machine/machine_runtime.cpp with Controller::stop of
    src/core/controller.cpp, as the program of the destroying thread beside the threads of
    MachineRuntime. It may begin in any state of the machine, however unlucky the schedule
    that led there, as long as no one is inside a command, which is what the header asks of
    the owner. The link to the host and the logger are stopped before and after. *)

From S2P Require Import ProcessFsm Controller MachineRuntime Prelude.

(** What the destroying thread does next. *)
Inductive ShutdownAt :=
| at_request_abort
| at_close_queues
| at_join_worker
| at_stop_controller
| at_join_scan
| at_close_inbox
| at_join_controller
| shutdown_done.

(** The two queues are closed in one step. *)
Record Shutdown := mkShutdown {
  machine_ : Runtime;
  shutdown_at : ShutdownAt;
  inbox_closed : bool;
  controller_exited : bool
}.

Definition set_machine (r : Runtime) (s : Shutdown) : Shutdown :=
  mkShutdown r (shutdown_at s) (inbox_closed s) (controller_exited s).
Definition go_to (a : ShutdownAt) (s : Shutdown) : Shutdown :=
  mkShutdown (machine_ s) a (inbox_closed s) (controller_exited s).

Definition begin_shutdown (r : Runtime) : Shutdown := mkShutdown r at_request_abort false false.

Section shutdown.
Context {order : HashOrder} (lines : nat).

(** The next step of a thread waits for the controller. *)
Definition scan_asks (r : Runtime) : bool := match scan_at r with scan_report _ => true | _ => false end.
Definition worker_asks (r : Runtime) : bool :=
  match worker_at r with worker_stopped | worker_analyse _ _ => true | _ => false end.

Inductive shutdown_label :=
| sd_join_done
| sd_scan
| sd_worker (v : Verdict)
| sd_controller
| sd_main.

(** A request to a closed inbox is dropped, and its thread waits for an answer for ever. *)
Definition shutdown_step (l : shutdown_label) (s : Shutdown) : option Shutdown :=
  let r := machine_ s in
  match l with
  | sd_join_done => r ← runtime_step lines rt_join_done r; Some (set_machine r s)
  | sd_scan =>
      if inbox_closed s && scan_asks r then None else r ← runtime_step lines rt_scan r; Some (set_machine r s)
  | sd_worker v =>
      if inbox_closed s && worker_asks r then None else r ← runtime_step lines (rt_worker v) r; Some (set_machine r s)
  | sd_controller =>
      if inbox_closed s && negb (controller_exited s) && bool_decide (joining r = None)
      then Some (mkShutdown r (shutdown_at s) (inbox_closed s) true) else None
  | sd_main =>
      match shutdown_at s with
      | at_request_abort => Some (go_to at_close_queues (set_machine (set_abort true r) s))
      | at_close_queues => Some (go_to at_join_worker (set_machine (set_closing r) s))
      | at_join_worker =>
          match worker_at r with worker_exit => Some (go_to at_stop_controller s) | _ => None end
      | at_stop_controller => Some (go_to at_join_scan (set_machine (set_abort true r) s))
      | at_join_scan => match scan_at r with scan_off => Some (go_to at_close_inbox s) | _ => None end
      | at_close_inbox => Some (mkShutdown r at_join_controller true (controller_exited s))
      | at_join_controller => if controller_exited s then Some (go_to shutdown_done s) else None
      | shutdown_done => None
      end
  end.

Fixpoint shutdown_run (ls : list shutdown_label) (s : Shutdown) : option Shutdown :=
  match ls with
  | [] => Some s
  | l :: ls => shutdown_step l s ≫= shutdown_run ls
  end.

(** ** States from which it ends *)

Definition sane (r : Runtime) : Prop := ctl_ok (controller_ r) /\ push_in_range lines r.

Lemma driver_calls_scan acts (r : Runtime) :
  controller_ (foldl (fun r a => driver_call a r) r acts) = controller_ r /\
  scan_at (foldl (fun r a => driver_call a r) r acts) = scan_at r.
Proof.
  revert r. induction acts as [|a acts IH]; intros r; [done|]. cbn [foldl].
  destruct (IH (driver_call a r)) as [-> ->]. by destruct a.
Qed.

Lemma controller_step_sane i r r' : sane r -> controller_step i r = Some r' -> sane r'.
Proof.
  intros [Hc Hp] Hs. destruct (controller_step_ok _ _ _ Hc Hs) as (_ & res & c & acts & _ & Hok & ->).
  destruct (driver_calls_scan (calls acts) (set_controller c r)) as [E1 E2]. split.
  - by rewrite E1.
  - intros b. rewrite E2. apply Hp.
Qed.

Lemma sane_same r r' : controller_ r' = controller_ r -> scan_at r' = scan_at r -> sane r -> sane r'.
Proof. intros E1 E2 [Hc Hp]. split; [by rewrite E1|]. intros b. rewrite E2. apply Hp. Qed.

(** Any step of the machine, whatever was scheduled before. *)
Lemma runtime_step_sane l r r' : sane r -> runtime_step lines l r = Some r' -> sane r'.
Proof.
  intros Hs. pose proof Hs as [Hc Hp]. destruct l as [cmd| | |v|]; cbn [runtime_step].
  - by apply controller_step_sane.
  - unfold join_done. destruct (joining r) as [w|]; [|done]. destruct (scan_at r); [|done..]. intros [= <-]. by split.
  - unfold scan_step. destruct (scan_at r) as [|w k|b|w|w|] eqn:Es; [done| | | | |].
    + destruct (Nat.ltb_spec k lines) as [Hlt|]; intros [= <-]; (split; [done|]); intros b; cbn; by intros [= <-].
    + destruct (closing r).
      * destruct (whole b) eqn:Ew.
        -- destruct (alarms_set _ _ _) as [a evs]. intros [= <-]. split; [by apply set_alarms_ok|]. intros b'. done.
        -- intros [= <-]. split; [by apply set_alarms_ok|]. intros b'. done.
      * destruct (_ <=? _)%nat; [done|]. intros [= <-]. split; [done|]. intros b'. cbn. by destruct (whole b).
    + destruct (controller_step _ r) as [r1|] eqn:E; [|done]. intros [= <-].
      destruct (controller_step_sane _ _ _ Hs E) as [Hc1 _]. by split.
    + unfold push_job. destruct (closing r); [|destruct (_ <=? _)%nat; [done|]]; intros [= <-]; by split.
    + unfold push_job. destruct (closing r); [|destruct (_ <=? _)%nat; [done|]]; intros [= <-]; by split.
  - unfold worker_step. destruct (worker_at r) as [| | | |w got|w got|w got|w v'|w v'] eqn:Ew; [|done|..].
    + destruct (jobs_ r) as [|[w|] rest]; [destruct (closing r); [|done]|..]; intros [= <-]; by apply (sane_same r).
    + destruct (sample_queue_ r); intros [= <-]; by apply (sane_same r).
    + destruct (controller_step _ r) as [r1|] eqn:E; [|done]. intros [= <-].
      apply (sane_same r1); [done..|]. by eapply controller_step_sane.
    + destruct (_ <? _)%nat; [destruct (sample_queue_ r); [destruct (closing r); [|done]|]|]; intros [= <-]; by apply (sane_same r).
    + intros [= <-]. by apply (sane_same r).
    + destruct (controller_step _ r) as [r1|] eqn:E; [|done]. intros [= <-].
      apply (sane_same r1); [done..|]. by eapply controller_step_sane.
    + intros [= <-]. by apply (sane_same r).
    + intros [= <-]. destruct (raised v'); by apply (sane_same r).
  - intros [= <-]. by apply (sane_same r).
Qed.

Lemma runtime_run_sane ls : forall r r', sane r -> runtime_run lines ls r = Some r' -> sane r'.
Proof.
  induction ls as [|l ls IH]; intros r r' Hs; cbn [runtime_run]; [by intros [= <-]|].
  intros (r1 & H1 & H2)%bind_Some. eapply IH; [|exact H2]. by eapply runtime_step_sane.
Qed.

(** What the steps of the threads leave alone. *)
Lemma thread_step_keeps l r r' : sane r -> internal l = true -> joining r = None -> runtime_step lines l r = Some r' ->
  joining r' = None /\ closing r' = closing r /\
  (worker_at r = worker_exit -> worker_at r' = worker_exit) /\ (scan_at r = scan_off -> scan_at r' = scan_off).
Proof.
  intros [Hc Hp] Hl Hj. destruct l as [cmd| | |v|]; try done; cbn [runtime_step].
  - unfold join_done. by rewrite Hj.
  - unfold scan_step. destruct (scan_at r) as [|w k|b|w|w|] eqn:Es; [done| | | | |].
    + destruct (_ <? _)%nat; intros [= <-]; by split_and!.
    + destruct (closing r) eqn:Ec; [destruct (if whole b then _ else _) as [a evs]|destruct (_ <=? _)%nat; [done|]];
        intros [= <-]; by split_and!.
    + destruct (controller_step _ r) as [r1|] eqn:E; [|done]. intros [= <-].
      destruct (notify_work _ _ _ Hc E eq_refl) as (c & _ & _ & ->). by split_and!.
    + unfold push_job. destruct (closing r) eqn:Ec; [|destruct (_ <=? _)%nat; [done|]]; intros [= <-]; by split_and!.
    + unfold push_job. destruct (closing r) eqn:Ec; [|destruct (_ <=? _)%nat; [done|]]; intros [= <-]; by split_and!.
  - unfold worker_step. destruct (worker_at r) as [| | | |w got|w got|w got|w v'|w v'] eqn:Ew; [|done|..].
    + destruct (jobs_ r) as [|[w|] rest]; [destruct (closing r) eqn:Ec; [|done]|..]; intros [= <-]; by split_and!.
    + destruct (sample_queue_ r); intros [= <-]; by split_and!.
    + destruct (controller_step _ r) as [r1|] eqn:E; [|done]. intros [= <-].
      destruct (notify_work _ _ _ Hc E eq_refl) as (c & _ & _ & ->). by split_and!.
    + destruct (_ <? _)%nat; [destruct (sample_queue_ r); [destruct (closing r) eqn:Ec; [|done]|]|]; intros [= <-]; by split_and!.
    + intros [= <-]. by split_and!.
    + destruct (controller_step _ r) as [r1|] eqn:E; [|done]. intros [= <-].
      destruct (notify_work _ _ _ Hc E eq_refl) as (c & _ & _ & ->). by split_and!.
    + intros [= <-]. by split_and!.
    + intros [= <-]. destruct (raised v'); by split_and!.
Qed.

(** With the queues closed and the controller free no thread waits for another. *)
Lemma closed_scan_moves r : closing r = true -> joining r = None -> scan_at r <> scan_off ->
  is_Some (runtime_step lines rt_scan r).
Proof.
  intros Hc Hj Hs. cbn [runtime_step]. unfold scan_step, push_job, controller_step. rewrite Hc, Hj.
  destruct (scan_at r); [done| | | | |]; try by eexists.
  - destruct (_ <? _)%nat; by eexists.
  - destruct (if whole b then _ else _). by eexists.
  - destruct (ctl_handle _ _) as [[? ?] ?]. by eexists.
Qed.

Lemma closed_worker_moves v r : closing r = true -> joining r = None -> worker_at r <> worker_exit ->
  is_Some (runtime_step lines (rt_worker v) r).
Proof.
  intros Hc Hj Hw. cbn [runtime_step]. unfold worker_step, controller_step. rewrite Hc, Hj.
  destruct (worker_at r); try done; try by eexists.
  - destruct (jobs_ r) as [|[]]; by eexists.
  - destruct (sample_queue_ r); by eexists.
  - destruct (ctl_handle _ _) as [[? ?] ?]. by eexists.
  - destruct (_ <? _)%nat; [destruct (sample_queue_ r)|]; by eexists.
  - destruct (ctl_handle _ _) as [[? ?] ?]. by eexists.
Qed.

(** How far the destroying thread is. *)
Definition progress_of (a : ShutdownAt) : nat :=
  match a with
  | at_request_abort => 0 | at_close_queues => 1 | at_join_worker => 2 | at_stop_controller => 3
  | at_join_scan => 4 | at_close_inbox => 5 | at_join_controller => 6 | shutdown_done => 7
  end.

Record shutdown_ok (s : Shutdown) : Prop := mkShutdownOk {
  sd_sane : sane (machine_ s);
  sd_free : joining (machine_ s) = None;
  sd_closed : (2 <= progress_of (shutdown_at s))%nat -> closing (machine_ s) = true;
  sd_worker_gone : (3 <= progress_of (shutdown_at s))%nat -> worker_at (machine_ s) = worker_exit;
  sd_scan_gone : (5 <= progress_of (shutdown_at s))%nat -> scan_at (machine_ s) = scan_off;
  sd_inbox : inbox_closed s = (6 <=? progress_of (shutdown_at s))%nat;
  sd_exited : controller_exited s = true -> inbox_closed s = true;
  sd_joined : shutdown_at s = shutdown_done -> controller_exited s = true
}.

Lemma thread_step_ok l r s : shutdown_ok s -> internal l = true -> runtime_step lines l (machine_ s) = Some r ->
  shutdown_ok (set_machine r s).
Proof.
  intros [Hs Hf Hc Hw Hg Hi He Hj] Hl Hr.
  destruct (thread_step_keeps l _ r Hs Hl Hf Hr) as (K1 & K2 & K3 & K4). split; cbn; try done.
  - by eapply runtime_step_sane.
  - rewrite K2. exact Hc.
  - intros H. by apply K3, Hw.
  - intros H. by apply K4, Hg.
Qed.

Lemma shutdown_step_ok l s s' : shutdown_ok s -> shutdown_step l s = Some s' -> shutdown_ok s'.
Proof.
  intros Hok. pose proof Hok as [Hs Hf Hc Hw Hg Hi He Hj]. destruct l as [| |v| |]; cbn [shutdown_step].
  - intros (r & Hr & [= <-])%bind_Some. by eapply (thread_step_ok rt_join_done).
  - case_match; [done|]. intros (r & Hr & [= <-])%bind_Some. by eapply (thread_step_ok rt_scan).
  - case_match; [done|]. intros (r & Hr & [= <-])%bind_Some. by eapply (thread_step_ok (rt_worker v)).
  - destruct (inbox_closed s) eqn:Ei; [|done]. destruct (controller_exited s); [done|]. case_bool_decide; [|done].
    intros [= <-]. by split.
  - destruct (shutdown_at s) eqn:Ea; cbn [progress_of] in *; try (intros [= <-]; split; cbn; rewrite ?Ea; cbn; try done; try lia; intros; first [apply Hc; lia|apply Hw; lia|apply Hg; lia]).
    + destruct (worker_at (machine_ s)) eqn:Ew; try done. intros [= <-]. split; cbn; try done; try lia; intros; first [apply Hc; lia|apply Hw; lia|apply Hg; lia].
    + destruct (scan_at (machine_ s)) eqn:Es; try done. intros [= <-]. split; cbn; try done; try lia; intros; first [apply Hc; lia|apply Hw; lia|apply Hg; lia].
    + destruct (controller_exited s) eqn:Ex; [|done]. intros [= <-]. split; cbn; try done; try lia; intros; first [apply Hc; lia|apply Hw; lia|apply Hg; lia].
Qed.

(** Steps left. *)
Definition shutdown_work (s : Shutdown) : nat :=
  work lines (machine_ s) + (7 - progress_of (shutdown_at s)) + (if controller_exited s then 0 else 1).

Lemma shutdown_step_work l s s' : shutdown_ok s -> shutdown_step l s = Some s' -> (shutdown_work s' < shutdown_work s)%nat.
Proof.
  intros [[Hctl Hp] Hf _ _ _ _ _ _]. unfold shutdown_work.
  assert (Ht : forall l r, internal l = true -> runtime_step lines l (machine_ s) = Some r -> (work lines r < work lines (machine_ s))%nat)
    by (intros; by eapply thread_work).
  destruct l as [| |v| |]; cbn [shutdown_step].
  - intros (r & Hr & [= <-])%bind_Some. specialize (Ht rt_join_done r eq_refl Hr). cbn. lia.
  - case_match; [done|]. intros (r & Hr & [= <-])%bind_Some. specialize (Ht rt_scan r eq_refl Hr). cbn. lia.
  - case_match; [done|]. intros (r & Hr & [= <-])%bind_Some. specialize (Ht (rt_worker v) r eq_refl Hr). cbn. lia.
  - destruct (inbox_closed s), (controller_exited s); try done. case_bool_decide; [|done]. intros [= <-]. cbn. lia.
  - destruct (shutdown_at s) eqn:Ea; try (intros [= <-]; unfold work; cbn; lia).
    + destruct (worker_at (machine_ s)); try done. intros [= <-]. cbn. lia.
    + destruct (scan_at (machine_ s)); try done. intros [= <-]. cbn. lia.
    + destruct (controller_exited s) eqn:Ex; [|done]. intros [= <-]. cbn. rewrite Ex. lia.
Qed.

Lemma shutdown_moves (v : Verdict) s : shutdown_ok s -> shutdown_at s <> shutdown_done -> exists l, is_Some (shutdown_step l s).
Proof.
  intros [Hs Hf Hc Hw Hg Hi He Hj] Ha. destruct (shutdown_at s) eqn:Ea; cbn [progress_of] in *; try done.
  - exists sd_main. cbn. rewrite Ea. by eexists.
  - exists sd_main. cbn. rewrite Ea. by eexists.
  - assert (Hd : worker_at (machine_ s) = worker_exit \/ worker_at (machine_ s) <> worker_exit)
      by (destruct (worker_at (machine_ s)); auto). destruct Hd as [E|E].
    + exists sd_main. cbn. rewrite Ea, E. by eexists.
    + exists (sd_worker v). cbn [shutdown_step]. rewrite Hi. cbn [Nat.leb andb].
      destruct (closed_worker_moves v (machine_ s) (Hc ltac:(lia)) Hf E) as [r ->]. by eexists.
  - exists sd_main. cbn. rewrite Ea. by eexists.
  - assert (Hd : scan_at (machine_ s) = scan_off \/ scan_at (machine_ s) <> scan_off)
      by (destruct (scan_at (machine_ s)); auto). destruct Hd as [E|E].
    + exists sd_main. cbn. rewrite Ea, E. by eexists.
    + exists sd_scan. cbn [shutdown_step]. rewrite Hi. cbn [Nat.leb andb].
      destruct (closed_scan_moves (machine_ s) (Hc ltac:(lia)) Hf E) as [r ->]. by eexists.
  - exists sd_main. cbn. rewrite Ea. by eexists.
  - destruct (controller_exited s) eqn:Ex.
    + exists sd_main. cbn. rewrite Ea, Ex. by eexists.
    + exists sd_controller. cbn. rewrite Hi, Ex, Hf. by eexists.
Qed.

Lemma begin_ok r : sane r -> joining r = None -> shutdown_ok (begin_shutdown r).
Proof. intros Hs Hj. split; cbn; try done; lia. Qed.

Lemma shutdown_run_ok ls : forall s s', shutdown_ok s -> shutdown_run ls s = Some s' ->
  shutdown_ok s' /\ (length ls + shutdown_work s' <= shutdown_work s)%nat.
Proof.
  induction ls as [|l ls IH]; intros s s' Hok; cbn [shutdown_run]; [intros [= <-]; split; [done|cbn; lia]|].
  intros (s1 & H1 & H2)%bind_Some. pose proof (shutdown_step_work _ _ _ Hok H1).
  destruct (IH s1 s' ltac:(by eapply shutdown_step_ok) H2) as [H3 H4]. split; [done|]. cbn. lia.
Qed.

(** [C32] Shutting down ends, if no one is inside a command, which the header of MachineRuntime asks
    of the owner: from every state the machine can get into in which no start waits for the
    scan thread (otherwise it may hang: [pending_start_hangs]), under any schedule and even one that has
    left its processing thread waiting for ever, every interleaving of the destroying thread with the
    others takes at most [work r + 8] steps, and where none can take another step the scan,
    processing and controller threads have ended and the destroying thread is through. *)
Theorem shutdown_ends ls r : runtime_run lines ls new_runtime = Some r -> joining r = None ->
  forall ls' s, shutdown_run ls' (begin_shutdown r) = Some s ->
    (length ls' <= work lines r + 8)%nat /\
    ((forall l, shutdown_step l s = None) ->
       shutdown_at s = shutdown_done /\ scan_at (machine_ s) = scan_off /\
       worker_at (machine_ s) = worker_exit /\ controller_exited s = true).
Proof.
  intros Hr Hj ls' s Hs.
  assert (Hn : sane new_runtime) by (by split; [split|]).
  pose proof (begin_ok r (runtime_run_sane ls _ r Hn Hr) Hj) as Hb.
  destruct (shutdown_run_ok ls' _ _ Hb Hs) as [Hok Hw]. split.
  - unfold shutdown_work at 2 in Hw. cbn in Hw. lia.
  - intros Hstuck. assert (Ha : shutdown_at s = shutdown_done).
    { destruct (decide (progress_of (shutdown_at s) = 7%nat)) as [E|E]; [by destruct (shutdown_at s)|].
      destruct (shutdown_moves fine s Hok) as [l [s' Hl]]; [intros Hd; by rewrite Hd in E|]. by rewrite Hstuck in Hl. }
    destruct Hok as [_ _ _ H3 H5 _ _ Hx]. rewrite Ha in *. cbn [progress_of] in *. split_and!; auto with lia.
Qed.

End shutdown.

(** ** The machine that hangs can be shut down *)

#[local] Existing Instance ascending_order.

Definition hung_shutdown : list shutdown_label :=
  [sd_main; sd_main; sd_worker fine; sd_worker fine; sd_main; sd_main; sd_main; sd_main; sd_controller; sd_main].

Lemma shutdown_ends_witness :
  exists s, shutdown_run 2 hung_shutdown (begin_shutdown (runtime_after hasty_run)) = Some s /\
    (length hung_shutdown <= work 2 (runtime_after hasty_run) + 8)%nat /\ shutdown_at s = shutdown_done.
Proof.
  assert (Hex : exists s, shutdown_run 2 hung_shutdown (begin_shutdown (runtime_after hasty_run)) = Some s /\
    shutdown_at s = shutdown_done /\ worker_at (machine_ s) = worker_exit /\ scan_at (machine_ s) = scan_off /\
    joining (machine_ s) = None /\ controller_exited s = true).
  { vm_compute. eexists. split; [reflexivity|]. repeat split. }
  destruct Hex as (s & Hs & Ha & Hw & Hsc & Hj & Hx). exists s. split; [exact Hs|].
  destruct (shutdown_ends 2 hasty_run (runtime_after hasty_run)) with (ls' := hung_shutdown) (s := s) as [Hlen Hend].
  - vm_compute. reflexivity.
  - vm_compute. reflexivity.
  - exact Hs.
  - split; [exact Hlen|]. apply Hend. intros l. destruct l; cbn [shutdown_step runtime_step].
    + unfold join_done. rewrite Hj. reflexivity.
    + unfold scan_step. rewrite Hsc. destruct (_ && _); reflexivity.
    + unfold worker_step. rewrite Hw. destruct (_ && _); reflexivity.
    + rewrite Hx. rewrite andb_false_r. reflexivity.
    + rewrite Ha. reflexivity.
Defined.

(** Shutting down while a command is inside the machine, which the header of MachineRuntime forbids:
    a start that waits for the previous scan then begins its scan after the others were
    joined, and the scan thread waits for ever for an answer of the closed inbox. *)
Definition pending_start : list runtime_label := [ui_start "W001"].
Definition pending_shutdown : list shutdown_label :=
  [sd_main; sd_main; sd_worker fine; sd_main; sd_main; sd_main; sd_main; sd_join_done; sd_controller; sd_main] ++
  replicate 5 sd_scan.

Lemma pending_start_hangs :
  let r := runtime_after pending_start in
  runtime_run 2 pending_start new_runtime = Some r /\ is_Some (joining r) /\
  exists s, shutdown_run 2 pending_shutdown (begin_shutdown r) = Some s /\
    scan_at (machine_ s) = scan_report "W001" /\ forall l, shutdown_step 2 l s = None.
Proof.
  cbv zeta. split; [vm_compute; reflexivity|]. split; [vm_compute; by eexists|].
  vm_compute. eexists. split; [reflexivity|]. split; [reflexivity|]. by intros [].
Qed.
