(* ===== verification/WaferPipeline.v ===== *)
(** * From the lines of a wafer to its verdict

    src/analysis/quality_gates.cpp, wafer_map.cpp and pipeline.cpp, and the verdict of [process_wafer] in src/machine/machine_runtime.cpp.
    The two calls of the pool are runs of [FitPool] under any schedule; [hypot], [atan2] and
    the sort of the C++ library are parameters. *)

From Stdlib Require Import Floats.SpecFloat.
From S2P Require Import CLibrary FloatOrder LineFilter Controller FitPool ScanThread WaferFit WaferStress ConfigFile MachineRuntime Prelude.

#[local] Abbreviation dz := double_of_Z.
#[local] Abbreviation dr := double_of_ratio.

(** ** Quality gates *)

Inductive QualityIssue := kNone | kPoorFit | kImplausible.

#[global] Instance QualityIssue_eq_dec : EqDecision QualityIssue.
Proof. solve_decision. Defined.

Record QualityGateResult := mkQuality { issue : QualityIssue; gate_out_of_spec : bool }.

Definition evaluate_quality (max_fit_rms_m fit_rms_limit_m stress_pa plausible_low_pa plausible_high_pa
    spec_low_pa spec_high_pa : double) : QualityGateResult :=
  if SFltb fit_rms_limit_m max_fit_rms_m then mkQuality kPoorFit false
  else if negb (is_finite stress_pa) || SFltb stress_pa plausible_low_pa || SFltb plausible_high_pa stress_pa
  then mkQuality kImplausible false
  else mkQuality kNone (SFltb stress_pa spec_low_pa || SFltb spec_high_pa stress_pa).

(** ** The wafer map *)

(** The functions of the C++ library the map uses: [std::hypot], [std::atan2], the order
    [std::sort] leaves rays of equal angle in, and the result of converting to [int] a
    double that does not fit, which is undefined. *)
Record DirectedRay := mkRay { ray_angle : double; ray_a : double; ray_b : double; ray_c : double }.

Class MapLibrary := {
  hypot : double -> double -> double;
  atan2 : double -> double -> double;
  sort_rays : list DirectedRay -> list DirectedRay;
  undefined_int : Z
}.

Record WaferMap := mkWaferMap {
  map_width : Z;
  map_height : Z;
  grid_mm : double;
  diameter_m : double;
  heights_m : list double
}.

Definition no_map : WaferMap := mkWaferMap 0 0 dzero dzero [].

(** The literal 3.14159265358979323846. *)
Definition kPi : double := S754_finite false 7074237752028440 (-51).
Definition two_pi : double := dmul (dz 2) kPi.

Fixpoint turn_up (fuel : nat) (theta : double) : option double :=
  if SFltb theta dzero then
    match fuel with O => None | S fuel => turn_up fuel (dadd theta two_pi) end
  else Some theta.

Fixpoint turn_down (fuel : nat) (theta : double) : option double :=
  if SFleb two_pi theta then
    match fuel with O => None | S fuel => turn_down fuel (dsub theta two_pi) end
  else Some theta.

(** The two loops of [normalize_angle], each [fuel] rounds long at most; [None] is a loop
    that goes on. *)
Definition normalize_angle (fuel : nat) (theta : double) : option double :=
  turn_up fuel theta ≫= turn_down fuel.

Definition eval_ray (ray : DirectedRay) (r_m : double) : double :=
  dadd (dadd (dmul (dmul (ray_a ray) r_m) r_m) (dmul (ray_b ray) r_m)) (ray_c ray).

(** The smallest integer that is not less, as [static_cast<int>] of [std::ceil]. *)
Definition ceil_Z (x : double) : option Z :=
  match x with
  | S754_zero _ => Some 0
  | S754_finite s m e =>
      let v := if s then - Zpos m else Zpos m in
      Some (if 0 <=? e then v * 2 ^ e else - ((- v) / 2 ^ (- e)))
  | _ => None
  end.

Section map.
Context {L : MapLibrary} (fuel : nat).

Definition to_int (v : Z) : Z := if bool_decide (sint_ok 32 v) then v else undefined_int.

Definition ceil_int (x : double) : Z :=
  match ceil_Z x with Some v => to_int v | None => undefined_int end.

(** The two rays of a line. *)
Definition line_rays (fit : LineFitResult double) : option (list DirectedRay) :=
  if fit_valid fit then
    here ← normalize_angle fuel (fit_angle_rad fit);
    there ← normalize_angle fuel (dadd (fit_angle_rad fit) kPi);
    Some [mkRay here (fit_a fit) (fit_b fit) (fit_c fit);
          mkRay there (fit_a fit) (SFopp (fit_b fit)) (fit_c fit)]
  else Some [].

(** The [while] loop of the search: the first ray that is not before [theta]. *)
Fixpoint ray_index (rays : list DirectedRay) (theta : double) : nat :=
  match rays with
  | [] => O
  | ray :: rays => if SFltb (ray_angle ray) theta then S (ray_index rays theta) else O
  end.

(** The height at a point [r_m] from the centre in the direction [theta]; [None] is an
    access outside [rays]. *)
Definition interpolate (rays : list DirectedRay) (theta r_m : double) : option double :=
  let hi_idx := ray_index rays theta in
  let lo_idx := if (hi_idx =? 0)%nat then (length rays - 1)%nat else (hi_idx - 1)%nat in
  lo ← rays !! lo_idx;
  hi ← rays !! (hi_idx mod length rays)%nat;
  let span := dsub (ray_angle hi) (ray_angle lo) in
  let offset := dsub theta (ray_angle lo) in
  let span := if (hi_idx =? length rays)%nat then dadd span two_pi else span in
  let offset := if SFltb offset dzero then dadd offset two_pi else offset in
  let frac := if SFltb dzero span then ddiv offset span else dzero in
  let z_lo := eval_ray lo r_m in
  let z_hi := eval_ray hi r_m in
  Some (dadd z_lo (dmul frac (dsub z_hi z_lo))).

(** The pixel in row [j] and column [i]. *)
Definition map_pixel (rays : list DirectedRay) (radius_mm grid : double) (half_n : Z) (j i : Z)
    : option double :=
  let y_mm := dmul (dz (j - half_n)) grid in
  let x_mm := dmul (dz (i - half_n)) grid in
  let r_mm := hypot x_mm y_mm in
  if SFltb radius_mm r_mm then Some S754_nan
  else
    theta ← normalize_angle fuel (atan2 y_mm x_mm);
    interpolate rays theta (ddiv r_mm (dz 1000)).

Definition build_wafer_map (fits : list (LineFitResult double)) (diameter grid : double) : option WaferMap :=
  let radius_mm := ddiv (dmul diameter (dz 1000)) (dz 2) in
  let half_n := ceil_int (ddiv radius_mm grid) in
  let width := to_int (2 * half_n + 1) in
  rays ← mapM line_rays fits;
  let rays := sort_rays (concat rays) in
  let side := seqZ 0 width in
  heights ← (if (length rays =? 0)%nat
             then Some (map (fun _ => S754_nan) (list_prod side side))
             else mapM (fun '(j, i) => map_pixel rays radius_mm grid half_n j i) (list_prod side side));
  Some (mkWaferMap width width grid diameter heights).

End map.

(** ** The pipeline *)

Record PipelineResult := mkPipeline {
  filtered_lines : list FilterResult;
  line_fits : list (LineFitResult double);
  combined : CombinedResult double;
  stress_pa : double;
  stress_unc_pa : double;
  max_fit_rms_m : double;
  removed_fraction_overall : double;
  outlier_removed_fraction : double;
  any_dropout : bool;
  quality : QualityGateResult;
  wafer_map : WaferMap
}.

Definition kUmToM : double := dr false 1 1000000.
Definition kMpaToPa : double := dz 1000000.
Definition kGpaToPa : double := dz 1000000000.

(** The default argument of [apply_outlier_rejection]. *)
Definition default_window_radius : Z := 40.

Definition filter_block (config : Config) (block : SampleBlock) : FilterResult :=
  apply_outlier_rejection
    (apply_edge_exclusion (mkLine (block_angle_rad block) (positions_m block) (block_heights_m block))
       (edge_exclusion_mm (scan config)))
    (outlier_mad_k (analysis config)) default_window_radius.

Definition has_flag (f : SampleFlag) (s : FilteredSample) : bool := bool_decide (flag s = f).

(** How many samples of a line carry a flag. *)
Definition count_flag (f : SampleFlag) (r : FilterResult) : Z :=
  Z.of_nat (length (List.filter (has_flag f) (samples r))).

Definition total_Z (f : FilterResult -> Z) (l : list FilterResult) : Z :=
  foldr (fun r acc => f r + acc) 0 l.

(** [0.0] when there are no samples. *)
Definition fraction_of (part total : Z) : double :=
  if 0 <? total then ddiv (dz part) (dz total) else dzero.

(** The serial part of [run_pipeline], after the lines are filtered and fitted. *)
Definition aggregate {L : MapLibrary} (fuel : nat) (config : Config) (filtered : list FilterResult)
    (fits : list (LineFitResult double)) : option PipelineResult :=
  let a := analysis config in let w := wafer config in
  let total_samples := total_Z (fun r => Z.of_nat (length (samples r))) filtered in
  let total_removed := total_Z removed_count filtered in
  let total_outliers := total_Z (count_flag kOutlier) filtered in
  let dropout := existsb (fun r => existsb (has_flag kDropped) (samples r)) filtered in
  let max_rms := foldl (fun m fit => if fit_valid fit then std_max m (residual_rms_m fit) else m) dzero fits in
  let both := combine_lines fits in
  let m_s_pa := dmul (biaxial_modulus_gpa w) kGpaToPa in
  let t_s_m := dmul (thickness_um w) kUmToM in
  let t_f_m := dmul (film_thickness_um w) kUmToM in
  let k0 := initial_curvature_1_per_m (truth w) in
  let stress := stoney_stress_pa (mean_curvature_per_m both) k0 m_s_pa t_s_m t_f_m in
  let gates := evaluate_quality max_rms (dmul (fit_rms_limit_um a) kUmToM) stress
    (dmul (stress_plausible_low_mpa a) kMpaToPa) (dmul (stress_plausible_high_mpa a) kMpaToPa)
    (dmul (stress_spec_low_mpa a) kMpaToPa) (dmul (stress_spec_high_mpa a) kMpaToPa) in
  map ← match issue gates with
        | kNone => build_wafer_map fuel fits (dmul (diameter_mm w) milli) (map_grid_mm a)
        | _ => Some no_map
        end;
  Some (mkPipeline filtered fits both stress (stress_uncertainty_pa fits m_s_pa t_s_m t_f_m) max_rms
          (fraction_of total_removed total_samples) (fraction_of total_outliers total_samples)
          dropout gates map).

Definition no_block : SampleBlock := mkBlockSamples 0 dzero [] [].
Definition no_result : FilterResult := mkFilter dzero [] 0 dzero.

(** One call of the pool at rest under a schedule, and its results; [None] when the
    schedule stops before the call returns. *)
Definition pool_call {B} (hardware n_threads : nat) (schedule : list pool_label) (count : nat)
    (fn : nat -> B) : option (list B) :=
  p ← pool_run count fn schedule (for_each_index count (new_pool hardware n_threads));
  match owner p with owner_returned => mapM id (slots p) | _ => None end.

(** [run_pipeline], its two calls of the pool under the schedules [filtering] and [fitting]. *)
Definition run_pipeline {L : MapLibrary} (fuel hardware : nat) (filtering fitting : list pool_label)
    (lines : list SampleBlock) (config : Config) : option PipelineResult :=
  let call {B} := @pool_call B hardware (Z.to_nat (analysis_threads (analysis config))) in
  filtered ← call filtering (length lines) (fun i => filter_block config (nth i lines no_block));
  fits ← call fitting (length filtered) (fun i => fit_line (nth i filtered no_result));
  aggregate fuel config filtered fits.

(** The same without threads. *)
Definition serial_pipeline {L : MapLibrary} (fuel : nat) (lines : list SampleBlock) (config : Config)
    : option PipelineResult :=
  let filtered := map (filter_block config) lines in
  aggregate fuel config filtered (map fit_line filtered).

(** ** The verdict *)

(** The alarm [process_wafer] raises, and why. *)
Definition wafer_alarm (result : PipelineResult) (config : Config) : option AlarmId * string :=
  match issue (quality result) with
  | kPoorFit => (Some kFitQualityPoor, "fit residual RMS exceeds fit_rms_limit_um")
  | kImplausible => (Some kStressImplausible, "stress non-finite or outside the plausibility window")
  | kNone =>
      if SFltb (outlier_fraction_alarm (analysis config)) (outlier_removed_fraction result)
      then (Some kSensorSpikeRateHigh, "removed fraction exceeds outlier_fraction_alarm")
      else if any_dropout result then (Some kSensorDropout, "dropout gap present")
      else (None, EmptyString)
  end.

(** What [process_wafer] hands to the controller; the events carry the bits of a double. *)
Definition wafer_verdict (result : PipelineResult) (config : Config) : Verdict :=
  let '(alarm, why) := wafer_alarm result config in
  mkVerdict (gate_out_of_spec (quality result)) (double_bits (dmul (stress_pa result) kUmToM)) alarm why.

(** ** The threads make no difference *)

Lemma mapM_all_Some {A} (l : list A) : mapM id (map Some l) = Some l.
Proof. induction l as [|x l IH]; simpl; [done|]. by rewrite IH. Qed.

Lemma nth_serial {A B} (f : A -> B) (l : list A) d :
  map (fun i => f (nth i l d)) (seq 0 (length l)) = map f l.
Proof.
  apply list_eq. intros i. rewrite !list_lookup_fmap. destruct (decide (i < length l)%nat) as [Hi|Hi].
  - destruct (lookup_lt_is_Some_2 l i Hi) as [x Hx]. rewrite lookup_seq_lt, Hx by done. simpl.
    by rewrite (nth_lookup_Some _ _ _ _ Hx).
  - rewrite lookup_seq_ge, lookup_ge_None_2 by lia. done.
Qed.

Lemma pool_call_serial {A B} hardware n_threads schedule (f : A -> B) (l : list A) d r :
  pool_call hardware n_threads schedule (length l) (fun i => f (nth i l d)) = Some r -> r = map f l.
Proof.
  intros H. apply bind_Some in H as (p & Hr & H). destruct (owner p) eqn:Ho; try done.
  rewrite (call_results _ _ _ _ _ _ Hr Ho) in H. simpl in H. unfold serial_results in H.
  rewrite nth_serial, mapM_all_Some in H. by simplify_eq.
Qed.

(** Every call can be scheduled to its end. *)
Lemma pool_call_possible {A B} hardware n_threads (f : A -> B) (l : list A) d :
  exists schedule, pool_call hardware n_threads schedule (length l) (fun i => f (nth i l d)) = Some (map f l).
Proof.
  set (fn := fun i => f (nth i l d)).
  destruct (call_can_return (length l) fn _ _ (new_call_ok (length l) fn hardware n_threads)
    (resolve_positive _ _) eq_refl) as (ls & p & Hr & Hb).
  exists ls. unfold pool_call. rewrite Hr. simpl. unfold back in Hb. destruct (owner p) eqn:Ho; try done.
  rewrite (call_results _ _ _ _ _ _ Hr Ho). simpl. unfold serial_results, fn.
  by rewrite nth_serial, mapM_all_Some.
Qed.

(** [C10] The pipeline with its two parallel stages computes what the same stages computed
    one line after the other do, bit for bit: for every number of threads and every
    interleaving that lets the two calls return, and such interleavings always exist. *)
Theorem pipeline_schedule_free {L : MapLibrary} fuel hardware lines config :
  (forall filtering fitting r,
     run_pipeline fuel hardware filtering fitting lines config = Some r ->
     serial_pipeline fuel lines config = Some r) /\
  exists filtering fitting,
    run_pipeline fuel hardware filtering fitting lines config = serial_pipeline fuel lines config.
Proof.
  split.
  - intros filtering fitting r H. apply bind_Some in H as (filtered & H1 & H).
    apply bind_Some in H as (fits & H2 & H). apply pool_call_serial in H1 as ->.
    by apply pool_call_serial in H2 as ->.
  - set (n := Z.to_nat (analysis_threads (analysis config))).
    destruct (pool_call_possible hardware n (filter_block config) lines no_block) as [s1 H1].
    destruct (pool_call_possible hardware n fit_line (map (filter_block config) lines) no_result) as [s2 H2].
    exists s1, s2. unfold run_pipeline. fold n. rewrite H1. simpl.
    by rewrite H2.
Qed.

(** ** What a wafer without an alarm guarantees *)

(** A sample after the outlier filter: as before, or a kept one that was flagged. *)
Definition flagged (s s' : FilteredSample) : Prop :=
  s' = s \/ (flag s = kKept /\ s' = set_flag kOutlier s).

Lemma flag_kept l l' i : Forall2 flagged l l' ->
  (forall s, l !! i = Some s -> flag s = kKept) -> Forall2 flagged l (alter (set_flag kOutlier) i l').
Proof.
  intros Hl. revert i. induction Hl as [|s s' l l' Hs Hl IH]; intros i Hi; [constructor|].
  destruct i as [|i].
  - constructor; [|done]. specialize (Hi s eq_refl).
    destruct Hs as [->|[_ ->]]; right; split; done.
  - constructor; [done|]. by apply IH.
Qed.

Lemma slide_flagged mad_k radius l kept kept_z st k :
  kept = kept_indices 0 l -> (k < length kept)%nat -> Forall2 flagged l (out_samples st) ->
  Forall2 flagged l (out_samples (slide mad_k radius kept kept_z st k)).
Proof.
  intros Hk Hlt Hst. unfold slide. cbn [out_samples]. destruct (exceeds _ _ _ _); [|done].
  apply flag_kept; [done|]. intros s Hs.
  assert (Hin : nth k kept O ∈ kept) by (apply list_elem_of_In, nth_In; done).
  rewrite Hk in Hin. apply kept_indices_spec in Hin as (_ & s' & Hs' & Hf).
  rewrite Nat.sub_0_r, <- Hk, Hs in Hs'. by simplify_eq.
Qed.

Lemma slides_flagged mad_k radius l kept kept_z ks st :
  kept = kept_indices 0 l -> Forall (fun k => (k < length kept)%nat) ks ->
  Forall2 flagged l (out_samples st) ->
  Forall2 flagged l (out_samples (foldl (slide mad_k radius kept kept_z) st ks)).
Proof.
  intros Hk Hks. revert st. induction Hks as [|k ks Hlt _ IH]; intros st Hst; [done|].
  apply IH. by apply slide_flagged.
Qed.

Lemma flagged_refl l : Forall2 flagged l l.
Proof. induction l; constructor; [by left|done]. Qed.

Lemma outlier_rejection_flagged input mad_k radius :
  Forall2 flagged (samples input) (samples (apply_outlier_rejection input mad_k radius)).
Proof.
  unfold apply_outlier_rejection. destruct (_ <? 2)%nat; [apply flagged_refl|].
  cbn [samples with_counts]. apply slides_flagged; [done| |apply flagged_refl].
  apply Forall_forall. intros k Hk. apply elem_of_seq in Hk. lia.
Qed.

(** The filters flag a gap exactly where the scan left one. *)
Lemma flagged_dropped l l' : Forall2 flagged l l' ->
  existsb (has_flag kDropped) l' = existsb (has_flag kDropped) l.
Proof.
  intros Hl. induction Hl as [|s s' l l' Hs _ IH]; simpl; [done|]. rewrite IH. f_equal.
  destruct Hs as [->|[Hs ->]]; [done|]. unfold has_flag. simpl. by rewrite Hs.
Qed.

Lemma filter_block_dropped config b : length (positions_m b) = length (block_heights_m b) ->
  existsb (has_flag kDropped) (samples (filter_block config b)) = existsb isnan (block_heights_m b).
Proof.
  intros Hl. unfold filter_block. rewrite (flagged_dropped _ _ (outlier_rejection_flagged _ _ _)).
  unfold apply_edge_exclusion. cbn [line_s_m line_z_m]. destruct (positions_m b) as [|x l].
  { by destruct (block_heights_m b). }
  cbn [samples with_counts]. set (lo := dadd _ _). set (hi := dsub _ _). clearbody lo hi.
  revert Hl. generalize (x :: l). clear x l. intros ss. revert ss.
  induction (block_heights_m b) as [|z zs IH]; intros [|s ss] Hl; try done.
  cbn [zip_with existsb]. rewrite (IH ss) by (simpl in Hl; lia). f_equal.
  unfold edge_sample, has_flag. cbn. destruct (isnan z); [done|]. by destruct (SFltb s lo || SFltb hi s).
Qed.

(** *** Order of doubles, normalised or not *)

Definition rank (x : double) : option (Z * (Z * Z)) :=
  match x with
  | S754_nan => None
  | S754_zero _ => Some (0, (0, 0))
  | S754_infinity s => Some (if s then -2 else 2, (0, 0))
  | S754_finite false m e => Some (1, (e, Zpos m))
  | S754_finite true m e => Some (-1, (- e, - Zpos m))
  end.

Definition before (p q : Z * (Z * Z)) : Prop :=
  p.1 < q.1 \/ (p.1 = q.1 /\ (p.2.1 < q.2.1 \/ (p.2.1 = q.2.1 /\ p.2.2 < q.2.2))).

Lemma SFltb_rank x y : SFltb x y = true <-> exists p q, rank x = Some p /\ rank y = Some q /\ before p q.
Proof.
  assert (Hs : forall p q, (exists p' q', Some p = Some p' /\ Some q = Some q' /\ before p' q') <-> before p q).
  { intros p q. split; [intros (? & ? & [= <-] & [= <-] & ?); done|eauto]. }
  unfold SFltb. destruct x as [s|s| |s m e], y as [s'|s'| |s' m' e'];
    repeat match goal with s : bool |- _ => destruct s end; cbn [rank];
    try (split; [done|intros (? & ? & ? & ? & ?); done]);
    rewrite Hs; unfold before; simpl; try (split; [done|lia]); try (split; [lia|done]);
    change (Pos.compare_cont Eq ?a ?b) with (Pos.compare a b);
    destruct (Z.compare_spec e e'), (Pos.compare_spec m m'); simpl;
      (split; [intros [=]; lia|intros ?; first [done|lia]]).
Qed.

Lemma SFltb_trans x y z : SFltb x y = true -> SFltb y z = true -> SFltb x z = true.
Proof.
  rewrite !SFltb_rank. intros (p & q & Hp & Hq & H1) (q' & r & Hq' & Hr & H2).
  exists p, r. split; [done|]. split; [done|]. simplify_eq. unfold before in *. lia.
Qed.

(** What is below [y] but not [m] below [y] is below [m]. *)
Lemma SFltb_not_below limit m y : is_Some (rank m) -> SFltb limit y = true -> SFltb m y = false ->
  SFltb limit m = true.
Proof.
  intros [r Hm] Hl Hn. apply SFltb_rank in Hl as (p & q & Hp & Hq & Hb). apply SFltb_rank.
  exists p, r. split_and!; try done. apply not_true_iff_false in Hn. rewrite SFltb_rank in Hn.
  assert (~ before r q) by (intros ?; apply Hn; by exists r, q). unfold before in *. lia.
Qed.

(** The largest residual hides none that exceeds the limit. *)
Lemma max_rms_covers limit fits m : is_Some (rank m) ->
  SFltb limit (foldl (fun m fit => if fit_valid fit then std_max m (residual_rms_m fit) else m) m fits) = false ->
  SFltb limit m = false /\
  Forall (fun fit => fit_valid fit = true -> SFltb limit (residual_rms_m fit) = false) fits.
Proof.
  revert m. induction fits as [|fit fits IH]; intros m Hm; simpl; [done|]. intros H.
  destruct (fit_valid fit) eqn:E; [|apply IH in H as [? Hf]; [|done];
    split; [done|constructor; [congruence|done]]].
  unfold std_max in H at 2. cbn [a_ltb double_arith] in H. destruct (SFltb m (residual_rms_m fit)) eqn:El.
  - apply IH in H as [Hr Hf]; [|apply SFltb_rank in El as (? & ? & ? & ? & ?); by eexists].
    split; [|by constructor]. destruct (SFltb limit m) eqn:E1; [|done].
    by rewrite (SFltb_trans _ _ _ E1 El) in Hr.
  - apply IH in H as [Hr Hf]; [|done]. split; [done|]. constructor; [|done]. intros _.
    destruct (SFltb limit (residual_rms_m fit)) eqn:E1; [|done].
    by rewrite (SFltb_not_below _ _ _ Hm E1 El) in Hr.
Qed.

Lemma evaluate_quality_none rms limit stress low high slow shigh :
  issue (evaluate_quality rms limit stress low high slow shigh) = kNone <->
  SFltb limit rms = false /\ is_finite stress = true /\ SFltb stress low = false /\ SFltb high stress = false.
Proof.
  unfold evaluate_quality. destruct (SFltb limit rms); [simpl; naive_solver|].
  destruct (is_finite stress); [|simpl; naive_solver].
  destruct (SFltb stress low); [simpl; naive_solver|].
  destruct (SFltb high stress); simpl; naive_solver.
Qed.

Lemma no_dropout config lines :
  Forall (fun b => length (positions_m b) = length (block_heights_m b)) lines ->
  existsb (fun r => existsb (has_flag kDropped) (samples r)) (map (filter_block config) lines) = false <->
  Forall (fun b => Forall (fun z => isnan z = false) (block_heights_m b)) lines.
Proof.
  intros Hl. induction Hl as [|b lines Hb _ IH]; simpl; [by split|].
  rewrite orb_false_iff, IH, Forall_cons, filter_block_dropped by done.
  assert (E : existsb isnan (block_heights_m b) = false <-> Forall (fun z => isnan z = false) (block_heights_m b));
    [|by rewrite E].
  clear Hb. induction (block_heights_m b) as [|z zs IHz]; simpl; [by split|].
  by rewrite orb_false_iff, Forall_cons, IHz.
Qed.

(** [C11] When is a stress reported rather than an alarm raised: exactly when the worst fit
    is within the limit, the stress is finite and in the plausibility window, the outlier
    rate is not above the alarm rate and no sample of any line was lost. Then no valid fit
    exceeds the limit, and a wafer whose quality is bad is never called out of
    specification as well. *)
Theorem reported_without_alarm {L : MapLibrary} fuel lines config r :
  Forall (fun b => length (positions_m b) = length (block_heights_m b)) lines ->
  serial_pipeline fuel lines config = Some r ->
  let a := analysis config in
  let limit := dmul (fit_rms_limit_um a) kUmToM in
  (raised (wafer_verdict r config) = None <->
     SFltb limit (max_fit_rms_m r) = false /\ is_finite (stress_pa r) = true /\
     SFltb (stress_pa r) (dmul (stress_plausible_low_mpa a) kMpaToPa) = false /\
     SFltb (dmul (stress_plausible_high_mpa a) kMpaToPa) (stress_pa r) = false /\
     SFltb (outlier_fraction_alarm a) (outlier_removed_fraction r) = false /\
     Forall (fun b => Forall (fun z => isnan z = false) (block_heights_m b)) lines) /\
  (SFltb limit (max_fit_rms_m r) = false ->
     Forall (fun fit => fit_valid fit = true -> SFltb limit (residual_rms_m fit) = false) (line_fits r)) /\
  (issue (quality r) <> kNone -> out_of_spec (wafer_verdict r config) = false).
Proof.
  intros Hlen H. cbv zeta. unfold serial_pipeline, aggregate in H.
  apply bind_Some in H as (m & _ & H). apply (inj Some) in H. subst r.
  cbn [max_fit_rms_m stress_pa outlier_removed_fraction line_fits quality].
  pose proof (no_dropout config lines Hlen) as Hd.
  pose proof (fun limit => max_rms_covers limit (map fit_line (map (filter_block config) lines)) dzero
    ltac:(by eexists)) as Hm.
  set (rms := foldl _ dzero _) in *. match goal with |- context [@stoney_stress_pa double ?i ?a ?b ?c ?d ?e] =>
    set (stress := @stoney_stress_pa double i a b c d e) end.
  set (frac := fraction_of (total_Z (count_flag kOutlier) _) _). set (drop := existsb _ _) in *.
  split_and!.
  - unfold wafer_verdict, wafer_alarm. cbn [quality outlier_removed_fraction any_dropout stress_pa].
    set (q := evaluate_quality _ _ _ _ _ _ _).
    pose proof (evaluate_quality_none rms (dmul (fit_rms_limit_um (analysis config)) kUmToM) stress
      (dmul (stress_plausible_low_mpa (analysis config)) kMpaToPa)
      (dmul (stress_plausible_high_mpa (analysis config)) kMpaToPa)
      (dmul (stress_spec_low_mpa (analysis config)) kMpaToPa)
      (dmul (stress_spec_high_mpa (analysis config)) kMpaToPa)) as Hq. fold q in Hq.
    destruct (issue q); cbn [raised]; [|naive_solver..].
    destruct (SFltb _ frac); [simpl; naive_solver|]. destruct drop; simpl; naive_solver.
  - intros Hl. by apply (Hm _ Hl).
  - unfold wafer_verdict, wafer_alarm, evaluate_quality. cbn [quality outlier_removed_fraction any_dropout stress_pa].
    destruct (SFltb _ rms); [done|]. destruct (_ || _ || _); [done|]. cbn [issue]. done.
Qed.

(** ** A small wafer *)

(** A library for examples: [atan2] knows the quadrant only. *)
Fixpoint insert_ray (ray : DirectedRay) (rays : list DirectedRay) : list DirectedRay :=
  match rays with
  | [] => [ray]
  | next :: rest => if SFltb (ray_angle ray) (ray_angle next) then ray :: rays else next :: insert_ray ray rest
  end.

Definition coarse_atan2 (y x : double) : double :=
  if SFltb y dzero then SFopp (ddiv kPi (dz 2))
  else if SFltb x dzero then kPi
  else if SFltb dzero y then ddiv kPi (dz 2) else dzero.

#[export] Instance coarse_library : MapLibrary := {|
  hypot := fun x y => SFsqrt prec64 emax64 (dadd (dmul x x) (dmul y y));
  atan2 := coarse_atan2;
  sort_rays := foldr insert_ray [];
  undefined_int := 0
|}.

(** Two lines of a 100 mm wafer curved as it was before coating, the second with [gap] at
    one place. *)
Definition sample_wafer (gap : double) : list SampleBlock :=
  let s := map (fun n => dr (n <? 0) (Z.abs n) 100) [-5; -4; -2; 0; 2; 4; 5] in
  let z := map (fun x => dmul milli (dmul x x)) s in
  [mkBlockSamples 0 dzero s z; mkBlockSamples 1 (ddiv kPi (dz 2)) s (<[3%nat := gap]> z)].

Definition small_wafer_config : Config :=
  mkConfig default_machine (mkWafer (dz 100) (dz 775) (dz 1) (dr false 1805 10) default_truth 1)
    (mkScan 2 40 (dz 150) (dz 1) (dz 3)) default_noise []
    (mkAnalysis (dz 6) (dr false 1 100) (dz 2) (dz (-400)) (dz 400) (dz (-5000)) (dz 5000) (dz 25) 2)
    default_cassette default_comm default_output.

Example sample_verdicts :
  option_map (fun r => (raised (wafer_verdict r small_wafer_config), any_dropout r,
      length (heights_m (wafer_map r)), n_lines (combined r)))
    (serial_pipeline 4 (sample_wafer dzero) small_wafer_config) = Some (None, false, 25%nat, 2) /\
  option_map (fun r => raised (wafer_verdict r small_wafer_config))
    (serial_pipeline 4 (sample_wafer S754_nan) small_wafer_config) = Some (Some kSensorDropout).
Proof. vm_compute. done. Qed.

Definition two_jobs : list pool_label :=
  [pl_push; pl_push; pl_worker 0; pl_worker 1; pl_worker 1; pl_check; pl_worker 0; pl_worker 0;
   pl_worker 1; pl_check].

Lemma pipeline_schedule_free_witness :
  exists r, run_pipeline 4 8 two_jobs two_jobs (sample_wafer dzero) small_wafer_config = Some r /\
    serial_pipeline 4 (sample_wafer dzero) small_wafer_config = Some r.
Proof.
  destruct (run_pipeline 4 8 two_jobs two_jobs (sample_wafer dzero) small_wafer_config) as [r|] eqn:E;
    [|vm_compute in E; discriminate E].
  exists r. split; [done|].
  by apply (proj1 (pipeline_schedule_free 4 8 (sample_wafer dzero) small_wafer_config) two_jobs two_jobs).
Defined.

Lemma reported_without_alarm_witness :
  exists r, serial_pipeline 4 (sample_wafer dzero) small_wafer_config = Some r /\
    is_finite (stress_pa r) = true /\
    Forall (fun b => Forall (fun z => isnan z = false) (block_heights_m b)) (sample_wafer dzero).
Proof.
  destruct (serial_pipeline 4 (sample_wafer dzero) small_wafer_config) as [r|] eqn:E;
    [|vm_compute in E; discriminate E].
  assert (Hl : Forall (fun b => length (positions_m b) = length (block_heights_m b)) (sample_wafer dzero))
    by by repeat constructor.
  destruct (reported_without_alarm 4 (sample_wafer dzero) small_wafer_config r Hl E) as (Hr & _ & _).
  exists r. split; [done|].
  assert (Hn : raised (wafer_verdict r small_wafer_config) = None).
  { vm_compute in E. injection E as <-. vm_compute. reflexivity. }
  apply Hr in Hn as (_ & Hf & _ & _ & _ & Hz). split; [exact Hf|exact Hz].
Defined.

(** A wafer of which no line could be fitted passes the quality gates with the stress of a
    flat one, which is within the specification; only the dropout alarm can stop it. *)
Lemma no_fit_no_issue :
  option_map (fun r => (issue (quality r), n_lines (combined r), is_finite (stress_pa r)))
    (aggregate 4 default_config [no_result] [no_fit dzero 2]) = Some (kNone, 0, true).
Proof. vm_compute. done. Qed.

(** ** The map is built *)

Section map.
Context {L : MapLibrary}.

Lemma kPi_finite : finite kPi /\ finite two_pi.
Proof. split; split; vm_compute; reflexivity. Qed.

Lemma two_pi_val : val two_pi = 2 * val kPi.
Proof. vm_compute. reflexivity. Qed.

Lemma dadd_val x y : finite x -> finite y -> val (dadd x y) = sat (val x + val y) /\ number (dadd x y).
Proof.
  intros [] []. destruct (add_value prec64 emax64 ltac:(done) ltac:(done) x y) as (? & ? & ?); done.
Qed.

Lemma sat_val x : number x -> sat (val x) = val x.
Proof. intros []. by apply (saturated_value prec64 emax64). Qed.

(** A number between two finite ones is finite. *)
Lemma between_finite lo x hi : finite lo -> finite hi -> number x -> val lo <= val x <= val hi -> finite x.
Proof.
  intros Hlo Hhi [Hv Hn] Hx. split; [done|]. apply finite_val in Hlo, Hhi.
  destruct x as [|s| |]; try done. destruct s; cbn [value signed] in Hx; lia.
Qed.

Definition angle_in (lo hi : Z) (x : double) : Prop := number x /\ lo <= val x <= hi.

Lemma zero_val : val dzero = 0.
Proof. done. Qed.

Lemma zero_finite : finite dzero.
Proof. done. Qed.

(** Every angle of at most one turn is normalised by one round of each loop at most. *)
Lemma normalize_one_turn theta : angle_in (- val two_pi) (val two_pi) theta ->
  exists theta', normalize_angle 1 theta = Some theta' /\ angle_in 0 (val two_pi) theta'.
Proof.
  intros [Hn Hv]. destruct kPi_finite as [_ Fp].
  assert (Hp : 0 <= val two_pi) by by vm_compute.
  assert (Hup : exists t, turn_up 1 theta = Some t /\ angle_in 0 (val two_pi) t).
  { unfold turn_up. rewrite SFltb_val by (done || apply finite_number, zero_finite). rewrite zero_val.
    destruct (Z.ltb_spec (val theta) 0) as [Hneg|Hpos]; [|exists theta; split; [done|]; split; [done|lia]].
    assert (Ft : finite theta).
    { by apply (between_finite (SFopp two_pi) theta two_pi). }
    destruct (dadd_val theta two_pi Ft Fp) as [Hs Hsn].
    assert (Hb : 0 <= val (dadd theta two_pi) <= val two_pi).
    { rewrite Hs. pose proof sat_0 as H0. pose proof (sat_val two_pi (finite_number _ Fp)) as H1.
      pose proof (sat_mono 0 (val theta + val two_pi)). pose proof (sat_mono (val theta + val two_pi) (val two_pi)).
      lia. }
    exists (dadd theta two_pi). rewrite SFltb_val by (done || apply finite_number, zero_finite).
    rewrite zero_val, (proj2 (Z.ltb_ge _ _)) by lia. by split. }
  destruct Hup as (t & Ht & Hn' & Hb). unfold normalize_angle. rewrite Ht. cbn [mbind option_bind]. unfold turn_down.
  rewrite SFleb_val by (done || by apply finite_number).
  destruct (Z.leb_spec (val two_pi) (val t)) as [Hle|Hlt]; [|exists t; split; [done|]; split; [done|lia]].
  assert (Ft : finite t) by (apply (between_finite dzero t two_pi); done).
  destruct (dsub_val t two_pi Ft Fp) as [Hs Hsn].
  assert (Hz : val (dsub t two_pi) = 0).
  { rewrite Hs. replace (val t - val two_pi) with 0 by lia. apply sat_0. }
  exists (dsub t two_pi). rewrite SFleb_val by (done || by apply finite_number).
  rewrite Hz, (proj2 (Z.leb_gt _ _)) by by vm_compute. split; [done|]. split; [done|]. lia.
Qed.

(** The angle of a line and that of its other half. *)
Lemma line_rays_defined fit : (fit_valid fit = true -> angle_in 0 (val kPi) (fit_angle_rad fit)) ->
  exists rays, line_rays 1 fit = Some rays.
Proof.
  intros Ha. unfold line_rays. destruct (fit_valid fit); [|by eexists].
  destruct (Ha eq_refl) as [Hn Hb]. destruct kPi_finite as [Fk Fp]. pose proof two_pi_val as H2.
  assert (Hk : 0 <= val kPi) by by vm_compute.
  destruct (normalize_one_turn (fit_angle_rad fit)) as (t1 & -> & _); [split; [done|lia]|].
  assert (Ff : finite (fit_angle_rad fit)) by (apply (between_finite dzero _ kPi); done).
  destruct (dadd_val _ _ Ff Fk) as [Hs Hsn].
  destruct (normalize_one_turn (dadd (fit_angle_rad fit) kPi)) as (t2 & -> & _); [|simpl; by eexists].
  split; [done|]. rewrite Hs. pose proof sat_0. pose proof (sat_val two_pi (finite_number _ Fp)).
  pose proof (sat_mono 0 (val (fit_angle_rad fit) + val kPi)).
  pose proof (sat_mono (val (fit_angle_rad fit) + val kPi) (val two_pi)). lia.
Qed.

Lemma interpolate_defined rays theta r_m : rays <> [] -> exists h, interpolate rays theta r_m = Some h.
Proof.
  intros Hr. assert (Hl : (0 < length rays)%nat) by (destruct rays; simpl; [done|lia]).
  assert (Hi : (ray_index rays theta <= length rays)%nat).
  { clear. induction rays as [|ray rays IH]; simpl; [done|]. destruct (SFltb _ _); lia. }
  unfold interpolate. set (hi_idx := ray_index rays theta) in *.
  destruct (lookup_lt_is_Some_2 rays (if (hi_idx =? 0)%nat then (length rays - 1)%nat else (hi_idx - 1)%nat))
    as [lo ->].
  { destruct (Nat.eqb_spec hi_idx 0); lia. }
  destruct (lookup_lt_is_Some_2 rays (hi_idx mod length rays)) as [hi ->];
    [apply Nat.mod_upper_bound; lia|]. simpl. by eexists.
Qed.

Lemma mapM_defined {A B} (f : A -> option B) l : (forall x, x ∈ l -> exists y, f x = Some y) ->
  exists l', mapM f l = Some l'.
Proof.
  intros Hf. apply mapM_is_Some. apply Forall_forall. intros x Hx. destruct (Hf x Hx) as [y Hy]. by exists y.
Qed.

Lemma list_prod_lookup {A B} (l : list A) (l' : list B) i j a b : l !! i = Some a -> l' !! j = Some b ->
  list_prod l l' !! (i * length l' + j)%nat = Some (a, b).
Proof.
  intros Hi Hj. pose proof (lookup_lt_Some _ _ _ Hj) as Hlt. revert i Hi.
  induction l as [|x l IH]; intros [|i] Hi; simplify_eq/=.
  - rewrite lookup_app_l by (rewrite length_map; lia). by rewrite list_lookup_fmap, Hj.
  - rewrite lookup_app_r by (rewrite length_map; lia). rewrite length_map.
    replace (length l' + i * length l' + j - length l')%nat with (i * length l' + j)%nat by lia.
    by apply IH.
Qed.

(** The coordinates of a pixel are numbers. *)
Lemma grid_point_number v grid : above (dz 0) grid -> is_finite grid = true ->
  isnan (dmul (dz v) grid) = false.
Proof.
  intros Hg Hf. destruct grid as [z|z| |s m e]; try done.
  assert (Hn : dz v <> S754_nan).
  { unfold double_of_Z. by apply (binary_normalize_value prec64 emax64). }
  unfold dmul. destruct (dz v) as [z|z| |s' m' e']; try done. cbn [SFmul].
  assert (H : binary_round_aux prec64 emax64 (xorb s' s) (Zpos (m' * m)) (e' + e) loc_Exact <> S754_nan)
    by (apply binary_round_aux_not_nan; lia).
  by destruct (binary_round_aux _ _ _ _ _ _).
Qed.

End map.

(** The wafer map is always completed: for lines at angles up to pi, where the scan puts
    them, the loops that normalise an angle end after one round, no access to the rays is out
    of bounds, and the map has one height for every pixel of a square of odd side, row by
    row, with no height outside the wafer. *)
Lemma map_built {L : MapLibrary} fits diameter grid :
  (forall y x, isnan y = false -> isnan x = false -> angle_in (- val kPi) (val kPi) (atan2 y x)) ->
  above (dz 0) grid -> is_finite grid = true ->
  Forall (fun fit => fit_valid fit = true -> angle_in 0 (val kPi) (fit_angle_rad fit)) fits ->
  let radius_mm := ddiv (dmul diameter (dz 1000)) (dz 2) in
  let half_n := ceil_int (ddiv radius_mm grid) in
  0 <= half_n -> sint_ok 32 (2 * half_n + 1) ->
  exists m, build_wafer_map 1 fits diameter grid = Some m /\
    map_width m = 2 * half_n + 1 /\ map_height m = 2 * half_n + 1 /\
    Z.of_nat (length (heights_m m)) = map_width m * map_height m /\
    forall j i, 0 <= j < map_height m -> 0 <= i < map_width m ->
      exists h, heights_m m !! Z.to_nat (j * map_width m + i) = Some h /\
        (SFltb radius_mm (hypot (dmul (dz (i - half_n)) grid) (dmul (dz (j - half_n)) grid)) = true ->
           h = S754_nan).
Proof.
  intros Hatan Hg Hgf Hfits radius_mm half_n Hh Hw. unfold build_wafer_map. fold radius_mm half_n.
  assert (Hwidth : to_int (2 * half_n + 1) = 2 * half_n + 1) by (unfold to_int; by rewrite bool_decide_true).
  rewrite Hwidth. set (side := seqZ 0 (2 * half_n + 1)).
  assert (Hside : length side = Z.to_nat (2 * half_n + 1)) by apply length_seqZ.
  destruct (mapM_defined (line_rays 1) fits) as [rays ->].
  { intros fit Hin. apply line_rays_defined. rewrite Forall_forall in Hfits. by apply Hfits. }
  simpl. set (sorted := sort_rays (concat rays)).
  assert (Hheights : exists hs,
    (if (length sorted =? 0)%nat then Some (map (fun _ => S754_nan) (list_prod side side))
     else mapM (fun '(j, i) => map_pixel 1 sorted radius_mm grid half_n j i) (list_prod side side)) = Some hs /\
    length hs = length (list_prod side side) /\
    forall k j i, list_prod side side !! k = Some (j, i) -> exists h, hs !! k = Some h /\
      (SFltb radius_mm (hypot (dmul (dz (i - half_n)) grid) (dmul (dz (j - half_n)) grid)) = true ->
           h = S754_nan)).
  { destruct (Nat.eqb_spec (length sorted) 0) as [H0|H0].
    - eexists. split; [done|]. split; [apply length_map|]. intros k j i Hk. exists S754_nan.
      split; [|done]. by rewrite list_lookup_fmap, Hk.
    - destruct (mapM_defined (fun '(j, i) => map_pixel 1 sorted radius_mm grid half_n j i)
        (list_prod side side)) as [hs Hhs].
      { intros [j i] _. unfold map_pixel. case_match; [by eexists|].
        destruct (normalize_one_turn (atan2 (dmul (dz (j - half_n)) grid) (dmul (dz (i - half_n)) grid)))
          as (t & -> & _); [|cbn [mbind option_bind]; apply interpolate_defined; by destruct sorted].
        destruct (Hatan (dmul (dz (j - half_n)) grid) (dmul (dz (i - half_n)) grid));
          [by apply grid_point_number..|]. split; [done|]. pose proof two_pi_val. lia. }
      exists hs. apply mapM_Some_1 in Hhs. split; [by apply mapM_Some|].
      split; [symmetry; by eapply Forall2_length|].
      intros k j i Hk. destruct (Forall2_lookup_l _ _ _ _ _ Hhs Hk) as (h & Hkh & Hp).
      exists h. split; [done|]. intros Hout. unfold map_pixel in Hp. rewrite Hout in Hp. by simplify_eq. }
  destruct Hheights as (hs & -> & Hlen & Hpix). eexists. split; [done|]. cbn [map_width map_height heights_m].
  split_and!; try done.
  - rewrite Hlen, length_prod, Hside. lia.
  - intros j i Hj Hi.
    assert (Hsj : side !! Z.to_nat j = Some j) by (apply lookup_seqZ; lia).
    assert (Hsi : side !! Z.to_nat i = Some i) by (apply lookup_seqZ; lia).
    destruct (Hpix (Z.to_nat (j * (2 * half_n + 1) + i)) j i) as (h & Hk & Hp); [|by exists h].
    rewrite <- (list_prod_lookup side side _ _ _ _ Hsj Hsi). f_equal. rewrite Hside. nia.
Qed.

Lemma angle_in_eval lo hi x :
  valid_binary prec64 emax64 x && negb (isnan x) && (lo <=? val x) && (val x <=? hi) = true -> angle_in lo hi x.
Proof.
  rewrite !andb_true_iff, !Z.leb_le, negb_true_iff. intros [[[Hv Hn] Hl] Hh].
  split; [|done]. split; [done|]. by destruct x.
Qed.

Lemma map_built_witness :
  let fits := [mkFit dzero milli dzero dzero milli dzero dzero 5 true;
               mkFit (ddiv kPi (dz 2)) milli dzero dzero milli dzero dzero 5 true] in
  exists m, build_wafer_map 1 fits (dr false 1 10) (dz 25) = Some m /\ map_width m = 5 /\
    Z.of_nat (length (heights_m m)) = 25.
Proof.
  intros fits.
  assert (Hatan : forall y x, isnan y = false -> isnan x = false ->
    angle_in (- val kPi) (val kPi) (atan2 (MapLibrary := coarse_library) y x)).
  { intros y x _ _. cbn [atan2 coarse_library]. unfold coarse_atan2.
    repeat (destruct (SFltb _ _)); apply angle_in_eval; vm_compute; reflexivity. }
  assert (Hfits : Forall (fun fit => fit_valid fit = true -> angle_in 0 (val kPi) (fit_angle_rad fit)) fits).
  { apply Forall_cons_2; [|apply Forall_cons_2; [|apply Forall_nil_2]]; intros _;
      apply angle_in_eval; vm_compute; reflexivity. }
  destruct (map_built fits (dr false 1 10) (dz 25) Hatan ltac:(by vm_compute)
    ltac:(by vm_compute) Hfits ltac:(by vm_compute) ltac:(by vm_compute)) as (m & Hm & Hw & Hh & Hl & _).
  exists m. split; [done|]. rewrite Hl, Hw, Hh. split; vm_compute; reflexivity.
Defined.

(** The grid of the map is only checked to be positive: a configuration with a tiny one is
    accepted, and the side of its map does not fit an [int]. *)
Lemma tiny_grid_overflows :
  let a := mkAnalysis (dz 6) (dr false 1 100) (dz 2) (dz (-400)) (dz 400) (dz (-5000)) (dz 5000)
    (dr false 1 100000000) 0 in
  let cfg := mkConfig default_machine default_wafer default_scan default_noise [] a
    default_cassette default_comm default_output in
  validate cfg = None /\
  exists v, ceil_Z (ddiv (ddiv (dmul (dmul (diameter_mm (wafer cfg)) milli) (dz 1000)) (dz 2)) (map_grid_mm a)) = Some v /\
    2 ^ 31 <= v.
Proof. split; [vm_compute; done|]. eexists. split; [vm_compute; reflexivity|]. lia. Qed.
