(* ===== verification/WaferRun.v ===== *)
(** * A wafer from scan to map

    The scan of [ScanThread] with the analysis of [WaferPipeline]: the blocks of any scan that
    is not cut short, under any accepted configuration, are analysed to the end. *)

From S2P Require Import CLibrary FloatOrder FloatScale LineFilter Controller FitPool FaultInjector WaferModel ScanThread ScanProgress WaferFit WaferStress ConfigFile MachineRuntime WaferPipeline Prelude.

#[local] Abbreviation dz := double_of_Z.

(** Both files have the same pi. *)
Example same_pi : scan_pi = kPi.
Proof. done. Qed.

(** ** The side of the map *)

Lemma ceil_ok x : ok x -> exists v, ceil_Z x = Some v /\ 0 <= v /\ (forall u, val x <= u * unit64 -> v <= u).
Proof.
  intros [Hv Hn]. pose proof unit64_pos. destruct x as [[]| | |[] m e]; try done.
  { exists 0. split_and!; [done|done|]. intros u Hu. change (val (S754_zero false)) with 0 in Hu. nia. }
  apply valid_canonical in Hv as [_ He _]; [|done..]. cbn [ceil_Z]. eexists. split; [done|].
  cbn [value signed] in *. unfold magnitude in *. change unit64 with (2 ^ (- emin prec64 emax64)) in *.
  destruct (Z.leb_spec 0 e).
  - split; [lia|]. intros u Hu. replace (e - emin prec64 emax64) with (e + - emin prec64 emax64) in Hu by lia.
    rewrite Z.pow_add_r, Z.mul_assoc in Hu by (try lia; done). nia.
  - assert (0 < 2 ^ (- e)) by lia. split.
    + assert (- Zpos m / 2 ^ (- e) <= 0); [|lia]. apply Z.div_le_upper_bound; lia.
    + intros u Hu. replace (- emin prec64 emax64) with (- e + (e - emin prec64 emax64)) in Hu by lia.
      rewrite Z.pow_add_r, Z.mul_assoc in Hu by lia. assert (0 < 2 ^ (e - emin prec64 emax64)) by lia.
      assert (Hm : Zpos m <= u * 2 ^ (- e)) by nia.
      enough (- u <= - Zpos m / 2 ^ (- e)) by lia. apply Z.div_le_lower_bound; lia.
Qed.

Definition radius_mm_of (d : Z) : double := ddiv (dmul (dmul (dz d) milli) (dz 1000)) (dz 2).

Lemma radius_cells d : d ∈ diameters -> ok (radius_mm_of d) /\ val (radius_mm_of d) <= 151 * unit64.
Proof.
  intros Hd.
  assert (Hall : forallb (fun d => valid_binary prec64 emax64 (radius_mm_of d) && nonneg (radius_mm_of d) &&
    (val (radius_mm_of d) <=? 151 * unit64)) diameters = true) by (vm_compute; reflexivity).
  rewrite forallb_forall in Hall. apply list_elem_of_In in Hd. specialize (Hall d Hd).
  rewrite !andb_true_iff in Hall. destruct Hall as [[? ?] ?]. split; [done|lia].
Qed.

(** A grid of at least a thousandth of a millimetre gives a side that fits an [int]. *)
Definition usable_grid (grid : double) : Prop := valid64 grid /\ is_finite grid = true /\ SFleb milli grid = true.

Lemma usable_grid_ok grid : usable_grid grid -> ok grid /\ val milli <= val grid.
Proof.
  intros (Hv & Hf & Hle). assert (Hn : number grid) by (split; [done|by destruct grid]).
  assert (Hm : number milli) by (split; [vm_compute; reflexivity|done]).
  rewrite SFleb_val in Hle by done. apply Z.leb_le in Hle. split; [|done]. split; [done|].
  assert (Hpos : 0 < val milli) by (vm_compute; reflexivity).
  destruct grid as [s| | |s m e]; try done.
  destruct s; [|done]. cbn [value signed] in Hle. unfold magnitude in Hle.
  assert (0 <= 2 ^ (e - emin prec64 emax64)) by lia. lia.
Qed.

Lemma map_side {L : MapLibrary} d grid : d ∈ diameters -> usable_grid grid ->
  let half_n := ceil_int (ddiv (radius_mm_of d) grid) in 0 <= half_n /\ sint_ok 32 (2 * half_n + 1).
Proof.
  intros Hd Hg. destruct (radius_cells d Hd) as [Hr Vr]. destruct (usable_grid_ok grid Hg) as [Hgo Vg].
  destruct (dz_ok (2 ^ 18) ltac:(lia)) as [Hu Vu]. pose proof unit64_pos.
  assert (Hm : 151 * unit64 <= 2 ^ 18 * val milli) by (by apply Z.leb_le; vm_compute).
  assert (Hpos : 0 < val milli) by (vm_compute; reflexivity).
  destruct (ddiv_below (radius_mm_of d) grid (dz (2 ^ 18))) as [Hq Vq]; try assumption; [lia|rewrite Vu; nia|].
  destruct (ceil_ok _ Hq) as (v & Hc & Hv & Hup). unfold ceil_int. rewrite Hc.
  assert (v <= 2 ^ 18) by (apply Hup; lia). unfold to_int.
  rewrite bool_decide_true by int_lia. split; [done|int_lia].
Qed.

(** ** Angles through the filters *)

Lemma filter_block_angle config b : angle_rad (filter_block config b) = block_angle_rad b.
Proof.
  unfold filter_block, apply_outlier_rejection, apply_edge_exclusion.
  destruct (positions_m b) as [|x l]; [done|]. cbn [line_s_m]. by destruct (_ <? 2)%nat.
Qed.

Lemma filter_block_length config b : complete_block b ->
  length (samples (filter_block config b)) = length (positions_m b).
Proof.
  intros Hc. unfold filter_block.
  pose proof (outlier_rejection_flagged (apply_edge_exclusion
    (mkLine (block_angle_rad b) (positions_m b) (block_heights_m b)) (edge_exclusion_mm (scan config)))
    (outlier_mad_k (analysis config)) default_window_radius) as Hf.
  apply Forall2_length in Hf. rewrite <- Hf. unfold apply_edge_exclusion, complete_block in *.
  destruct (positions_m b) as [|x l] eqn:E; [done|]. cbn [line_s_m line_z_m with_counts samples].
  rewrite length_zip_with. lia.
Qed.

Lemma fit_line_angle f : fit_angle_rad (fit_line f) = angle_rad f.
Proof.
  unfold fit_line, fit_points. repeat case_match; done.
Qed.

(** ** From the scan to the result *)

(** The blocks of a scan the abort flag does not cut short. *)
Definition whole_scan {G N} {R : Random G} {D : Gaussian N} {T : Trig double} (undef : Z) (cfg : Config) (wafer_id : string)
    (elapsed : nat -> nat -> double) (accepts : Z -> bool) (stage : StageSim) (laser : LaserSensorSim N) : list SampleBlock :=
  pushed (done_ (ScanThread_run (G := G) undef (wafer_model (settings_of (wafer cfg))) (scan cfg) wafer_id
    (fun _ => false) elapsed accepts (faults cfg) (seed (wafer cfg)) stage laser)).

Lemma clear_run_all i m : clear_run (fun _ => false) i m = m.
Proof. revert i. induction m as [|m IH]; intros i; simpl; [done|]. by rewrite IH. Qed.

Section whole.
Context {G N : Type} {R : Random G} {D : Gaussian N} {T : Trig double}.
Context (undef : Z) (cfg : Config) (wafer_id : string)
  (elapsed : nat -> nat -> double) (accepts : Z -> bool) (stage : StageSim) (laser : LaserSensorSim N).

Abbreviation blocks := (whole_scan (G := G) undef cfg wafer_id elapsed accepts stage laser).
Abbreviation truth_of := (wafer_model (settings_of (wafer cfg))).

(** A whole scan: every line, each with every position. *)
Lemma whole_scan_shape : 1 <= n_points undef truth_of (scan cfg) -> 0 <= scan_lines (scan cfg) ->
  map shape_of blocks = map (fun k => block_shape undef truth_of (scan cfg) k
    (Z.to_nat (n_points undef truth_of (scan cfg)))) (seq 0 (Z.to_nat (scan_lines (scan cfg)))) /\
  Forall complete_block blocks.
Proof.
  intros Hn Hl. unfold whole_scan, ScanThread_run. set (st0 := mkScanState _ _ _ _ _ _).
  set (n := Z.to_nat (n_points undef truth_of (scan cfg))).
  set (lines := Z.to_nat (scan_lines (scan cfg))).
  pose proof (all_shape undef truth_of (scan cfg) wafer_id (fun _ => false) elapsed accepts lines 0 st0 ltac:(lia)) as H.
  cbv zeta in H. fold n in H. rewrite clear_run_all in H. change (Z.of_nat 0) with 0 in H.
  replace (Z.of_nat lines) with (scan_lines (scan cfg)) in H by lia. unfold n_lines.
  destruct (scan_all _ _ _ _ _ _ _ _ _) as [st aborted]. destruct H as (-> & bs & Hb & _ & Hs & Hc).
  rewrite Nat.ltb_irrefl. cbn [act done_]. rewrite pushed_app, Hb. change (pushed [_]) with (@nil SampleBlock).
  rewrite app_nil_r. split; [|done]. change (pushed (done_ st0)) with (@nil SampleBlock). cbn [app]. rewrite Hs.
  rewrite Nat.div_mul, Nat.min_l by lia. apply map_ext_in. intros k Hk. apply in_seq in Hk.
  unfold block_shape. f_equal. rewrite !take_ge; [done|..]; rewrite length_map, length_seqZ; fold n; nia.
Qed.

Lemma whole_scan_lines : scannable cfg ->
  Forall (fun b => angle_in 0 (val kPi) (block_angle_rad b) /\ complete_block b /\
    Z.of_nat (length (positions_m b)) = n_points undef truth_of (scan cfg)) blocks /\
  Z.of_nat (length blocks) = scan_lines (scan cfg).
Proof.
  intros (Hl & Hppm & d & Hd & Ed).
  pose proof (n_points_valid undef cfg d Hppm Hd Ed) as En. pose proof (diameter_bounds d Hd).
  assert (Hn : 1 <= n_points undef truth_of (scan cfg)) by nia.
  destruct whole_scan_shape as [Hs Hc]; [done|lia|]. split.
  - apply Forall_forall. intros b Hb. rewrite Forall_forall in Hc. specialize (Hc b Hb).
    apply (list_elem_of_fmap_2 shape_of) in Hb. change (shape_of <$> blocks) with (map shape_of blocks) in Hb.
    rewrite Hs in Hb. apply list_elem_of_fmap in Hb as (k & E & Hk). apply elem_of_seq in Hk.
    pose proof (f_equal (fun s => s.1.2) E) as Ea. pose proof (f_equal snd E) as Ep.
    cbn [fst snd shape_of block_shape] in Ea, Ep.
    change (ScanThread.n_lines (scan cfg)) with (scan_lines (scan cfg)) in Ea. rewrite Ea, Ep.
    destruct (scan_angles (scan_lines (scan cfg)) (Z.of_nat k) Hl ltac:(lia)) as [Ho Hlt].
    split_and!; [|done|rewrite length_take, length_map, length_seqZ; lia].
    assert (Hpi : number scan_pi) by (split; [vm_compute; reflexivity|done]).
    rewrite SFltb_val in Hlt by (by try apply ok_number). pose proof (ok_val _ Ho).
    split; [by apply ok_number|]. change (val kPi) with (val scan_pi). lia.
  - assert (Hlen : length (map shape_of blocks) = Z.to_nat (scan_lines (scan cfg)))
      by (rewrite Hs, length_map, length_seq; done).
    rewrite length_map in Hlen. lia.
Qed.

(** The angle in which [atan2] lies. *)
Definition atan_bounded {L : MapLibrary} : Prop :=
  forall y x, isnan y = false -> isnan x = false -> angle_in (- val kPi) (val kPi) (atan2 y x).

(** The blocks of a whole scan are analysed: the result, part by part. *)
Lemma whole_analysed {L : MapLibrary} :
  atan_bounded -> scannable cfg -> usable_grid (map_grid_mm (analysis cfg)) ->
  exists r, serial_pipeline 1 blocks cfg = Some r /\
    line_fits r = map fit_line (map (filter_block cfg) blocks) /\
    filtered_lines r = map (filter_block cfg) blocks /\
    match issue (quality r) with
    | kNone =>
        exists half_n, 0 <= half_n /\ map_width (wafer_map r) = 2 * half_n + 1 /\
         map_height (wafer_map r) = 2 * half_n + 1 /\
         Z.of_nat (length (heights_m (wafer_map r))) = (2 * half_n + 1) * (2 * half_n + 1)
    | _ => wafer_map r = no_map
    end.
Proof.
  intros Hatan Hv Hg. pose proof Hv as (Hl & Hppm & d & Hd & Ed).
  destruct (whole_scan_lines Hv) as [Hb Hlen].
  set (filtered := map (filter_block cfg) blocks). set (fits := map fit_line filtered).
  assert (Hfits : Forall (fun fit => fit_valid fit = true -> angle_in 0 (val kPi) (fit_angle_rad fit)) fits).
  { unfold fits, filtered. rewrite map_map. apply Forall_map. eapply Forall_impl; [exact Hb|].
    intros b (Ha & _) _. by rewrite fit_line_angle, filter_block_angle. }
  destruct (map_side d (map_grid_mm (analysis cfg)) Hd Hg) as [Hh Hside].
  destruct (usable_grid_ok _ Hg) as [_ Hge]. destruct Hg as (Vg & Fg & Hle).
  assert (Hrad : ddiv (dmul (dmul (diameter_mm (wafer cfg)) milli) (dz 1000)) (dz 2) = radius_mm_of d) by (by rewrite Ed).
  assert (Habove : above (dz 0) (map_grid_mm (analysis cfg))).
  { assert (Hn : number (map_grid_mm (analysis cfg))) by (split; [done|by destruct (map_grid_mm (analysis cfg))]).
    unfold above. rewrite SFltb_val by (done || by apply ok_number, dz_ok). apply Z.ltb_lt.
    rewrite (proj2 (dz_ok 0 ltac:(lia))). assert (0 < val milli) by (vm_compute; reflexivity). lia. }
  destruct (map_built fits (dmul (diameter_mm (wafer cfg)) milli) (map_grid_mm (analysis cfg)) Hatan Habove Fg Hfits)
    as (m & Em & Hw & Hhh & Hcount & _); [by rewrite Hrad|by rewrite Hrad|]. rewrite Hrad in Hw, Hhh.
  unfold serial_pipeline. fold filtered fits. unfold aggregate.
  destruct (issue (evaluate_quality _ _ _ _ _ _ _)) eqn:Ei; [rewrite Em|..]; (eexists; split; [reflexivity|]);
    cbn [line_fits filtered_lines quality wafer_map]; rewrite Ei; split_and!; try done.
  exists (ceil_int (ddiv (radius_mm_of d) (map_grid_mm (analysis cfg)))).
  split_and!; [done|done|done|]. by rewrite Hcount, Hw, Hhh.
Qed.


End whole.

#[local] Existing Instances two_trig no_noise every_time coarse_library.

