(* ===== verification/ResultFiles.v ===== *)
(** * The result files of a wafer

    src/analysis/writers/: the CSV of the lines, the CSV of the samples, the JSON summary and
    the picture of the wafer map, on a disk that maps paths to contents. Whether a file can
    be opened and how much of a text reaches it, the JSON text and the PNG encoding of pixels
    are parameters. What a CSV says
    can be read back, and the pixels are written within their buffer. *)

From stdpp Require Import strings gmap.
From S2P Require Import CLibrary NumberText FloatOrder LineFilter WaferFit WaferStress ConfigFile WaferPipeline Prelude.

#[local] Abbreviation dz := double_of_Z.

(** ** Files *)

Definition Disk := gmap string string.

Definition kWriteErrorExitCode : Z := 3.

(** [operator/] of [std::filesystem::path] on a relative name. *)
Definition in_dir (dir name : string) : string := dir +:+ "/" +:+ name.

(** What the file system does: whether a path can be opened for writing, and what of a text
    streamed to it is in the file once it is closed, all of it or, on a full disk, a
    beginning. *)
Record FileSystem := mkFileSystem { opens : string -> bool; stored : string -> string -> string }.

(** A file that must not exist yet. The stream is looked at once it is open and never again:
    whatever is lost later, the answer is [Ok]. *)
Definition write_new (fs : FileSystem) (name cannot dir text : string) (disk : Disk) : Result string * Disk :=
  let path := in_dir dir name in
  if bool_decide (is_Some (disk !! path))
  then (Err (mkError kWriteErrorExitCode (name +:+ " already exists: " +:+ path)), disk)
  else if opens fs path then (Ok path, <[path := stored fs path text]> disk)
  else (Err (mkError kWriteErrorExitCode (cannot +:+ path)), disk).

(** ** CSV *)

Definition newline : string := String "010" EmptyString.

(** What [operator<<] makes of a double, and of one that may be blank. *)
Definition shown (x : double) : string := format_g 6 x.

Definition isfinite (x : double) : bool := is_finite x.

Definition format_or_blank (x : double) : string := if isfinite x then format_f x else EmptyString.

Definition kRadToDeg : double := ddiv (dz 180) kPi.
Definition kMToMm : double := dz 1000.
Definition kMToUm : double := dz 1000000.
Definition kSlopeToUmPerMm : double := dz 1000.

Fixpoint comma_separated (fields : list string) : string :=
  match fields with
  | [] => EmptyString
  | [f] => f
  | f :: fields => f +:+ "," +:+ comma_separated fields
  end.

Definition csv_row (fields : list string) : string := comma_separated fields +:+ newline.

Definition csv_text (rows : list (list string)) : string := foldr String.append EmptyString (map csv_row rows).

Definition line_header : list string :=
  ["wafer_id"; "line_index"; "angle_deg"; "n_samples"; "n_removed"; "curvature_1_per_m"; "radius_m";
   "se_curvature"; "rms_um"; "tilt_um_per_mm"; "offset_um"].

Definition line_row (wafer_id : string) (i : nat) (fit : LineFitResult double) (filtered : FilterResult) : list string :=
  let radius_m := if SFeqb (curvature_per_m fit) (dz 0) then S754_infinity false
                  else ddiv (dz 1) (curvature_per_m fit) in
  [wafer_id; pretty i; shown (dmul (fit_angle_rad fit) kRadToDeg); pretty (length (samples filtered));
   pretty (removed_count filtered); shown (curvature_per_m fit); format_or_blank radius_m;
   shown (se_curvature_per_m fit); shown (dmul (residual_rms_m fit) kMToUm);
   shown (dmul (fit_b fit) kSlopeToUmPerMm); shown (dmul (fit_c fit) kMToUm)].

(** The loop over the fits, which reads [filtered_lines] at the same index; [None] when
    there is no such line. *)
Fixpoint line_rows (wafer_id : string) (i : nat) (fits : list (LineFitResult double)) (filtered : list FilterResult) :
    option (list (list string)) :=
  match fits with
  | [] => Some []
  | fit :: fits =>
      f ← filtered !! i;
      rows ← line_rows wafer_id (S i) fits filtered;
      Some (line_row wafer_id i fit f :: rows)
  end.

Definition write_line_csv (fs : FileSystem) (dir wafer_id : string) (result : PipelineResult) (disk : Disk) :
    option (Result string * Disk) :=
  rows ← line_rows wafer_id 0 (line_fits result) (filtered_lines result);
  Some (write_new fs "lines.csv" "cannot open for writing: " dir (csv_text (line_header :: rows)) disk).

Definition sample_header : list string :=
  ["wafer_id"; "line_index"; "s_mm"; "z_um_raw"; "z_um_clean"; "flag"].

Definition flag_number (f : SampleFlag) : Z :=
  match f with kKept => 0 | kEdgeExcluded => 1 | kOutlier => 2 | kDropped => 3 end.

Definition is_kept (s : FilteredSample) : bool := bool_decide (flag s = kKept).

Definition sample_row (wafer_id : string) (i : nat) (s : FilteredSample) : list string :=
  let z_raw_um := if bool_decide (flag s = kDropped) then S754_nan else dmul (z_m s) kMToUm in
  let z_clean_um := if is_kept s then dmul (z_m s) kMToUm else S754_nan in
  [wafer_id; pretty i; shown (dmul (s_m s) kMToMm); format_or_blank z_raw_um; format_or_blank z_clean_um;
   pretty (flag_number (flag s))].

(** The inner loop, with [kept_seen]. *)
Fixpoint sample_rows (wafer_id : string) (i : nat) (step kept_seen : Z) (l : list FilteredSample) : list (list string) :=
  match l with
  | [] => []
  | s :: l =>
      if is_kept s then
        if Z.rem kept_seen step =? 0
        then sample_row wafer_id i s :: sample_rows wafer_id i step (kept_seen + 1) l
        else sample_rows wafer_id i step (kept_seen + 1) l
      else sample_row wafer_id i s :: sample_rows wafer_id i step kept_seen l
  end.

Definition decimation_step (decimation : Z) : Z := if 0 <? decimation then decimation else 1.

Definition all_sample_rows (wafer_id : string) (decimation : Z) (filtered : list FilterResult) : list (list string) :=
  concat (imap (fun i f => sample_rows wafer_id i (decimation_step decimation) 0 (samples f)) filtered).

Definition write_sample_csv (fs : FileSystem) (dir wafer_id : string) (result : PipelineResult) (decimation : Z)
    (disk : Disk) : Result string * Disk :=
  write_new fs "samples.csv" "cannot open for writing: " dir
    (csv_text (sample_header :: all_sample_rows wafer_id decimation (filtered_lines result))) disk.

(** *** Reading a CSV *)

(** The pieces of a string between the places of a character. *)
Fixpoint split_at (sep : ascii) (s : string) : list string :=
  match s with
  | EmptyString => [EmptyString]
  | String c s =>
      if Ascii.eqb c sep then EmptyString :: split_at sep s
      else match split_at sep s with
           | p :: ps => String c p :: ps
           | [] => [String c EmptyString]
           end
  end.

(** The rows of a text; what follows the last line end is dropped. *)
Definition read_csv (text : string) : list (list string) :=
  map (split_at ",") (removelast (split_at "010" text)).

(** Text without a comma or a line end. *)
Definition plain_char (c : ascii) : bool := negb (Ascii.eqb c ",") && negb (Ascii.eqb c "010").
Abbreviation plain s := (string_all plain_char s = true).

Lemma numeric_plain s : numeric s -> plain s.
Proof.
  apply string_all_impl, number_char_cases; [|done].
  intros d Hd. unfold plain_char. destruct (Ascii.eqb_spec d ","); [by subst|].
  by destruct (Ascii.eqb_spec d "010"); [subst|].
Qed.

Lemma blank_plain x : plain (format_or_blank x).
Proof. unfold format_or_blank. destruct (isfinite x); [|done]. apply numeric_plain, numeric_format_f. Qed.

Lemma shown_plain x : plain (shown x).
Proof. apply numeric_plain, numeric_format_g. Qed.

(** No [sep] in [s]. *)
Abbreviation lacks sep s := (string_all (fun c => negb (Ascii.eqb c sep)) s = true).

Lemma split_lacks sep s : lacks sep s -> split_at sep s = [s].
Proof.
  induction s as [|c s IH]; [done|]. cbn [string_all split_at]. intros [Hc Hs]%andb_prop.
  apply negb_true_iff in Hc. rewrite Hc, IH by done. done.
Qed.

Lemma split_app sep s t : lacks sep s -> split_at sep (s +:+ String sep t) = s :: split_at sep t.
Proof.
  induction s as [|c s IH]; cbn [string_all String.append split_at].
  - intros _. by rewrite Ascii.eqb_refl.
  - intros [Hc Hs]%andb_prop. apply negb_true_iff in Hc. by rewrite Hc, IH.
Qed.

Lemma plain_lacks s : plain s -> lacks "," s /\ lacks "010" s.
Proof.
  intros Hs. split; eapply string_all_impl, Hs; intros c Hc; unfold plain_char in Hc; by apply andb_prop in Hc as [? ?].
Qed.

Lemma split_comma_separated fields : fields <> [] -> Forall (fun f => plain f) fields ->
  split_at "," (comma_separated fields) = fields /\ lacks "010" (comma_separated fields).
Proof.
  intros Hne Hf. induction Hf as [|f fields Hp Hf IH]; [done|]. destruct (plain_lacks f Hp) as [Hc Hn].
  destruct fields as [|g fields]; [split; [by apply split_lacks|done]|].
  destruct IH as [IH1 IH2]; [done|]. cbn [comma_separated] in *.
  change ("," +:+ ?x) with (String "," x). split.
  - by rewrite split_app, IH1.
  - rewrite string_all_app, Hn. cbn [andb string_all]. exact IH2.
Qed.

Lemma read_csv_text rows : Forall (fun r => r <> [] /\ Forall (fun f => plain f) r) rows ->
  read_csv (csv_text rows) = rows.
Proof.
  unfold read_csv, csv_text. intros Hr. induction Hr as [|r rows [Hne Hp] _ IH]; [done|].
  destruct (split_comma_separated r Hne Hp) as [Hs Hl]. cbn [map foldr].
  unfold csv_row at 1. rewrite string_app_assoc. change (newline +:+ ?x) with (String "010" x).
  rewrite split_app by done. cbn [removelast].
  destruct (split_at "010" (foldr String.append "" (map csv_row rows))) as [|p ps] eqn:E.
  { exfalso. revert E. clear. destruct (foldr _ _ _) as [|c s]; simpl; [done|].
    destruct (Ascii.eqb c _); [done|]. by destruct (split_at _ s). }
  cbn [map]. by rewrite Hs, IH.
Qed.

(** *** Which samples are written *)

(** How many of the first [j] samples are kept. *)
Definition kept_before (l : list FilteredSample) (j : nat) : Z := Z.of_nat (length (List.filter is_kept (take j l))).

(** The samples a file with this step shows: all that were thrown away, and of the kept ones
    each [step]-th, beginning with the first. *)
Definition chosen (step : Z) (l : list FilteredSample) : list FilteredSample :=
  omap (fun j => s ← l !! j;
    if negb (is_kept s) || (Z.rem (kept_before l j) step =? 0) then Some s else None) (seq 0 (length l)).

Lemma sample_rows_chosen wafer_id i step l : forall k, sample_rows wafer_id i step k l =
  map (sample_row wafer_id i)
    (omap (fun j => s ← l !! j;
       if negb (is_kept s) || (Z.rem (k + kept_before l j) step =? 0) then Some s else None) (seq 0 (length l))).
Proof.
  induction l as [|s l IH]; intros k; [done|]. cbn [length seq sample_rows omap list_omap].
  rewrite <- seq_shift. cbn [lookup list_lookup mbind option_bind take].
  change (kept_before (s :: l) 0) with 0. rewrite Z.add_0_r.
  assert (E : forall k', k' = k + (if is_kept s then 1 else 0) ->
    omap (fun j => s0 ← (s :: l) !! j;
       if negb (is_kept s0) || (Z.rem (k + kept_before (s :: l) j) step =? 0) then Some s0 else None)
      (map S (seq 0 (length l))) =
    omap (fun j => s0 ← l !! j;
       if negb (is_kept s0) || (Z.rem (k' + kept_before l j) step =? 0) then Some s0 else None) (seq 0 (length l))).
  { intros k' ->. generalize (seq 0 (length l)) as js. induction js as [|j js IHj]; [done|].
    cbn [map omap list_omap]. change ((s :: l) !! S j) with (l !! j).
    assert (Ej : k + kept_before (s :: l) (S j) = k + (if is_kept s then 1 else 0) + kept_before l j).
    { unfold kept_before. cbn [take List.filter]. destruct (is_kept s); cbn [length]; lia. }
    rewrite Ej. destruct (l !! j) as [s0|]; cbn [mbind option_bind]; [|done].
    destruct (_ || _); [by f_equal|done]. }
  destruct (is_kept s) eqn:Ek; cbn [negb orb].
  - rewrite (E (k + 1)) by done. destruct (Z.rem k step =? 0); cbn [map]; by rewrite IH.
  - rewrite (E k) by lia. cbn [map]. by rewrite IH.
Qed.

Lemma rows_chosen wafer_id i step l :
  sample_rows wafer_id i step 0 l = map (sample_row wafer_id i) (chosen step l).
Proof. rewrite sample_rows_chosen. done. Qed.

(** The rows of a line, told apart by their flag. *)
Definition kept_rows (wafer_id : string) (i : nat) (step kept_seen : Z) (l : list FilteredSample) : Z :=
  Z.of_nat (length (List.filter (fun r => bool_decide (last r = Some (pretty 0))) (sample_rows wafer_id i step kept_seen l))).

Lemma kept_rows_count wafer_id i step l : 0 < step -> forall k, 0 <= k ->
  kept_rows wafer_id i step k l =
    (k + Z.of_nat (length (List.filter is_kept l)) + step - 1) / step - (k + step - 1) / step.
Proof.
  intros Hs. unfold kept_rows. induction l as [|s l IH]; intros k Hk; cbn [sample_rows List.filter].
  { simpl. rewrite Z.add_0_r. lia. }
  assert (Hflag : bool_decide (last (sample_row wafer_id i s) = Some (pretty 0)) = is_kept s).
  { unfold sample_row, is_kept. cbn [last]. destruct (flag s); by vm_compute. }
  destruct (is_kept s) eqn:Ek.
  - assert (Hstep : (k + 1 + step - 1) / step - (k + step - 1) / step = if Z.rem k step =? 0 then 1 else 0).
    { rewrite Z.rem_mod_nonneg by lia. pose proof (Z.div_mod k step ltac:(lia)) as Hk'.
      pose proof (Z.mod_pos_bound k step Hs) as Hr. revert Hk' Hr. generalize (k / step) (k mod step).
      intros q r -> Hr. destruct (Z.eqb_spec r 0) as [->|E].
      - replace (step * q + 0 + 1 + step - 1) with ((q + 1) * step + 0) by lia.
        replace (step * q + 0 + step - 1) with (q * step + (step - 1)) by lia.
        rewrite !Z.div_add_l, (Z.div_small 0), (Z.div_small (step - 1)) by lia. lia.
      - replace (step * q + r + 1 + step - 1) with ((q + 1) * step + r) by lia.
        replace (step * q + r + step - 1) with ((q + 1) * step + (r - 1)) by lia.
        rewrite !Z.div_add_l, !Z.div_small by lia. lia. }
    specialize (IH (k + 1) ltac:(lia)).
    replace (k + Z.of_nat (length (s :: List.filter is_kept l))) with (k + 1 + Z.of_nat (length (List.filter is_kept l)))
      by (cbn [length]; lia).
    destruct (Z.rem k step =? 0); cbn [List.filter]; rewrite ?Hflag; cbn [length]; lia.
  - cbn [List.filter]. rewrite Hflag. by apply IH.
Qed.

Lemma sample_row_plain wafer_id i s : plain wafer_id ->
  sample_row wafer_id i s <> [] /\ Forall (fun f => plain f) (sample_row wafer_id i s).
Proof.
  intros Hw. split; [done|]. unfold sample_row. repeat (apply Forall_cons_2 || apply Forall_nil_2);
    auto using shown_plain, blank_plain, numeric_plain with numeric.
Qed.

Lemma line_row_plain wafer_id i fit f : plain wafer_id ->
  line_row wafer_id i fit f <> [] /\ Forall (fun f => plain f) (line_row wafer_id i fit f).
Proof.
  intros Hw. split; [done|]. unfold line_row. repeat (apply Forall_cons_2 || apply Forall_nil_2);
    auto using shown_plain, blank_plain, numeric_plain with numeric.
Qed.

Lemma line_rows_total wafer_id filtered : forall fits i, (i + length fits <= length filtered)%nat -> plain wafer_id ->
  exists rows, line_rows wafer_id i fits filtered = Some rows /\ length rows = length fits /\
    Forall (fun r => r <> [] /\ Forall (fun f => plain f) r) rows /\ Forall (fun r => length r = 11%nat) rows.
Proof.
  induction fits as [|fit fits IH]; intros i Hi Hw; cbn [line_rows length] in *.
  { exists []. by split_and!. }
  destruct (lookup_lt_is_Some_2 filtered i) as [f Hf]; [lia|]. rewrite Hf.
  destruct (IH (S i)) as (rows & Hr & Hl & Hp & Hc); [lia|done|]. cbn [mbind option_bind]. rewrite Hr.
  exists (line_row wafer_id i fit f :: rows). split_and!; [done|simpl; lia| |by constructor].
  constructor; [by apply line_row_plain|done].
Qed.


(** A disk without trouble. *)
Definition sound_disk : FileSystem := mkFileSystem (fun _ => true) (fun _ text => text).

