(* ===== verification/WaferPicture.v ===== *)
(** * The picture of a wafer

    src/analysis/writers/png_writer.cpp: the wafer map in colours with its colour bar, as the
    pixels handed to the PNG encoder. Every write is inside the buffer, every pixel is what
    the map says, and no colour component leaves its byte. *)

From stdpp Require Import gmap.
From S2P Require Import CLibrary FloatOrder FloatScale LineFilter FaultInjector ScanProgress WaferFit WaferStress ConfigFile WaferPipeline ResultFiles Prelude.

#[local] Abbreviation dz := double_of_Z.
#[local] Abbreviation top := (largest prec64 emax64).

Definition kColorBarWidth : Z := 20.
Definition kMargin : Z := 10.

Definition Rgb : Type := Z * Z * Z.

(** [static_cast<unsigned char>(std::lround(c * 255.0))]; [unspecified] is what [lround] makes
    of a value out of its range. *)
Definition component (unspecified : Z) (c : double) : Z := wrap 8 (llround unspecified (dmul c (dz 255))).

(** The colour before it is cut to bytes: blue, white, red. *)
Definition diverging (t : double) : double * double * double :=
  let t := std_clamp t (dz 0) (dz 1) in
  if SFltb t LineFilter.half then
    let u := dmul t (dz 2) in (u, u, dz 1)
  else
    let u := dmul (dsub t LineFilter.half) (dz 2) in (dz 1, dsub (dz 1) u, dsub (dz 1) u).

Definition diverging_color (unspecified : Z) (t : double) : Rgb :=
  let '(r, g, b) := diverging t in
  (component unspecified r, component unspecified g, component unspecified b).

(** [None] for a write outside the buffer. *)
Definition put_pixel (stride : Z) (x y : Z) (rgb : Rgb) (pixels : list Z) : option (list Z) :=
  let idx := Z.to_nat (y * stride + x * 3) in
  if (y * stride + x * 3 <? 0) || (length pixels <=? idx + 2)%nat then None
  else Some (<[(idx + 2)%nat := rgb.2]> (<[(idx + 1)%nat := rgb.1.2]> (<[idx := rgb.1.1]> pixels))).

(** A loop whose body may leave the buffer. *)
Fixpoint for_all {A} (body : A -> list Z -> option (list Z)) (l : list A) (pixels : list Z) : option (list Z) :=
  match l with
  | [] => Some pixels
  | a :: l => p ← body a pixels; for_all body l p
  end.

(** The range of the finite heights, and its span. *)
Definition height_range (heights : list double) : double * double :=
  let '(lo, hi) := foldl (fun '(lo, hi) v => if isfinite v then (std_min lo v, std_max hi v) else (lo, hi))
                     (S754_infinity false, S754_infinity true) heights in
  if SFleb lo hi then (lo, hi) else (dz 0, dz 1).

Definition range_span (lo hi : double) : double := if SFltb lo hi then dsub hi lo else dz 1.

Section picture.
Context {L : MapLibrary} (unspecified : Z) (map : WaferMap) (edge_exclusion_mm : double).

Definition picture_width : Z := map_width map + kMargin + kColorBarWidth.
Definition picture_height : Z := Z.max (map_height map) 1.
Definition stride : Z := picture_width * 3.

Definition background : Z := 200.

(** The colour of a pixel with a height, or the ring. *)
Definition cell_color (v : double) (j i : Z) : Rgb :=
  let '(lo, hi) := height_range (heights_m map) in
  let half_n := ddiv (dz (map_width map - 1)) (dz 2) in
  let radius_mm := ddiv (dmul (diameter_m map) (dz 1000)) (dz 2) in
  let x_mm := dmul (dsub (dz i) half_n) (grid_mm map) in
  let y_mm := dmul (dsub (dz j) half_n) (grid_mm map) in
  let ring_r := dsub radius_mm edge_exclusion_mm in
  if SFltb (SFabs (dsub (hypot x_mm y_mm) ring_r)) (dmul (grid_mm map) LineFilter.half)
  then (0, 0, 0)
  else diverging_color unspecified (ddiv (dsub v lo) (range_span lo hi)).

Definition paint_cell (ji : Z * Z) (pixels : list Z) : option (list Z) :=
  let '(j, i) := ji in
  v ← heights_m map !! Z.to_nat (j * map_width map + i);
  if isfinite v then put_pixel stride i j (cell_color v j i) pixels else Some pixels.

Definition bar_color (j : Z) : Rgb :=
  diverging_color unspecified (dsub (dz 1) (ddiv (dz j) (dz (Z.max (picture_height - 1) 1)))).

Definition paint_bar (ji : Z * Z) (pixels : list Z) : option (list Z) :=
  let '(j, i) := ji in put_pixel stride (map_width map + kMargin + i) j (bar_color j) pixels.

Definition render : option (list Z) :=
  p ← for_all paint_cell (list_prod (seqZ 0 (map_height map)) (seqZ 0 (map_width map)))
        (replicate (Z.to_nat (stride * picture_height)) background);
  for_all paint_bar (list_prod (seqZ 0 picture_height) (seqZ 0 kColorBarWidth)) p.

(** [write_wafer_map_png]; [encode] is what stb_image_write makes of the pixels, [None] when it
    fails; it then opens the file, and does not look at what becomes of the write. *)
Definition write_wafer_map_png (fs : FileSystem) (encode : Z -> Z -> list Z -> option string) (dir : string) (disk : Disk) :
    option (Result string * Disk) :=
  let path := in_dir dir "wafer_map.png" in
  if bool_decide (is_Some (disk !! path))
  then Some (Err (mkError kWriteErrorExitCode ("wafer_map.png already exists: " +:+ path)), disk)
  else
    pixels ← render;
    let failed := (Err (mkError kWriteErrorExitCode ("stbi_write_png failed: " +:+ path)), disk) in
    Some (match encode picture_width picture_height pixels with
          | Some text => if opens fs path then (Ok path, <[path := stored fs path text]> disk) else failed
          | None => failed
          end).

(** ** The buffer *)

Definition pixel_at (pixels : list Z) (x y : Z) : option Rgb :=
  let idx := Z.to_nat (y * stride + x * 3) in
  r ← pixels !! idx; g ← pixels !! (idx + 1)%nat; b ← pixels !! (idx + 2)%nat; Some (r, g, b).

Context (Hw : 0 <= map_width map).

Definition inside (x y : Z) : Prop := 0 <= x < picture_width /\ 0 <= y < picture_height.

Definition buffer (pixels : list Z) : Prop := Z.of_nat (length pixels) = stride * picture_height.

Lemma index_bound x y : inside x y -> 0 <= y * stride + x * 3 /\ y * stride + x * 3 + 3 <= stride * picture_height.
Proof.
  unfold inside, stride. intros [Hx Hy]. assert (y * picture_width <= (picture_height - 1) * picture_width)
    by (apply Z.mul_le_mono_nonneg_r; lia).
  assert (0 <= y * picture_width) by (apply Z.mul_nonneg_nonneg; lia). lia.
Qed.

Lemma index_apart x y x' y' : inside x y -> inside x' y' -> (x, y) <> (x', y') ->
  y * stride + x * 3 + 3 <= y' * stride + x' * 3 \/ y' * stride + x' * 3 + 3 <= y * stride + x * 3.
Proof.
  unfold inside, stride. intros [Hx Hy] [Hx' Hy'] Hne.
  assert (Hrow : forall a b, a < b -> a * picture_width + picture_width <= b * picture_width).
  { intros a b Hab. replace (a * picture_width + picture_width) with ((a + 1) * picture_width) by lia.
    apply Z.mul_le_mono_nonneg_r; lia. }
  destruct (Z.lt_trichotomy y y') as [Hlt|[->|Hlt]]; [specialize (Hrow _ _ Hlt); left; lia| |specialize (Hrow _ _ Hlt); right; lia].
  destruct (Z.lt_trichotomy x x') as [|[->|]]; [left; lia|done|right; lia].
Qed.

Lemma pixel_exists pixels x y : buffer pixels -> inside x y -> is_Some (pixel_at pixels x y).
Proof.
  intros Hb Hi. pose proof (index_bound x y Hi). unfold buffer, pixel_at in *. set (idx := Z.to_nat _).
  destruct (lookup_lt_is_Some_2 pixels idx) as [r ->]; [lia|].
  destruct (lookup_lt_is_Some_2 pixels (idx + 1)) as [g ->]; [lia|].
  destruct (lookup_lt_is_Some_2 pixels (idx + 2)) as [b ->]; [lia|]. by eexists.
Qed.

Lemma put_pixel_spec pixels x y rgb : buffer pixels -> inside x y ->
  exists p, put_pixel stride x y rgb pixels = Some p /\ buffer p /\ pixel_at p x y = Some rgb /\
    forall x' y', inside x' y' -> (x, y) <> (x', y') -> pixel_at p x' y' = pixel_at pixels x' y'.
Proof.
  intros Hb Hi. pose proof (index_bound x y Hi) as Hix. unfold buffer, put_pixel in *.
  rewrite (proj2 (Z.ltb_ge _ 0)), (proj2 (Nat.leb_gt _ _)) by lia. cbn [orb].
  eexists. split; [done|]. rewrite !length_insert. split; [done|]. split.
  - unfold pixel_at. set (idx := Z.to_nat _). destruct rgb as [[r g] b]. cbn [fst snd].
    assert (Hlen : (idx + 2 < length pixels)%nat) by lia. set (P := <[(idx + 2)%nat := b]> _).
    assert (P !! idx = Some r) as ->.
    { unfold P. rewrite !list_lookup_insert_ne by lia. apply list_lookup_insert_eq. lia. }
    assert (P !! (idx + 1)%nat = Some g) as ->.
    { unfold P. rewrite list_lookup_insert_ne by lia. apply list_lookup_insert_eq. rewrite length_insert. lia. }
    assert (P !! (idx + 2)%nat = Some b) as ->; [|done].
    apply list_lookup_insert_eq. rewrite !length_insert. lia.
  - intros x' y' Hi' Hne. pose proof (index_bound x' y' Hi'). pose proof (index_apart x y x' y' Hi Hi' Hne).
    unfold pixel_at. by rewrite !list_lookup_insert_ne by lia.
Qed.

(** What a run of writes to different places leaves. *)
Definition writes (l : list (Z * Z * Rgb)) (pixels pixels' : list Z) : Prop :=
  buffer pixels' /\ (forall x y rgb, (x, y, rgb) ∈ l -> pixel_at pixels' x y = Some rgb) /\
  forall x y, inside x y -> (forall rgb, (x, y, rgb) ∉ l) -> pixel_at pixels' x y = pixel_at pixels x y.

(** The write of one turn of a loop, if it makes one. *)
Definition makes {A} (body : A -> list Z -> option (list Z)) (place : A -> Z * Z) (color : A -> option Rgb) (a : A) : Prop :=
  inside (place a).1 (place a).2 /\
  forall pixels, body a pixels = match color a with
                                 | Some rgb => put_pixel stride (place a).1 (place a).2 rgb pixels
                                 | None => Some pixels
                                 end.

Lemma for_all_writes {A} (body : A -> list Z -> option (list Z)) place color l pixels :
  Forall (makes body place color) l -> NoDup (place <$> l) -> buffer pixels ->
  exists p, for_all body l pixels = Some p /\
    writes (omap (fun a => rgb ← color a; Some (place a, rgb)) l) pixels p.
Proof.
  intros Hl. revert pixels. induction Hl as [|a l [Hin Hb] _ IH]; intros pixels Hn Hp.
  { exists pixels. split; [done|]. split_and!; [done| |done]. intros x y rgb H%elem_of_nil. done. }
  cbn [fmap list_fmap] in Hn. apply NoDup_cons in Hn as [Ha Hn]. cbn [for_all omap list_omap]. rewrite Hb.
  assert (Hfresh : forall rgb, (place a, rgb) ∉ omap (fun a => rgb ← color a; Some (place a, rgb)) l).
  { intros rgb (b & Hbl & Hb')%list_elem_of_omap. destruct (color b); [|done]. injection Hb' as E _.
    apply Ha. rewrite <- E. by apply list_elem_of_fmap_2. }
  destruct (place a) as [x y] eqn:Ep. cbn [fst snd] in *. destruct (color a) as [rgb|]; cbn [mbind option_bind].
  - destruct (put_pixel_spec pixels x y rgb Hp Hin) as (p1 & -> & Hp1 & Hat & Helse). cbn [mbind option_bind].
    destruct (IH p1 Hn Hp1) as (p & Hf & Hbuf & Hw1 & Hw2). exists p. split; [done|]. split_and!; [done| |].
    + intros x' y' rgb' [E|Hin']%elem_of_cons; [|by apply Hw1]. injection E as -> -> ->.
      rewrite Hw2; [done|done|]. intros rgb'. apply Hfresh.
    + intros x' y' Hi' Hno. rewrite Hw2; [|done|].
      * apply Helse; [done|]. intros E. injection E as -> ->. apply (Hno rgb). by left.
      * intros rgb' Hc. apply (Hno rgb'). by right.
  - cbn [mbind option_bind]. destruct (IH pixels Hn Hp) as (p & Hf & Hw'). exists p. done.
Qed.

(** What a pixel of the picture shows. *)
Definition shown_pixel (x y : Z) : Rgb :=
  if (x <? map_width map) && (y <? map_height map) then
    match heights_m map !! Z.to_nat (y * map_width map + x) with
    | Some v => if isfinite v then cell_color v y x else (background, background, background)
    | None => (background, background, background)
    end
  else if x <? map_width map + kMargin then (background, background, background) else bar_color y.

Definition cell_write (ji : Z * Z) : option Rgb :=
  v ← heights_m map !! Z.to_nat (ji.1 * map_width map + ji.2);
  if isfinite v then Some (cell_color v ji.1 ji.2) else None.

Lemma NoDup_pairs {A B} (l : list A) (l' : list B) : NoDup l -> NoDup l' -> NoDup (list_prod l l').
Proof.
  intros Hl Hl'. induction Hl as [|a l Ha _ IH]; cbn [list_prod]; [constructor|].
  apply NoDup_app. split_and!; [|intros [x y] Hin Hin2|done].
  - apply (NoDup_fmap_2 (fun y => (a, y)) l' Hl').
  - apply (list_elem_of_fmap (fun y => (a, y))) in Hin as (z & [= -> ->] & _).
    apply list_elem_of_In, in_prod_iff in Hin2 as [Hin2 _]. apply Ha. by apply list_elem_of_In.
Qed.

Lemma NoDup_swapped h w (f : Z -> Z) : (forall i i', f i = f i' -> i = i') ->
  NoDup ((fun ji : Z * Z => (f ji.2, ji.1)) <$> list_prod (seqZ 0 h) (seqZ 0 w)).
Proof.
  intros Hf. apply NoDup_fmap_2; [intros [j i] [j' i'] E; injection E as E1%Hf E2; by subst|].
  apply NoDup_pairs; apply NoDup_seqZ.
Qed.

Lemma in_cells j i h w : (j, i) ∈ list_prod (seqZ 0 h) (seqZ 0 w) <-> 0 <= j < h /\ 0 <= i < w.
Proof. rewrite list_elem_of_In, in_prod_iff, <- !list_elem_of_In, !elem_of_seqZ. lia. Qed.

Context (Hcells : Z.of_nat (length (heights_m map)) = map_width map * map_height map).

Lemma cells_made : Forall (makes paint_cell (fun ji => (ji.2, ji.1)) cell_write)
  (list_prod (seqZ 0 (map_height map)) (seqZ 0 (map_width map))).
Proof.
  apply Forall_forall. intros [j i] Hin. apply in_cells in Hin as [Hj Hi]. split.
  - unfold inside, picture_width, picture_height, kMargin, kColorBarWidth. cbn [fst snd]. lia.
  - intros pixels. unfold paint_cell, cell_write. cbn [fst snd].
    assert (Hlt : (Z.to_nat (j * map_width map + i) < length (heights_m map))%nat).
    { assert (j * map_width map <= (map_height map - 1) * map_width map) by (apply Z.mul_le_mono_nonneg_r; lia).
      assert (0 <= j * map_width map) by (apply Z.mul_nonneg_nonneg; lia). lia. }
    destruct (lookup_lt_is_Some_2 _ _ Hlt) as [v ->]. cbn [mbind option_bind]. by destruct (isfinite v).
Qed.

Lemma bars_made : Forall (makes paint_bar (fun ji => (map_width map + kMargin + ji.2, ji.1)) (fun ji => Some (bar_color ji.1)))
  (list_prod (seqZ 0 picture_height) (seqZ 0 kColorBarWidth)).
Proof.
  apply Forall_forall. intros [j i] Hin. apply in_cells in Hin as [Hj Hi]. split; [|done].
  unfold inside, picture_width, picture_height, kMargin, kColorBarWidth in *. cbn [fst snd]. lia.
Qed.

Lemma background_pixels : buffer (replicate (Z.to_nat (stride * picture_height)) background) /\
  forall x y, inside x y ->
    pixel_at (replicate (Z.to_nat (stride * picture_height)) background) x y = Some (background, background, background).
Proof.
  assert (0 <= stride * picture_height).
  { apply Z.mul_nonneg_nonneg; unfold stride, picture_width, picture_height, kMargin, kColorBarWidth; lia. }
  split; [unfold buffer; rewrite length_replicate; lia|].
  intros x y Hi. pose proof (index_bound x y Hi). unfold pixel_at. by rewrite !lookup_replicate_2 by lia.
Qed.

Lemma render_shows : exists pixels, render = Some pixels /\ buffer pixels /\
  forall x y, inside x y -> pixel_at pixels x y = Some (shown_pixel x y).
Proof.
  destruct background_pixels as [Hb0 Hbg]. unfold render.
  destruct (for_all_writes _ _ _ _ _ cells_made (NoDup_swapped _ _ (fun i => i) (fun _ _ E => E)) Hb0)
    as (p1 & -> & Hb1 & Hw1 & Hn1). cbn [mbind option_bind].
  assert (Hinj : forall i i', map_width map + kMargin + i = map_width map + kMargin + i' -> i = i') by lia.
  destruct (for_all_writes _ _ _ _ p1 bars_made (NoDup_swapped _ _ (fun i => map_width map + kMargin + i) Hinj) Hb1)
    as (p2 & Hp2 & Hb2 & Hw2 & Hn2). exists p2. split; [done|]. split; [done|]. intros x y Hi.
  destruct Hi as [Hx Hy]. unfold shown_pixel.
  destruct (Z.lt_ge_cases x (map_width map + kMargin)) as [Hleft|Hright].
  - rewrite Hn2; [|by split|].
    2:{ intros rgb ([j i] & Hin & E)%list_elem_of_omap. apply in_cells in Hin as [_ Hi].
        cbn [fst snd mbind option_bind] in E. injection E as E _ _. lia. }
    destruct ((x <? map_width map) && (y <? map_height map)) eqn:Ec.
    + assert (Hin : (y, x) ∈ list_prod (seqZ 0 (map_height map)) (seqZ 0 (map_width map))) by (apply in_cells; lia).
      destruct (heights_m map !! Z.to_nat (y * map_width map + x)) as [v|] eqn:Ev.
      * destruct (isfinite v) eqn:Ef.
        -- apply Hw1. apply list_elem_of_omap. exists (y, x). split; [done|].
           unfold cell_write. cbn [fst snd]. rewrite Ev. cbn [mbind option_bind]. by rewrite Ef.
        -- rewrite Hn1; [by apply Hbg|by split|].
           intros rgb ([j i] & _ & E)%list_elem_of_omap. unfold cell_write in E. cbn [fst snd] in E.
           destruct (heights_m map !! Z.to_nat (j * map_width map + i)) as [v'|] eqn:Ev'; [|done].
           cbn [mbind option_bind] in E. destruct (isfinite v') eqn:Ef'; [|done]. cbn [mbind option_bind] in E.
           injection E as -> -> _. congruence.
      * rewrite Hn1; [by apply Hbg|by split|].
        intros rgb ([j i] & _ & E)%list_elem_of_omap. unfold cell_write in E. cbn [fst snd] in E.
        destruct (heights_m map !! Z.to_nat (j * map_width map + i)) as [v'|] eqn:Ev'; [|done].
        cbn [mbind option_bind] in E. destruct (isfinite v'); [|done]. cbn [mbind option_bind] in E.
        injection E as -> -> _. congruence.
    + rewrite (proj2 (Z.ltb_lt x _)) by lia. rewrite Hn1; [by apply Hbg|by split|].
      intros rgb ([j i] & Hin & E)%list_elem_of_omap. apply in_cells in Hin as [Hj Hi].
      cbn [fst snd] in E. destruct (cell_write (j, i)); [|done]. injection E as -> -> _. lia.
  - rewrite (proj2 (Z.ltb_ge x (map_width map))), (proj2 (Z.ltb_ge x (_ + _))) by (unfold kMargin in *; lia). cbn [andb].
    apply Hw2. apply list_elem_of_omap. exists (y, x - (map_width map + kMargin)). split.
    + apply in_cells. unfold picture_width in Hx. lia.
    + cbn [fst snd mbind option_bind]. do 3 f_equal. lia.
Qed.

End picture.

(** ** The colours *)

Definition between (c : double) (hi : Z) : Prop := number c /\ 0 <= val c <= hi.

Definition one_value : Z := val (dz 1).

(** Such a number is [-0], or has no sign. *)
Lemma between_cases c hi : hi < top -> between c hi -> c = S754_zero true \/ ok c.
Proof.
  intros Hhi [[Hv Hn] Hc]. destruct c as [[]|[]| |[] m e]; try done; [by left|by right|..|by right].
  - exfalso. change (val (S754_infinity true)) with (- top) in Hc. assert (0 < top) by (by vm_compute). lia.
  - exfalso. change (val (S754_infinity false)) with top in Hc. lia.
  - exfalso. apply valid_canonical, magnitude_pos in Hv; [|done..]. cbn [value signed] in Hc. lia.
Qed.

Lemma ok_between c hi : ok c -> val c <= hi -> between c hi.
Proof. intros Hc Hle. split; [by apply ok_number|]. pose proof (ok_val c Hc). lia. Qed.

Lemma llround_ok unspecified x u : ok x -> val x <= u * unit64 -> 0 <= u < 2 ^ 62 -> 0 <= llround unspecified x <= u.
Proof.
  intros [Hv Hn] Hle Hu. pose proof unit64_pos. destruct x as [[]| | |[] m e]; try done; [simpl; lia|].
  apply valid_canonical in Hv as [_ He _]; [|done..]. cbn [llround value signed] in *. unfold magnitude in Hle.
  change unit64 with (2 ^ (- emin prec64 emax64)) in Hle.
  assert (Hr : 0 <= (if 0 <=? e then Zpos m * 2 ^ e else (Zpos m + 2 ^ (- e - 1)) / 2 ^ (- e)) <= u).
  { destruct (Z.leb_spec 0 e).
    - replace (e - emin prec64 emax64) with (e + - emin prec64 emax64) in Hle by lia.
      rewrite Z.pow_add_r, Z.mul_assoc in Hle by (try lia; done).
      assert (0 < 2 ^ e) by lia. split; [lia|].
      apply (Z.mul_le_mono_pos_r _ _ (2 ^ (- emin prec64 emax64))); [done|lia].
    - replace (- emin prec64 emax64) with (- e + (e - emin prec64 emax64)) in Hle by lia.
      rewrite Z.pow_add_r, Z.mul_assoc in Hle by lia. assert (0 < 2 ^ (e - emin prec64 emax64)) by lia.
      assert (Hm : Zpos m <= u * 2 ^ (- e)) by nia. assert (0 < 2 ^ (- e - 1)) by lia.
      assert (Hhalf : 2 ^ (- e) = 2 * 2 ^ (- e - 1)) by (rewrite <- Z.pow_succ_r by lia; f_equal; lia).
      rewrite Hhalf in *. split; [apply Z.div_pos; lia|]. apply Z.lt_succ_r, Z.div_lt_upper_bound; lia. }
  rewrite bool_decide_true by int_lia. done.
Qed.

Lemma one_below_top : one_value < top /\ one_value = unit64.
Proof. split; by vm_compute. Qed.

(** A component from 0 to 1 becomes a byte without being cut. *)
Lemma component_exact unspecified c : between c one_value ->
  0 <= llround unspecified (dmul c (dz 255)) <= 255 /\ component unspecified c = llround unspecified (dmul c (dz 255)).
Proof.
  intros Hc. destruct one_below_top as [Ht E1]. assert (Hb : 0 <= llround unspecified (dmul c (dz 255)) <= 255).
  { destruct (between_cases c _ Ht Hc) as [->|Ho]; [by vm_compute|]. destruct Hc as [_ Hle].
    destruct (dz_ok 255 ltac:(lia)) as [H2 V2]. pose proof unit64_pos. pose proof (ok_val c Ho).
    destruct (dmul_below c (dz 255) (dz 255)) as [Hm Vm]; try assumption; [nia|]. apply llround_ok; [done|lia|lia]. }
  split; [done|]. unfold component, wrap. by rewrite Z.mod_small by lia.
Qed.

Lemma half_ok : ok LineFilter.half /\ 2 * val LineFilter.half = one_value.
Proof. split; [split|]; by vm_compute. Qed.

Lemma double_between x : between x (val LineFilter.half) -> between (dmul x (dz 2)) one_value.
Proof.
  intros Hx. destruct one_below_top as [Ht E1]. destruct half_ok as [Ho Eh]. pose proof unit64_pos.
  destruct (between_cases x (val LineFilter.half)) as [->|Hxo]; [lia|done|by split; [split|]; vm_compute|].
  destruct (dz_ok 2 ltac:(lia)) as [H2 V2]. destruct (dz_ok 1 ltac:(lia)) as [H1 V1]. destruct Hx as [_ Hx].
  destruct (dmul_below x (dz 2) (dz 1)) as [Hm Vm]; try assumption; [nia|]. by apply ok_between.
Qed.

Lemma difference_between x y hi : finite x -> finite y -> ok hi -> 0 <= val x - val y <= val hi ->
  between (dsub x y) (val hi).
Proof.
  intros [Vx Fx] [Vy Fy] Hh Hd.
  destruct (sub_value prec64 emax64 ltac:(done) ltac:(done) x y Vx Vy Fx Fy) as (Hv & Hn & Hva).
  split; [by split|]. unfold dsub. rewrite Hv.
  pose proof (saturated_mono prec64 emax64 ltac:(done) ltac:(done) 0 _ (proj1 Hd)) as Hlo.
  pose proof (saturated_mono prec64 emax64 ltac:(done) ltac:(done) _ (val hi) (proj2 Hd)) as Hup.
  rewrite (saturated_value prec64 emax64 ltac:(done) ltac:(done) hi (proj1 Hh)) in Hup.
  change (saturated prec64 emax64 0) with 0 in Hlo. lia.
Qed.

Lemma between_finite_number c hi : hi < top -> between c hi -> finite c.
Proof. intros Hhi Hc. destruct (between_cases c hi Hhi Hc) as [->|Ho]; [by split|by apply ok_finite]. Qed.

Lemma clamp_between t : number t -> between (std_clamp t (dz 0) (dz 1)) one_value.
Proof.
  intros Ht. destruct (dz_ok 0 ltac:(lia)) as [H0 V0]. destruct (dz_ok 1 ltac:(lia)) as [H1 V1]. pose proof unit64_pos.
  unfold std_clamp, one_value. rewrite SFltb_val by (done || by apply ok_number).
  destruct (Z.ltb_spec (val t) (val (dz 0))); [apply ok_between; [done|lia]|].
  rewrite SFltb_val by (done || by apply ok_number).
  destruct (Z.ltb_spec (val (dz 1)) (val t)); [by apply ok_between|]. split; [done|lia].
Qed.

(** Every number has a colour whose components lie from 0 to 1. *)
Lemma diverging_between t : number t ->
  let '(r, g, b) := diverging t in between r one_value /\ between g one_value /\ between b one_value.
Proof.
  intros Ht. unfold diverging. pose proof (clamp_between t Ht) as Hc. set (c := std_clamp _ _ _) in *. clearbody c.
  destruct one_below_top as [Htop E1]. destruct half_ok as [Hho Eh]. destruct (dz_ok 1 ltac:(lia)) as [H1 V1].
  assert (Hone : between (dz 1) one_value) by (by apply ok_between).
  rewrite SFltb_val by (apply Hc || by apply ok_number).
  destruct (Z.ltb_spec (val c) (val LineFilter.half)) as [Hlt|Hge].
  - assert (Hu : between (dmul c (dz 2)) one_value) by (apply double_between; destruct Hc; split; [done|lia]).
    by split_and!.
  - assert (Hd : between (dsub c LineFilter.half) (val LineFilter.half)).
    { apply difference_between; [by apply (between_finite_number c one_value)|by apply ok_finite|done|].
      destruct Hc as [_ Hc]. lia. }
    pose proof (double_between _ Hd) as Hu. set (u := dmul _ _) in *. clearbody u.
    assert (Hv : between (dsub (dz 1) u) one_value).
    { apply difference_between; [by apply ok_finite|by apply (between_finite_number u one_value)|done|].
      destruct Hu as [_ Hu]. unfold one_value in *. lia. }
    by split_and!.
Qed.

(** The ends and the middle of the scale: blue, white and red. *)
Example scale_colours unspecified :
  diverging_color unspecified (dz 0) = (0, 0, 255) /\ diverging_color unspecified LineFilter.half = (255, 255, 255) /\
  diverging_color unspecified (dz 1) = (255, 0, 0).
Proof. vm_compute. done. Qed.

(** [C39] The picture of a wafer map: for a map with a height for every cell the loops of the writer
    make no access outside their arrays, and the pixels handed to the encoder are a full
    buffer in which the pixel at column [x] and row [y] is the colour of the height at that
    cell, black on the ring of the edge exclusion, the background where there is no height
    and between map and bar, and the colour of the scale in the bar. The components of
    every colour of a number lie from 0 to 255 before they are cut to a byte. *)
Theorem picture_shows_map {L : MapLibrary} unspecified (map : WaferMap) edge_exclusion_mm :
  0 <= map_width map ->
  Z.of_nat (length (heights_m map)) = map_width map * map_height map ->
  (exists pixels, render unspecified map edge_exclusion_mm = Some pixels /\
     Z.of_nat (length pixels) = picture_width map * picture_height map * 3 /\
     forall x y, 0 <= x < picture_width map -> 0 <= y < picture_height map ->
       pixel_at map pixels x y = Some (shown_pixel unspecified map edge_exclusion_mm x y)) /\
  forall t, number t -> let '(r, g, b) := diverging t in
    Forall (fun c => 0 <= llround unspecified (dmul c (dz 255)) <= 255 /\
                     component unspecified c = llround unspecified (dmul c (dz 255))) [r; g; b].
Proof.
  intros Hw Hc. split.
  - destruct (render_shows unspecified map edge_exclusion_mm Hw Hc) as (pixels & Hr & Hb & Hp).
    exists pixels. split; [done|]. split; [unfold buffer, stride in Hb; lia|]. intros x y Hx Hy. by apply Hp.
  - intros t Ht. pose proof (diverging_between t Ht) as Hd. destruct (diverging t) as [[r g] b].
    destruct Hd as (? & ? & ?). repeat (apply Forall_cons_2 || apply Forall_nil_2); by apply component_exact.
Qed.

Lemma picture_shows_map_witness :
  let map := mkWaferMap 1 1 (dz 25) (double_of_ratio false 1 10) [dz 7] in
  exists pixels, render (L := coarse_library) 0 map (dz 3) = Some pixels /\ Z.of_nat (length pixels) = 93.
Proof.
  intros map. destruct (picture_shows_map (L := coarse_library) 0 map (dz 3)) as [(pixels & Hr & Hl & _) _];
    [vm_compute; discriminate|reflexivity|].
  exists pixels. split; [exact Hr|exact Hl].
Defined.
