(* ===== verification/WaferMapWidget.v ===== *)
(** * The wafer map of the panel

    src/app_qt/wafer_map_widget.cpp: the image [set_map] makes of the heights of a wafer. What
    the widget then draws of it is Qt's. A colour is what Qt makes of a hue, a saturation and
    a value (class [ColorLibrary]). *)

From stdpp Require Import gmap.
From S2P Require Import CLibrary FloatOrder FloatScale LineFilter FaultInjector ScanProgress WaferFit WaferStress ConfigFile WaferPipeline ResultFiles WaferPicture Prelude.

#[local] Abbreviation dz := double_of_Z.
#[local] Abbreviation dr := double_of_ratio.
#[local] Abbreviation top := (largest prec64 emax64).

Class ColorLibrary (Color : Type) := {
  transparent : Color;
  from_hsv : double -> double -> double -> Color
}.

(** [QImage] as far as [set_map] fills it: rows from the top. *)
Record Image (Color : Type) := mkImage { image_width : Z; image_height : Z; pixels : list Color }.
Arguments mkImage {Color}.
Arguments image_width {Color}.
Arguments image_height {Color}.
Arguments pixels {Color}.

Record WaferMapWidget (Color : Type) := mkMapWidget {
  image_ : option (Image Color);
  min_um_ : double;
  max_um_ : double;
  edge_ring_fraction_ : double
}.
Arguments mkMapWidget {Color}.
Arguments image_ {Color}.
Arguments min_um_ {Color}.
Arguments max_um_ {Color}.
Arguments edge_ring_fraction_ {Color}.

Section widget.
Context {Color : Type} {C : ColorLibrary Color}.

Definition new_map_widget : WaferMapWidget Color := mkMapWidget None (dz 0) (dz 0) (dz 0).

(** Blue, cyan, green, yellow, red. *)
Definition ramp (t : double) : Color :=
  let t := std_clamp t (dz 0) (dz 1) in
  let h := dmul (dsub (dz 1) t) (dz 240) in
  from_hsv (ddiv h (dz 360)) (dr false 85 100) (dr false 95 100).

Definition map_clear (v : WaferMapWidget Color) : WaferMapWidget Color :=
  mkMapWidget None (min_um_ v) (max_um_ v) (edge_ring_fraction_ v).

(** The least and the greatest finite height, or infinities the wrong way round. *)
Definition finite_range (heights : list double) : double * double :=
  foldl (fun '(lo, hi) h => if isfinite h then (std_min lo h, std_max hi h) else (lo, hi))
    (S754_infinity false, S754_infinity true) heights.

Definition span_of (lo hi : double) : double := std_max (dsub hi lo) (dr false 1 1000000000000).

Definition set_pixel (width x y : Z) (c : Color) (img : list Color) : list Color :=
  <[Z.to_nat (y * width + x) := c]> img.

(** One pass of the inner loop; row [j] grows with +y, which is up on the screen. [None] for
    a height that is not there. *)
Definition paint_height (map : WaferMap) (lo hi : double) (ji : Z * Z) (img : list Color) : option (list Color) :=
  let '(j, i) := ji in
  h ← heights_m map !! Z.to_nat (j * map_width map + i);
  Some (if isfinite h
        then set_pixel (map_width map) i (map_height map - 1 - j) (ramp (ddiv (dsub h lo) (span_of lo hi))) img
        else img).

Fixpoint paint_heights (map : WaferMap) (lo hi : double) (cells : list (Z * Z)) (img : list Color) : option (list Color) :=
  match cells with
  | [] => Some img
  | ji :: cells => img ← paint_height map lo hi ji img; paint_heights map lo hi cells img
  end.

(** The edge exclusion as a part of the radius. *)
Definition ring_fraction (map : WaferMap) (edge_exclusion_mm : double) : double :=
  let radius_mm := ddiv (dmul (diameter_m map) (dz 1000)) (dz 2) in
  if SFltb (dz 0) radius_mm
  then std_max (dz 0) (ddiv (dsub radius_mm edge_exclusion_mm) radius_mm) else dz 0.

(** [set_map]; a null pointer is [None]. *)
Definition set_map (ptr : option WaferMap) (edge_exclusion_mm : double) (v : WaferMapWidget Color) :
    option (WaferMapWidget Color) :=
  match ptr with
  | None => Some (map_clear v)
  | Some map =>
      if (map_width map <=? 0) || (map_height map <=? 0) then Some (map_clear v)
      else
        let '(lo, hi) := finite_range (heights_m map) in
        if negb (SFleb lo hi) then Some (map_clear v)
        else
          img ← paint_heights map lo hi
            (list_prod (seqZ 0 (map_height map)) (seqZ 0 (map_width map)))
            (replicate (Z.to_nat (map_width map * map_height map)) transparent);
          Some (mkMapWidget (Some (mkImage (map_width map) (map_height map) img))
                  (dmul lo (dz 1000000)) (dmul hi (dz 1000000)) (ring_fraction map edge_exclusion_mm))
  end.

(** ** The range *)

Lemma std_min_spec x y : number x -> number y ->
  let m := std_min x y in number m /\ val m = Z.min (val x) (val y) /\ (m = x \/ m = y).
Proof.
  intros Hx Hy. unfold std_min. cbn [a_ltb double_arith]. rewrite SFltb_val by done.
  destruct (Z.ltb_spec (val y) (val x)); (split; [done|split; [lia|tauto]]).
Qed.

Lemma std_max_spec x y : number x -> number y ->
  let m := std_max x y in number m /\ val m = Z.max (val x) (val y) /\ (m = x \/ m = y).
Proof.
  intros Hx Hy. unfold std_max. cbn [a_ltb double_arith]. rewrite SFltb_val by done.
  destruct (Z.ltb_spec (val x) (val y)); (split; [done|split; [lia|tauto]]).
Qed.

Lemma isfinite_number h : valid64 h -> isfinite h = true -> number h.
Proof. intros Hv Hf. by apply finite_number. Qed.

Definition measured (heights : list double) (h : double) : Prop := h ∈ heights /\ isfinite h = true.

Lemma measured_cons x l h : measured (x :: l) h <-> (h = x /\ isfinite x = true) \/ measured l h.
Proof. unfold measured. rewrite elem_of_cons. split; [intros [[->|] ?]; tauto|intros [[-> ?]|[]]; tauto]. Qed.

(** Where the loop over the heights goes from a range of numbers. *)
Lemma range_loop heights : Forall (fun h => valid64 h) heights -> forall lo hi, number lo -> number hi ->
  let '(lo', hi') := foldl (fun '(lo, hi) h => if isfinite h then (std_min lo h, std_max hi h) else (lo, hi))
                       (lo, hi) heights in
  number lo' /\ number hi' /\ val lo' <= val lo /\ val hi <= val hi' /\
  (lo' = lo \/ measured heights lo') /\ (hi' = hi \/ measured heights hi') /\
  forall h, measured heights h -> val lo' <= val h <= val hi'.
Proof.
  induction 1 as [|x l Hx _ IH]; intros lo hi Hlo Hhi; cbn [foldl].
  { split_and!; try done; try lia; [by left..|]. intros h [Hin _]. by apply elem_of_nil in Hin. }
  destruct (isfinite x) eqn:Hf.
  - pose proof (isfinite_number x Hx Hf) as Hnx.
    destruct (std_min_spec lo x Hlo Hnx) as (Hn1 & Hv1 & Ho1). destruct (std_max_spec hi x Hhi Hnx) as (Hn2 & Hv2 & Ho2).
    specialize (IH _ _ Hn1 Hn2). destruct (foldl _ _ l) as [lo' hi'].
    destruct IH as (? & ? & ? & ? & Hl & Hh & Hb). split_and!; try done; try lia.
    + rewrite measured_cons. destruct Hl as [->|]; [|tauto]. destruct Ho1 as [->| ->]; tauto.
    + rewrite measured_cons. destruct Hh as [->|]; [|tauto]. destruct Ho2 as [->| ->]; tauto.
    + intros h [[-> _]|Hm]%measured_cons; [lia|by apply Hb].
  - specialize (IH lo hi Hlo Hhi). destruct (foldl _ _ l) as [lo' hi'].
    destruct IH as (? & ? & ? & ? & Hl & Hh & Hb). split_and!; try done.
    + rewrite measured_cons. tauto.
    + rewrite measured_cons. tauto.
    + intros h [[_ ?]|Hm]%measured_cons; [congruence|by apply Hb].
Qed.

Lemma measured_below_top l h : Forall (fun h => valid64 h) l -> measured l h -> - top < val h < top.
Proof.
  intros Hl [Hin Hf]. rewrite Forall_forall in Hl. specialize (Hl h Hin).
  assert (0 < top) by (by vm_compute).
  destruct h as [s|s| |s m e]; try discriminate Hf; try done.
  apply valid_canonical in Hl; [|done..]. apply magnitude_pos in Hl; [|done..]. destruct s; cbn [value signed]; lia.
Qed.

(** The range of a map that has a height; and of one that has none. *)
Lemma finite_range_spec heights : Forall (fun h => valid64 h) heights ->
  let '(lo, hi) := finite_range heights in
  if existsb isfinite heights
  then SFleb lo hi = true /\ measured heights lo /\ measured heights hi /\
       forall h, measured heights h -> val lo <= val h <= val hi
  else SFleb lo hi = false.
Proof.
  intros Hv. unfold finite_range.
  assert (Hi : number (S754_infinity false) /\ number (S754_infinity true)) by (split; split; done).
  pose proof (range_loop heights Hv _ _ (proj1 Hi) (proj2 Hi)) as H.
  destruct (foldl _ _ heights) as [lo hi] eqn:E. destruct H as (Hn1 & Hn2 & _ & _ & Hl & Hh & Hb).
  assert (0 < top) by (by vm_compute).
  destruct (existsb isfinite heights) eqn:He.
  - apply existsb_exists in He as (h & Hin & Hf). apply list_elem_of_In in Hin.
    assert (Hm : measured heights h) by done. pose proof (Hb h Hm) as Hh'.
    pose proof (measured_below_top heights h Hv Hm) as Ht.
    assert (Hlo : measured heights lo).
    { destruct Hl as [->|]; [|done]. change (val (S754_infinity false)) with top in Hh'. lia. }
    assert (Hhi : measured heights hi).
    { destruct Hh as [->|]; [|done]. change (val (S754_infinity true)) with (- top) in Hh'. lia. }
    split_and!; try done. rewrite SFleb_val by done. apply Z.leb_le. lia.
  - assert (Hno : forall h, ~ measured heights h).
    { intros h [Hin Hf]. assert (existsb isfinite heights = true); [|congruence].
      apply existsb_exists. exists h. split; [by apply list_elem_of_In|done]. }
    destruct Hl as [->|Hl]; [|by apply Hno in Hl]. by destruct Hh as [->|Hh]; [|apply Hno in Hh].
Qed.

(** ** The pixels *)

Definition image_index (map : WaferMap) (ji : Z * Z) : nat :=
  Z.to_nat ((map_height map - 1 - ji.1) * map_width map + ji.2).

Definition in_map (map : WaferMap) (ji : Z * Z) : Prop :=
  0 <= ji.1 < map_height map /\ 0 <= ji.2 < map_width map.

Lemma image_index_inj map a b : in_map map a -> in_map map b -> image_index map a = image_index map b -> a = b.
Proof.
  destruct a as [j i], b as [j' i']. unfold in_map, image_index. cbn [fst snd]. intros [Hj Hi] [Hj' Hi'] E.
  set (w := map_width map) in *. set (h := map_height map) in *.
  apply Z2Nat.inj in E; [|nia..]. assert (j = j') as -> by nia. f_equal. lia.
Qed.

Lemma image_index_bound map a : in_map map a ->
  (image_index map a < Z.to_nat (map_width map * map_height map))%nat.
Proof.
  destruct a as [j i]. unfold in_map, image_index. cbn [fst snd]. intros [Hj Hi].
  set (w := map_width map) in *. set (h := map_height map) in *. nia.
Qed.

Lemma height_there map a : Z.of_nat (length (heights_m map)) = map_width map * map_height map -> in_map map a ->
  exists v, heights_m map !! Z.to_nat (a.1 * map_width map + a.2) = Some v.
Proof.
  destruct a as [j i]. unfold in_map. cbn [fst snd]. intros Hlen [Hj Hi]. apply lookup_lt_is_Some_2.
  set (w := map_width map) in *. set (h := map_height map) in *. nia.
Qed.

Lemma paint_heights_spec map lo hi cells : forall img,
  Z.of_nat (length (heights_m map)) = map_width map * map_height map ->
  Forall (in_map map) cells -> NoDup cells ->
  length img = Z.to_nat (map_width map * map_height map) ->
  exists img', paint_heights map lo hi cells img = Some img' /\ length img' = length img /\
    forall a v, in_map map a -> heights_m map !! Z.to_nat (a.1 * map_width map + a.2) = Some v ->
      img' !! image_index map a =
        if bool_decide (a ∈ cells) && isfinite v then Some (ramp (ddiv (dsub v lo) (span_of lo hi)))
        else img !! image_index map a.
Proof.
  induction cells as [|c cells IH]; intros img Hlen Hc Hnd Hi; cbn [paint_heights].
  { exists img. split_and!; [done..|]. intros a v Ha Hv. by rewrite bool_decide_eq_false_2 by apply not_elem_of_nil. }
  apply Forall_cons in Hc as [Hc Hcs]. apply NoDup_cons in Hnd as [Hnin Hnd].
  destruct (height_there map c Hlen Hc) as [v Hv]. destruct c as [j i]. unfold paint_height. cbn [fst snd] in Hv.
  rewrite Hv. cbn [mbind option_bind].
  set (img1 := if isfinite v then _ else img).
  assert (Hl1 : length img1 = length img) by (unfold img1, set_pixel; destruct (isfinite v); [apply length_insert|done]).
  destruct (IH img1 Hlen Hcs Hnd ltac:(lia)) as (img' & Hp & Hl' & Hspec). rewrite Hp.
  exists img'. split_and!; [done|lia|]. intros a v' Ha Hv'. rewrite (Hspec a v' Ha Hv').
  destruct (decide (a = (j, i))) as [->|Hne].
  - rewrite (bool_decide_eq_false_2 (_ ∈ cells)) by done. rewrite bool_decide_eq_true_2 by apply list_elem_of_here.
    cbn [fst snd andb] in *. assert (v' = v) as -> by congruence. unfold img1. destruct (isfinite v); [|done].
    unfold set_pixel. change (Z.to_nat _) with (image_index map (j, i)). rewrite list_lookup_insert_eq; [done|].
    rewrite Hi. by apply image_index_bound.
  - assert (Hd : bool_decide (a ∈ (j, i) :: cells) = bool_decide (a ∈ cells))
      by (apply bool_decide_ext; rewrite elem_of_cons; naive_solver).
    rewrite Hd. destruct (bool_decide (a ∈ cells) && isfinite v'); [done|]. unfold img1. destruct (isfinite v); [|done].
    unfold set_pixel. change (Z.to_nat _) with (image_index map (j, i)). apply list_lookup_insert_ne.
    intros E. apply Hne. symmetry. by apply (image_index_inj map).
Qed.

(** A map with a height for every cell is drawn, or nothing is. *)
Lemma set_map_total map edge_exclusion_mm v :
  Z.of_nat (length (heights_m map)) = map_width map * map_height map ->
  is_Some (set_map (Some map) edge_exclusion_mm v).
Proof.
  intros Hlen. unfold set_map. case_match; [by eexists|]. destruct (finite_range (heights_m map)) as [lo hi].
  case_match; [by eexists|].
  destruct (paint_heights_spec map lo hi (list_prod (seqZ 0 (map_height map)) (seqZ 0 (map_width map)))
    (replicate (Z.to_nat (map_width map * map_height map)) transparent)) as (img & -> & _); [done|..].
  - apply Forall_forall. by intros [j i] Hin%in_cells.
  - apply NoDup_pairs; apply NoDup_seqZ.
  - apply length_replicate.
  - by eexists.
Qed.

(** The wafer map on the panel, for a map with a height for every cell (each a double): the
    loops stay inside their arrays, an image is shown exactly when some height is finite, its
    colour bar runs from the least to the greatest finite height, and the pixel of a cell,
    with +y upwards, is the colour of its height in that range, or transparent where there is
    no height. *)
Theorem widget_shows_map map edge_exclusion_mm v :
  0 < map_width map -> 0 < map_height map ->
  Z.of_nat (length (heights_m map)) = map_width map * map_height map ->
  Forall (fun h => valid64 h) (heights_m map) ->
  exists v', set_map (Some map) edge_exclusion_mm v = Some v' /\
  if existsb isfinite (heights_m map) then
    exists img lo hi, image_ v' = Some img /\
      measured (heights_m map) lo /\ measured (heights_m map) hi /\
      (forall h, measured (heights_m map) h -> val lo <= val h <= val hi) /\
      min_um_ v' = dmul lo (dz 1000000) /\ max_um_ v' = dmul hi (dz 1000000) /\
      image_width img = map_width map /\ image_height img = map_height map /\
      Z.of_nat (length (pixels img)) = map_width map * map_height map /\
      forall j i h, 0 <= j < map_height map -> 0 <= i < map_width map ->
        heights_m map !! Z.to_nat (j * map_width map + i) = Some h ->
        pixels img !! Z.to_nat ((map_height map - 1 - j) * map_width map + i) =
          Some (if isfinite h then ramp (ddiv (dsub h lo) (span_of lo hi)) else transparent)
  else image_ v' = None.
Proof.
  intros Hw Hh Hlen Hv. unfold set_map. rewrite !(proj2 (Z.leb_gt _ _)) by done. cbn [orb].
  pose proof (finite_range_spec (heights_m map) Hv) as Hr. destruct (finite_range (heights_m map)) as [lo hi].
  destruct (existsb isfinite (heights_m map)).
  2:{ rewrite Hr. eexists. split; [reflexivity|done]. }
  destruct Hr as (-> & Hlo & Hhi & Hb). cbn [negb].
  destruct (paint_heights_spec map lo hi (list_prod (seqZ 0 (map_height map)) (seqZ 0 (map_width map)))
    (replicate (Z.to_nat (map_width map * map_height map)) transparent)) as (img & -> & Hl & Hp); [done|..].
  - apply Forall_forall. intros [j i] Hin%in_cells. done.
  - apply NoDup_pairs; apply NoDup_seqZ.
  - apply length_replicate.
  - cbn [mbind option_bind]. eexists. split; [reflexivity|]. exists (mkImage (map_width map) (map_height map) img), lo, hi.
    cbn [image_ min_um_ max_um_ image_width image_height pixels]. rewrite length_replicate in Hl.
    split_and!; try done; [lia|]. intros j i h Hj Hi Hh'.
    specialize (Hp (j, i) h (conj Hj Hi) Hh'). unfold image_index in Hp. cbn [fst snd] in Hp. rewrite Hp.
    rewrite bool_decide_eq_true_2 by (by apply in_cells). cbn [andb]. destruct (isfinite h); [done|].
    apply lookup_replicate_2. pose proof (image_index_bound map (j, i) (conj Hj Hi)) as Hlt. exact Hlt.
Qed.

End widget.

(** ** A small map *)

#[export] Instance plain_colors : ColorLibrary (option (double * double * double)) := {|
  transparent := None; from_hsv h s v := Some (h, s, v) |}.

Lemma widget_shows_map_witness :
  let map := mkWaferMap 2 1 (dz 25) (dr false 1 10) [dz 7; S754_nan] in
  exists v, set_map (Some map) (dz 3) new_map_widget = Some v /\ min_um_ v = dz 7000000 /\ max_um_ v = dz 7000000.
Proof.
  intros map.
  destruct (widget_shows_map map (dz 3) new_map_widget) as (v & Hs & img & lo & hi & _ & [Hlo _] & [Hhi Hf] & _ & El & Eh & _);
    [reflexivity..|by repeat constructor|].
  exists v. rewrite El, Eh. split; [exact Hs|].
  assert (Hone : forall h, measured (heights_m map) h -> h = dz 7).
  { intros h [[->|[->|[]%not_elem_of_nil]%elem_of_cons]%elem_of_cons Hm]; [reflexivity|discriminate]. }
  split.
  - rewrite (Hone lo); [by vm_compute|]. split; [exact Hlo|].
    apply elem_of_cons in Hlo as [->|[->|[]%not_elem_of_nil]%elem_of_cons]; [reflexivity|].
    exfalso. vm_compute in El, Hs. injection Hs as <-. discriminate El.
  - rewrite (Hone hi); [by vm_compute|done].
Defined.
