(* ===== verification/SettingsDialog.v ===== *)
(** * The settings of the panel

    src/app_qt/settings_dialog.cpp: the dialog as its six spin boxes over the configuration it
    was opened with. What value a QDoubleSpinBox holds after it is given one is Qt's (class
    [SpinBox]); Qt documents that it lies in the range of the box. *)

From stdpp Require Import strings.
From S2P Require Import CLibrary FloatOrder LineFilter FaultInjector ScanProgress Controller WaferStress ConfigFile Prelude.

#[local] Abbreviation dz := double_of_Z.
#[local] Abbreviation dr := double_of_ratio.

(** The value of a box with a range and a number of decimals that was given a value. *)
Class SpinBox := spin_value : double -> double -> Z -> double -> double.

Inductive SpinField :=
| f_edge_exclusion_mm | f_fit_rms_limit_um | f_spec_low_mpa | f_spec_high_mpa | f_truth_stress_mpa
| f_realtime_factor.

#[global] Instance SpinField_eq_dec : EqDecision SpinField.
Proof. solve_decision. Defined.

Record SpinRange := mkRange { spin_lo : double; spin_hi : double; spin_decimals : Z }.

(** The ranges the constructor gives the boxes. *)
Definition range_of (f : SpinField) : SpinRange :=
  match f with
  | f_edge_exclusion_mm => mkRange (dz 0) (dz 20) 1
  | f_fit_rms_limit_um => mkRange (dr false 1 10) (dz 50) 2
  | f_spec_low_mpa => mkRange (dz (-5000)) (dz 5000) 0
  | f_spec_high_mpa => mkRange (dz (-5000)) (dz 5000) 0
  | f_truth_stress_mpa => mkRange (dz (-2000)) (dz 2000) 0
  | f_realtime_factor => mkRange (dz 0) (dz 100) 2
  end.

Record SettingsDialog := mkDialog { base_ : Config; box_value : SpinField -> double }.

Section dialog.
Context {B : SpinBox}.

(** [make_spin], and what an edit leaves in the box. *)
Definition make_spin (r : SpinRange) (value : double) : double :=
  spin_value (spin_lo r) (spin_hi r) (spin_decimals r) value.

Definition current_value (c : Config) (f : SpinField) : double :=
  match f with
  | f_edge_exclusion_mm => edge_exclusion_mm (scan c)
  | f_fit_rms_limit_um => fit_rms_limit_um (analysis c)
  | f_spec_low_mpa => stress_spec_low_mpa (analysis c)
  | f_spec_high_mpa => stress_spec_high_mpa (analysis c)
  | f_truth_stress_mpa => truth_stress_mpa (truth (wafer c))
  | f_realtime_factor => realtime_factor (scan c)
  end.

(** [SettingsDialog::SettingsDialog]. *)
Definition open_settings (current : Config) : SettingsDialog :=
  mkDialog current (fun f => make_spin (range_of f) (current_value current f)).

Definition edit_box (f : SpinField) (value : double) (d : SettingsDialog) : SettingsDialog :=
  mkDialog (base_ d)
    (fun g => if bool_decide (g = f) then make_spin (range_of f) value else box_value d g).

(** [SettingsDialog::config]. *)
Definition dialog_config (d : SettingsDialog) : Config :=
  let c := base_ d in
  let s := scan c in let a := analysis c in let w := wafer c in let t := truth w in
  mkConfig (machine c)
    (mkWafer (diameter_mm w) (thickness_um w) (film_thickness_um w) (biaxial_modulus_gpa w)
       (mkTruth (box_value d f_truth_stress_mpa) (initial_curvature_1_per_m t) (tilt_x_um_per_mm t)
          (tilt_y_um_per_mm t) (truth_anisotropy t)) (seed w))
    (mkScan (scan_lines s) (points_per_mm s) (speed_mm_per_s s) (box_value d f_realtime_factor)
       (box_value d f_edge_exclusion_mm))
    (noise c) (faults c)
    (mkAnalysis (outlier_mad_k a) (outlier_fraction_alarm a) (box_value d f_fit_rms_limit_um)
       (box_value d f_spec_low_mpa) (box_value d f_spec_high_mpa) (stress_plausible_low_mpa a)
       (stress_plausible_high_mpa a) (map_grid_mm a) (analysis_threads a))
    (cassette c) (ConfigFile.comm c) (output c).

(** [SettingsDialog::accept]: whether the dialog closes. *)
Definition settings_accept (d : SettingsDialog) : bool :=
  negb (SFleb (box_value d f_spec_high_mpa) (box_value d f_spec_low_mpa)).

End dialog.

(** ** An accepted dialog *)

(** What Qt documents of a spin box: its value is in its range. *)
Class SpinBounded (B : SpinBox) : Prop :=
  spin_within : forall lo hi decimals v, SFleb lo hi = true -> ordered v -> within lo (spin_value lo hi decimals v) hi.

(** A user types numbers. *)
Definition edits (l : list (SpinField * double)) `{SpinBox} (d : SettingsDialog) : SettingsDialog :=
  foldl (fun d '(f, v) => edit_box f v d) d l.

Section accepted.
Context {B : SpinBox} {Bounded : SpinBounded B}.

Definition boxed (d : SettingsDialog) (f : SpinField) : Prop :=
  within (spin_lo (range_of f)) (box_value d f) (spin_hi (range_of f)).

Lemma make_spin_within f v : ordered v ->
  within (spin_lo (range_of f)) (make_spin (range_of f) v) (spin_hi (range_of f)).
Proof. intros Hv. apply spin_within; [|done]. by destruct f; vm_compute. Qed.

Lemma edits_boxed l : forall d f, Forall (fun fv => ordered fv.2) l ->
  boxed d f -> boxed (edits l d) f /\ base_ (edits l d) = base_ d.
Proof.
  induction l as [|[g v] l IH]; intros d f Hl Hd; [done|]. apply Forall_cons in Hl as [Hv Hl]. cbn [edits foldl].
  apply (IH (edit_box g v d)); [done|]. unfold boxed, edit_box in *. cbn [box_value]. case_bool_decide as E; [|done].
  subst f. by apply make_spin_within.
Qed.

Lemma within_ordered lo x hi : within lo x hi -> ordered x.
Proof. intros [Hl _]. unfold ordered. destruct x; try done. by destruct lo. Qed.

(** Settings keep a configuration valid: a dialog opened on a configuration in its ranges
    and closed with OK, whatever numbers were typed into its boxes in between, gives a
    configuration that is in its ranges again, with the low specification limit below the
    high one, and differs from the first in the six fields of the boxes only. *)
Theorem settings_stay_valid base l :
  in_range base -> config_numbers base -> Forall (fun fv => ordered fv.2) l ->
  let d := edits l (open_settings base) in
  let c := dialog_config d in
  settings_accept d = true ->
  in_range c /\ config_numbers c /\
  SFltb (stress_spec_low_mpa (analysis c)) (stress_spec_high_mpa (analysis c)) = true /\
  (forall f, current_value c f = box_value d f) /\
  dialog_config (mkDialog c (current_value base)) = base.
Proof.
  intros Hr Hn Hl d c Ha.
  assert (Hbox : forall f, f <> f_truth_stress_mpa -> boxed d f /\ base_ d = base).
  { intros f Hf. apply (edits_boxed l (open_settings base) f Hl). apply make_spin_within.
    destruct Hn as [Hs _ _ Han _]. unfold scan_numbers, analysis_numbers in *. rewrite !Forall_cons in *.
    destruct f; naive_solver. }
  assert (Hb : base_ d = base) by (by apply (Hbox f_spec_low_mpa)).
  pose proof (proj1 (Hbox f_edge_exclusion_mm ltac:(done))) as He.
  pose proof (proj1 (Hbox f_fit_rms_limit_um ltac:(done))) as Hf.
  pose proof (proj1 (Hbox f_spec_low_mpa ltac:(done))) as Hlo.
  pose proof (proj1 (Hbox f_spec_high_mpa ltac:(done))) as Hhi.
  pose proof (proj1 (Hbox f_realtime_factor ltac:(done))) as Ht.
  assert (Hlt : SFltb (box_value d f_spec_low_mpa) (box_value d f_spec_high_mpa) = true).
  { rewrite ltb_leb by (by eapply within_ordered). exact Ha. }
  assert (Hle : SFleb (box_value d f_spec_low_mpa) (box_value d f_spec_high_mpa) = true).
  { revert Hlt. unfold SFltb, SFleb. by destruct (SFcompare _ _) as [[]|]. }
  unfold c. destruct d as [b box]. cbn [base_ box_value] in *. subst b. split_and!.
  - destruct Hr. unfold boxed in *. cbn [box_value range_of spin_lo spin_hi] in *.
    constructor; try assumption. by destruct Ht.
  - destruct Hn as [Hs Hw Hno Han Hc]. unfold scan_numbers, wafer_numbers, analysis_numbers in *.
    constructor; try assumption; unfold scan_numbers, wafer_numbers, analysis_numbers;
      rewrite !Forall_cons in *; cbn; intuition (try done); by eapply within_ordered.
  - done.
  - by intros [].
  - by destruct base as [? [? ? ? ? [] ?] [] ? ? [] ? ? ?].
Qed.

End accepted.

(** A box that only limits what it is given. *)
#[export] Instance clamping : SpinBox := fun lo hi _ v => std_clamp v lo hi.

#[export] Instance clamping_bounded : SpinBounded clamping.
Proof.
  intros lo hi decimals v Hlh Hv. unfold spin_value, clamping, std_clamp.
  assert (Hlo : ordered lo) by (by destruct lo; destruct hi).
  assert (Hhi : ordered hi) by (destruct lo as [[]|[]| |[]]; by destruct hi).
  destruct (SFltb v lo) eqn:E1; [split; [|done]|].
  { destruct (compare_total lo lo Hlo Hlo) as (k & H1 & H2). unfold SFleb. rewrite H1 in *. by destruct k. }
  destruct (SFltb hi v) eqn:E2; [split; [done|]|].
  { destruct (compare_total hi hi Hhi Hhi) as (k & H1 & H2). unfold SFleb. rewrite H1 in *. by destruct k. }
  split; by apply ltb_at_least.
Qed.

Lemma settings_stay_valid_witness :
  let d := edits [(f_spec_low_mpa, dz 100); (f_spec_high_mpa, dz 9000)] (open_settings default_config) in
  SFltb (dz 100) (dz 5000) = true /\ current_value (dialog_config d) f_spec_high_mpa = dz 5000.
Proof.
  intros d.
  destruct (settings_stay_valid default_config [(f_spec_low_mpa, dz 100); (f_spec_high_mpa, dz 9000)])
    as (_ & _ & Hlt & Hv & _).
  - constructor; try (by vm_compute); try (by split; vm_compute); try (vm_compute; intuition congruence).
    + exists 300. split; [set_solver|by vm_compute].
    + repeat constructor.
  - repeat constructor.
  - repeat constructor.
  - reflexivity.
  - split; [exact Hlt|exact (Hv f_spec_high_mpa)].
Defined.

(** Closing the dialog with OK changes a value no box can show, though nothing was edited: the
    file may give any true stress, the box ends at 2000. *)
Lemma settings_alter_unedited {B : SpinBox} {Bounded : SpinBounded B} base :
  truth_stress_mpa (truth (wafer base)) = dz 3000 ->
  current_value (dialog_config (open_settings base)) f_truth_stress_mpa <> dz 3000.
Proof.
  intros E H. cbn [current_value dialog_config open_settings base_ box_value wafer truth truth_stress_mpa] in H.
  rewrite E in H. pose proof (make_spin_within f_truth_stress_mpa (dz 3000) ltac:(done)) as [_ Hle].
  rewrite H in Hle. by vm_compute in Hle.
Qed.
