(* ===== verification/EventBridge.v ===== *)
(** * From the event bus to the panel

    src/app_qt/event_bridge.cpp: the handlers the panel puts on the bus, what they keep for the
    timer and the signals they emit. A handler, and a tick of the timer, is one step. The text
    functions of Qt are parameters (class [QtText]); a stamp is the time as text. *)

From stdpp Require Import strings.
From S2P Require Import CLibrary LineFilter ProcessFsm Controller WaferPipeline Prelude.

(** [QString::arg] with several arguments, and with a number: an [int], [double] with 'f' and
    with 'g'. *)
Class QtText := {
  q_arg : string -> list string -> string;
  q_int : string -> Z -> string;
  q_fixed : string -> double -> Z -> string;
  q_general : string -> double -> Z -> string
}.

(** The events of the core and the two of machine_events.hpp. *)
Inductive BusEvent :=
| core_event (e : Event)
| WaferMapReady (wafer_id : string) (map : WaferMap) (edge_exclusion_mm : double)
| WaferOutputsWritten (wafer_id dir : string) (ok : bool).

Inductive Signal :=
| machineChanged
| alarmSet (alid : Z) (name reason : string)
| alarmCleared (alid : Z) (name : string)
| resultReady (r : WaferResultReady)
| mapReady (map : option WaferMap) (edge_exclusion_mm : double)
| outputsWritten (dir : string) (ok : bool)
| scanStarted (wafer_id : string)
| runAborted (wafer_id : string)
| progress (percent : double)
| logLines (lines : list string).

Record EventBridge := mkBridge {
  latest_progress_ : double;
  progress_dirty_ : bool;
  pending_log_ : list string
}.

Definition new_bridge : EventBridge := mkBridge dzero false [].

Definition kMaxPendingLogLines : nat := 1000.

Definition add_log (now line : string) (b : EventBridge) : EventBridge :=
  let kept := if (kMaxPendingLogLines <=? length (pending_log_ b))%nat
              then drop 1 (pending_log_ b) else pending_log_ b in
  mkBridge (latest_progress_ b) (progress_dirty_ b) (kept ++ [now +:+ line]).

Definition set_progress (percent : double) (b : EventBridge) : EventBridge :=
  mkBridge percent true (pending_log_ b).

Section bridge.
Context {T : QtText}.

(** The line a handler logs, the progress it stores and what it emits. *)
Definition event_line (e : BusEvent) : option string :=
  match e with
  | core_event (StateChanged from to) =>
      Some (q_arg "state %1 -> %2" [process_state_to_string from; process_state_to_string to])
  | core_event (ControlStateChanged from to) =>
      Some (q_arg "control %1 -> %2" [control_mode_to_string from; control_mode_to_string to])
  | core_event (ScanStarted w _) => Some (q_arg "scan started: %1" [w])
  | core_event (RunAborted w) => Some (q_arg "run aborted: %1" [w])
  | core_event (AlarmSet alid name reason) =>
      Some (q_arg (q_int "ALARM %1 %2: %3" alid) [name; reason])
  | core_event (AlarmCleared alid name) =>
      Some (q_arg (q_int "alarm cleared: %1 %2" alid) [name])
  | core_event (WaferResult r) =>
      Some (q_arg
        (q_fixed
          (q_fixed (q_arg "result %1: %2 MPa (+/- %3)%4" [result_wafer_id r])
             (double_of_bits (stress_mpa r)) 1)
          (double_of_bits (stress_unc_mpa r)) 2)
        [if out_of_spec r then " OUT OF SPEC" else ""])%string
  | WaferOutputsWritten _ dir ok =>
      Some (q_arg (q_arg "files %1: %2" [if ok then "written to" else "FAILED in"]) [dir])%string
  | _ => None
  end.

Definition event_progress (e : BusEvent) : option double :=
  match e with
  | core_event (ScanStarted _ _) | core_event (RunAborted _) => Some dzero
  | core_event (ScanProgress _ percent) => Some (double_of_bits percent)
  | _ => None
  end.

Definition event_signals (e : BusEvent) : list Signal :=
  match e with
  | core_event (StateChanged _ _) | core_event (ControlStateChanged _ _) => [machineChanged]
  | core_event (ScanStarted w _) => [scanStarted w]
  | core_event (RunAborted w) => [runAborted w]
  | core_event (AlarmSet alid name reason) => [alarmSet alid name reason; machineChanged]
  | core_event (AlarmCleared alid name) => [alarmCleared alid name; machineChanged]
  | core_event (WaferResult r) => [resultReady r]
  | WaferMapReady _ map edge => [mapReady (Some map) edge]
  | WaferOutputsWritten _ dir ok => [outputsWritten dir ok]
  | _ => []
  end.

(** A handler of the constructor's subscriptions. *)
Definition on_event (now : string) (e : BusEvent) (b : EventBridge) : EventBridge * list Signal :=
  let b := match event_line e with Some line => add_log now line b | None => b end in
  let b := match event_progress e with Some p => set_progress p b | None => b end in
  (b, event_signals e).

Fixpoint on_events (es : list (string * BusEvent)) (b : EventBridge) : EventBridge * list Signal :=
  match es with
  | [] => (b, [])
  | (now, e) :: es =>
      let '(b, out) := on_event now e b in
      let '(b, out') := on_events es b in (b, out ++ out')
  end.

Definition on_tick (b : EventBridge) : EventBridge * list Signal :=
  (mkBridge (latest_progress_ b) false [],
   (if progress_dirty_ b then [progress (latest_progress_ b)] else []) ++
   match pending_log_ b with [] => [] | lines => [logLines lines] end).

(** ** Between two ticks *)

Definition lines_of (es : list (string * BusEvent)) : list string :=
  omap (fun '(now, e) => String.append now <$> event_line e) es.

Definition percentages (es : list (string * BusEvent)) : list double :=
  omap (fun '(_, e) => event_progress e) es.

(** The last [n] of a list. *)
Definition newest {A} (n : nat) (l : list A) : list A := drop (length l - n) l.

Lemma newest_length {A} n (l : list A) : (length (newest n l) <= n)%nat.
Proof. unfold newest. rewrite length_drop. lia. Qed.

Lemma newest_app {A} n (l : list A) x : (0 < n)%nat ->
  newest n (newest n l ++ [x]) = newest n (l ++ [x]).
Proof.
  intros Hn. unfold newest. rewrite !length_app, length_drop. cbn [length].
  rewrite <- (drop_app_le l [x] (length l - n)) by lia. rewrite drop_drop. f_equal. lia.
Qed.

Lemma newest_short {A} n (l : list A) : (length l <= n)%nat -> newest n l = l.
Proof. intros H. unfold newest. by rewrite (proj2 (Nat.sub_0_le _ _)). Qed.

Lemma last_of_cons {A} (l : list A) x d : List.last (x :: l) d = List.last l x.
Proof. revert x d. induction l as [|y l IH]; intros x d; [done|]. change (List.last (y :: l) d = List.last (y :: l) x). by rewrite !IH. Qed.

Lemma add_log_newest now line b : (length (pending_log_ b) <= kMaxPendingLogLines)%nat ->
  pending_log_ (add_log now line b) = newest kMaxPendingLogLines (pending_log_ b ++ [now +:+ line]).
Proof.
  intros Hb. unfold add_log, newest. cbn [pending_log_]. rewrite length_app. cbn [length].
  destruct (Nat.leb_spec kMaxPendingLogLines (length (pending_log_ b))).
  - replace (length (pending_log_ b) + 1 - kMaxPendingLogLines)%nat with 1%nat by lia.
    rewrite drop_app_le; [done|]. unfold kMaxPendingLogLines in *. lia.
  - replace (length (pending_log_ b) + 1 - kMaxPendingLogLines)%nat with 0%nat by lia. done.
Qed.

Lemma newest_fold {A} n (l l' : list A) : (0 < n)%nat ->
  newest n (newest n l ++ l') = newest n (l ++ l').
Proof.
  intros Hn. revert l. induction l' as [|x l' IH]; intros l.
  - rewrite !app_nil_r. apply newest_short, newest_length.
  - rewrite !cons_middle, !app_assoc. rewrite <- IH, (newest_app n l x Hn). apply IH.
Qed.

Lemma on_event_holds now e b : (length (pending_log_ b) <= kMaxPendingLogLines)%nat ->
  let b' := (on_event now e b).1 in
  pending_log_ b' = newest kMaxPendingLogLines (pending_log_ b ++ lines_of [(now, e)]) /\
  latest_progress_ b' = List.last (percentages [(now, e)]) (latest_progress_ b) /\
  progress_dirty_ b' = progress_dirty_ b || negb (bool_decide (percentages [(now, e)] = [])).
Proof.
  intros Hb b'. unfold b', on_event, lines_of, percentages. cbn [omap list_omap fst].
  assert (Hp : forall b p, pending_log_ (set_progress p b) = pending_log_ b) by done.
  destruct (event_line e) as [line|]; destruct (event_progress e) as [p|]; cbn [fmap option_fmap option_map fst];
    rewrite ?Hp, ?add_log_newest, ?app_nil_r by done; rewrite ?(newest_short _ (pending_log_ b)) by done;
    (split_and!; [done..|]); rewrite ?bool_decide_eq_true_2, ?bool_decide_eq_false_2, ?orb_true_r, ?orb_false_r by done; done.
Qed.

Lemma on_events_holds es : forall b, (length (pending_log_ b) <= kMaxPendingLogLines)%nat ->
  let b' := (on_events es b).1 in
  pending_log_ b' = newest kMaxPendingLogLines (pending_log_ b ++ lines_of es) /\
  latest_progress_ b' = List.last (percentages es) (latest_progress_ b) /\
  progress_dirty_ b' = progress_dirty_ b || negb (bool_decide (percentages es = [])) /\
  (on_events es b).2 = concat (map (fun e => event_signals e.2) es).
Proof.
  induction es as [|[now e] es IH]; intros b Hb; cbn [on_events].
  { cbn. rewrite app_nil_r, newest_short by done. split_and!; try done. by rewrite orb_false_r. }
  destruct (on_event_holds now e b Hb) as (H1 & H2 & H3). destruct (on_event now e b) as [b1 out] eqn:E. cbn [fst] in *.
  assert (Hb1 : (length (pending_log_ b1) <= kMaxPendingLogLines)%nat).
  { rewrite H1. apply newest_length. }
  destruct (IH b1 Hb1) as (I1 & I2 & I3 & I4). destruct (on_events es b1) as [b2 out']. cbn [fst snd] in *.
  split_and!.
  - rewrite I1, H1, newest_fold by (unfold kMaxPendingLogLines; lia). rewrite <- app_assoc. f_equal. f_equal.
    unfold lines_of. cbn [omap list_omap]. cbn [fmap option_fmap option_map]. by destruct (event_line e).
  - rewrite I2, H2. unfold percentages. cbn [omap list_omap]. destruct (event_progress e); [|done]. by rewrite !last_of_cons.
  - rewrite I3, H3. unfold percentages. cbn [omap list_omap]. destruct (event_progress e); [|by rewrite orb_false_r].
    rewrite !bool_decide_eq_false_2 by done. by destruct (progress_dirty_ b).
  - rewrite I4. unfold on_event in E. by injection E as _ <-.
Qed.

(** What the bridge holds after any number of events, and what a tick makes of it: the panel
    gets the newest percentage once, if there was one since the last tick, and the newest
    thousand of the lines in order; the other signals are emitted at once and in order; and
    nothing is sent twice. *)
Theorem bridge_coalesces es b : (length (pending_log_ b) <= kMaxPendingLogLines)%nat ->
  let '(b', out) := on_events es b in
  out = concat (map (fun e => event_signals e.2) es) /\
  (let lines := newest kMaxPendingLogLines (pending_log_ b ++ lines_of es) in
   (on_tick b').2 =
    (if progress_dirty_ b || negb (bool_decide (percentages es = []))
     then [progress (List.last (percentages es) (latest_progress_ b))] else []) ++
    (if bool_decide (lines = []) then [] else [logLines lines])) /\
  (on_tick (on_tick b').1).2 = [].
Proof.
  intros Hb. pose proof (on_events_holds es b Hb) as (H1 & H2 & H3 & H4).
  destruct (on_events es b) as [b' out]. cbn [fst snd] in *. split_and!; [done| |done].
  unfold on_tick. cbn [snd]. rewrite <- H1, <- H2, <- H3. f_equal. by destruct (pending_log_ b').
Qed.

End bridge.

(** ** Two percentages and a line *)

#[export] Instance plain_text : QtText := {|
  q_arg f l := f +:+ "|" +:+ String.concat "," l;
  q_int f v := f +:+ "|" +:+ pretty v;
  q_fixed f x p := f +:+ "|" +:+ pretty (double_bits x);
  q_general f x p := f +:+ "|" +:+ pretty (double_bits x)
|}%string.

Lemma bridge_coalesces_witness :
  let p x := core_event (ScanProgress "W001" (double_bits (double_of_Z x))) in
  let '(b, _) := on_events [("1 ", p 10); ("2 ", core_event (RunAborted "W001")); ("3 ", p 20)]%string new_bridge in
  (on_tick b).2 = [progress (double_of_Z 20); logLines ["2 run aborted: %1|W001"]]%string.
Proof.
  intros p.
  pose proof (bridge_coalesces [("1 ", p 10); ("2 ", core_event (RunAborted "W001")); ("3 ", p 20)]%string new_bridge
    ltac:(vm_compute; lia)) as H.
  destruct (on_events _ _) as [b out]. destruct H as (_ & H & _). rewrite H. vm_compute. reflexivity.
Defined.
