(* ===== verification/WaferOutput.v ===== *)
(** * The directory of a run and the output of a wafer

    src/machine/machine_runtime.cpp outside its threads, with
    src/analysis/writers/json_writer.cpp: the fresh directory of a run, the names of wafers,
    and what [process_wafer] publishes and writes once the controller has its result. The
    directories that exist, the errors of the file system, the JSON text and the PNG encoder
    are parameters. *)

From stdpp Require Import strings gmap.
From S2P Require Import CLibrary WallTime FloatOrder LineFilter Controller WaferFit WaferStress ConfigFile MachineRuntime WaferPipeline ResultFiles WaferPicture Prelude.

#[local] Abbreviation dz := double_of_Z.

(** ** The directory of a run *)

(** [operator/]: an absolute path replaces what it is appended to. *)
Definition path_join (dir name : string) : string :=
  match name with
  | String c _ => if bool_decide (c = "/"%char) then name else in_dir dir name
  | EmptyString => dir +:+ "/"
  end.

Section run_dir.
Context (mkdir_error : string -> option string) (root base : string).

Definition run_name (attempt : Z) : string :=
  if attempt =? 1 then base else base +:+ "-" +:+ pretty attempt.

(** The loop over the attempts; [create_directory] tells by its result whether the directory
    is new. *)
Fixpoint try_names (attempts : list Z) (dirs : gset string) : Result string * gset string :=
  match attempts with
  | [] => (Err (mkError kWriteErrorExitCode "no free run directory name"), dirs)
  | attempt :: attempts =>
      let candidate := path_join root (run_name attempt) in
      match mkdir_error candidate with
      | Some e => (Err (mkError kWriteErrorExitCode ("cannot create run directory: " +:+ e)), dirs)
      | None => if bool_decide (candidate ∈ dirs) then try_names attempts dirs
                else (Ok candidate, {[candidate]} ∪ dirs)
      end
  end.

(** [root_error]: [create_directories] of the output directory. *)
Definition create_run_dir (root_error : option string) (dirs : gset string) : Result string * gset string :=
  match root_error with
  | Some e => (Err (mkError kWriteErrorExitCode ("cannot create output directory: " +:+ e)), dirs)
  | None => try_names (seqZ 1 999) dirs
  end.

Lemma run_name_inj a b : 1 <= a -> 1 <= b -> run_name a = run_name b -> a = b.
Proof.
  unfold run_name. intros Ha Hb.
  assert (Hne : forall c : Z, base <> base +:+ "-" +:+ pretty c).
  { intros c E. apply (f_equal String.length) in E. rewrite string_length_app in E. simpl in E. lia. }
  assert (Hinj : forall x y, base +:+ x = base +:+ y -> x = y).
  { clear. intros x y. induction base as [|c s IH]; [done|]. simpl. intros [=]. by apply IH. }
  destruct (Z.eqb_spec a 1), (Z.eqb_spec b 1); intros E; [lia|by apply Hne in E|by symmetry in E; apply Hne in E|].
  apply Hinj in E. injection E as E. by apply (inj pretty) in E.
Qed.

Lemma try_names_spec attempts dirs : Forall (fun a => mkdir_error (path_join root (run_name a)) = None) attempts ->
  let '(r, dirs') := try_names attempts dirs in
  match r with
  | Ok p => p ∉ dirs /\ dirs' = {[p]} ∪ dirs /\
      exists before a after, attempts = before ++ a :: after /\ p = path_join root (run_name a) /\
        Forall (fun b => path_join root (run_name b) ∈ dirs) before
  | Err e => code e = kWriteErrorExitCode /\ dirs' = dirs /\
      Forall (fun a => path_join root (run_name a) ∈ dirs) attempts
  end.
Proof.
  intros Hm. induction Hm as [|a attempts Ha _ IH]; cbn [try_names]; [done|]. rewrite Ha.
  case_bool_decide as Hin.
  - destruct (try_names attempts dirs) as [[p|e] dirs'].
    + destruct IH as (H1 & H2 & before & a' & after & -> & Hp & Hb). split_and!; [done|done|].
      exists (a :: before), a', after. split_and!; [done|done|by constructor].
    + destruct IH as (? & ? & ?). split_and!; [done|done|by constructor].
  - split_and!; [done|done|]. by exists [], a, attempts.
Qed.

End run_dir.

(** ** The names of wafers *)

(** "W%03d", for a number that is not negative. *)
Definition format_wafer_id (n : Z) : string := "W" +:+ padded 3 n.

(** [wafers_started_] counts the scans that have started. *)
Definition next_wafer_id (wafers_started : Z) : string := format_wafer_id (wafers_started + 1).

Lemma format_wafer_id_inj a b : 0 <= a -> 0 <= b -> format_wafer_id a = format_wafer_id b -> a = b.
Proof. intros Ha Hb E. injection E as E. by apply padded_inj in E. Qed.

(** ** The summary (json_writer.cpp) *)

(** What nlohmann::json holds of it. *)
Inductive JsonValue :=
| json_null
| json_double (x : double)
| json_integer (v : Z)
| json_string (s : string)
| json_bool (b : bool)
| json_object (members : list (string * JsonValue))
| json_array (elements : list JsonValue).

Record WaferRunMeta := mkMeta {
  meta_run_id : string;
  meta_wafer_id : string;
  meta_slot : Z;
  meta_cassette_id : string;
  meta_seed : Z;
  meta_truth_stress_mpa : double;
  meta_scan_ms : Z;
  meta_analysis_ms : Z
}.

Definition kPaToMpa : double := double_of_ratio false 1 1000000.

Definition summary (result : PipelineResult) (meta : WaferRunMeta) : JsonValue :=
  let has_number := bool_decide (issue (quality result) = kNone) in
  let number_or_null x := if has_number then json_double (dmul x kPaToMpa) else json_null in
  json_object
    [("run_id", json_string (meta_run_id meta)); ("wafer_id", json_string (meta_wafer_id meta));
     ("slot", json_integer (meta_slot meta)); ("cassette_id", json_string (meta_cassette_id meta));
     ("result", json_object
        [("stress_mpa", number_or_null (stress_pa result));
         ("stress_unc_mpa", number_or_null (stress_unc_pa result));
         ("mean_curvature_1_per_m", json_double (mean_curvature_per_m (combined result)));
         ("anisotropy", json_double (anisotropy (combined result)));
         ("fit_rms_um_max", json_double (dmul (max_fit_rms_m result) (dz 1000000)));
         ("removed_fraction", json_double (removed_fraction_overall result));
         ("out_of_spec", json_bool (gate_out_of_spec (quality result)))]);
     ("simulation_truth", json_object
        [("stress_mpa", json_double (meta_truth_stress_mpa meta)); ("seed", json_integer (meta_seed meta))]);
     ("timing_ms", json_object
        [("scan", json_integer (meta_scan_ms meta)); ("analysis", json_integer (meta_analysis_ms meta))]);
     ("alarms", json_array [])].

Fixpoint member_of (members : list (string * JsonValue)) (key : string) : option JsonValue :=
  match members with
  | [] => None
  | (k, v) :: members => if String.eqb k key then Some v else member_of members key
  end.

Definition json_member (j : JsonValue) (key : string) : option JsonValue :=
  match j with json_object members => member_of members key | _ => None end.

Section output.
Context {L : MapLibrary} (unspecified : Z) (fs : FileSystem) (dump : JsonValue -> string)
  (encode : Z -> Z -> list Z -> option string).

Definition write_json_summary (dir : string) (result : PipelineResult) (meta : WaferRunMeta) (disk : Disk) : Result string * Disk :=
  write_new fs "summary.json" "cannot open for writing: " dir (dump (summary result meta)) disk.

(** ** The end of [process_wafer] *)

Inductive OutputEvent :=
| ev_result (r : WaferResultReady)
| ev_map (wafer_id : string) (map : WaferMap) (edge_exclusion_mm : double)
| ev_log_failed (wafer_id reason : string)
| ev_written (wafer_id dir : string) (ok : bool).

(** What the summary says beside the result; the scan time is never set. *)
Definition wafer_meta (config : Config) (run_id wafer_id : string) (analysis_ms : Z) : WaferRunMeta :=
  mkMeta run_id wafer_id 1 (cassette_id (cassette config)) (seed (wafer config))
    (truth_stress_mpa (truth (wafer config))) 0 analysis_ms.

(** The files of a wafer; [None] for an access out of bounds in a writer. *)
Definition write_files (config : Config) (dir wafer_id : string) (result : PipelineResult) (meta : WaferRunMeta) (disk : Disk) :
    option (bool * Disk) :=
  let '(r, disk) := write_json_summary dir result meta disk in
  let ok := has_value r in
  if bool_decide (issue (quality result) = kNone) then
    '(r, disk) ← write_line_csv fs dir wafer_id result disk;
    let ok := has_value r && ok in
    let '(r, disk) := write_sample_csv fs dir wafer_id result (sample_decimation (output config)) disk in
    let ok := has_value r && ok in
    '(r, disk) ← write_wafer_map_png unspecified (wafer_map result) (edge_exclusion_mm (scan config)) fs encode dir disk;
    Some (has_value r && ok, disk)
  else Some (ok, disk).

(** The result and its map, when no alarm was raised. *)
Definition reported_events (config : Config) (wafer_id : string) (result : PipelineResult) : list OutputEvent :=
  match (wafer_alarm result config).1 with
  | Some _ => []
  | None =>
      [ev_result (mkWaferResult wafer_id 1 (double_bits (dmul (stress_pa result) kPaToMpa))
         (double_bits (dmul (stress_unc_pa result) kPaToMpa))
         (double_bits (mean_curvature_per_m (combined result)))
         (double_bits (dmul (max_fit_rms_m result) (dz 1000000))) (gate_out_of_spec (quality result)));
       ev_map wafer_id (wafer_map result) (edge_exclusion_mm (scan config))]
  end.

(** After the controller took the result. [mkdir_error] is what [create_directories] of the
    directory of the wafer reports. *)
Definition output_wafer (mkdir_error : string -> option string) (config : Config) (run_dir run_id : string) (analysis_ms : Z)
    (wafer_id : string) (result : PipelineResult) (disk : Disk) : option (list OutputEvent * Disk) :=
  let wafer_dir := path_join run_dir wafer_id in
  let reported := reported_events config wafer_id result in
  match mkdir_error wafer_dir with
  | Some e => Some (reported ++ [ev_log_failed wafer_id e; ev_written wafer_id wafer_dir false], disk)
  | None =>
      let meta := wafer_meta config run_id wafer_id analysis_ms in
      '(ok, disk) ← write_files config wafer_dir wafer_id result meta disk;
      Some (reported ++ (if ok : bool then [] else [ev_log_failed wafer_id "one or more files failed to write"]) ++
            [ev_written wafer_id wafer_dir ok], disk)
  end.

(** ** What reaches the disk *)

Lemma in_dir_inj dir a b : in_dir dir a = in_dir dir b -> a = b.
Proof.
  unfold in_dir. induction dir as [|c dir IH]; simpl; [by intros [=]|]. intros [=]. by apply IH.
Qed.

(** One file: created if it does not exist and can be, holding what the file system stores of
    its text, and nothing else touched. *)
Definition one_file (dir name : string) (can : bool) (text : string) (disk : Disk) (r : Result string) (disk' : Disk) : Prop :=
  let path := in_dir dir name in
  has_value r = bool_decide (disk !! path = None) && can /\
  disk' = if has_value r then <[path := stored fs path text]> disk else disk.

Lemma write_new_one name cannot dir text disk : let '(r, disk') := write_new fs name cannot dir text disk in
  one_file dir name (opens fs (in_dir dir name)) text disk r disk'.
Proof.
  unfold write_new, one_file. destruct (disk !! in_dir dir name) as [old|] eqn:E.
  - rewrite bool_decide_true by (by eexists). by rewrite bool_decide_false.
  - rewrite bool_decide_false by (by intros [? ?]). rewrite bool_decide_true by done.
    by destruct (opens fs _).
Qed.

Lemma one_file_grows dir name can text disk r disk' : one_file dir name can text disk r disk' ->
  disk ⊆ disk' /\ (forall other, other <> name -> disk' !! in_dir dir other = disk !! in_dir dir other) /\
  (has_value r = true -> disk' !! in_dir dir name = Some (stored fs (in_dir dir name) text)).
Proof.
  intros [Hr ->]. destruct (has_value r); [|by split_and!].
  symmetry in Hr. apply andb_prop in Hr as [Hd _]. apply bool_decide_eq_true in Hd. split_and!.
  - by apply insert_subseteq.
  - intros other Hne. apply lookup_insert_ne. intros E. by apply in_dir_inj in E.
  - intros _. apply lookup_insert_eq.
Qed.

(** A result whose parts fit together, as the pipeline makes them. *)
Definition consistent (result : PipelineResult) : Prop :=
  length (line_fits result) = length (filtered_lines result) /\ 0 <= map_width (wafer_map result) /\
  Z.of_nat (length (heights_m (wafer_map result))) = map_width (wafer_map result) * map_height (wafer_map result).

(** The files a result calls for: the name, whether it can be made and opened, and the text. *)
Definition picture_text (config : Config) (result : PipelineResult) : option string :=
  pixels ← render unspecified (wafer_map result) (edge_exclusion_mm (scan config));
  encode (picture_width (wafer_map result)) (picture_height (wafer_map result)) pixels.

Record WantedFile := mkWanted { file_name : string; file_can : bool; file_text : string }.

Definition wanted_files (config : Config) (dir wafer_id : string) (result : PipelineResult) (meta : WaferRunMeta) :
    list WantedFile :=
  let wanted name can text := mkWanted name (can && opens fs (in_dir dir name)) text in
  wanted "summary.json" true (dump (summary result meta)) ::
  if bool_decide (issue (quality result) = kNone) then
    [wanted "lines.csv" true
       (csv_text (line_header :: default [] (line_rows wafer_id 0 (line_fits result) (filtered_lines result))));
     wanted "samples.csv" true
       (csv_text (sample_header :: all_sample_rows wafer_id (sample_decimation (output config)) (filtered_lines result)));
     wanted "wafer_map.png" (bool_decide (is_Some (picture_text config result)))
       (default EmptyString (picture_text config result))]
  else [].

(** Each of them is new, and can be made and opened. *)
Definition creatable (dir : string) (disk : Disk) (f : WantedFile) : Prop :=
  disk !! in_dir dir (file_name f) = None /\ file_can f = true.

(** The file is there, with what the file system stores of its text. *)
Definition on_disk (dir : string) (disk : Disk) (f : WantedFile) : Prop :=
  disk !! in_dir dir (file_name f) = Some (stored fs (in_dir dir (file_name f)) (file_text f)).

Lemma on_disk_weaken dir disk disk' f : disk ⊆ disk' -> on_disk dir disk f -> on_disk dir disk' f.
Proof. intros Hsub H. by eapply lookup_weaken. Qed.

Lemma lines_defined wafer_id filtered : forall fits i, (i + length fits <= length filtered)%nat ->
  is_Some (line_rows wafer_id i fits filtered).
Proof.
  induction fits as [|fit fits IH]; intros i Hi; cbn [line_rows length] in *; [by eexists|].
  destruct (lookup_lt_is_Some_2 filtered i) as [f ->]; [lia|]. cbn [mbind option_bind].
  destruct (IH (S i)) as [rows ->]; [lia|]. by eexists.
Qed.

Lemma picture_one config dir result disk : consistent result ->
  exists r disk', write_wafer_map_png unspecified (wafer_map result) (edge_exclusion_mm (scan config)) fs encode dir disk = Some (r, disk') /\
    one_file dir "wafer_map.png" (bool_decide (is_Some (picture_text config result)) && opens fs (in_dir dir "wafer_map.png"))
      (default EmptyString (picture_text config result)) disk r disk'.
Proof.
  intros (_ & Hw & Hc). destruct (render_shows unspecified (wafer_map result) (edge_exclusion_mm (scan config)) Hw Hc)
    as (pixels & Hr & _). unfold write_wafer_map_png, one_file, picture_text. rewrite Hr. cbn [mbind option_bind].
  destruct (disk !! in_dir dir "wafer_map.png") as [old|] eqn:E.
  - rewrite bool_decide_true by (by eexists). eexists _, _. split; [done|]. by rewrite bool_decide_false.
  - rewrite bool_decide_false by (by intros [? ?]). rewrite bool_decide_true by done.
    destruct (encode _ _ _) as [text|].
    + rewrite bool_decide_true by (by eexists). destruct (opens fs _); by eexists _, _.
    + rewrite bool_decide_false by (by intros [? ?]). by eexists _, _.
Qed.

Lemma write_files_spec config dir wafer_id result meta disk : consistent result ->
  exists ok disk', write_files config dir wafer_id result meta disk = Some (ok, disk') /\ disk ⊆ disk' /\
    ok = forallb (fun f => bool_decide (disk !! in_dir dir (file_name f) = None) && file_can f)
           (wanted_files config dir wafer_id result meta) /\
    (ok = true -> Forall (on_disk dir disk') (wanted_files config dir wafer_id result meta)).
Proof.
  intros Hc. unfold write_files, wanted_files, write_json_summary. cbv zeta.
  pose proof (write_new_one "summary.json" "cannot open for writing: " dir (dump (summary result meta)) disk) as H1.
  destruct (write_new fs "summary.json" _ dir _ disk) as [r1 d1].
  destruct (one_file_grows _ _ _ _ _ _ _ H1) as (G1 & N1 & W1). destruct H1 as [V1 _].
  destruct (bool_decide (issue (quality result) = kNone)).
  2:{ exists (has_value r1), d1. split_and!; [done|done| |].
      { rewrite V1. cbn [forallb file_name file_can]. by rewrite andb_true_r. }
      intros Hok. constructor; [by apply W1|done]. }
  unfold write_line_csv. destruct (lines_defined wafer_id (filtered_lines result) (line_fits result) 0) as [rows ->];
    [by rewrite (proj1 Hc)|]. cbn [mbind option_bind default from_option].
  pose proof (write_new_one "lines.csv" "cannot open for writing: " dir (csv_text (line_header :: rows)) d1) as H2.
  destruct (write_new fs "lines.csv" _ dir _ d1) as [r2 d2].
  destruct (one_file_grows _ _ _ _ _ _ _ H2) as (G2 & N2 & W2). destruct H2 as [V2 _].
  unfold write_sample_csv. set (text := csv_text (sample_header :: _)).
  pose proof (write_new_one "samples.csv" "cannot open for writing: " dir text d2) as H3.
  destruct (write_new fs "samples.csv" _ dir text d2) as [r3 d3].
  destruct (one_file_grows _ _ _ _ _ _ _ H3) as (G3 & N3 & W3). destruct H3 as [V3 _].
  destruct (picture_one config dir result d3 Hc) as (r4 & d4 & -> & H4). cbn [mbind option_bind].
  destruct (one_file_grows _ _ _ _ _ _ _ H4) as (G4 & N4 & W4). destruct H4 as [V4 _].
  rewrite N1 in V2 by done. rewrite N2, N1 in V3 by done. rewrite N3, N2, N1 in V4 by done.
  eexists _, d4. split; [done|]. split; [by etrans; [|etrans; [|etrans]]|]. split.
  - cbn [forallb file_name file_can]. rewrite !andb_true_l, <- V1, <- V2, <- V3, <- V4.
    by destruct (has_value r1), (has_value r2), (has_value r3), (has_value r4).
  - intros Hok. rewrite !andb_true_iff in Hok. destruct Hok as (Ok4 & Ok3 & Ok2 & Ok1).
    assert (G24 : d2 ⊆ d4) by (by etrans). assert (G14 : d1 ⊆ d4) by (by etrans).
    repeat (apply Forall_cons_2 || apply Forall_nil_2).
    + by eapply on_disk_weaken; [|apply W1].
    + by eapply on_disk_weaken; [|apply W2].
    + by eapply on_disk_weaken; [|apply W3].
    + by apply W4.
Qed.

(** The last event, and what it says. *)
Lemma output_wafer_ends mkdir_error config run_dir run_id analysis_ms wafer_id result disk :
  consistent result ->
  let dir := path_join run_dir wafer_id in
  let meta := wafer_meta config run_id wafer_id analysis_ms in
  exists failures ok disk',
    output_wafer mkdir_error config run_dir run_id analysis_ms wafer_id result disk =
      Some (reported_events config wafer_id result ++ failures ++ [ev_written wafer_id dir ok], disk') /\
    Forall (fun e => exists why, e = ev_log_failed wafer_id why) failures /\ disk ⊆ disk' /\
    (ok = true <-> mkdir_error dir = None /\ Forall (creatable dir disk) (wanted_files config dir wafer_id result meta)) /\
    (ok = true -> Forall (on_disk dir disk') (wanted_files config dir wafer_id result meta)).
Proof.
  intros Hc dir meta. unfold output_wafer. fold dir. fold meta. destruct (mkdir_error dir) as [e|].
  - exists [ev_log_failed wafer_id e], false, disk. split_and!; try done; [by repeat econstructor|].
    split; [done|by intros [? _]].
  - destruct (write_files_spec config dir wafer_id result meta disk Hc) as (ok & disk' & -> & Hsub & Hok & Hfiles).
    cbn [mbind option_bind].
    exists (if ok then [] else [ev_log_failed wafer_id "one or more files failed to write"]), ok, disk'.
    split_and!; try done; [destruct ok; by repeat econstructor|].
    rewrite Hok, forallb_forall, Forall_forall. split.
    + intros Hall. split; [done|]. intros f Hf. apply list_elem_of_In in Hf. specialize (Hall f Hf).
      apply andb_prop in Hall as [Hd Hp]. by apply bool_decide_eq_true in Hd.
    + intros [_ Hall] f Hf. apply list_elem_of_In in Hf. destruct (Hall f Hf) as [Hd Hp].
      rewrite Hp. by rewrite bool_decide_true.
Qed.

(** Which events are reported. *)
Lemma reported_events_spec config wafer_id result :
  (forall w d b, ev_written w d b ∉ reported_events config wafer_id result) /\
  ((exists r, ev_result r ∈ reported_events config wafer_id result) <-> (wafer_alarm result config).1 = None).
Proof.
  unfold reported_events. destruct ((wafer_alarm result config).1) as [id|].
  - split; [intros w d b Hin; by apply elem_of_nil in Hin|].
    split; [intros [r Hin]; by apply elem_of_nil in Hin|done].
  - split; [|split; [done|intros _; eexists; by left]]. intros w d b Hin.
    by repeat (apply elem_of_cons in Hin as [?|Hin]; [done|]); apply elem_of_nil in Hin.
Qed.

(** [C19] What becomes of a finished wafer: the loops of the writers stay inside their arrays; the
    last event, and only it, says whether the outputs were written, and it says so exactly
    when the directory could be made, none of the files the result calls for existed, and
    each could be encoded and opened. All of these are then on the disk, each with what
    the file system stored of its text, which the code never asks about (on a full disk the event
    says the same: [full_disk_unnoticed]); the text of the summary has a stress or,
    for a number a gate held back, null. A result is published, before, exactly when no
    alarm was raised. No file that existed is changed, so a wafer measured again under its
    name in one run reports a failed output and leaves the first files as they are. *)
Theorem outputs_of_wafer mkdir_error config run_dir run_id analysis_ms wafer_id result disk :
  consistent result ->
  let dir := path_join run_dir wafer_id in
  let meta := wafer_meta config run_id wafer_id analysis_ms in
  exists before ok disk',
    output_wafer mkdir_error config run_dir run_id analysis_ms wafer_id result disk =
      Some (before ++ [ev_written wafer_id dir ok], disk') /\
    (forall w d b, ev_written w d b ∉ before) /\
    ((exists r, ev_result r ∈ before) <-> (wafer_alarm result config).1 = None) /\
    disk ⊆ disk' /\
    (ok = true <-> mkdir_error dir = None /\ Forall (creatable dir disk) (wanted_files config dir wafer_id result meta)) /\
    (ok = true -> Forall (on_disk dir disk') (wanted_files config dir wafer_id result meta)) /\
    (json_member (summary result meta) "result" ≫= (fun r => json_member r "stress_mpa")) =
      Some (if bool_decide (issue (quality result) = kNone) then json_double (dmul (stress_pa result) kPaToMpa)
            else json_null).
Proof.
  intros Hc dir meta. destruct (reported_events_spec config wafer_id result) as [Hr1 Hr2].
  destruct (output_wafer_ends mkdir_error config run_dir run_id analysis_ms wafer_id result disk Hc)
    as (failures & ok & disk' & -> & Hf & Hsub & Hok & Hfiles). rewrite Forall_forall in Hf.
  exists (reported_events config wafer_id result ++ failures), ok, disk'. rewrite <- app_assoc. split_and!; try done.
  - intros w d b [Hin|Hin]%elem_of_app; [by apply Hr1 in Hin|]. by apply Hf in Hin as [why ?].
  - rewrite <- Hr2. split; intros [r Hin]; exists r; [|apply elem_of_app; by left].
    apply elem_of_app in Hin as [Hin|Hin]; [done|]. by apply Hf in Hin as [why ?].
Qed.

End output.

(** The directory of a run is always fresh: when the file system makes no trouble, the
    directory that is returned did not exist, is the first of the names with a free number,
    and is the only one made; an error means that all 999 names were taken, and nothing is
    made. So runs begun one after the other in one second have different directories. *)
Theorem run_dir_fresh mkdir_error root now_ns dirs :
  (forall p, mkdir_error p = None) ->
  let base := make_run_id now_ns in
  let '(r, dirs') := create_run_dir mkdir_error root base None dirs in
  match r with
  | Ok p => p ∉ dirs /\ dirs' = {[p]} ∪ dirs /\
      exists a, 1 <= a <= 999 /\ p = path_join root (run_name base a) /\
        forall b, 1 <= b < a -> path_join root (run_name base b) ∈ dirs
  | Err e => code e = kWriteErrorExitCode /\ dirs' = dirs /\
      forall a, 1 <= a <= 999 -> path_join root (run_name base a) ∈ dirs
  end /\
  (forall a b, 1 <= a -> 1 <= b -> run_name base a = run_name base b -> a = b).
Proof.
  intros Hm base. unfold create_run_dir.
  pose proof (try_names_spec mkdir_error root base (seqZ 1 999) dirs) as H.
  destruct (try_names _ _ _ _ dirs) as [r dirs']. specialize (H ltac:(by apply Forall_forall)).
  split; [|by apply run_name_inj]. destruct r as [p|e].
  - destruct H as (H1 & H2 & before & a & after & Es & Hp & Hb). split_and!; [done|done|].
    assert (Ha : seqZ 1 999 !! length before = Some a) by (rewrite Es; by apply list_lookup_middle).
    apply lookup_seqZ in Ha as [Ea Hlt]. exists a. split_and!; [lia|lia|done|].
    intros b Hab. rewrite Forall_forall in Hb. apply Hb.
    assert (Hl : seqZ 1 999 !! Z.to_nat (b - 1) = Some b) by (apply lookup_seqZ; lia).
    rewrite Es, lookup_app_l in Hl by lia. by eapply list_elem_of_lookup_2.
  - destruct H as (? & ? & Hall). split_and!; [done|done|]. intros a Ha. rewrite Forall_forall in Hall.
    apply Hall, elem_of_seqZ. lia.
Qed.

Lemma run_dir_fresh_witness :
  let '(r, dirs') := create_run_dir (fun _ => None) "out" (make_run_id 951827696789000000) None {["out/20000229-123456"]} in
  exists p, r = Ok p /\ p <> "out/20000229-123456" /\ dirs' = {[p; "out/20000229-123456"]}.
Proof.
  change (make_run_id 951827696789000000) with "20000229-123456"%string.
  pose proof (run_dir_fresh (fun _ => None) "out" 951827696789000000 {["out/20000229-123456"]} (fun _ => eq_refl)) as H.
  change (make_run_id 951827696789000000) with "20000229-123456"%string in H. cbv zeta in H.
  destruct (create_run_dir _ _ _ _ _) as [r dirs']. destruct H as [H _]. destruct r as [p|e].
  - destruct H as (Hne & Hd & _). exists p. split; [reflexivity|]. split; [|exact Hd].
    intros ->. apply Hne. apply elem_of_singleton. reflexivity.
  - destruct H as (_ & _ & Hall). assert (Hin : path_join "out" (run_name "20000229-123456" 2) ∈
      ({["out/20000229-123456"]} : gset string)) by (apply Hall; lia).
    apply elem_of_singleton in Hin. discriminate Hin.
Defined.

Lemma outputs_of_wafer_witness :
  let result := mkPipeline [] [] (combine_lines []) dzero dzero dzero dzero dzero false
    (mkQuality kPoorFit false) no_map in
  exists before disk', output_wafer (L := coarse_library) 0 sound_disk (fun _ => EmptyString) (fun _ _ _ => None)
    (fun _ => None) small_wafer_config "run" "r" 5 "W001" result ∅ =
      Some (before ++ [ev_written "W001" "run/W001" true], disk').
Proof.
  intros result.
  destruct (outputs_of_wafer (L := coarse_library) 0 sound_disk (fun _ => EmptyString) (fun _ _ _ => None)
    (fun _ => None) small_wafer_config "run" "r" 5 "W001" result ∅) as (before & ok & disk' & Ho & _ & _ & _ & Hok & _).
  { split; [reflexivity|]. split; [vm_compute; discriminate|reflexivity]. }
  assert (E : ok = true).
  { apply Hok. split; [reflexivity|]. apply Forall_cons_2; [|apply Forall_nil_2]. split; reflexivity. }
  exists before, disk'. rewrite Ho, E. reflexivity.
Defined.

(** ** Where it goes wrong *)

(** The name of a wafer, which a host may choose freely, becomes part of a path: with an
    absolute one, or one that climbs, the files are written outside the directory of the
    run; the controller accepts both. *)
Lemma wafer_dir_escapes {order : HashOrder} :
  path_join "out/run" "/etc/x" = "/etc/x"%string /\ path_join "out/run" "../../x" = "out/run/../../x"%string /\
  (let '(r, _, acts) := ctl_handle (in_command (mkCommand (StartCommand "/etc/x" 1) kUi 1)) new_controller in
   existsb (fun a => match a with driver_start w => String.eqb w "/etc/x" | _ => false end) acts = true).
Proof. split; [done|]. split; [done|]. reflexivity. Qed.

(** The summary never names an alarm. *)
Lemma summary_without_alarms result meta : json_member (summary result meta) "alarms" = Some (json_array []).
Proof. done. Qed.

(** On a full disk every file is created empty, and the last event says that all was written. *)
Lemma full_disk_unnoticed {L : MapLibrary} unspecified dump encode config run_dir run_id ms wafer_id result :
  consistent result -> is_Some (picture_text unspecified encode config result) ->
  let full_disk := mkFileSystem (fun _ => true) (fun _ _ => EmptyString) in
  let dir := path_join run_dir wafer_id in
  exists before disk',
    output_wafer unspecified full_disk dump encode (fun _ => None) config run_dir run_id ms wafer_id result ∅ =
      Some (before ++ [ev_written wafer_id dir true], disk') /\
    disk' !! in_dir dir "summary.json" = Some EmptyString.
Proof.
  intros Hc Hp full_disk dir.
  destruct (output_wafer_ends unspecified full_disk dump encode (fun _ => None) config run_dir run_id ms wafer_id result ∅ Hc)
    as (failures & ok & disk' & -> & _ & _ & Hok & Hfiles).
  assert (Eok : ok = true).
  { apply Hok. split; [done|]. unfold wanted_files. cbv zeta. constructor; [done|].
    destruct (bool_decide _); [|done]. rewrite (bool_decide_eq_true_2 (is_Some _) Hp). repeat (constructor; [done|]). done. }
  rewrite Eok in *. exists (reported_events config wafer_id result ++ failures), disk'. rewrite <- app_assoc. split; [done|].
  specialize (Hfiles eq_refl). unfold wanted_files in Hfiles. by inv Hfiles.
Qed.
