(* ===== verification/Logger.v ===== *)
(** * The logger

    include/ssim/core/logger.hpp and src/core/logger.cpp: callers push records on a bounded
    queue that drops the newest, and one thread writes them as lines of JSON to a file that
    is rotated when it has grown. The text of a JSON value and whether the file can be opened
    are parameters. A stream is taken to have written what was put into it: the code flushes
    before it renames and before it is done. *)

From stdpp Require Import strings gmap.
From S2P Require Import CLibrary WallTime Queue ResultFiles WaferOutput Prelude.

(** A disk, as in ResultFiles. *)
#[local] Abbreviation Files := (gmap string string).

Inductive LogLevel := kDebug | kInfo | kWarn | kError.

Definition level_to_string (level : LogLevel) : string :=
  match level with kDebug => "debug" | kInfo => "info" | kWarn => "warn" | kError => "error" end.

Record LogRecord := mkRecord {
  t_mono_ns : Z;
  t_wall_ns : Z;
  log_level : LogLevel;
  thread_name : string;
  component : string;
  event : string;
  fields : JsonValue
}.

Record LoggerConfig := mkLoggerConfig { log_path : string; queue_capacity : nat; rotate_bytes : Z }.

Definition default_logger (path : string) : LoggerConfig := mkLoggerConfig path 1024 (10 * 1024 * 1024).

(** The line of a record, before it is text. *)
Definition log_line (r : LogRecord) : JsonValue :=
  json_object
    [("t_mono_ns", json_integer (t_mono_ns r)); ("t_wall", json_string (format_wall_time (t_wall_ns r)));
     ("level", json_string (level_to_string (log_level r))); ("thread", json_string (thread_name r));
     ("component", json_string (component r)); ("event", json_string (event r)); ("fields", fields r)].

(** The file side of [Logger]: the stream, how much was written to the current file, and the
    disk. *)
Record LogFile := mkLogFile {
  is_open : bool;
  bytes_written_in_current_file : Z;
  rotation_index : Z;
  log_disk : Files
}.

Inductive LogThread := unborn | running | finished.
Inductive StopPhase := not_stopped | joining | stopped.

Record Logger := mkLogger {
  log_queue : BoundedQueue LogRecord;
  log_thread : LogThread;
  started_ : bool;
  stop_phase : StopPhase;
  log_file : LogFile
}.

Section logger.
Context (config : LoggerConfig) (opens : bool) (dump : JsonValue -> string).

Definition new_logger (disk : Files) : Logger :=
  mkLogger (new_bounded (queue_capacity config) kDropNewest) unborn false not_stopped (mkLogFile false 0 0 disk).

(** [file_.open] to append. *)
Definition open_file (f : LogFile) : LogFile :=
  if opens then
    mkLogFile true (bytes_written_in_current_file f) (rotation_index f)
      (<[log_path config := default EmptyString (log_disk f !! log_path config)]> (log_disk f))
  else mkLogFile false (bytes_written_in_current_file f) (rotation_index f) (log_disk f).

Definition rotated_path (k : Z) : string := log_path config +:+ "." +:+ pretty k.

(** [std::filesystem::rename], which replaces what has the new name. *)
Definition rename (old new : string) (disk : Files) : Files :=
  match disk !! old with Some text => <[new := text]> (delete old disk) | None => disk end.

Definition rotate_if_needed (f : LogFile) : LogFile :=
  if bytes_written_in_current_file f <? rotate_bytes config then f
  else
    let k := rotation_index f + 1 in
    let f := open_file (mkLogFile false (bytes_written_in_current_file f) k
                         (rename (log_path config) (rotated_path k) (log_disk f))) in
    mkLogFile (is_open f) 0 (rotation_index f) (log_disk f).

(** One line of text. *)
Definition line_text (r : LogRecord) : string := dump (log_line r) +:+ newline.

Definition write_line (r : LogRecord) (f : LogFile) : LogFile :=
  if negb (is_open f) then f
  else
    rotate_if_needed
      (mkLogFile true (bytes_written_in_current_file f + Z.of_nat (String.length (line_text r))) (rotation_index f)
         (<[log_path config := default EmptyString (log_disk f !! log_path config) +:+ line_text r]> (log_disk f))).

(** What happens to a logger: a call of [log] from any thread, [start], an iteration of the
    loop of [run], and [stop] in two parts, up to its [join] and after it. *)
Inductive LogStep := log_call (r : LogRecord) | start_call | thread_turn | stop_call | stop_joined.

Definition log_step (s : LogStep) (l : Logger) : option Logger :=
  match s with
  | log_call r =>
      Some (mkLogger (push r (log_queue l)) (log_thread l) (started_ l) (stop_phase l) (log_file l))
  | start_call =>
      Some (if started_ l then l
            else mkLogger (log_queue l) running true (stop_phase l) (open_file (log_file l)))
  | thread_turn =>
      match log_thread l, items_ (log_queue l) with
      | running, r :: _ =>
          Some (mkLogger (dequeue (log_queue l)) running (started_ l) (stop_phase l) (write_line r (log_file l)))
      | running, [] =>
          if closed_ (log_queue l)
          then Some (mkLogger (log_queue l) finished (started_ l) (stop_phase l) (log_file l)) else None
      | _, _ => None
      end
  | stop_call =>
      Some (match stop_phase l with
            | not_stopped => mkLogger (close (log_queue l)) (log_thread l) (started_ l) joining (log_file l)
            | _ => l
            end)
  | stop_joined =>
      match stop_phase l, log_thread l with
      | joining, unborn | joining, finished =>
          let f := log_file l in
          Some (mkLogger (log_queue l) (log_thread l) (started_ l) stopped
            (mkLogFile false (bytes_written_in_current_file f) (rotation_index f) (log_disk f)))
      | _, _ => None
      end
  end.

Fixpoint log_run (steps : list LogStep) (l : Logger) : option Logger :=
  match steps with
  | [] => Some l
  | s :: steps => l' ← log_step s l; log_run steps l'
  end.

(** ** What is in the files *)

Definition text_of (rs : list LogRecord) : string := foldr String.append EmptyString (map line_text rs).

Lemma text_of_snoc rs r : text_of (rs ++ [r]) = text_of rs +:+ line_text r.
Proof.
  unfold text_of. induction rs as [|x rs IH]; simpl; [apply string_app_nil_r|]. rewrite IH. by rewrite string_app_assoc.
Qed.

Lemma append_inj (a x y : string) : a +:+ x = a +:+ y -> x = y.
Proof. induction a as [|c a IH]; simpl; [done|]. intros [= E]. by apply IH. Qed.

Lemma rotated_path_inj a b : rotated_path a = rotated_path b -> a = b.
Proof. unfold rotated_path. intros E%append_inj. injection E as E. by apply (inj pretty) in E. Qed.

Lemma rotated_path_ne k : rotated_path k <> log_path config.
Proof.
  unfold rotated_path. intros E. apply (f_equal String.length) in E. rewrite string_length_app in E. simpl in E. lia.
Qed.

(** A file that has been rotated: it is full, but was not before its last line. *)
Definition full (rs : list LogRecord) : Prop :=
  exists before r, rs = before ++ [r] /\
    Z.of_nat (String.length (text_of before)) < rotate_bytes config <= Z.of_nat (String.length (text_of rs)).

(** The records written, in order, are those of the rotated files, numbered from 1, and then
    of the current one; nothing else on the disk has changed. *)
Record files_hold (disk0 : Files) (segments : list (list LogRecord)) (current : list LogRecord) (f : LogFile) : Prop := mkHold {
  hold_index : rotation_index f = Z.of_nat (length segments);
  hold_bytes : bytes_written_in_current_file f = Z.of_nat (String.length (text_of current));
  hold_below : bytes_written_in_current_file f < rotate_bytes config;
  hold_current : log_disk f !! log_path config = Some (text_of current);
  hold_segments : forall i rs, segments !! i = Some rs ->
    log_disk f !! rotated_path (Z.of_nat i + 1) = Some (text_of rs) /\ full rs;
  hold_others : forall p, p <> log_path config ->
    (forall i, (i < length segments)%nat -> p <> rotated_path (Z.of_nat i + 1)) -> log_disk f !! p = disk0 !! p
}.

Lemma write_line_holds disk0 segments current r f :
  opens = true -> 0 < rotate_bytes config -> is_open f = true -> files_hold disk0 segments current f ->
  is_open (write_line r f) = true /\ exists segments' current', files_hold disk0 segments' current' (write_line r f) /\
    concat segments' ++ current' = (concat segments ++ current) ++ [r].
Proof.
  intros Hop Hrot Ho [Hi Hb Hlt Hc Hs Hoth]. unfold write_line. rewrite Ho, Hc. cbn [negb default].
  change (id (text_of current)) with (text_of current). rewrite <- text_of_snoc.
  unfold rotate_if_needed. cbv zeta. cbn [bytes_written_in_current_file rotation_index log_disk].
  rewrite Hb, <- Nat2Z.inj_add, <- string_length_app, <- text_of_snoc.
  destruct (Z.ltb_spec (Z.of_nat (String.length (text_of (current ++ [r])))) (rotate_bytes config)) as [Hsmall|Hbig];
    cbv beta iota zeta.
  - split; [done|]. exists segments, (current ++ [r]). split; [|by rewrite app_assoc].
    split; cbn [bytes_written_in_current_file rotation_index log_disk]; try done.
    + apply lookup_insert_eq.
    + intros i rs Hrs. rewrite lookup_insert_ne by (intros E; symmetry in E; by apply rotated_path_ne in E). by apply Hs.
    + intros p Hp Hi'. rewrite lookup_insert_ne by done. by apply Hoth.
  - unfold open_file, rename. rewrite Hop. cbn [log_disk bytes_written_in_current_file rotation_index is_open].
    rewrite lookup_insert_eq. split; [done|]. exists (segments ++ [current ++ [r]]), [].
    split; [|by rewrite concat_app, app_nil_r; simpl; rewrite app_nil_r, app_assoc].
    set (k := rotation_index f + 1). assert (Hne : rotated_path k <> log_path config) by apply rotated_path_ne.
    assert (Hgone : <[rotated_path k := text_of (current ++ [r])]>
      (delete (log_path config) (<[log_path config := text_of (current ++ [r])]> (log_disk f))) !! log_path config = None).
    { rewrite lookup_insert_ne by done. apply lookup_delete_eq. }
    rewrite Hgone. cbn [default]. split; cbn [bytes_written_in_current_file rotation_index log_disk].
    + unfold k. rewrite Hi, length_app. simpl. lia.
    + done.
    + done.
    + apply lookup_insert_eq.
    + intros i rs Hrs. rewrite lookup_insert_ne by (intros E; symmetry in E; by apply rotated_path_ne in E).
      apply lookup_snoc_Some in Hrs as [[Hl Hrs]|[-> <-]].
      * rewrite lookup_insert_ne, lookup_delete_ne, lookup_insert_ne; [by apply Hs| | |].
        { intros E; symmetry in E; by apply rotated_path_ne in E. }
        { intros E; symmetry in E; by apply rotated_path_ne in E. }
        { intros E%rotated_path_inj. unfold k in E. rewrite Hi in E. lia. }
      * replace k with (Z.of_nat (length segments) + 1) by (unfold k; lia). rewrite lookup_insert_eq. split; [done|].
        exists current, r. split; [done|]. lia.
    + intros p Hp Hi'. rewrite lookup_insert_ne by done. rewrite length_app in Hi'. simpl in Hi'.
      rewrite lookup_insert_ne, lookup_delete_ne, lookup_insert_ne; [|done|done|].
      * apply Hoth; [done|]. intros i Hl. apply Hi'. lia.
      * intros E. apply (Hi' (length segments)); [lia|]. rewrite <- E. unfold k. by rewrite Hi.
Qed.


(** ** Its invariant *)

(** The logger can open its file, which is new, and does not rotate it away at once. *)
Definition recording (disk0 : Files) : Prop :=
  opens = true /\ 0 < rotate_bytes config /\ disk0 !! log_path config = None.

Record logger_ok (disk0 : Files) (l : Logger) : Prop := mkLoggerOk {
  lo_policy : policy_ (log_queue l) = kDropNewest;
  lo_capacity : capacity_ (log_queue l) = queue_capacity config;
  lo_fifo : pushed_ (log_queue l) = popped_ (log_queue l) ++ items_ (log_queue l);
  lo_bound : (length (items_ (log_queue l)) <= capacity_ (log_queue l))%nat;
  lo_closed : closed_ (log_queue l) = negb (match stop_phase l with not_stopped => true | _ => false end);
  lo_started : started_ l = match log_thread l with unborn => false | _ => true end;
  lo_files : recording disk0 ->
    match log_thread l with
    | unborn => popped_ (log_queue l) = [] /\ bytes_written_in_current_file (log_file l) = 0 /\
        rotation_index (log_file l) = 0 /\ log_disk (log_file l) = disk0
    | _ => exists segments current, files_hold disk0 segments current (log_file l) /\
        popped_ (log_queue l) = concat segments ++ current
    end;
  lo_open : recording disk0 -> log_thread l = running -> is_open (log_file l) = true;
  lo_unopened : opens = false -> is_open (log_file l) = false /\ log_disk (log_file l) = disk0;
  lo_finished : log_thread l = finished -> items_ (log_queue l) = [] /\ closed_ (log_queue l) = true
}.

Lemma push_fields r (q : BoundedQueue LogRecord) : policy_ q = kDropNewest ->
  policy_ (push r q) = kDropNewest /\ popped_ (push r q) = popped_ q /\ closed_ (push r q) = closed_ q /\
  capacity_ (push r q) = capacity_ q /\
  exists acc, pushed_ (push r q) = pushed_ q ++ acc /\ items_ (push r q) = items_ q ++ acc /\
    (if closed_ q then acc = [] /\ dropped_ (push r q) = dropped_ q
     else if (capacity_ q <=? length (items_ q))%nat then acc = [] /\ dropped_ (push r q) = S (dropped_ q)
     else acc = [r] /\ dropped_ (push r q) = dropped_ q).
Proof.
  intros Hp. unfold push. destruct (closed_ q) eqn:Ec; [|destruct (_ <=? _)%nat; [rewrite Hp|]].
  1-2: do 4 (split; [done|]); exists []; by rewrite !app_nil_r.
  do 4 (split; [done|]). by exists [r].
Qed.

Lemma dequeue_fields r rest (q : BoundedQueue LogRecord) : items_ q = r :: rest ->
  policy_ (dequeue q) = policy_ q /\ capacity_ (dequeue q) = capacity_ q /\ closed_ (dequeue q) = closed_ q /\
  pushed_ (dequeue q) = pushed_ q /\ popped_ (dequeue q) = popped_ q ++ [r] /\ items_ (dequeue q) = rest /\
  dropped_ (dequeue q) = dropped_ q.
Proof. intros E. unfold dequeue. by rewrite E. Qed.

Lemma new_logger_ok disk : logger_ok disk (new_logger disk).
Proof. split; try done. simpl. lia. Qed.

Lemma log_step_ok disk0 s l l' : logger_ok disk0 l -> log_step s l = Some l' -> logger_ok disk0 l'.
Proof.
  intros [Hp Hk Hf Hb Hc Hs Hfiles Ho Hun Hfin] H. destruct s as [r| | | |]; simpl in H.
  - injection H as <-. destruct (push_fields r (log_queue l) Hp) as (P1 & P2 & P3 & P4 & acc & P5 & P6 & P7).
    split; cbn [log_queue log_thread started_ stop_phase log_file]; rewrite ?P1, ?P2, ?P3, ?P4, ?P5, ?P6; try done.
    + by rewrite Hf, app_assoc.
    + destruct (closed_ (log_queue l)); [destruct P7 as [-> _]; by rewrite app_nil_r|].
      destruct (Nat.leb_spec (capacity_ (log_queue l)) (length (items_ (log_queue l)))); destruct P7 as [-> _];
        rewrite length_app; simpl; lia.
    + intros E. destruct (Hfin E) as [Hi Ec]. rewrite Hi, Ec in *. by destruct P7 as [-> _].
  - injection H as <-. destruct (started_ l) eqn:Es; [by split; rewrite ?Es|].
    destruct (log_thread l) eqn:Et; try done.
    split; cbn [log_queue log_thread started_ stop_phase log_file]; try done.
    + intros Hrec. destruct (Hfiles Hrec) as (F1 & F2 & F3 & F4). destruct Hrec as (opens_ok & rotates & Hd).
      exists [], []. split; [|done]. unfold open_file. rewrite opens_ok, F4, Hd.
      split; cbn [bytes_written_in_current_file rotation_index log_disk];
        [done|done|by rewrite F2|apply lookup_insert_eq|done|].
      intros p Hp' _. by rewrite lookup_insert_ne.
    + intros Hrec _. unfold open_file. by rewrite (proj1 Hrec).
    + intros Hno. destruct (Hun Hno) as [_ Hdisk]. unfold open_file. by rewrite Hno.
  - destruct (log_thread l) eqn:Et; try done. destruct (items_ (log_queue l)) as [|r rest] eqn:Ei.
    + destruct (closed_ (log_queue l)) eqn:Ec; [|done]. injection H as <-.
      split; cbn [log_queue log_thread started_ stop_phase log_file]; rewrite ?Ei, ?Ec; try done.
    + injection H as <-.
      assert (Hw : recording disk0 -> is_open (write_line r (log_file l)) = true /\ exists segments' current',
        files_hold disk0 segments' current' (write_line r (log_file l)) /\
        popped_ (log_queue l) ++ [r] = concat segments' ++ current').
      { intros Hrec. destruct (Hfiles Hrec) as (segments & current & Hh & Hpop). pose proof Hrec as (opens_ok & rotates & _).
        destruct (write_line_holds disk0 segments current r (log_file l) opens_ok rotates (Ho Hrec eq_refl) Hh)
          as (Ho' & segments' & current' & Hh' & Hc'). split; [done|]. exists segments', current'. by rewrite Hpop, Hc'. }
      destruct (dequeue_fields r rest (log_queue l) Ei) as (D1 & D2 & D3 & D4 & D5 & D6 & _).
      split; cbn [log_queue log_thread started_ stop_phase log_file]; rewrite ?D1, ?D2, ?D3, ?D4, ?D5, ?D6; try done.
      * by rewrite Hf, <- app_assoc.
      * simpl in Hb. lia.
      * intros Hrec. apply (Hw Hrec).
      * intros Hrec _. apply (Hw Hrec).
      * intros Hno. destruct (Hun Hno) as [E1 E2]. unfold write_line. by rewrite E1.
  - injection H as <-. destruct (stop_phase l) eqn:Ep; [|by split; rewrite ?Ep..].
    split; cbn [log_queue log_thread started_ stop_phase log_file]; try done.
    intros E. by destruct (Hfin E).
  - destruct (stop_phase l) eqn:Ep; try done. destruct (log_thread l) eqn:Et; try done; injection H as <-;
      split; cbn [log_queue log_thread started_ stop_phase log_file]; rewrite ?Et; try done.
    + intros Hno. by destruct (Hun Hno).
    + intros Hrec. destruct (Hfiles Hrec) as (segments & current & [] & Hpop). exists segments, current. done.
    + intros Hno. by destruct (Hun Hno).
Qed.

Lemma log_run_ok disk0 steps : forall l l',
  logger_ok disk0 l -> log_run steps l = Some l' -> logger_ok disk0 l'.
Proof.
  induction steps as [|s steps IH]; intros l l' Hl H; simpl in H; [by simplify_eq|].
  apply bind_Some in H as (l1 & Hs & H). apply (IH l1); [|done]. by eapply log_step_ok.
Qed.

(** The records offered before [stop] is called. *)
Fixpoint logged (steps : list LogStep) : list LogRecord :=
  match steps with
  | [] => []
  | log_call r :: steps => r :: logged steps
  | stop_call :: _ => []
  | _ :: steps => logged steps
  end.

(** Each is accepted, in order, or counted as dropped. *)
Lemma log_run_counts disk0 steps : forall l l',
  logger_ok disk0 l -> log_run steps l = Some l' ->
  exists acc, pushed_ (log_queue l') = pushed_ (log_queue l) ++ acc /\
    let offered := if closed_ (log_queue l) then [] else logged steps in
    acc `sublist_of` offered /\
    (length offered + dropped_ (log_queue l) = length acc + dropped_ (log_queue l'))%nat.
Proof.
  induction steps as [|s steps IH]; intros l l' Hl H; simpl in H.
  { simplify_eq. exists []. rewrite app_nil_r. destruct (closed_ _); by split_and!. }
  apply bind_Some in H as (l1 & Hs & H).
  destruct (IH l1 l' ltac:(by eapply log_step_ok) H) as (acc & Hacc & Hsub & Hlen).
  destruct s as [r| | | |]; simpl in Hs.
  - injection Hs as <-. cbn [log_queue] in *.
    destruct (push_fields r (log_queue l) (lo_policy _ _ Hl)) as (_ & _ & P3 & _ & acc0 & P5 & _ & P7).
    rewrite P3 in Hsub, Hlen. rewrite Hacc, P5. exists (acc0 ++ acc). split; [by rewrite app_assoc|].
    destruct (closed_ (log_queue l)); [destruct P7 as [-> P7]; by rewrite P7 in Hlen|].
    cbn [logged]. destruct (_ <=? _)%nat; destruct P7 as [-> P7]; rewrite P7 in Hlen; cbn [app length].
    + split; [by apply sublist_cons|lia].
    + split; [by apply sublist_skip|lia].
  - injection Hs as <-. exists acc. destruct (started_ l); [done|]. done.
  - destruct (log_thread l); try done. destruct (items_ (log_queue l)) as [|r rest] eqn:Ei.
    + destruct (closed_ (log_queue l)) eqn:Ec; [|done]. injection Hs as <-. cbn [log_queue] in *. rewrite Ec in *. by exists acc.
    + injection Hs as <-. cbn [log_queue] in *.
      destruct (dequeue_fields r rest (log_queue l) Ei) as (_ & _ & D3 & D4 & _ & _ & D7).
      rewrite D3, D4, D7 in *. by exists acc.
  - injection Hs as <-. destruct (stop_phase l) eqn:Ep.
    + cbn [log_queue] in *. assert (Ec : closed_ (log_queue l) = false) by (by rewrite (lo_closed _ _ Hl), Ep).
      rewrite Ec. exists acc. done.
    + exists acc. rewrite (lo_closed _ _ Hl), Ep in *. done.
    + exists acc. rewrite (lo_closed _ _ Hl), Ep in *. done.
  - exists acc. destruct (stop_phase l); try done. destruct (log_thread l); try done; by injection Hs as <-.
Qed.

(** Once the queue is closed the thread empties it and ends. *)
Lemma thread_drains rest : forall l, log_thread l = running -> closed_ (log_queue l) = true -> items_ (log_queue l) = rest ->
  exists l', log_run (repeat thread_turn (S (length rest))) l = Some l' /\ log_thread l' = finished /\
    pushed_ (log_queue l') = pushed_ (log_queue l).
Proof.
  induction rest as [|r rest IH]; intros l Ht Hc Hi.
  { simpl. rewrite Ht, Hi, Hc. by eexists. }
  cbn [length repeat log_run log_step]. rewrite Ht, Hi. cbn [mbind option_bind].
  destruct (dequeue_fields r rest (log_queue l) Hi) as (_ & _ & D3 & D4 & _ & D6 & _).
  set (l1 := mkLogger _ _ _ _ _).
  destruct (IH l1 eq_refl ltac:(by rewrite <- Hc) D6) as (l' & Hr & Hf & Hp).
  exists l'. split; [exact Hr|]. split; [done|]. by rewrite Hp.
Qed.

(** [C20] What becomes of a record, in every interleaving of the callers, the thread of the logger,
    [start] and [stop]. Whatever the file: every record offered before [stop] is accepted, in
    order, or counted as dropped; the queue never exceeds its capacity; and after [stop] the
    thread takes as many turns as there are records left, and one more, to end with the
    queue empty. When the file can be opened, there was none before and the size limit is not 0: once
    started, the files numbered from 1 and then the current one hold, record by record as its
    line, what was accepted and has been taken from the queue; a numbered file reached the
    size limit with its last line and not before, the current one is below the limit, and no
    other file is touched. When the file cannot be opened nothing is written at all:
    what is accepted is then lost without being counted. That the stream keeps every line it is given is
    taken for granted. *)
Theorem log_is_complete steps disk l :
  log_run steps (new_logger disk) = Some l ->
  let q := log_queue l in
  pushed_ q `sublist_of` logged steps /\
  (length (logged steps) = length (pushed_ q) + dropped_ q)%nat /\
  (length (items_ q) <= queue_capacity config)%nat /\
  (opens = true -> 0 < rotate_bytes config -> disk !! log_path config = None -> log_thread l <> unborn ->
     exists segments current, files_hold disk segments current (log_file l) /\
       pushed_ q = concat segments ++ current ++ items_ q) /\
  (opens = false -> log_disk (log_file l) = disk) /\
  (log_thread l = finished -> items_ q = []) /\
  (log_thread l = running -> closed_ q = true ->
     exists l', log_run (repeat thread_turn (S (length (items_ q)))) l = Some l' /\ log_thread l' = finished).
Proof.
  intros Hrun q. pose proof (new_logger_ok disk) as H0.
  pose proof (log_run_ok disk steps _ _ H0 Hrun) as [Hp Hk Hf Hb Hc Hs Hfiles Ho Hun Hfin].
  destruct (log_run_counts disk steps _ _ H0 Hrun) as (acc & Hacc & Hsub & Hlen). cbn in Hacc, Hsub, Hlen.
  fold q in Hacc, Hlen, Hk, Hf, Hb, Hfiles, Hfin. rewrite Hacc. split; [done|]. split; [lia|].
  split; [by rewrite <- Hk|]. split; [|split; [|split]].
  - intros Hop Hrot Hd Hne. specialize (Hfiles (conj Hop (conj Hrot Hd))).
    destruct (log_thread l); [done|..]; destruct Hfiles as (segments & current & Hh & Hpop);
      exists segments, current; (split; [done|]); rewrite <- Hacc, Hf, Hpop; by rewrite <- app_assoc.
  - intros Hno. apply (Hun Hno).
  - intros E. by destruct (Hfin E).
  - intros Ht Ec. destruct (thread_drains (items_ q) l Ht Ec eq_refl) as (l' & ? & ? & _). by exists l'.
Qed.

End logger.

(** Three records on a queue of two, a limit that every line reaches. *)
Definition sample_record (k : Z) : LogRecord := mkRecord k 0 kInfo "main" "c" ("event_" +:+ pretty k) (json_object []).

Lemma log_is_complete_witness :
  let config := mkLoggerConfig "run/machine.log" 2 1 in
  let steps := [log_call (sample_record 1); log_call (sample_record 2); log_call (sample_record 3); start_call;
                thread_turn; stop_call; thread_turn; thread_turn; stop_joined; log_call (sample_record 4)] in
  exists l segments current,
    log_run config true (fun _ => "line") steps (new_logger config ∅) = Some l /\
    files_hold config (fun _ => "line"%string) ∅ segments current (log_file l) /\
    concat segments ++ current = [sample_record 1; sample_record 2] /\ dropped_ (log_queue l) = 1%nat.
Proof.
  intros config steps.
  destruct (log_run config true (fun _ => "line"%string) steps (new_logger config ∅)) as [l|] eqn:E;
    [|vm_compute in E; discriminate].
  destruct (log_is_complete config true (fun _ => "line"%string) steps ∅ l E)
    as (_ & Hlen & _ & Hfiles & _).
  destruct (Hfiles eq_refl eq_refl (lookup_empty _)) as (segments & current & Hh & Hp).
  { assert (Et : option_map log_thread (Some l) = Some finished) by (rewrite <- E; reflexivity).
    intros Hu. cbn [option_map] in Et. rewrite Hu in Et. discriminate. }
  exists l, segments, current. split; [reflexivity|]. split; [exact Hh|].
  assert (Eq : option_map (fun l => (pushed_ (log_queue l), items_ (log_queue l), dropped_ (log_queue l))) (Some l) =
    Some ([sample_record 1; sample_record 2], [], 1%nat)) by (rewrite <- E; reflexivity).
  cbn [option_map] in Eq.
  injection Eq as E1 E2 E3. rewrite E1, E2, app_nil_r in Hp. split; [symmetry; exact Hp|exact E3].
Defined.

(** ** Where it goes wrong *)

(** After [stop] a record is lost without being counted. *)
Lemma late_record_uncounted r l : closed_ (log_queue l) = true ->
  exists l', log_step (default_logger "p") true (fun _ => EmptyString) (log_call r) l = Some l' /\
    pushed_ (log_queue l') = pushed_ (log_queue l) /\ dropped_ (log_queue l') = dropped_ (log_queue l).
Proof. intros Hc. eexists. split; [reflexivity|]. cbn [log_queue]. unfold push. by rewrite Hc. Qed.

(** The numbers of rotated files start again at 1 for every logger: an older file of that
    name is replaced. *)
Lemma rotation_replaces :
  let config := mkLoggerConfig "machine.log" 2 1 in
  option_map (fun l => log_disk (log_file l) !! "machine.log.1"%string)
    (log_run config true (fun _ => "line") [start_call; log_call (sample_record 1); thread_turn]
       (new_logger config {["machine.log.1"%string := "old lines"%string]})) = Some (Some ("line" +:+ newline)).
Proof. vm_compute. reflexivity. Qed.

(** A log that cannot be opened loses every record it accepts, and counts none. *)
Lemma unopened_log_loses :
  let config := mkLoggerConfig "no/machine.log" 2 1 in
  option_map (fun l => (length (popped_ (log_queue l)), dropped_ (log_queue l), log_disk (log_file l)))
    (log_run config false (fun _ => "line") [start_call; log_call (sample_record 1); thread_turn; stop_call; thread_turn]
       (new_logger config ∅)) = Some (1%nat, 0%nat, ∅).
Proof. reflexivity. Qed.
