(* ===== verification/RuntimeLog.v ===== *)
(** * The log of the machine

    The subscriptions MachineRuntime makes for itself (src/machine/machine_runtime.cpp): the
    lines of machine.log and the number of the next wafer. Put together with the controller's
    events, the log alone tells the state of the machine. *)

From stdpp Require Import strings gmap.
From S2P Require Import ProcessFsm Controller MachineRuntime WaferOutput Logger Prelude.

(** The counter, and the records offered to the logger. *)
Record RuntimeLog := mkRuntimeLog { wafers_started_ : Z; offered_ : list LogRecord }.

Definition new_runtime_log : RuntimeLog := mkRuntimeLog 0 [].

(** The level, the name and the fields of the line a handler logs. *)
Definition logged_line (e : Event) : option (LogLevel * string * JsonValue) :=
  match e with
  | ScanStarted w _ => Some (kInfo, "scan_started", json_object [("wafer_id", json_string w)])
  | StateChanged from to =>
      Some (kInfo, "state_change",
            json_object [("from", json_string (process_state_to_string from));
                         ("to", json_string (process_state_to_string to))])
  | ControlStateChanged from to =>
      Some (kInfo, "control_state_change",
            json_object [("from", json_string (control_mode_to_string from));
                         ("to", json_string (control_mode_to_string to))])
  | AlarmSet alid name reason =>
      Some (kWarn, "alarm_set",
            json_object [("alid", json_integer alid); ("name", json_string name); ("reason", json_string reason)])
  | AlarmCleared alid name =>
      Some (kInfo, "alarm_cleared", json_object [("alid", json_integer alid); ("name", json_string name)])
  | _ => None
  end%string.

(** [fetch_add(1)] on an [atomic<int>], which wraps around. *)
Definition count_wafer (n : Z) : Z := wrap 32 (n + 1 + 2 ^ 31) - 2 ^ 31.

(** What the logger adds to a record. *)
Record Stamp := mkStamp { mono_ns : Z; wall_ns : Z; on_thread : string }.

Definition on_runtime_event (l : RuntimeLog) (se : Stamp * Event) : RuntimeLog :=
  let '(st, e) := se in
  mkRuntimeLog
    (match e with ScanStarted _ _ => count_wafer (wafers_started_ l) | _ => wafers_started_ l end)
    (offered_ l ++
     match logged_line e with
     | Some (level, name, fields) =>
         [mkRecord (mono_ns st) (wall_ns st) level (on_thread st) "machine" name fields]
     | None => []
     end).

(** ** Reading the log *)

Definition text_field (r : LogRecord) (key : string) : option string :=
  match json_member (fields r) key with Some (json_string s) => Some s | _ => None end.
Definition number_field (r : LogRecord) (key : string) : option Z :=
  match json_member (fields r) key with Some (json_integer v) => Some v | _ => None end.

(** The last value the lines of a name give to a key. *)
Definition last_logged (name key : string) (rs : list LogRecord) (before : string) : string :=
  foldl (fun s r => if String.eqb (event r) name then default s (text_field r key) else s) before rs.

(** The alarms set and not cleared since. *)
Definition read_alarm (s : gset Z) (r : LogRecord) : gset Z :=
  match number_field r "alid" with
  | Some id => if String.eqb (event r) "alarm_set" then {[id]} ∪ s
               else if String.eqb (event r) "alarm_cleared" then s ∖ {[id]} else s
  | None => s
  end.
Definition alarms_logged (rs : list LogRecord) (before : gset Z) : gset Z := foldl read_alarm before rs.

Definition starts (evs : list Event) : list string :=
  omap (fun e => match e with ScanStarted w _ => Some w | _ => None end) evs.

Definition scans_logged (rs : list LogRecord) : list string :=
  omap (fun r => if String.eqb (event r) "scan_started" then text_field r "wafer_id" else None) rs.

(** What the log says agrees with what a subscriber knows. *)
Definition log_agrees (rs : list LogRecord) (v : View) : Prop :=
  last_logged "state_change" "to" rs "Idle" = process_state_to_string (v_state v) /\
  last_logged "control_state_change" "to" rs "OnlineLocal" = control_mode_to_string (v_mode v) /\
  alarms_logged rs ∅ = v_alarms v.

Lemma log_agrees_event l v v' st e : log_agrees (offered_ l) v -> view_event e v = Some v' ->
  log_agrees (offered_ (on_runtime_event l (st, e))) v'.
Proof.
  intros (H1 & H2 & H3) Hv. unfold log_agrees, last_logged, alarms_logged, on_runtime_event in *. cbn [offered_].
  rewrite !foldl_app, H1, H2, H3.
  destruct e; cbn [view_event] in Hv; cbn; try (injection Hv as <-; done); case_bool_decide; simplify_eq; try done;
    cbn in *; try (case_bool_decide; simplify_eq; done).
  all: by repeat case_match; simplify_eq.
Qed.

Definition published_events (acts : list Action) : list Event :=
  omap (fun a => match a with publish e => Some e | _ => None end) acts.

Lemma log_agrees_run acts : forall l v v' ses, map snd ses = published_events acts ->
  log_agrees (offered_ l) v -> replay acts v = Some v' ->
  log_agrees (offered_ (foldl on_runtime_event l ses)) v'.
Proof.
  induction acts as [|a acts IH]; intros l v v' ses Hses Hl; cbn [replay].
  - intros [= <-]. by destruct ses.
  - intros (v1 & H1 & H2)%bind_Some. destruct a as [e|w|]; cbn [published_events omap list_omap view_action] in *.
    + destruct ses as [|[st e'] ses]; [done|]. injection Hses as -> Hses. cbn [foldl].
      eapply IH; [exact Hses| |exact H2]. by eapply log_agrees_event.
    + assert (v1 = v) as -> by (by case_match; simplify_eq). by eapply IH.
    + assert (v1 = v) as -> by (by case_match; simplify_eq). by eapply IH.
Qed.

Lemma count_wafer_below n : 0 <= n -> n + 1 < 2 ^ 31 -> count_wafer n = n + 1.
Proof. intros H1 H2. unfold count_wafer, wrap. rewrite Z.mod_small; int_lia. Qed.

Lemma scans_counted ses : forall l,
  scans_logged (offered_ (foldl on_runtime_event l ses)) = scans_logged (offered_ l) ++ starts (map snd ses) /\
  (0 <= wafers_started_ l -> wafers_started_ l + Z.of_nat (length (starts (map snd ses))) < 2 ^ 31 ->
   wafers_started_ (foldl on_runtime_event l ses) = wafers_started_ l + Z.of_nat (length (starts (map snd ses)))).
Proof.
  induction ses as [|[st e] ses IH]; intros l; cbn [map foldl].
  { rewrite app_nil_r. split; [done|]. cbn. lia. }
  destruct (IH (on_runtime_event l (st, e))) as [-> H2].
  assert (Hs : scans_logged (offered_ (on_runtime_event l (st, e))) = scans_logged (offered_ l) ++ starts [e]).
  { unfold scans_logged, on_runtime_event. cbn [offered_]. rewrite omap_app. f_equal. by destruct e. }
  rewrite Hs, <- app_assoc. split; [by destruct e|]. intros H0 Hlt.
  destruct e; cbn [starts omap list_omap length on_runtime_event wafers_started_ snd] in *;
    try (by apply H2); rewrite ?Nat2Z.inj_succ in *.
  assert (Hc : count_wafer (wafers_started_ l) = wafers_started_ l + 1) by (apply count_wafer_below; unfold starts in *; lia).
  rewrite Hc in *. rewrite H2; unfold starts in *; lia.
Qed.

(** The log of the machine tells its state: in every history of commands and notifications,
    with any times and threads on the records, the last change of state and of control mode
    in the log name the state and the mode the machine is in, the alarms set and not cleared
    since are those that are active, the scans are listed in order, and the number of the
    next wafer is one more than theirs. *)
Theorem log_tells_the_state `{HashOrder} ins ses :
  let '(c, acts) := ctl_run ins new_controller in
  map snd ses = published_events acts ->
  let l := foldl on_runtime_event new_runtime_log ses in
  last_logged "state_change" "to" (offered_ l) "Idle" = process_state_to_string (state_ c) /\
  last_logged "control_state_change" "to" (offered_ l) "OnlineLocal" = control_mode_to_string (control_mode_ c) /\
  alarms_logged (offered_ l) ∅ = dom (alarms_ c) /\
  scans_logged (offered_ l) = starts (published_events acts) /\
  (Z.of_nat (length (scans_logged (offered_ l))) < 2 ^ 31 ->
   next_wafer_id (wafers_started_ l) = format_wafer_id (Z.of_nat (length (scans_logged (offered_ l))) + 1)).
Proof.
  pose proof (ctl_run_view ins new_controller) as Hr. destruct (ctl_run ins new_controller) as [c acts]. cbn [fst snd] in Hr.
  destruct Hr as [_ Hr]; [by split|]. intros Hses l.
  assert (H0 : log_agrees (offered_ new_runtime_log) (view_of new_controller)) by (split_and!; done).
  destruct (log_agrees_run acts _ _ _ ses Hses H0 Hr) as (H1 & H2 & H3).
  destruct (scans_counted ses new_runtime_log) as [H4 H5]. rewrite Hses in *. fold l in H1, H2, H3, H4, H5.
  split_and!; try done. intros Hlt. rewrite H4 in *. cbn in Hlt |- *. rewrite H5; [done|done|cbn; lia].
Qed.

#[local] Existing Instance ascending_order.

Lemma log_tells_the_state_witness :
  let ins := [ui (StartCommand "W001" 1); in_fault kSensorDropout "gap"] in
  let ses := map (fun e => (mkStamp 0 0 "controller", e)) (published_events (ctl_run ins new_controller).2) in
  let rs := offered_ (foldl on_runtime_event new_runtime_log ses) in
  last_logged "state_change" "to" rs "Idle" = "Alarm"%string /\ scans_logged rs = ["W001"%string].
Proof.
  intros ins ses rs. pose proof (log_tells_the_state ins ses) as H.
  assert (Hm : map snd ses = published_events (ctl_run ins new_controller).2) by (vm_compute; reflexivity).
  assert (Hc : state_ (ctl_run ins new_controller).1 = kAlarm) by (vm_compute; reflexivity).
  assert (Hw : starts (published_events (ctl_run ins new_controller).2) = ["W001"%string]) by (vm_compute; reflexivity).
  subst rs. clearbody ses. destruct (ctl_run ins new_controller) as [c acts]. cbn [fst snd] in *.
  destruct (H Hm) as (H1 & _ & _ & H4 & _). rewrite H1, H4, Hc, Hw. split; reflexivity.
Defined.
