(* ===== verification/Panel.v ===== *)
(** * The operator panel

    src/app_qt/main_window.cpp: the window, the machine it owns and the bridge between them,
    with the signals that wait for the GUI thread and the commands that run on worker
    threads. Each label of [panel_step] is one thing that happens: an item of the controller's
    inbox, an event another thread publishes, a command that gets its turn, a tick, the
    delivery of a signal or of a result, and what the user does. What a machine's threads do
    between their events is the matter of MachineRuntime. *)

From stdpp Require Import strings gmap.
From S2P Require Import CLibrary WallTime LineFilter ProcessFsm Controller MachineApi ScanThread WaferStress ConfigFile WaferPipeline ResultFiles WaferOutput WaferMapWidget SettingsDialog EventBridge RuntimeLog Prelude.

(** ** The window *)

Record Buttons := mkButtons {
  start_enabled : bool; stop_enabled : bool; abort_enabled : bool; clear_enabled : bool;
  mode_enabled : bool; load_enabled : bool; settings_enabled : bool
}.

(** The labels of the last result. *)
Record ResultBox := mkResultBox {
  wafer_value : string; stress_value : string; curvature_value : string; rms_value : string;
  spec_value : string; spec_style : string
}.

Record Banner := mkBanner { alarm_text_ : string; banner_text : string; banner_shown : bool }.

(** [log_] is what was appended to the log view; how much of it Qt keeps is Qt's, as is what a
    progress bar makes of a value outside its range. *)
Record Window (Color : Type) := mkWindow {
  buttons : Buttons;
  process_label : string;
  mode_index : Z;
  banner : Banner;
  progress_value : Z;
  map_ : WaferMapWidget Color;
  results : ResultBox;
  log_ : list string;
  status : string
}.
Arguments mkWindow {Color}.
Arguments buttons {Color}.
Arguments process_label {Color}.
Arguments mode_index {Color}.
Arguments banner {Color}.
Arguments progress_value {Color}.
Arguments map_ {Color}.
Arguments results {Color}.
Arguments log_ {Color}.
Arguments status {Color}.

(** The entries of the combo box. *)
Definition mode_items : list ControlMode := [kOffline; kOnlineLocal; kOnlineRemote].

(** [QComboBox::findData]. *)
Definition find_data (mode : ControlMode) : Z :=
  match list_find (fun m => m = mode) mode_items with Some (i, _) => Z.of_nat i | None => -1 end.

(** [itemData(index).toInt()]; 0 is Offline. *)
Definition item_mode (index : Z) : ControlMode := nth (Z.to_nat index) mode_items kOffline.

(** ** The machine and the commands *)

(** A [MachineRuntime] as the panel uses it; [generation] tells one from the next. *)
Record Machine := mkMachineRuntime {
  generation : nat;
  api : MachineApi;
  wafers_started_ : Z;
  run_dir_ : string;
  last_wafer_dir_ : string
}.

(** What [run_command] hands to a worker thread, with the machine its pointer refers to. *)
Record Call := mkCall { call_payload : CommandPayload; call_machine : nat }.

Inductive OpenDialog := file_dialog | settings_dialog (d : SettingsDialog).

Record Panel (Color : Type) := mkPanel {
  runtime_ : option Machine;
  bridge_ : option EventBridge;
  config_ : Config;
  in_flight_ : Z;
  window : Window Color;
  queued : list Signal;
  running : list Call;
  finished : list string;
  dialog : option OpenDialog;
  dirs : gset string;
  built : nat;
  history : list BusEvent
}.
Arguments mkPanel {Color}.
Arguments runtime_ {Color}.
Arguments bridge_ {Color}.
Arguments config_ {Color}.
Arguments in_flight_ {Color}.
Arguments window {Color}.
Arguments queued {Color}.
Arguments running {Color}.
Arguments finished {Color}.
Arguments dialog {Color}.
Arguments dirs {Color}.
Arguments built {Color}.
Arguments history {Color}.

Section setters.
Context {Color : Type}.
Implicit Types (w : Window Color) (p : Panel Color).

Definition set_buttons (b : Buttons) w : Window Color :=
  mkWindow b (process_label w) (mode_index w) (banner w) (progress_value w) (map_ w) (results w) (log_ w) (status w).
Definition set_process_label (s : string) w : Window Color :=
  mkWindow (buttons w) s (mode_index w) (banner w) (progress_value w) (map_ w) (results w) (log_ w) (status w).
Definition set_mode_index (i : Z) w : Window Color :=
  mkWindow (buttons w) (process_label w) i (banner w) (progress_value w) (map_ w) (results w) (log_ w) (status w).
Definition set_banner (b : Banner) w : Window Color :=
  mkWindow (buttons w) (process_label w) (mode_index w) b (progress_value w) (map_ w) (results w) (log_ w) (status w).
Definition set_progress_value (v : Z) w : Window Color :=
  mkWindow (buttons w) (process_label w) (mode_index w) (banner w) v (map_ w) (results w) (log_ w) (status w).
Definition set_map_view (m : WaferMapWidget Color) w : Window Color :=
  mkWindow (buttons w) (process_label w) (mode_index w) (banner w) (progress_value w) m (results w) (log_ w) (status w).
Definition set_results (r : ResultBox) w : Window Color :=
  mkWindow (buttons w) (process_label w) (mode_index w) (banner w) (progress_value w) (map_ w) r (log_ w) (status w).
Definition append_log (lines : list string) w : Window Color :=
  mkWindow (buttons w) (process_label w) (mode_index w) (banner w) (progress_value w) (map_ w) (results w)
    (log_ w ++ lines) (status w).
Definition show_message (s : string) w : Window Color :=
  mkWindow (buttons w) (process_label w) (mode_index w) (banner w) (progress_value w) (map_ w) (results w) (log_ w) s.

Definition set_window w p : Panel Color :=
  mkPanel (runtime_ p) (bridge_ p) (config_ p) (in_flight_ p) w (queued p) (running p) (finished p) (dialog p)
    (dirs p) (built p) (history p).
Definition set_queued (q : list Signal) p : Panel Color :=
  mkPanel (runtime_ p) (bridge_ p) (config_ p) (in_flight_ p) (window p) q (running p) (finished p) (dialog p)
    (dirs p) (built p) (history p).
Definition set_dialog (d : option OpenDialog) p : Panel Color :=
  mkPanel (runtime_ p) (bridge_ p) (config_ p) (in_flight_ p) (window p) (queued p) (running p) (finished p) d
    (dirs p) (built p) (history p).
Definition set_runtime (m : option Machine) p : Panel Color :=
  mkPanel m (bridge_ p) (config_ p) (in_flight_ p) (window p) (queued p) (running p) (finished p) (dialog p)
    (dirs p) (built p) (history p).
Definition set_bridge (b : option EventBridge) p : Panel Color :=
  mkPanel (runtime_ p) b (config_ p) (in_flight_ p) (window p) (queued p) (running p) (finished p) (dialog p)
    (dirs p) (built p) (history p).
Definition set_calls (n : Z) (r : list Call) (f : list string) p : Panel Color :=
  mkPanel (runtime_ p) (bridge_ p) (config_ p) n (window p) (queued p) r f (dialog p) (dirs p) (built p) (history p).
Definition set_config (c : Config) p : Panel Color :=
  mkPanel (runtime_ p) (bridge_ p) c (in_flight_ p) (window p) (queued p) (running p) (finished p) (dialog p)
    (dirs p) (built p) (history p).
Definition set_dirs (ds : gset string) p : Panel Color :=
  mkPanel (runtime_ p) (bridge_ p) (config_ p) (in_flight_ p) (window p) (queued p) (running p) (finished p) (dialog p)
    ds (built p) (history p).
Definition count_built p : Panel Color :=
  mkPanel (runtime_ p) (bridge_ p) (config_ p) (in_flight_ p) (window p) (queued p) (running p) (finished p) (dialog p)
    (dirs p) (S (built p)) (history p).
Definition record_events (es : list BusEvent) p : Panel Color :=
  mkPanel (runtime_ p) (bridge_ p) (config_ p) (in_flight_ p) (window p) (queued p) (running p) (finished p) (dialog p)
    (dirs p) (built p) (history p ++ es).

Definition on_window (f : Window Color -> Window Color) p : Panel Color := set_window (f (window p)) p.

End setters.

Section panel.
Context {order : HashOrder} {T : QtText} {B : SpinBox} {Color : Type} {C : ColorLibrary Color}.
Context {json : Type} {J : Json json} (read_file : string -> option string) (parse_json : string -> Result json).
Context (mkdir_error : string -> option string) (root_error : option string) (undefined_int : Z).

(** ** What is shown *)

Definition dashes : ResultBox := mkResultBox "-" "-" "-" "-" "-" "".

(** [MainWindow::reset_views]. *)
Definition reset_views (w : Window Color) : Window Color :=
  set_banner (mkBanner "" (banner_text (banner w)) false)
    (set_results (mkResultBox "-" "-" "-" "-" "-" (spec_style (results w)))
       (set_progress_value 0 (set_map_view (map_clear (map_ w)) w))).

(** [MainWindow::refresh], on the snapshot of a machine. *)
Definition refresh_window (runtime : option Machine) (in_flight : Z) (w : Window Color) : Window Color :=
  match runtime with
  | None => set_buttons (mkButtons false false false false false true true) w
  | Some m =>
      let snap := snapshot (api m) in
      let rules := rules_for (process_state snap) (control_mode snap) (alarm_active snap) in
      let idle := can_change_mode rules && (in_flight =? 0) in
      let w := set_buttons (mkButtons (can_start rules) (can_stop rules) (can_abort rules) (can_clear_alarm rules)
                              (can_change_mode rules) idle idle) w in
      let w := set_process_label (q_arg "Process: %1" [process_state_to_string (process_state snap)]) w in
      let index := find_data (control_mode snap) in
      let w := if (0 <=? index) && negb (index =? mode_index w) then set_mode_index index w else w in
      let b := banner w in
      set_banner
        (if alarm_active snap
         then mkBanner (alarm_text_ b) (banner_text b) (negb (String.eqb (alarm_text_ b) "") || banner_shown b)
         else mkBanner (alarm_text_ b) (banner_text b) false) w
  end.

Definition refresh (p : Panel Color) : Panel Color :=
  on_window (refresh_window (runtime_ p) (in_flight_ p)) p.

(** The slots [rebuild] connects; [None] for an access out of bounds in [set_map]. A signal that
    is not connected is not queued. *)
Definition connected (s : Signal) : bool :=
  match s with alarmCleared _ _ | outputsWritten _ _ => false | _ => true end.

Definition result_box (r : WaferResultReady) : ResultBox :=
  mkResultBox (result_wafer_id r)
    (q_fixed (q_fixed "%1 MPa  +/- %2" (double_of_bits (stress_mpa r)) 1) (double_of_bits (stress_unc_mpa r)) 2)
    (q_general "%1 /m" (double_of_bits (curvature_per_m r)) 4)
    (q_fixed "%1 um" (double_of_bits (fit_rms_um r)) 3)
    (if out_of_spec r then "OUT OF SPEC" else "in spec")
    (if out_of_spec r then "color: #b71c1c; font-weight: bold;" else "").

Definition slot (s : Signal) (p : Panel Color) : option (Panel Color) :=
  match s with
  | machineChanged => Some (refresh p)
  | progress percent => Some (on_window (set_progress_value (trunc_int undefined_int percent)) p)
  | scanStarted wafer =>
      Some (on_window (fun w =>
        set_results (mkResultBox wafer "-" "-" "-" "-" "")
          (set_progress_value 0 (set_map_view (map_clear (map_ w)) w))) p)
  | runAborted _ => Some (on_window (set_progress_value 0) p)
  | alarmSet alid name reason =>
      let text := q_arg (q_int "ALARM %1  %2: %3" alid) [name; reason] in
      Some (on_window (set_banner (mkBanner text text true)) p)
  | resultReady r => Some (on_window (set_results (result_box r)) p)
  | mapReady map edge =>
      v ← WaferMapWidget.set_map map edge (map_ (window p)); Some (on_window (set_map_view v) p)
  | logLines lines => Some (on_window (append_log lines) p)
  | alarmCleared _ _ | outputsWritten _ _ => Some p
  end.

(** ** Building the machine *)

(** [build_ui] and the constructor. *)
Definition built_ui : Window Color :=
  mkWindow (mkButtons true true true true true true true) "Process: Idle" 0 (mkBanner "" "" false) 0 new_map_widget
    dashes [] "".

Definition new_panel (ds : gset string) : Panel Color :=
  refresh (mkPanel None None default_config 0 built_ui [] [] [] None ds 0 []).

(** [MachineRuntime::create] without the link to the host. *)
Definition create (config : Config) (now_ns : Z) (p : Panel Color) : Result Machine * Panel Color :=
  let '(made, ds) :=
    create_run_dir mkdir_error (output_dir (output config)) (make_run_id now_ns) root_error (dirs p) in
  (let? run_dir := made in Ok (mkMachineRuntime (built p) new_api 0 run_dir EmptyString), set_dirs ds p).

(** [MainWindow::rebuild]; the first component is what it returns, empty for success. *)
Definition rebuild (config : Config) (now_ns : Z) (p : Panel Color) : string * Panel Color :=
  if 0 <? in_flight_ p then ("A command is still running."%string, p)
  else
    let p := on_window reset_views (set_runtime None (set_bridge None p)) in
    match create config now_ns p with
    | (Err e, p) => (message e, refresh p)
    | (Ok m, p) =>
        let p := set_config config (set_bridge (Some new_bridge) (set_runtime (Some m) (count_built p))) in
        (EmptyString,
         refresh (on_window (append_log [q_arg "machine ready, output in %1" [run_dir_ m]]) p))
    end.

(** ** Commands *)

Definition run_command (payload : CommandPayload) (p : Panel Color) : Panel Color :=
  match runtime_ p with
  | None => p
  | Some m => set_calls (in_flight_ p + 1) (running p ++ [mkCall payload (generation m)]) (finished p) p
  end.

Definition on_start (p : Panel Color) : Panel Color :=
  match runtime_ p with
  | None => p
  | Some m => run_command (StartCommand (next_wafer_id (wafers_started_ m)) 1) p
  end.
Definition on_stop : Panel Color -> Panel Color := run_command StopCommand.
Definition on_abort : Panel Color -> Panel Color := run_command AbortCommand.
Definition on_clear : Panel Color -> Panel Color := run_command ClearAlarmCommand.
Definition on_mode_changed (index : Z) : Panel Color -> Panel Color :=
  run_command (SetControlModeCommand (item_mode index)).

(** The handler of a finished command. *)
Definition on_finished (error : string) (rest : list string) (p : Panel Color) : Panel Color :=
  let p := set_calls (in_flight_ p - 1) (running p) rest p in
  refresh (if String.eqb error "" then p else on_window (show_message error) p).

(** [on_load_config] once a path was chosen, and [on_settings] once the dialog is accepted. *)
Definition load_config (path : string) (now_ns : Z) (p : Panel Color) : Panel Color :=
  match load_config_file read_file parse_json path with
  | Err e => on_window (show_message (message e)) p
  | Ok (config, warnings) =>
      let '(error, p) := rebuild config now_ns p in
      if String.eqb error "" then
        on_window (append_log (((fun w => q_arg "config warning: %1" [w]) <$> warnings) ++ [q_arg "loaded %1" [path]])) p
      else on_window (show_message error) p
  end.

Definition apply_settings (d : SettingsDialog) (now_ns : Z) (p : Panel Color) : Panel Color :=
  let '(error, p) := rebuild (dialog_config d) now_ns p in
  if String.eqb error "" then p else on_window (show_message error) p.

(** What [on_open_results] opens. *)
Definition opened_dir (p : Panel Color) : option string :=
  m ← runtime_ p;
  Some (if String.eqb (last_wafer_dir_ m) "" then run_dir_ m else last_wafer_dir_ m).

(** ** Events *)

(** The runtime's own subscriptions and the facade's, before the bridge's. *)
Definition machine_event (e : BusEvent) (m : Machine) : Machine :=
  match e with
  | core_event e =>
      mkMachineRuntime (generation m) (api_on_event e (api m))
        (match e with ScanStarted _ _ => count_wafer (wafers_started_ m) | _ => wafers_started_ m end)
        (run_dir_ m) (last_wafer_dir_ m)
  | _ => m
  end.

(** Events reach the bridge, and its signals the queue of the GUI thread. *)
Definition to_bridge (now : string) (es : list BusEvent) (p : Panel Color) : Panel Color :=
  match bridge_ p with
  | None => p
  | Some b =>
      let '(b, out) := on_events ((fun e => (now, e)) <$> es) b in
      record_events es (set_queued (queued p ++ filter (fun s => connected s = true) out) (set_bridge (Some b) p))
  end.

Definition published (acts : list Action) : list BusEvent :=
  omap (fun a => match a with publish e => Some (core_event e) | _ => None end) acts.

(** An item of the inbox, with the subscribers' part of what it publishes. *)
Definition take_item (i : ctl_input) (m : Machine) : Result ProcessState * Machine * list BusEvent :=
  let a := api m in
  let '(r, c, acts) := ctl_handle i (controller_ a) in
  let a := mkApi c (match i with in_command _ => wrap 64 (next_correlation_id_ a + 1) | _ => next_correlation_id_ a end)
             (progress_percent_ a) (last_result_ a) (performed a ++ acts) in
  (r, foldl (fun m e => machine_event e m)
        (mkMachineRuntime (generation m) a (wafers_started_ m) (run_dir_ m) (last_wafer_dir_ m)) (published acts),
   published acts).

(** ** Steps *)

Inductive Button := b_start | b_stop | b_abort | b_clear.

Definition enabled (b : Button) (w : Buttons) : bool :=
  match b with
  | b_start => start_enabled w | b_stop => stop_enabled w | b_abort => abort_enabled w | b_clear => clear_enabled w
  end.

Definition clicked (b : Button) : Panel Color -> Panel Color :=
  match b with b_start => on_start | b_stop => on_stop | b_abort => on_abort | b_clear => on_clear end.

Inductive panel_label :=
| p_machine (now : string) (i : ctl_input)
| p_publish (now : string) (e : BusEvent)
| p_wafer_dir (dir : string)
| p_execute (now : string) (k : nat)
| p_tick
| p_deliver
| p_finished
| p_click (b : Button)
| p_choose_mode (index : Z)
| p_open_load
| p_open_settings
| p_edit (f : SpinField) (v : double)
| p_pick (path : string) (now_ns : Z)
| p_ok (now_ns : Z)
| p_cancel.

(** Clicks reach a widget that is enabled, and no widget behind a modal dialog; the dialog's
    event loop delivers signals all the same. *)
Definition panel_step (l : panel_label) (p : Panel Color) : option (Panel Color) :=
  match l with
  | p_machine now i =>
      m ← runtime_ p;
      let '(_, m, es) := take_item i m in Some (to_bridge now es (set_runtime (Some m) p))
  | p_publish now e =>
      m ← runtime_ p; Some (to_bridge now [e] (set_runtime (Some (machine_event e m)) p))
  | p_wafer_dir dir =>
      m ← runtime_ p;
      Some (set_runtime (Some (mkMachineRuntime (generation m) (api m) (wafers_started_ m) (run_dir_ m) dir)) p)
  | p_execute now k =>
      c ← running p !! k;
      m ← runtime_ p;
      if bool_decide (call_machine c = generation m) then
        let '(r, m, es) := take_item (in_command (mkCommand (call_payload c) kUi (next_correlation_id_ (api m)))) m in
        Some (to_bridge now es
          (set_calls (in_flight_ p) (delete k (running p))
             (finished p ++ [match r with Ok _ => EmptyString | Err e => message e end]) (set_runtime (Some m) p)))
      else None
  | p_tick =>
      b ← bridge_ p;
      let '(b, out) := on_tick b in Some (set_queued (queued p ++ out) (set_bridge (Some b) p))
  | p_deliver =>
      match queued p with [] => None | s :: rest => slot s (set_queued rest p) end
  | p_finished =>
      match finished p with [] => None | error :: rest => Some (on_finished error rest p) end
  | p_click b =>
      if enabled b (buttons (window p)) && bool_decide (dialog p = None) then Some (clicked b p) else None
  | p_choose_mode index =>
      if mode_enabled (buttons (window p)) && bool_decide (dialog p = None) && bool_decide (0 <= index < 3)
      then Some (on_mode_changed index (on_window (set_mode_index index) p)) else None
  | p_open_load =>
      if load_enabled (buttons (window p)) && bool_decide (dialog p = None)
      then Some (set_dialog (Some file_dialog) p) else None
  | p_open_settings =>
      if settings_enabled (buttons (window p)) && bool_decide (dialog p = None)
      then Some (set_dialog (Some (settings_dialog (open_settings (config_ p)))) p) else None
  | p_edit f v =>
      match dialog p with
      | Some (settings_dialog d) => Some (set_dialog (Some (settings_dialog (edit_box f v d))) p)
      | _ => None
      end
  | p_pick path now_ns =>
      match dialog p with
      | Some file_dialog =>
          let p := set_dialog None p in
          Some (if String.eqb path "" then p else load_config path now_ns p)
      | _ => None
      end
  | p_ok now_ns =>
      match dialog p with
      | Some (settings_dialog d) =>
          Some (if settings_accept d then apply_settings d now_ns (set_dialog None p) else p)
      | _ => None
      end
  | p_cancel => match dialog p with Some _ => Some (set_dialog None p) | None => None end
  end.

Fixpoint panel_run (ls : list panel_label) (p : Panel Color) : option (Panel Color) :=
  match ls with
  | [] => Some p
  | l :: ls => panel_step l p ≫= panel_run ls
  end.

(** [MainWindow::~MainWindow]: the commands that run are not waited for. *)
Definition close_window (p : Panel Color) : Panel Color := set_runtime None (set_bridge None p).


(** A panel that can be reached: the program builds a machine, then anything happens. *)
Definition panel_reachable (p : Panel Color) : Prop :=
  exists ds config now_ns ls, panel_run ls (rebuild config now_ns (new_panel ds)).2 = Some p.

(** ** The machine's part *)

Lemma machine_event_controller e m : controller_ (api (machine_event e m)) = controller_ (api m) /\
  generation (machine_event e m) = generation m.
Proof. by destruct e as [[]| |]. Qed.

Lemma machine_events_controller es m :
  controller_ (api (foldl (fun m e => machine_event e m) m es)) = controller_ (api m) /\
  generation (foldl (fun m e => machine_event e m) m es) = generation m.
Proof.
  revert m. induction es as [|e es IH]; intros m; [done|]. cbn [foldl].
  destruct (IH (machine_event e m)) as [-> ->]. apply machine_event_controller.
Qed.

Lemma ctl_reachable_item i c : ctl_reachable c -> ctl_reachable (ctl_handle i c).1.2.
Proof.
  intros [ins <-]. exists (ins ++ [i]). generalize new_controller. induction ins as [|j ins IH]; intros c.
  - cbn [app ctl_run fst]. by destruct (ctl_handle i c) as [[? ?] ?].
  - cbn [app ctl_run]. destruct (ctl_handle j c) as [[r c1] acts1]. specialize (IH c1).
    destruct (ctl_run ins c1) as [c2 acts2]. destruct (ctl_run (ins ++ [i]) c1) as [c3 acts3]. exact IH.
Qed.

(** An event after which the panel reads the snapshot again. *)
Definition status_event (e : BusEvent) : bool :=
  match e with
  | core_event (StateChanged _ _) | core_event (ControlStateChanged _ _)
  | core_event (AlarmSet _ _ _) | core_event (AlarmCleared _ _) => true
  | _ => false
  end.

Lemma replay_quiet acts v v' : Forall (fun e => status_event e = false) (published acts) ->
  replay acts v = Some v' -> v_state v' = v_state v /\ v_mode v' = v_mode v.
Proof.
  revert v. induction acts as [|a acts IH]; intros v Hq; [by intros [= <-]|]. cbn [replay].
  destruct (view_action a v) as [v1|] eqn:E; [|done]. cbn [mbind option_bind]. intros Hr.
  assert (Hv : v_state v1 = v_state v /\ v_mode v1 = v_mode v).
  { destruct a as [e|w|]; cbn [published omap list_omap view_action] in *.
    - apply Forall_cons in Hq as [He _].
      destruct e; cbn [status_event view_event] in *; try done; try (by injection E as <-);
        case_bool_decide; simplify_eq; done.
    - case_match; by simplify_eq.
    - case_bool_decide; by simplify_eq. }
  destruct Hv as [<- <-]. apply IH; [|done]. destruct a; [|done..]. by apply Forall_cons in Hq as [_ Hq].
Qed.

(** An item that publishes no such event leaves what the rules look at as it was. *)
Lemma take_item_spec i m r m' es : take_item i m = (r, m', es) -> ctl_reachable (controller_ (api m)) ->
  ctl_reachable (controller_ (api m')) /\ generation m' = generation m /\
  (Forall (fun e => status_event e = false) es ->
     let c := controller_ (api m) in let c' := controller_ (api m') in
     state_ c' = state_ c /\ control_mode_ c' = control_mode_ c /\ has_active_alarm_ c' = has_active_alarm_ c).
Proof.
  unfold take_item. intros E Hr. pose proof (ctl_reachable_item i _ Hr) as Hr'.
  apply ctl_reachable_ok in Hr as Hok. destruct (ctl_handle_step i _ Hok) as [Hok' Hv].
  destruct (ctl_handle i (controller_ (api m))) as [[r0 c'] acts]. cbn [fst snd] in *.
  injection E as <- <- <-.
  destruct (machine_events_controller (published acts)
    (mkMachineRuntime (generation m)
       (mkApi c' (match i with in_command _ => wrap 64 (next_correlation_id_ (api m) + 1) | _ => next_correlation_id_ (api m) end)
          (progress_percent_ (api m)) (last_result_ (api m)) (performed (api m) ++ acts))
       (wafers_started_ m) (run_dir_ m) (last_wafer_dir_ m))) as [-> ->].
  cbn [api controller_ generation]. split_and!; try done. intros Hq. cbv zeta.
  destruct (replay_quiet acts _ _ Hq Hv) as [Hs Hm]. cbn [view_of v_state v_mode] in Hs, Hm.
  split_and!; [done..|]. rewrite (proj2 Hok), (proj2 Hok'). by rewrite Hs.
Qed.

(** ** What the window owes the machine *)

(** The window shows this state of the machine. While a command is under way the mode box may
    be ahead of it, and the menu behind. *)
Definition shows (runtime : option Machine) (in_flight : Z) (w : Window Color) : Prop :=
  match runtime with
  | None => buttons w = mkButtons false false false false false true true
  | Some m =>
      let c := controller_ (api m) in
      let rules := rules_for (state_ c) (control_mode_ c) (has_active_alarm_ c) in
      let b := buttons w in
      (start_enabled b = can_start rules /\ stop_enabled b = can_stop rules /\ abort_enabled b = can_abort rules /\
       clear_enabled b = can_clear_alarm rules /\ mode_enabled b = can_change_mode rules) /\
      process_label w = q_arg "Process: %1" [process_state_to_string (state_ c)] /\
      (if has_active_alarm_ c then alarm_text_ (banner w) <> ""%string -> banner_shown (banner w) = true
       else banner_shown (banner w) = false) /\
      (in_flight = 0 -> mode_index w = find_data (control_mode_ c) /\
         load_enabled b = can_change_mode rules /\ settings_enabled b = can_change_mode rules)
  end.

(** [P] holds once the signals are delivered: a refresh brings it about, an alarm's banner
    needs one to follow. *)
Fixpoint settles (q : list Signal) (P : Prop) : Prop :=
  match q with
  | [] => P
  | machineChanged :: q => settles q True
  | alarmSet _ _ _ :: q => settles q False
  | _ :: q => settles q P
  end.

Lemma settles_mono q : forall P P' : Prop, (P -> P') -> settles q P -> settles q P'.
Proof.
  induction q as [|s q IH]; intros P P' H; [exact H|]. destruct s; cbn [settles]; by apply IH.
Qed.

Lemma settles_app q q' P : settles (q ++ q') P = settles q' (settles q P).
Proof. revert P. induction q as [|s q IH]; intros P; [done|]. destruct s; cbn [settles app]; apply IH. Qed.

Definition wired (out : list Signal) : list Signal := filter (fun s => connected s = true) out.

Lemma settles_event e P : P \/ status_event e = true -> settles (wired (event_signals e)) P.
Proof. intros [H|H]; destruct e as [[]| |]; try done. Qed.

Lemma settles_events es : forall P, P \/ Exists (fun e => status_event e = true) es ->
  settles (wired (concat (map event_signals es))) P.
Proof.
  induction es as [|e es IH]; intros P; cbn [map concat]; [by intros [H|H%Exists_nil]|].
  unfold wired. rewrite filter_app, settles_app. intros [H|[H|H]%Exists_cons]; apply IH; [left|left|by right].
  - apply settles_event. by left.
  - apply settles_event. by right.
Qed.

Lemma on_events_signals now es b :
  (on_events ((fun e => (now, e)) <$> es) b).2 = concat (map event_signals es).
Proof.
  revert b. induction es as [|e es IH]; intros b; [done|]. cbn [fmap list_fmap on_events].
  unfold on_event. specialize (IH (match event_progress e with
    | Some p => set_progress p (match event_line e with Some line => add_log now line b | None => b end)
    | None => match event_line e with Some line => add_log now line b | None => b end end)).
  destruct (on_events _ _) as [b' out]. cbn [snd] in *. by rewrite IH.
Qed.

Lemma refresh_shows runtime n w : shows runtime n (refresh_window runtime n w).
Proof.
  destruct runtime as [m|]; [|done]. unfold refresh_window. cbn [snapshot process_state control_mode alarm_active].
  set (c := controller_ (api m)). set (w1 := set_process_label _ _).
  assert (Hw : forall i, shows (Some m) n
    (set_banner (if has_active_alarm_ c
       then mkBanner (alarm_text_ (banner w)) (banner_text (banner w))
              (negb (String.eqb (alarm_text_ (banner w)) "") || banner_shown (banner w))
       else mkBanner (alarm_text_ (banner w)) (banner_text (banner w)) false)
      (set_mode_index i w1)) <-> (n = 0 -> i = find_data (control_mode_ c))).
  { intros i. unfold shows. fold c. cbn. split; [intros (_ & _ & _ & H) E; by apply H|].
    intros Hi. split_and!; try done.
    - destruct (has_active_alarm_ c); [|done]. cbn. intros Ht. by apply String.eqb_neq in Ht as ->.
    - intros ->. split; [by apply Hi|]. cbn. by rewrite !andb_true_r. }
  assert (Hd : 0 <= find_data (control_mode_ c)) by (by destruct (control_mode_ c)).
  rewrite (proj2 (Z.leb_le _ _) Hd). cbn [andb]. destruct (Z.eqb_spec (find_data (control_mode_ c)) (mode_index w1)) as [E|E]; cbn [negb].
  - specialize (Hw (mode_index w1)). apply Hw. done.
  - apply Hw. done.
Qed.

(** Only these parts of the window matter. *)
Definition status_of (w : Window Color) := (buttons w, process_label w, mode_index w, banner w).

Lemma shows_status runtime n w w' : status_of w' = status_of w -> shows runtime n w -> shows runtime n w'.
Proof. unfold status_of. intros [= E1 E2 E3 E4]. unfold shows. by rewrite E1, E2, E3, E4. Qed.

Lemma shows_machine m m' n w :
  state_ (controller_ (api m')) = state_ (controller_ (api m)) ->
  control_mode_ (controller_ (api m')) = control_mode_ (controller_ (api m)) ->
  has_active_alarm_ (controller_ (api m')) = has_active_alarm_ (controller_ (api m)) ->
  shows (Some m) n w -> shows (Some m') n w.
Proof. intros E1 E2 E3. unfold shows. by rewrite E1, E2, E3. Qed.

Lemma shows_busy runtime n n' i w : n' <> 0 -> shows runtime n w -> shows runtime n' (set_mode_index i w).
Proof. intros Hn. destruct runtime as [m|]; [|done]. unfold shows. cbn. intuition. Qed.

Lemma set_mode_index_same (w : Window Color) : set_mode_index (mode_index w) w = w.
Proof. by destruct w. Qed.

(** ** The invariant *)

(** The numbers shown are those of one published result, under its wafer's name, or none. *)
Definition numbers_of (h : list BusEvent) (r : ResultBox) : Prop :=
  (exists wafer style, r = mkResultBox wafer "-" "-" "-" "-" style) \/
  (exists res, core_event (WaferResult res) ∈ h /\ r = result_box res).

Definition known_result (h : list BusEvent) (s : Signal) : Prop :=
  match s with resultReady r => core_event (WaferResult r) ∈ h | _ => True end.

Record panel_ok (p : Panel Color) : Prop := mkPanelOk {
  ok_bridge : is_Some (bridge_ p) <-> is_Some (runtime_ p);
  ok_machine : forall m, runtime_ p = Some m -> ctl_reachable (controller_ (api m)) /\ (generation m < built p)%nat;
  ok_calls : Forall (fun c => exists m, runtime_ p = Some m /\ call_machine c = generation m) (running p);
  ok_flight : in_flight_ p = Z.of_nat (length (running p) + length (finished p));
  ok_shows : settles (queued p) (shows (runtime_ p) (in_flight_ p) (window p));
  ok_results : numbers_of (history p) (results (window p));
  ok_queued : Forall (known_result (history p)) (queued p)
}.

Lemma numbers_of_more h h' r : numbers_of h r -> numbers_of (h ++ h') r.
Proof. intros [H|(res & Hin & ->)]; [by left|right]. exists res. split; [by apply elem_of_app; left|done]. Qed.

Lemma known_result_more h h' q : Forall (known_result h) q -> Forall (known_result (h ++ h')) q.
Proof.
  intros H. eapply Forall_impl; [exact H|]. intros [] Hk; try done. apply elem_of_app. by left.
Qed.

Lemma event_signals_known h es : Forall (known_result (h ++ es)) (wired (concat (map event_signals es))).
Proof.
  apply Forall_forall. intros s [_ Hs]%list_elem_of_filter.
  apply list_elem_of_In, in_concat in Hs as (l & Hl & Hs). apply in_map_iff in Hl as (e & <- & He).
  apply list_elem_of_In in He. destruct e as [[]| |]; cbn in Hs; intuition (subst; try done).
  cbn. apply elem_of_app. by right.
Qed.

(** Events on the way to the panel, from a machine that took a step. *)
Lemma to_bridge_ok now es p m m' :
  panel_ok p -> runtime_ p = Some m -> ctl_reachable (controller_ (api m')) -> generation m' = generation m ->
  (Forall (fun e => status_event e = false) es ->
     let c := controller_ (api m) in let c' := controller_ (api m') in
     state_ c' = state_ c /\ control_mode_ c' = control_mode_ c /\ has_active_alarm_ c' = has_active_alarm_ c) ->
  panel_ok (to_bridge now es (set_runtime (Some m') p)).
Proof.
  intros [Hb Hm Hc Hf Hs Hr Hq] Em Hreach Hg Hquiet. destruct (Hm m Em) as [_ Hlt].
  destruct (bridge_ p) as [b|] eqn:Eb; [|exfalso; rewrite Em in Hb; destruct Hb as [_ Hb]; by destruct Hb; eauto].
  unfold to_bridge. cbn [bridge_ set_runtime]. rewrite Eb.
  pose proof (on_events_signals now es b) as Hout. destruct (on_events _ b) as [b' out]. cbn [snd] in Hout. subst out.
  split; cbn [bridge_ runtime_ running finished in_flight_ queued window history built record_events set_queued set_bridge set_runtime].
  - by split.
  - intros m0 [= <-]. split; [done|]. by rewrite Hg.
  - eapply Forall_impl; [exact Hc|]. intros c (m0 & E0 & Ec). exists m'. split; [done|]. congruence.
  - done.
  - rewrite settles_app. apply settles_events.
    destruct (decide (Exists (fun e => status_event e = true) es)) as [He|He]; [by right|left].
    rewrite Em in Hs. eapply settles_mono; [|exact Hs].
    assert (Hall : Forall (fun e => status_event e = false) es).
    { apply Forall_forall. intros e Hin. destruct (status_event e) eqn:E; [|done]. exfalso. apply He, Exists_exists. eauto. }
    destruct (Hquiet Hall) as (? & ? & ?). by apply shows_machine.
  - by apply numbers_of_more.
  - apply Forall_app. split; [by apply known_result_more|apply event_signals_known].
Qed.

Lemma refresh_results runtime n (w : Window Color) : results (refresh_window runtime n w) = results w.
Proof. destruct runtime as [m|]; [|done]. unfold refresh_window. cbn [results set_banner]. by case_match. Qed.

Lemma refresh_ok p : panel_ok p -> panel_ok (refresh p).
Proof.
  intros [Hb Hm Hc Hf Hs Hr Hq]. split; try assumption.
  - eapply settles_mono; [|exact Hs]. intros _. apply refresh_shows.
  - cbn [refresh on_window set_window window history]. by rewrite refresh_results.
Qed.

(** A change of the window that refresh would not make. *)
Lemma on_window_ok f p : (forall w, status_of (f w) = status_of w) ->
  (numbers_of (history p) (results (window p)) -> numbers_of (history p) (results (f (window p)))) ->
  panel_ok p -> panel_ok (on_window f p).
Proof.
  intros Hst Hnum [Hb Hm Hc Hf Hs Hr Hq]. split; try assumption.
  - eapply settles_mono; [|exact Hs]. apply shows_status, Hst.
  - by apply Hnum.
Qed.

Lemma run_command_ok payload p : panel_ok p -> panel_ok (run_command payload p).
Proof.
  intros Hp. pose proof Hp as [Hb Hm Hc Hf Hs Hr Hq]. unfold run_command.
  destruct (runtime_ p) as [m|] eqn:Em; [|done].
  split; cbn [bridge_ runtime_ running finished in_flight_ queued window history built set_calls]; rewrite ?Em; try assumption.
  - apply Forall_app. split; [done|]. apply Forall_singleton. by exists m.
  - rewrite length_app. cbn [length]. lia.
  - eapply settles_mono; [|exact Hs]. intros H. rewrite <- (set_mode_index_same (window p)).
    eapply shows_busy; [|exact H]. lia.
Qed.

Lemma choose_mode_ok index payload p :
  panel_ok p -> panel_ok (run_command payload (on_window (set_mode_index index) p)).
Proof.
  intros Hp. pose proof Hp as [Hb Hm Hc Hf Hs Hr Hq]. unfold run_command. cbn [runtime_ on_window set_window].
  destruct (runtime_ p) as [m|] eqn:Em; split;
    cbn [bridge_ runtime_ running finished in_flight_ queued window history built set_calls on_window set_window];
    rewrite ?Em; try assumption.
  - apply Forall_app. split; [done|]. apply Forall_singleton. by exists m.
  - rewrite length_app. cbn [length]. lia.
  - eapply settles_mono; [|exact Hs]. apply shows_busy. lia.
Qed.

Lemma finished_ok error rest p : panel_ok p -> finished p = error :: rest -> panel_ok (on_finished error rest p).
Proof.
  intros [Hb Hm Hc Hf Hs Hr Hq] E. unfold on_finished. rewrite E in Hf. cbn [length] in Hf.
  assert (Hok : forall f, (forall w, results (f w) = results w) ->
    panel_ok (refresh (on_window f (set_calls (in_flight_ p - 1) (running p) rest p)))).
  { intros f Hres. split; cbn [bridge_ runtime_ running finished in_flight_ queued window history built set_calls on_window set_window refresh];
      try assumption; [lia| |].
    - eapply settles_mono; [|exact Hs]. intros _. apply refresh_shows.
    - by rewrite refresh_results, Hres. }
  case_match; [|by apply Hok]. specialize (Hok (fun w => w) ltac:(done)). unfold on_window in Hok.
  destruct p. exact Hok.
Qed.

Lemma rebuild_ok config now_ns p : panel_ok p -> panel_ok (rebuild config now_ns p).2.
Proof.
  intros Hp. pose proof Hp as [Hb Hm Hc Hf Hs Hr Hq]. unfold rebuild. destruct (Z.ltb_spec 0 (in_flight_ p)) as [|Hz]; [done|].
  assert (Hrun : running p = [] /\ finished p = []) by (destruct (running p), (finished p); cbn [length] in Hf; try lia; done).
  destruct Hrun as [Hrun Hfin]. unfold create. destruct (create_run_dir _ _ _ _ _) as [[run_dir|e] ds]; cbn [result_bind snd].
  - split; cbn [bridge_ runtime_ running finished in_flight_ queued window history built set_calls on_window set_window refresh
      set_config set_bridge set_runtime count_built set_dirs append_log results generation]; rewrite ?Hrun, ?Hfin in *; try done.
    + intros m [= <-]. split; [by exists []|]. cbn [generation]. lia.
    + eapply settles_mono; [|exact Hs]. intros _. apply refresh_shows.
    + left. rewrite refresh_results. cbn. eauto.
  - split; cbn [bridge_ runtime_ running finished in_flight_ queued window history built set_calls on_window set_window refresh
      set_config set_bridge set_runtime count_built set_dirs append_log results generation]; rewrite ?Hrun, ?Hfin in *; try done.
    + eapply settles_mono; [|exact Hs]. intros _. apply refresh_shows.
    + left. rewrite refresh_results. cbn. eauto.
Qed.

Lemma slot_ok s rest p p' : panel_ok p -> queued p = s :: rest -> slot s (set_queued rest p) = Some p' -> panel_ok p'.
Proof.
  intros [Hb Hm Hc Hf Hs Hr Hq] E. rewrite E in Hs, Hq. apply Forall_cons in Hq as [Hk Hq].
  assert (Hnew : forall w, settles rest (shows (runtime_ p) (in_flight_ p) w) -> numbers_of (history p) (results w) ->
    panel_ok (set_window w (set_queued rest p))) by (intros w H1 H2; by split).
  assert (Hkeep : forall f : Window Color -> Window Color, settles rest (shows (runtime_ p) (in_flight_ p) (window p)) ->
    status_of (f (window p)) = status_of (window p) ->
    numbers_of (history p) (results (f (window p))) -> panel_ok (set_window (f (window p)) (set_queued rest p))).
  { intros f H1 H2 H3. apply Hnew; [|done]. eapply settles_mono; [|exact H1]. by apply shows_status. }
  destruct s; cbn [slot settles] in *; try (intros [= <-]).
  - apply Hnew; [|by rewrite refresh_results]. eapply settles_mono; [|exact Hs]. intros _. apply refresh_shows.
  - apply Hnew; [|done]. by eapply settles_mono; [|exact Hs].
  - by destruct p; split.
  - apply (Hkeep (set_results (result_box r))); [done..|]. right. by exists r.
  - destruct (WaferMapWidget.set_map _ _ _) as [v|]; [|done]. cbn [mbind option_bind]. intros [= <-].
    by apply (Hkeep (set_map_view v)).
  - by destruct p; split.
  - apply (Hkeep (fun w => set_results (mkResultBox wafer_id "-" "-" "-" "-" "")
      (set_progress_value 0 (set_map_view (map_clear (map_ w)) w)))); [done..|]. left. cbn. eauto.
  - by apply (Hkeep (set_progress_value 0)).
  - by apply (Hkeep (set_progress_value (trunc_int undefined_int percent))).
  - by apply (Hkeep (append_log lines)).
Qed.

Lemma message_ok s p : panel_ok p -> panel_ok (on_window (show_message s) p).
Proof. by apply on_window_ok. Qed.

Lemma dialog_ok d p : panel_ok p -> panel_ok (set_dialog d p).
Proof. intros [Hb Hm Hc Hf Hs Hr Hq]. by split. Qed.

Lemma load_config_ok path now_ns p : panel_ok p -> panel_ok (load_config path now_ns p).
Proof.
  intros Hp. unfold load_config. destruct (load_config_file _ _ _) as [[config warnings]|e]; [|by apply message_ok].
  pose proof (rebuild_ok config now_ns p Hp) as Hr. destruct (rebuild config now_ns p) as [error p1].
  case_match; [by apply on_window_ok|by apply message_ok].
Qed.

Lemma apply_settings_ok d now_ns p : panel_ok p -> panel_ok (apply_settings d now_ns p).
Proof.
  intros Hp. unfold apply_settings.
  pose proof (rebuild_ok (dialog_config d) now_ns p Hp) as Hr. destruct (rebuild (dialog_config d) now_ns p) as [error p1].
  case_match; [done|by apply message_ok].
Qed.

Lemma clicked_ok b p : panel_ok p -> panel_ok (clicked b p).
Proof.
  intros Hp. destruct b; cbn [clicked]; unfold on_start, on_stop, on_abort, on_clear; try by apply run_command_ok.
  destruct (runtime_ p); [by apply run_command_ok|done].
Qed.

(** A command that gets its turn is no longer running, and its result waits. *)
Lemma set_calls_ok k c error p : panel_ok p -> running p !! k = Some c ->
  panel_ok (set_calls (in_flight_ p) (delete k (running p)) (finished p ++ [error]) p).
Proof.
  intros [Hb Hm Hc Hf Hs Hr Hq] Hk. split; cbn [bridge_ runtime_ running finished in_flight_ queued window history built set_calls]; try assumption.
  - by apply Forall_delete.
  - rewrite length_app. rewrite length_delete by (by eexists). apply lookup_lt_Some in Hk. cbn [length]. lia.
Qed.

Lemma tick_ok b p : panel_ok p -> bridge_ p = Some b ->
  panel_ok (set_queued (queued p ++ (on_tick b).2) (set_bridge (Some (on_tick b).1) p)).
Proof.
  intros [Hb Hm Hc Hf Hs Hr Hq] E. split; cbn [bridge_ runtime_ running finished in_flight_ queued window history built set_queued set_bridge]; try assumption.
  - rewrite <- Hb, E. by split; intros _; eexists.
  - rewrite settles_app. unfold on_tick. cbn [snd]. by destruct (progress_dirty_ b), (pending_log_ b).
  - apply Forall_app. split; [done|]. unfold on_tick. cbn [snd].
    destruct (progress_dirty_ b), (pending_log_ b); repeat constructor.
Qed.

Lemma same_machine_ok p m m' : panel_ok p -> runtime_ p = Some m -> api m' = api m -> generation m' = generation m ->
  panel_ok (set_runtime (Some m') p).
Proof.
  intros [Hb Hm Hc Hf Hs Hr Hq] Em Ea Eg. rewrite Em in *.
  split; cbn [bridge_ runtime_ running finished in_flight_ queued window history built set_runtime]; try assumption.
  - rewrite Hb. by split; intros _; eexists.
  - intros m0 [= <-]. rewrite Ea, Eg. by apply Hm.
  - eapply Forall_impl; [exact Hc|]. intros c (m0 & [= <-] & E). exists m'. by rewrite Eg.
  - eapply settles_mono; [|exact Hs]. by apply shows_machine; rewrite Ea.
Qed.

Lemma panel_step_ok l p p' : panel_ok p -> panel_step l p = Some p' -> panel_ok p'.
Proof.
  intros Hp. pose proof Hp as [Hb Hm Hc Hf Hs Hr Hq]. destruct l; cbn [panel_step].
  - destruct (runtime_ p) as [m|] eqn:Em; [|done]. cbn [mbind option_bind]. destruct (take_item i m) as [[r m'] es] eqn:E.
    intros [= <-]. destruct (take_item_spec i m r m' es E (proj1 (Hm m eq_refl))) as (? & ? & ?).
    by eapply to_bridge_ok.
  - destruct (runtime_ p) as [m|] eqn:Em; [|done]. cbn [mbind option_bind]. intros [= <-].
    destruct (machine_event_controller e m) as [Hctl Hg]. apply (to_bridge_ok now [e] p m); try done.
    + rewrite Hctl. by apply Hm.
    + intros _. by rewrite Hctl.
  - destruct (runtime_ p) as [m|] eqn:Em; [|done]. cbn [mbind option_bind]. intros [= <-].
    by apply (same_machine_ok p m).
  - destruct (running p !! k) as [c|] eqn:Ek; [|done]. destruct (runtime_ p) as [m|] eqn:Em; [|done].
    cbn [mbind option_bind]. case_bool_decide; [|done].
    destruct (take_item _ m) as [[r m'] es] eqn:E. intros [= <-].
    destruct (take_item_spec _ m r m' es E (proj1 (Hm m eq_refl))) as (? & ? & ?).
    pose proof (set_calls_ok k c (match r with Ok _ => EmptyString | Err e => message e end) p Hp Ek) as Hp'.
    by apply (to_bridge_ok now es _ m m' Hp').
  - destruct (bridge_ p) as [b|] eqn:Eb; [|done]. cbn [mbind option_bind]. pose proof (tick_ok b p Hp Eb) as Ht.
    destruct (on_tick b) as [b' out]. by intros [= <-].
  - destruct (queued p) as [|s rest] eqn:E; [done|]. by apply slot_ok.
  - destruct (finished p) as [|error rest] eqn:E; [done|]. intros [= <-]. by apply finished_ok.
  - case_match; [|done]. intros [= <-]. by apply clicked_ok.
  - case_match; [|done]. intros [= <-]. by apply choose_mode_ok.
  - case_match; [|done]. intros [= <-]. by apply dialog_ok.
  - case_match; [|done]. intros [= <-]. by apply dialog_ok.
  - destruct (dialog p) as [[]|]; try done. intros [= <-]. by apply dialog_ok.
  - destruct (dialog p) as [[]|]; try done. intros [= <-]. pose proof (dialog_ok None p Hp).
    case_match; [done|by apply load_config_ok].
  - destruct (dialog p) as [[]|]; try done. intros [= <-]. case_match; [|done]. by apply apply_settings_ok, dialog_ok.
  - destruct (dialog p) as [d|]; [|done]. intros [= <-]. by apply dialog_ok.
Qed.

Lemma new_panel_ok ds : panel_ok (new_panel ds).
Proof.
  split; cbn; try done. left. by eexists _, _.
Qed.

Lemma panel_reachable_ok p : panel_reachable p -> panel_ok p.
Proof.
  intros (ds & config & now_ns & ls & Hrun). pose proof (rebuild_ok config now_ns _ (new_panel_ok ds)) as H0.
  revert H0 Hrun. generalize (rebuild config now_ns (new_panel ds)).2. induction ls as [|l ls IH]; intros q Hq Hrun.
  - by injection Hrun as <-.
  - cbn [panel_run] in Hrun. destruct (panel_step l q) as [q'|] eqn:E; [|done]. eapply IH; [|exact Hrun]. by eapply panel_step_ok.
Qed.

(** ** Delivery *)

(** A map that can be drawn. *)
Definition drawable (s : Signal) : Prop :=
  match s with
  | mapReady (Some map) _ => Z.of_nat (length (heights_m map)) = map_width map * map_height map
  | _ => True
  end.

(** A slot changes nothing but the window. *)
Lemma slot_window s p : drawable s -> exists w, slot s p = Some (set_window w p).
Proof.
  destruct p. destruct s as [| | | |[map|] edge| | | | |]; cbn [slot drawable]; intros Hd; try (by eexists).
  - destruct (set_map_total map edge (map_ (window (Color := Color) (mkPanel runtime_0 bridge_0 config_0 in_flight_0 window0
      queued0 running0 finished0 dialog0 dirs0 built0 history0))) Hd) as [v ->]. by eexists.
Qed.

Lemma deliver_all q : forall p, queued p = q -> Forall drawable q ->
  exists w, panel_run (replicate (length q) p_deliver) p = Some (set_window w (set_queued [] p)).
Proof.
  induction q as [|s q IH]; intros p E Hq.
  - exists (window p). destruct p. cbn in *. by subst.
  - apply Forall_cons in Hq as [Hs Hq]. cbn [length replicate panel_run panel_step]. rewrite E.
    destruct (slot_window s (set_queued q p) Hs) as [w ->]. cbn [mbind option_bind].
    destruct (IH (set_window w (set_queued q p)) eq_refl Hq) as [w' ->]. exists w'. by destruct p.
Qed.

Lemma panel_run_ok ls : forall p p', panel_ok p -> panel_run ls p = Some p' -> panel_ok p'.
Proof.
  induction ls as [|l ls IH]; intros p p' Hp; cbn [panel_run]; [by intros [= <-]|].
  destruct (panel_step l p) as [q|] eqn:E; [|done]. apply IH. by eapply panel_step_ok.
Qed.


(** [C31] No command meets a machine that is gone: in every panel that can be reached, each command
    handed to a worker thread and not yet run refers to the machine that is there, and can be
    run on it; the count of commands under way is exact, and while it is not zero the machine
    is not rebuilt. *)
Theorem commands_reach_live_machine p :
  panel_reachable p ->
  in_flight_ p = Z.of_nat (length (running p) + length (finished p)) /\
  (forall k now, (k < length (running p))%nat ->
     exists c m, running p !! k = Some c /\ runtime_ p = Some m /\ call_machine c = generation m /\
       is_Some (panel_step (p_execute now k) p)) /\
  (forall config now_ns, 0 < in_flight_ p -> rebuild config now_ns p = ("A command is still running."%string, p)) /\
  (in_flight_ p <= 0 -> running p = [] /\ finished p = []).
Proof.
  intros Hr%panel_reachable_ok. pose proof Hr as [Hb Hm Hc Hf Hs Hn Hq]. split_and!; [done|..].
  - intros k now Hk. destruct (lookup_lt_is_Some_2 _ _ Hk) as [c Ec]. rewrite Forall_lookup in Hc.
    destruct (Hc k c Ec) as (m & Em & Eg). exists c, m. split_and!; [done..|]. cbn [panel_step]. rewrite Ec, Em.
    cbn [mbind option_bind]. rewrite bool_decide_eq_true_2 by done. destruct (take_item _ m) as [[? ?] ?]. by eexists.
  - intros config now_ns Hpos. unfold rebuild. by rewrite (proj2 (Z.ltb_lt _ _)).
  - intros Hle. by destruct (running p), (finished p); cbn [length] in Hf; try lia.
Qed.

End panel.

(** ** Runs of the panel *)

#[local] Existing Instance ascending_order.

Definition sample_colour : Type := option (double * double * double).

Definition sample_start : Panel sample_colour :=
  (rebuild (fun _ => None) None default_config 951827696789000000 (new_panel ∅)).2.

Definition sample_step := panel_step (Color := sample_colour) (J := value_json) (fun _ => None)
  (fun _ => Err (mkError 0 "no document")) (fun _ => None) None 0.
Definition sample_run (ls : list panel_label) : option (Panel sample_colour) :=
  panel_run (Color := sample_colour) (J := value_json) (fun _ => None)
    (fun _ => Err (mkError 0 "no document")) (fun _ => None) None 0 ls sample_start.

Definition sample_panel (ls : list panel_label) : Panel sample_colour := default sample_start (sample_run ls).

Lemma sample_reachable ls p : sample_run ls = Some p ->
  panel_reachable (Color := sample_colour) (J := value_json) (fun _ => None)
    (fun _ => Err (mkError 0 "no document")) (fun _ => None) None 0 p.
Proof. intros H. exists ∅, default_config, 951827696789000000, ls. exact H. Qed.

Definition started : list panel_label := [p_click b_start; p_execute "1 " 0; p_finished].

Definition sample_deliver (p : Panel sample_colour) : option (Panel sample_colour) :=
  panel_run (Color := sample_colour) (J := value_json) (fun _ => None)
    (fun _ => Err (mkError 0 "no document")) (fun _ => None) None 0 (replicate (length (queued p)) p_deliver) p.


Lemma commands_reach_live_machine_witness :
  let p := sample_panel [p_click b_start] in
  in_flight_ p = 1 /\ exists c m, running p !! 0%nat = Some c /\ runtime_ p = Some m /\ call_machine c = generation m.
Proof.
  intros p. assert (Hr : sample_run [p_click b_start] = Some p) by (vm_compute; reflexivity).
  destruct (commands_reach_live_machine (Color := sample_colour) (J := value_json) (fun _ => None)
    (fun _ => Err (mkError 0 "no document")) (fun _ => None) None 0 p (sample_reachable _ p Hr)) as (Hf & Hk & _).
  split.
  - vm_compute. reflexivity.
  - destruct (Hk 0%nat EmptyString ltac:(vm_compute; lia)) as (c & m & H1 & H2 & H3 & _). exists c, m. split_and!; assumption.
Defined.

(** What the tests below look at: the machine's state and generation, and its last result. *)
Definition machine_seen (p : Panel sample_colour) : option (ProcessState * nat * bool) :=
  m ← runtime_ p; Some (state_ (controller_ (api m)), generation m, bool_decide (is_Some (last_result_ (api m)))).

Definition ends_as {A} (ls : list panel_label) (f : Panel sample_colour -> A) : option A := f <$> sample_run ls.

(** [rebuild] is meant for an idle machine. The menu stays open while a command is on its way:
    with the dialog opened in time, OK takes a scanning machine down. *)
Lemma rebuild_while_scanning :
  let ls := [p_click b_start; p_open_settings; p_execute "1 " 0; p_finished] in
  ends_as ls machine_seen = Some (Some (kScanning, 0%nat, false)) /\
  ends_as (ls ++ [p_ok 0]) machine_seen = Some (Some (kIdle, 1%nat, false)).
Proof. vm_compute. done. Qed.

(** And the menu is open while the machine is in Alarm, where the rules let the mode change. *)
Lemma rebuild_in_alarm :
  let ls := started ++ [p_machine "2 " (in_fault kSensorDropout "gap"); p_deliver; p_deliver; p_deliver; p_deliver; p_deliver] in
  ends_as ls (fun p => (machine_seen p, load_enabled (buttons (window p)), queued p)) =
    Some (Some (kAlarm, 0%nat, false), true, []) /\
  ends_as (ls ++ [p_open_settings; p_ok 0]) machine_seen = Some (Some (kIdle, 1%nat, false)).
Proof. vm_compute. done. Qed.

Definition sample_result : WaferResultReady := mkWaferResult "W001" 1 0 0 0 0 false.
Definition sample_map : BusEvent := WaferMapReady "W001" (mkWaferMap 1 1 dzero dzero [dzero]) dzero.

(** A map names no wafer: one published after the next wafer was started is shown under that
    wafer's name, though the panel clears the map at its start. *)
Lemma map_of_previous_wafer :
  ends_as
    (started ++ [p_deliver; p_deliver; p_machine "2 " (in_scan_complete "W001");
       p_machine "3 " (in_result false 0 None "" false); p_deliver; p_deliver;
       p_publish "4 " (core_event (WaferResult sample_result));
       p_click b_start; p_execute "5 " 0; p_publish "6 " sample_map;
       p_deliver; p_deliver; p_deliver; p_deliver])
    (fun p => (wafer_value (results (window p)), bool_decide (image_ (map_ (window p)) = None), queued p)) =
  Some ("W002"%string, false, []).
Proof. vm_compute. done. Qed.

(** Signals already posted outlive the machine they came from: a result of the old machine is
    shown beside a new one that has none. *)
Lemma result_outlives_machine :
  ends_as [p_open_settings; p_publish "1 " (core_event (WaferResult sample_result)); p_ok 0; p_deliver]
    (fun p => (wafer_value (results (window p)), machine_seen p)) =
  Some ("W001"%string, Some (kIdle, 1%nat, false)).
Proof. vm_compute. done. Qed.

(** Closing the window does not wait for a command under way, whose machine goes. *)
Lemma close_while_running :
  ends_as [p_click b_start] (fun p => let p := close_window p in (length (running p), bool_decide (runtime_ p = None))) =
  Some (1%nat, true).
Proof. vm_compute. done. Qed.
