(* ===== verification/CliArguments.v ===== *)
(** * The command line of equipment_cli

    src/app_cli/main.cpp, [CliOptions] and [parse_args], with the conversions of the C++
    library they call: [std::stoi], [std::stoull] and [std::stod]. *)

From stdpp Require Import strings.
From S2P Require Import CLibrary NumberText Prelude.

(** ** Conversions that throw *)

Inductive Converted (A : Type) := converted (a : A) | threw (what : string).
Arguments converted {A}. Arguments threw {A}.

(** A decimal number after white space and a sign; what follows it is ignored. *)
Definition decimal_integer (w : string) : option (bool * Z) :=
  let s := skip_space (c_str w) in
  let '(neg, s) := read_sign s in
  let '(v, rest) := read_digits 10 0 s in
  if bool_decide (rest = s) then None else Some (neg, v).

Definition std_stoi (w : string) : Converted Z :=
  match decimal_integer w with
  | None => threw "std::invalid_argument: stoi"
  | Some (neg, v) =>
      let z := if neg then - v else v in
      if bool_decide (sint_ok 32 z) then converted z else threw "std::out_of_range: stoi"
  end.

(** A minus sign negates modulo 2^64. *)
Definition std_stoull (w : string) : Converted Z :=
  match decimal_integer w with
  | None => threw "std::invalid_argument: stoull"
  | Some (neg, v) =>
      if v <? 2 ^ 64 then converted (wrap 64 (if neg then - v else v))
      else threw "std::out_of_range: stoull"
  end.

Definition std_stod (w : string) : Converted double :=
  match strtod w with
  | None => threw "std::invalid_argument: stod"
  | Some (x, erange, _) => if erange : bool then threw "std::out_of_range: stod" else converted x
  end.

(** ** Options *)

Record CliOptions := mkOptions {
  opt_config_path : option string;
  opt_port : option Z;
  opt_seed : option Z;
  opt_rtf : option double;
  opt_out_dir : option string;
  opt_scenario : option string;
  opt_demo : bool;
  opt_serve : bool;
  opt_control : option string
}.

Definition no_options : CliOptions := mkOptions None None None None None None false false None.

(** What one argument, with its value, sets. *)
Inductive Setting :=
| set_demo
| set_serve
| set_control (mode : string)
| set_config (path : string)
| set_port (port : Z)
| set_seed (seed : Z)
| set_rtf (factor : double)
| set_out (dir : string)
| set_scenario (name : string).

Definition apply_setting (o : CliOptions) (s : Setting) : CliOptions :=
  let '(mkOptions config port seed rtf out scenario demo serve control) := o in
  match s with
  | set_demo => mkOptions config port seed rtf out scenario true serve control
  | set_serve => mkOptions config port seed rtf out scenario demo true control
  | set_control mode => mkOptions config port seed rtf out scenario demo serve (Some mode)
  | set_config path => mkOptions (Some path) port seed rtf out scenario demo serve control
  | set_port port => mkOptions config (Some port) seed rtf out scenario demo serve control
  | set_seed seed => mkOptions config port (Some seed) rtf out scenario demo serve control
  | set_rtf rtf => mkOptions config port seed (Some rtf) out scenario demo serve control
  | set_out dir => mkOptions config port seed rtf (Some dir) scenario demo serve control
  | set_scenario name => mkOptions config port seed rtf out (Some name) demo serve control
  end.

(** What an argument that takes a value makes of it. *)
Definition value_setting (arg value : string) : option (Converted Setting) :=
  let number {A} (f : A -> Setting) (c : Converted A) :=
    Some (match c with converted a => converted (f a) | threw what => threw what end) in
  if String.eqb arg "--control" then Some (converted (set_control value))
  else if String.eqb arg "--config" then Some (converted (set_config value))
  else if String.eqb arg "--port" then number set_port (std_stoi value)
  else if String.eqb arg "--seed" then number set_seed (std_stoull value)
  else if String.eqb arg "--rtf" then number set_rtf (std_stod value)
  else if String.eqb arg "--out" then Some (converted (set_out value))
  else if String.eqb arg "--scenario" then Some (converted (set_scenario value))
  else None.

(** [bad_usage]: the empty result, with what was printed before; [uncaught]: an exception
    leaves [main]. *)
Inductive Parsed :=
| parsed (o : CliOptions)
| bad_usage (err : list string)
| uncaught (what : string).

Fixpoint parse_from (args : list string) (o : CliOptions) : Parsed :=
  match args with
  | [] => parsed o
  | arg :: args =>
      if String.eqb arg "demo" then parse_from args (apply_setting o set_demo)
      else if String.eqb arg "serve" then parse_from args (apply_setting o set_serve)
      else
        match args with
        | [] =>
            match value_setting arg EmptyString with
            | Some _ => bad_usage []
            | None => bad_usage ["unrecognized argument: " +:+ arg]
            end
        | value :: args =>
            match value_setting arg value with
            | None => bad_usage ["unrecognized argument: " +:+ arg]
            | Some (converted s) => parse_from args (apply_setting o s)
            | Some (threw what) => uncaught what
            end
        end
  end.

(** [argv] without the name of the program. *)
Definition parse_args (argv : list string) : Parsed := parse_from argv no_options.

(** ** A command line and what is read from it *)

(** The arguments that ask for a setting. *)
Definition words (s : Setting) : list string :=
  match s with
  | set_demo => ["demo"]
  | set_serve => ["serve"]
  | set_control mode => ["--control"; mode]
  | set_config path => ["--config"; path]
  | set_port port => ["--port"; pretty port]
  | set_seed seed => ["--seed"; pretty seed]
  | set_rtf factor => ["--rtf"; show_double factor]
  | set_out dir => ["--out"; dir]
  | set_scenario name => ["--scenario"; name]
  end.

(** The numbers an argument can carry. *)
Definition setting_ok (s : Setting) : Prop :=
  match s with
  | set_port port => sint_ok 32 port
  | set_seed seed => uint_ok 64 seed
  | set_rtf factor => valid_binary prec64 emax64 factor = true
  | _ => True
  end.

Lemma decimal_digits (n : N) (neg : bool) (s : string) :
  s = (if neg then String "-" (pretty n) else (pretty n : string)) -> decimal_integer s = Some (neg, Z.of_N n).
Proof.
  intros Hs. pose proof (pretty_N_digits n) as Hd.
  assert (Hcs : c_str s = s).
  { apply digits_not_nul in Hd. destruct neg; subst; apply c_str_all; [|done]. by apply andb_true_intro. }
  assert (exists d t, pretty n = String d t /\ isdigit d = true) as (d & t & Ht & Hc).
  { destruct (decide (n = 0)%N) as [->|Hn]; [by eexists _, _|].
    destruct (pretty_head n) as (d & t & _ & Ht); [lia|].
    exists (pretty_N_char d), t. split; [done|apply isdigit_pretty_N_char]. }
  assert (Hread : decimal_integer s =
    let '(v, rest) := read_digits 10 0 (pretty n) in if bool_decide (rest = pretty n) then None else Some (neg, v)).
  { unfold decimal_integer. rewrite Hcs, Ht in *. destruct neg; subst.
    - by rewrite skip_space_stops.
    - rewrite skip_space_stops by (simpl; by rewrite isdigit_not_space).
      apply isdigit_range in Hc. unfold read_sign.
      rewrite !bool_decide_eq_false_2; [done|intros H; rewrite H in Hc; vm_compute in Hc; by destruct Hc..]. }
  rewrite Hread. destruct (read_pretty n 0 EmptyString eq_refl) as (k & _ & H).
  rewrite string_app_nil_r in H. rewrite H, bool_decide_eq_false_2 by (by rewrite Ht). f_equal.
Qed.

Lemma decimal_pretty (v : Z) : exists neg n, decimal_integer (pretty v) = Some (neg, n) /\ 0 <= n /\
  (if neg : bool then - n else n) = v /\ (0 <= v -> neg = false).
Proof.
  destruct (Z.lt_ge_cases v 0).
  - exists true, (- v). rewrite pretty_Z_neg, (decimal_digits (Z.to_N (- v)) true) by done.
    rewrite Z2N.id by lia. split_and!; [done|lia|lia|lia].
  - exists false, v. rewrite pretty_Z_nonneg, (decimal_digits (Z.to_N v) false) by done.
    rewrite Z2N.id by done. by split_and!.
Qed.

Lemma stoi_pretty v : sint_ok 32 v -> std_stoi (pretty v) = converted v.
Proof.
  intros Hv. unfold std_stoi. destruct (decimal_pretty v) as (neg & n & -> & _ & -> & _).
  by rewrite bool_decide_true.
Qed.

Lemma stoull_pretty v : uint_ok 64 v -> std_stoull (pretty v) = converted v.
Proof.
  intros Hv. unfold std_stoull. destruct (decimal_pretty v) as (neg & n & -> & Hn & E & Hneg).
  rewrite Hneg in * by int_lia. subst n. rewrite (proj2 (Z.ltb_lt _ _)) by int_lia. by rewrite wrap_id.
Qed.

Lemma stod_show x : valid_binary prec64 emax64 x = true -> std_stod (show_double x) = converted x.
Proof. intros Hx. unfold std_stod. by rewrite strtod_show. Qed.

Lemma parse_words s rest o : setting_ok s ->
  parse_from (words s ++ rest) o = parse_from rest (apply_setting o s).
Proof.
  intros Hs. destruct s as [| |m|p|n|n|x|d|n]; cbn [words app]; try done;
    cbn [parse_from String.eqb Ascii.eqb Bool.eqb value_setting]; unfold value_setting;
    cbn [String.eqb Ascii.eqb Bool.eqb].
  - by rewrite stoi_pretty.
  - by rewrite stoull_pretty.
  - by rewrite stod_show.
Qed.

Lemma parse_settings settings rest o : Forall setting_ok settings ->
  parse_from (concat (map words settings) ++ rest) o = parse_from rest (foldl apply_setting o settings).
Proof.
  intros Hall. revert o. induction Hall as [|s l Hs _ IH]; intros o; [done|].
  cbn [map concat foldl]. by rewrite <- app_assoc, parse_words.
Qed.

(** What is converted is in range. *)
Lemma value_setting_ok arg value s : value_setting arg value = Some (converted s) -> setting_ok s.
Proof.
  unfold value_setting, std_stoi, std_stoull, std_stod. intros H.
  repeat case_match; simplify_eq; simpl; try done;
    first [by eapply bool_decide_eq_true|apply wrap_range; lia|by eapply strtod_valid].
Qed.

Lemma parse_from_settings argv : forall o o', parse_from argv o = parsed o' ->
  exists settings, Forall setting_ok settings /\ o' = foldl apply_setting o settings.
Proof.
  induction argv as [argv IH] using (well_founded_induction (Wf_nat.well_founded_ltof _ (@length string))).
  unfold Wf_nat.ltof in IH. intros o o' H. destruct argv as [|arg argv]; cbn [parse_from] in H.
  { injection H as <-. by exists []. }
  assert (Hmore : forall s rest, (length rest <= length argv)%nat -> setting_ok s ->
    parse_from rest (apply_setting o s) = parsed o' ->
    exists settings, Forall setting_ok settings /\ o' = foldl apply_setting o settings).
  { intros s rest Hlen Hs Hp. apply IH in Hp as (l & Hl & ->); [|simpl; lia].
    exists (s :: l). split; [by constructor|done]. }
  destruct (String.eqb arg "demo"); [by eapply (Hmore set_demo)|].
  destruct (String.eqb arg "serve"); [by eapply (Hmore set_serve)|].
  destruct argv as [|value argv]; [by case_match|].
  destruct (value_setting arg value) as [[s|w]|] eqn:E; [|done..].
  eapply (Hmore s argv); [simpl; lia|by eapply value_setting_ok|done].
Qed.

(** Reading a command line: the options given in any order, the last of each kind
    winning, are read back, with every port an [int] can hold, every 64-bit seed and every
    floating-point factor to the bit; a flag whose value is missing and an argument that is
    not known give the usage text, wherever they come; and whatever is read from any command
    line comes from settings whose numbers are in the range of their types. *)
Theorem arguments_read settings : Forall setting_ok settings ->
  let argv := concat (map words settings) in
  parse_args argv = parsed (foldl apply_setting no_options settings) /\
  (forall flag, flag ∈ ["--control"; "--config"; "--port"; "--seed"; "--rtf"; "--out"; "--scenario"] ->
     parse_args (argv ++ [flag]) = bad_usage []) /\
  (forall other rest, other ∉ ["demo"; "serve"; "--control"; "--config"; "--port"; "--seed"; "--rtf"; "--out"; "--scenario"] ->
     parse_args (argv ++ other :: rest) = bad_usage ["unrecognized argument: " +:+ other]) /\
  (forall argv' o, parse_args argv' = parsed o ->
     exists settings', Forall setting_ok settings' /\ o = foldl apply_setting no_options settings').
Proof.
  intros Hall argv. unfold parse_args. split_and!.
  - rewrite <- (app_nil_r argv). by apply parse_settings.
  - intros flag Hf. unfold argv. rewrite parse_settings by done.
    repeat (apply elem_of_cons in Hf as [->|Hf]; [reflexivity|]). by apply elem_of_nil in Hf.
  - intros other rest Ho. unfold argv. rewrite parse_settings by done. rewrite !not_elem_of_cons in Ho.
    destruct Ho as (H1 & H2 & H3 & H4 & H5 & H6 & H7 & H8 & H9 & _).
    cbn [parse_from]. unfold value_setting.
    rewrite (proj2 (String.eqb_neq _ _) H1), (proj2 (String.eqb_neq _ _) H2), (proj2 (String.eqb_neq _ _) H3),
      (proj2 (String.eqb_neq _ _) H4), (proj2 (String.eqb_neq _ _) H5), (proj2 (String.eqb_neq _ _) H6),
      (proj2 (String.eqb_neq _ _) H7), (proj2 (String.eqb_neq _ _) H8), (proj2 (String.eqb_neq _ _) H9).
    by destruct rest.
  - intros argv' o. apply parse_from_settings.
Qed.

Lemma arguments_read_witness :
  parse_args ["serve"; "--port"; "5001"; "--seed"; "18446744073709551615"; "--port"; "6000"] =
    parsed (mkOptions None (Some 6000) (Some 18446744073709551615) None None None false true None).
Proof.
  assert (H : Forall setting_ok [set_serve; set_port 5001; set_seed 18446744073709551615; set_port 6000])
    by (repeat constructor; vm_compute; try reflexivity; discriminate).
  exact (proj1 (arguments_read [set_serve; set_port 5001; set_seed 18446744073709551615; set_port 6000] H)).
Defined.

(** ** Where it goes wrong *)

(** A number that cannot be read is not a usage error: the exception leaves [main]. *)
Lemma bad_number_uncaught :
  parse_args ["--port"; "abc"] = uncaught "std::invalid_argument: stoi" /\
  parse_args ["--seed"; "18446744073709551616"] = uncaught "std::out_of_range: stoull" /\
  parse_args ["--rtf"; EmptyString] = uncaught "std::invalid_argument: stod".
Proof. vm_compute. done. Qed.

(** What follows the digits is ignored, and a negative seed wraps around. *)
Lemma junk_accepted : std_stoi "80x" = converted 80 /\ std_stoull "-1" = converted 18446744073709551615.
Proof. vm_compute. done. Qed.
