(* ===== verification/AppCli.v ===== *)
(** * equipment_cli

    The rest of src/app_cli/main.cpp: the configuration with its overrides, one wafer from the
    command line ([run_once]) and the machine as a service ([run_serve]), composed from the
    configuration, the controller, the scan, the analysis and the writers the way
    src/machine/machine_runtime.cpp wires them. Text for the standard output and the standard
    error is a list of lines.

    The threads of the machine are run one after the other here: that a wafer is analysed from
    its own whole lines under every interleaving is the matter of MachineRuntime, and that the
    thread pool makes no difference the matter of WaferPipeline. *)

From stdpp Require Import strings gmap.
From S2P Require Import CLibrary WallTime FloatOrder FloatScale LineFilter ProcessFsm Controller MachineApi FitPool FaultInjector WaferModel ScanThread ScanProgress WaferFit WaferStress ConfigFile MachineRuntime WaferPipeline WaferRun ResultFiles WaferPicture WaferOutput CliArguments Prelude.

Definition kErrAlreadyStarted : Z := 422.
Definition kErrBadBindAddress : Z := 420.
Definition kErrListenFailed : Z := 421.

Definition kExitOk : Z := 0.
Definition kExitConfigError : Z := 2.
Definition kExitRuntimeFault : Z := 3.
Definition kExitInterrupted : Z := 4.

(** How the program ends; [waits] is a wait for an event that never comes. *)
Inductive CliEnd :=
| exits (code : Z) (out err : list string)
| terminates (what : string)
| waits.

(** ** The configuration *)

Definition override_port (port : Z) (c : Config) : Config :=
  let m := ConfigFile.comm c in
  mkConfig (machine c) (wafer c) (scan c) (noise c) (faults c) (analysis c) (cassette c)
    (mkComm (comm_enabled m) (comm_bind m) port (comm_device_id m) (comm_allow_host_online m) (t3_s m) (t5_s m)
       (t6_s m) (t7_s m) (t8_s m) (linktest_s m) (max_frame_bytes m)) (output c).

Definition override_seed (seed : Z) (c : Config) : Config :=
  let w := wafer c in
  mkConfig (machine c)
    (mkWafer (diameter_mm w) (thickness_um w) (film_thickness_um w) (biaxial_modulus_gpa w) (truth w) seed)
    (scan c) (noise c) (faults c) (analysis c) (cassette c) (ConfigFile.comm c) (output c).

Definition override_rtf (factor : double) (c : Config) : Config :=
  let s := scan c in
  mkConfig (machine c) (wafer c)
    (mkScan (scan_lines s) (points_per_mm s) (speed_mm_per_s s) factor (edge_exclusion_mm s))
    (noise c) (faults c) (analysis c) (cassette c) (ConfigFile.comm c) (output c).

Definition override_dir (dir : string) (c : Config) : Config :=
  let o := output c in
  mkConfig (machine c) (wafer c) (scan c) (noise c) (faults c) (analysis c) (cassette c) (ConfigFile.comm c)
    (mkOutput dir (save_samples o) (sample_decimation o)).

Definition override {A} (f : A -> Config -> Config) (o : option A) (c : Config) : Config :=
  match o with Some a => f a c | None => c end.

Section cli.
Context {json : Type} {J : Json json} (read_file : string -> option string) (parse_json : string -> Result json).

(** The configuration, or nothing, and the lines printed on the way. *)
Definition build_config (opts : CliOptions) : option Config * list string :=
  let overridden c :=
    override override_dir (opt_out_dir opts) (override override_rtf (opt_rtf opts)
      (override override_seed (opt_seed opts) (override override_port (opt_port opts) c))) in
  match opt_config_path opts with
  | None => (Some (overridden default_config), [])
  | Some path =>
      match load_config_file read_file parse_json path with
      | Err e => (None, ["config error: " +:+ message e])
      | Ok (c, warnings) => (Some (overridden c), map (String.append "config warning: ") warnings)
      end
  end.

(** ** One wafer *)

Context {order : HashOrder} {G N : Type} {R : Random G} {D : Gaussian N} {T : Trig double} {L : MapLibrary}.
Context (undef unspecified : Z) (now_ns : Z) (elapsed : nat -> nat -> double) (analysis_ms : Z).
Context (root_error : option string) (mkdir_error : string -> option string) (fs : FileSystem)
  (dump : JsonValue -> string) (encode : Z -> Z -> list Z -> option string).

(** What the scan thread asks of the alarm manager and the controller. *)
Definition scan_inputs (l : list ScanAction) : list ctl_input :=
  flat_map (fun a =>
    match a with
    | act_alarm_set id why => [in_alarm_set id why]
    | act_alarm_clear id => [in_alarm_clear id]
    | act_lines_complete w => [in_scan_complete w]
    | act_stopped => [in_stage_stopped]
    | _ => []
    end) l.

(** The last path component. *)
Definition filename (path : string) : string := List.last (split_at "/" path) EmptyString.

(** What the three handlers of [run_once] have recorded when the outputs are written, and
    what is printed then. *)
Definition last_alarm (acts : list Action) : string :=
  foldl (fun why a => match a with publish (AlarmSet _ _ why') => why' | _ => why end) EmptyString acts.

Definition last_result (events : list OutputEvent) : option WaferResultReady :=
  foldl (fun r e => match e with ev_result r' => Some r' | _ => r end) None events.

Definition written_event (events : list OutputEvent) : option (string * bool) :=
  match omap (fun e => match e with ev_written _ dir ok => Some (dir, ok) | _ => None end) events with
  | w :: _ => Some w
  | [] => None
  end.

Definition shown_bits (v : Z) : string := shown (double_of_bits v).

Definition result_line (wafer_id : string) (result : option WaferResultReady) (alarm_reason : string) : string :=
  "wafer " +:+ wafer_id +:+
  match result with
  | Some r =>
      ": stress = " +:+ shown_bits (Controller.stress_mpa r) +:+ " MPa (+/- " +:+ shown_bits (stress_unc_mpa r) +:+
      "), out_of_spec=" +:+ (if Controller.out_of_spec r then "true" else "false")
  | None => ": alarm raised, no stress number reported (" +:+ alarm_reason +:+ ")"
  end.

Definition report (wafer_id : string) (acts : list Action) (events : list OutputEvent) : CliEnd :=
  match written_event events with
  | None => waits
  | Some (dir, ok) =>
      let out := [result_line wafer_id (last_result events) (last_alarm acts); "results written to " +:+ dir] in
      if ok : bool then exits kExitOk out []
      else exits kExitRuntimeFault out ["runtime fault: one or more output files failed to write"]
  end.

(** The scan of a machine whose hardware is new, never aborted, its queue never full. *)
Definition first_scan (cfg : Config) (wafer_id : string) : ScanState G N :=
  let '(stage, laser) := make_simulated_hardware (scan cfg) (noise cfg) (seed (wafer cfg)) in
  ScanThread_run undef (wafer_model (settings_of (wafer cfg))) (scan cfg) wafer_id (fun _ => false) elapsed
    (fun _ => true) (faults cfg) (seed (wafer cfg)) stage laser.

(** From the accepted start to the last event; [None] where the code is undefined. *)
Definition run_wafer (cfg : Config) (run_dir wafer_id : string) (c : Controller) (disk : Disk) :
    option (list Action * list OutputEvent * Disk) :=
  let done := done_ (first_scan cfg wafer_id) in
  let '(c, acts) := ctl_run (scan_inputs done) c in
  if bool_decide (state_ c = kStopping) then
    let '(_, _, acts') := ctl_handle in_stage_stopped c in Some (acts ++ acts', [], disk)
  else
    result ← serial_pipeline 1 (pushed done) cfg;
    let v := wafer_verdict result cfg in
    let '(_, c, acts') := ctl_handle (in_result (MachineRuntime.out_of_spec v) (MachineRuntime.stress_mpa v) (raised v) (reason v) false) c in
    if bool_decide (state_ c = kStopping) then
      let '(_, _, acts'') := ctl_handle in_stage_stopped c in Some (acts ++ acts' ++ acts'', [], disk)
    else
      '(events, disk) ← output_wafer unspecified fs dump encode mkdir_error cfg run_dir (filename run_dir) analysis_ms
                          wafer_id result disk;
      Some (acts ++ acts', events, disk).

(** [dirs]: the directories that exist under the output directory. *)
Definition run_once (cfg : Config) (dirs : gset string) (disk : Disk) : option (CliEnd * gset string * Disk) :=
  let '(made, dirs) := create_run_dir mkdir_error (output_dir (output cfg)) (make_run_id now_ns) root_error dirs in
  match made with
  | Err e => Some (exits kExitRuntimeFault [] ["runtime fault: " +:+ message e], dirs, disk)
  | Ok run_dir =>
      let wafer_id := next_wafer_id 0 in
      let '(started, api) := MachineApi.start wafer_id 1 kCli new_api in
      match started with
      | Err e => Some (exits kExitRuntimeFault [] ["runtime fault: Start rejected: " +:+ message e], dirs, disk)
      | Ok _ =>
          '(acts, events, disk) ← run_wafer cfg run_dir wafer_id (MachineApi.controller_ api) disk;
          Some (report wafer_id (performed api ++ acts) events, dirs, disk)
      end
  end.

(** ** The machine as a service *)

(** [HsmsServer::start]: [good_address] is [asio::ip::make_address], and [listen_on] what the
    operating system answers to listening on an address and a port, the port it gave or the
    text of its error. *)
Definition server_start (good_address : string -> bool) (listen_on : string -> Z -> Z + string) (started : bool)
    (c : ServerConfig) : Result Z :=
  if started then Err (mkError kErrAlreadyStarted "server already started")
  else if negb (good_address (server_bind c)) then
    Err (mkError kErrBadBindAddress ("bad bind address '" +:+ server_bind c +:+ "'"))
  else
    match listen_on (server_bind c) (server_port c) with
    | inr e =>
        Err (mkError kErrListenFailed
               ("cannot listen on " +:+ server_bind c +:+ ":" +:+ pretty (server_port c) +:+ ": " +:+ e))
    | inl port => Ok port
    end.

Context (good_address : string -> bool) (listen_on : string -> Z -> Z + string).

(** [MachineRuntime::create] with [start_comm]; port 0 stands for no link. *)
Definition create_serving (cfg : Config) (dirs : gset string) : Result (string * Z) * gset string :=
  let '(made, dirs) := create_run_dir mkdir_error (output_dir (output cfg)) (make_run_id now_ns) root_error dirs in
  (let? run_dir := made in
   if negb (comm_enabled (ConfigFile.comm cfg)) then Ok (run_dir, 0)
   else
     let? port := server_start good_address listen_on false (server_config_from unspecified (ConfigFile.comm cfg)) in
     Ok (run_dir, port), dirs).

Definition control_argument (control : option string) : option ControlMode :=
  match control with
  | None => Some kOnlineLocal
  | Some w =>
      if String.eqb w "offline" then Some kOffline
      else if String.eqb w "local" then Some kOnlineLocal
      else if String.eqb w "remote" then Some kOnlineRemote
      else None
  end.

(** Up to the signal that ends it, with the machine it leaves. *)
Definition run_serve (opts : CliOptions) (dirs : gset string) :
    CliEnd * gset string * option MachineApi :=
  match build_config opts with
  | (None, err) => (exits kExitConfigError [] err, dirs, None)
  | (Some cfg, err) =>
      match control_argument (opt_control opts) with
      | None =>
          (exits kExitConfigError [] (err ++ ["config error: --control must be offline, local or remote"]), dirs, None)
      | Some mode =>
          let '(made, dirs) := create_serving cfg dirs in
          match made with
          | Err e => (exits kExitRuntimeFault [] (err ++ ["runtime fault: " +:+ message e]), dirs, None)
          | Ok (run_dir, port) =>
              let '(set, api) := MachineApi.set_control_mode mode kCli new_api in
              let disabled := if port =? 0 then ["SECS/GEM link is disabled (comm.enabled=false); serving standalone"] else [] in
              match set with
              | Err e => (exits kExitRuntimeFault disabled (err ++ ["runtime fault: " +:+ message e]), dirs, Some api)
              | Ok _ =>
                  let listening :=
                    if port =? 0 then [] else ["listening on " +:+ comm_bind (ConfigFile.comm cfg) +:+ ":" +:+ pretty port] in
                  (exits kExitInterrupted
                     (disabled ++ listening ++ ["output in " +:+ run_dir; "interrupted, shutting down"]) err, dirs, Some api)
              end
          end
      end
  end.

(** ** [main] *)

Definition usage_line : string :=
  "usage: equipment_cli [demo|serve] [--config PATH] [--port N] [--seed N] [--rtf X] [--out DIR] [--scenario NAME] [--control offline|local|remote]".

Definition cli_main (argv : list string) (dirs : gset string) (disk : Disk) :
    option (CliEnd * gset string * Disk) :=
  match parse_args argv with
  | bad_usage err => Some (exits kExitConfigError [] (err ++ [usage_line]), dirs, disk)
  | uncaught what => Some (terminates what, dirs, disk)
  | parsed opts =>
      if opt_serve opts then
        let '(e, dirs, _) := run_serve opts dirs in Some (e, dirs, disk)
      else
        let demo := if opt_demo opts then ["demo mode: standalone run (no host — SECS/GEM is Day 4/5 scope)"] else [] in
        let note :=
          match opt_scenario opts with
          | Some s => ["note: --scenario is accepted but not yet implemented (Day 4/5 scope); ignoring '" +:+ s +:+ "'"]
          | None => []
          end in
        match build_config opts with
        | (None, err) => Some (exits kExitConfigError demo (note ++ err), dirs, disk)
        | (Some cfg, err) =>
            '(e, dirs, disk) ← run_once cfg dirs disk;
            Some (match e with exits code out err' => exits code (demo ++ out) (note ++ err ++ err') | _ => e end, dirs, disk)
        end
  end.

End cli.

(** ** The scan inside a run *)

(** A call that neither ends a run nor touches an alarm the analysis may raise. *)
Definition passing (a : ScanAction) : Prop :=
  match a with
  | act_alarm_set id _ | act_alarm_clear id => id = kScanStall \/ id = kQueueOverflow
  | act_lines_complete _ | act_stopped => False
  | _ => True
  end.

Section scanning.
Context {G N : Type} {R : Random G} {D : Gaussian N} {T : Trig double}.
Context (undef : Z) (wafer : WaferTruth double) (config : ScanConfig) (wafer_id : string)
  (elapsed : nat -> nat -> double) (accepts : Z -> bool).

Lemma faults_passing elapsed' k fs h :
  let '(_, _, _, acts) := apply_faults (G := G) config elapsed' k fs h in Forall passing acts.
Proof.
  revert k h. induction fs as [|f fs IH]; intros k h; simpl; [done|].
  destruct (fault_apply _ _ _) as [s inj]. destruct (sample_height_m s) as [h'|]; [|done].
  specialize (IH (S k) h'). destruct (apply_faults _ _ _ _ _) as [[[fs' h''] d] acts].
  apply Forall_app. split; [|done]. destruct (stage_stall s); [|done].
  destruct (_ && _); cbn [app]; repeat apply Forall_cons_2; try apply Forall_nil_2; simpl; tauto.
Qed.

Lemma points_passing line ps st b : Forall passing (done_ st) ->
  let '(st', _, aborted) := scan_points (G := G) (N := N) undef wafer config wafer_id (fun _ => false) elapsed line ps st b in
  aborted = false /\ Forall passing (done_ st').
Proof.
  revert st b. induction ps as [|p ps IH]; intros st b Hst; cbn [scan_points]; [done|].
  unfold scan_sample. destruct (move_to _ _) as [pause stage]. destruct (read_height_m _ _ _) as [raw laser].
  pose proof (faults_passing (elapsed (sample_index st)) 0 (injectors st) raw) as Hq.
  destruct (apply_faults _ _ _ _ _) as [[[fs h] d] acts].
  match goal with |- context [scan_points _ _ _ _ _ _ _ _ ?s ?b] => specialize (IH s b) end.
  apply IH. cbn [done_]. apply Forall_app. split; [done|]. apply Forall_app. split; [by destruct pause; repeat constructor|].
  apply Forall_app. split; [done|]. destruct (_ <? _); by repeat constructor.
Qed.

Lemma all_passing lines : forall st, Forall passing (done_ st) ->
  let '(st', aborted) := scan_all (G := G) (N := N) undef wafer config wafer_id (fun _ => false) elapsed accepts lines st in
  aborted = false /\ Forall passing (done_ st').
Proof.
  induction lines as [|line lines IH]; intros st Hst; cbn [scan_all]; [done|].
  unfold scan_one_line. match goal with |- context [scan_points _ _ _ _ _ _ _ ?ps ?s ?b] =>
    pose proof (points_passing line ps s b Hst) as Hp; destruct (scan_points _ _ _ _ _ _ _ ps s b) as [[st' b'] ab] end.
  destruct Hp as [-> Hp]. apply IH. cbn [act done_]. apply Forall_app. split; [done|].
  apply Forall_app. split; [by repeat constructor|].
  destruct (_ && _); repeat apply Forall_cons_2; try apply Forall_nil_2; simpl; tauto.
Qed.

(** A scan nothing aborts ends with the callback of its last line. *)
Lemma scan_ends fault_configs seed stage laser :
  exists l, done_ (ScanThread_run (G := G) (N := N) undef wafer config wafer_id (fun _ => false) elapsed accepts
    fault_configs seed stage laser) = l ++ [act_lines_complete wafer_id] /\ Forall passing l.
Proof.
  unfold ScanThread_run. set (st0 := mkScanState _ _ _ _ _ _).
  pose proof (all_passing (seqZ 0 (ScanThread.n_lines config)) st0 ltac:(by constructor)) as H.
  destruct (scan_all _ _ _ _ _ _ _ _ _) as [st aborted]. destruct H as [-> H].
  exists (done_ st). done.
Qed.

End scanning.

(** ** The controller beside the scan *)

Section running.
Context {order : HashOrder}.

Lemma ctl_run_app l l' c :
  ctl_run (l ++ l') c =
    let '(c1, a1) := ctl_run l c in let '(c2, a2) := ctl_run l' c1 in (c2, a1 ++ a2).
Proof.
  revert c. induction l as [|i l IH]; intros c; cbn [app ctl_run]; [by destruct (ctl_run l' c)|].
  destruct (ctl_handle i c) as [[r c1] a1]. rewrite IH. destruct (ctl_run l c1) as [c2 a2].
  destruct (ctl_run l' c2) as [c3 a3]. by rewrite <- app_assoc.
Qed.

(** The alarms the scan thread may set and clear are not those of the analysis. *)
Definition scan_alarm (id : AlarmId) : Prop := id = kScanStall \/ id = kQueueOverflow.

Lemma alarm_code_inj a b : alarm_code a = alarm_code b -> a = b.
Proof. by destruct a, b. Qed.

Lemma passing_run l : Forall passing l -> forall c,
  exists a acts, ctl_run (scan_inputs l) c = (set_alarms a c, acts) /\
    forall id, ~ scan_alarm id -> a !! alarm_code id = alarms_ c !! alarm_code id.
Proof.
  induction 1 as [|x l Hx _ IH]; intros c; [exists (alarms_ c), []; by destruct c|].
  unfold scan_inputs. cbn [flat_map]. rewrite ctl_run_app.
  assert (Hstep : exists a acts, ctl_run (scan_inputs [x]) c = (set_alarms a c, acts) /\
    forall id, ~ scan_alarm id -> a !! alarm_code id = alarms_ c !! alarm_code id).
  { destruct x as [d|id why|id|w p|b|w|]; try done; try (exists (alarms_ c), []; by destruct c).
    - unfold scan_inputs. cbn [flat_map app ctl_run ctl_handle]. unfold ctl_alarms, ctl_bind, ctl_get, ctl_ret.
      destruct (alarms_set id why (alarms_ c)) as [a evs] eqn:E. exists a. eexists. split; [reflexivity|]. intros id' Hid'.
      assert (alarm_code id' <> alarm_code id) by (intros ->%alarm_code_inj; done).
      unfold alarms_set in E. case_match; injection E as <- <-; [done|by rewrite lookup_insert_ne].
    - unfold scan_inputs. cbn [flat_map app ctl_run ctl_handle]. unfold ctl_alarms, ctl_bind, ctl_get, ctl_ret.
      destruct (alarms_clear id (alarms_ c)) as [a evs] eqn:E. exists a. eexists. split; [reflexivity|]. intros id' Hid'.
      assert (alarm_code id' <> alarm_code id) by (intros ->%alarm_code_inj; done).
      unfold alarms_clear in E. case_match; injection E as <- <-; [by rewrite lookup_delete_ne|done]. }
  destruct Hstep as (a & acts & E & Ha). unfold scan_inputs in E. cbn [flat_map] in E. rewrite app_nil_r in E. rewrite E.
  destruct (IH (set_alarms a c)) as (a' & acts' & E' & Ha'). unfold scan_inputs in E'. rewrite E'.
  exists a', (acts ++ acts'). split; [by destruct c|]. intros id Hid. rewrite Ha' by done. by apply Ha.
Qed.

(** The controller when its machine scans: what matters of it. *)
Definition scanning (c : Controller) : Prop :=
  fsm_ c = mkFsm kScanning false /\ state_ c = kScanning /\ alarms_ c = ∅.

Lemma started w : w <> EmptyString -> exists api, MachineApi.start w 1 kCli new_api = (Ok kScanning, api) /\
  scanning (MachineApi.controller_ api) /\ current_wafer_id_ (MachineApi.controller_ api) = w.
Proof. intros Hw. destruct w as [|a w]; [done|]. eexists. split; [reflexivity|by split_and!]. Qed.

(** An alarm of the analysis is the last that is published. *)
Lemma analysed_run c a (raised : option AlarmId) oos stress why :
  scanning c -> (forall id, ~ scan_alarm id -> a !! alarm_code id = None) ->
  (forall id, raised = Some id -> ~ scan_alarm id) ->
  let '(c1, acts1) := ctl_run (scan_inputs [act_lines_complete (current_wafer_id_ c)]) (set_alarms a c) in
  let '(_, c2, acts2) := ctl_handle (in_result oos stress raised why false) c1 in
  state_ c1 = kProcessing /\ state_ c2 <> kStopping /\
  (is_Some raised -> forall before, last_alarm (before ++ acts1 ++ acts2) = why).
Proof.
  intros (Hf & Hs & _) Ha Hr. destruct c as [fsm st mode flag w al]. cbn [fsm_ state_] in Hf, Hs. subst fsm st.
  set (c1 := mkController (mkFsm kProcessing false) kProcessing mode flag w a).
  replace (ctl_run _ _) with (c1, [publish (ScanLinesComplete w); publish (StateChanged kScanning kProcessing)])
    by reflexivity.
  destruct raised as [id|].
  - specialize (Hr id eq_refl). set (c2 := mkController (mkFsm kAlarm false) kAlarm mode true w a).
    assert (E : ctl_handle (in_result oos stress (Some id) why false) c1 =
      (Ok kAlarm, set_alarms (alarms_set id why a).1 c2,
       publish (StateChanged kProcessing kAlarm) :: map publish (alarms_set id why a).2)).
    { cbn [ctl_handle notify_processing_result]. unfold notify_fault, ctl_bind.
      replace (transition kFault default_guards c1) with
        (Ok kAlarm, mkController (mkFsm kAlarm false) kAlarm mode flag w a, [publish (StateChanged kProcessing kAlarm)])
        by reflexivity. cbn [has_value]. unfold ctl_modify, ctl_alarms, ctl_ret, set_alarm_flag. cbn [alarms_].
      destruct (alarms_set id why a) as [a' evs]. cbn [fst snd app]. by rewrite app_nil_r. }
    rewrite E. unfold alarms_set. rewrite (Ha id Hr). split_and!; [done|done|]. intros _ before.
    unfold last_alarm. by rewrite !foldl_app.
  - split_and!; [done|by destruct oos|]. by intros [id Hid].
Qed.

End running.

(** ** How a run ends *)

Definition exit_code (e : CliEnd) : option Z := match e with exits code _ _ => Some code | _ => None end.
Definition printed (e : CliEnd) : list string := match e with exits _ out _ => out | _ => [] end.

Section ending.
Context {json : Type} {J : Json json} (read_file : string -> option string) (parse_json : string -> Result json).
Context {order : HashOrder} {G N : Type} {R : Random G} {D : Gaussian N} {T : Trig double} {L : MapLibrary}.
Context (undef unspecified : Z) (now_ns : Z) (elapsed : nat -> nat -> double) (analysis_ms : Z).
Context (root_error : option string) (mkdir_error : string -> option string) (fs : FileSystem)
  (dump : JsonValue -> string) (encode : Z -> Z -> list Z -> option string).
Context (good_address : string -> bool) (listen_on : string -> Z -> Z + string).

Abbreviation build := (build_config read_file parse_json).
Abbreviation scan_of := (first_scan (G := G) (N := N) undef elapsed).
Abbreviation once := (run_once (G := G) (N := N) undef unspecified now_ns elapsed analysis_ms root_error mkdir_error fs dump encode).
Abbreviation files_of cfg run_dir r :=
  (wanted_files unspecified fs dump encode cfg (path_join run_dir "W001") "W001" r
     (wafer_meta cfg (filename run_dir) "W001" analysis_ms)).
Abbreviation run_dir_of cfg dirs := (create_run_dir mkdir_error (output_dir (output cfg)) (make_run_id now_ns) root_error dirs).

(** Whatever is loaded, and overridden, can be scanned. *)
Lemma build_scannable opts cfg err : build opts = (Some cfg, err) -> scannable cfg.
Proof.
  assert (Hover : forall c, scannable c -> scannable
    (override override_dir (opt_out_dir opts) (override override_rtf (opt_rtf opts)
      (override override_seed (opt_seed opts) (override override_port (opt_port opts) c))))).
  { intros c Hc. by destruct (opt_out_dir opts), (opt_rtf opts), (opt_seed opts), (opt_port opts). }
  unfold build_config. destruct (opt_config_path opts) as [path|].
  2:{ intros [= <- <-]. apply Hover, valid_scan. vm_compute. reflexivity. }
  destruct (load_config_file _ _ _) as [[c w]|e] eqn:E; [|done]. intros [= <- <-]. apply Hover, valid_scan.
  unfold load_config_file in E. destruct (read_file path) as [text|]; [|done]. destruct (parse_json text) as [raw|]; [|done].
  unfold load_config_from_json in E. destruct (is_object raw); [|done]. cbn [negb] in E.
  destruct (load_sections raw default_config) as [[c' w']|]; [|done]. cbn [result_bind] in E.
  by destruct (validate c') eqn:Ev; simplify_eq.
Qed.

Lemma first_scan_whole cfg w : exists stage laser,
  pushed (done_ (scan_of cfg w)) = whole_scan (G := G) undef cfg w elapsed (fun _ => true) stage laser.
Proof. by eexists _, _. Qed.

(** The analysis of the first wafer, whose result fits together. *)
Lemma first_wafer_analysed cfg w : atan_bounded -> scannable cfg -> usable_grid (map_grid_mm (analysis cfg)) ->
  exists r, serial_pipeline 1 (pushed (done_ (scan_of cfg w))) cfg = Some r /\ consistent r.
Proof.
  intros Hatan Hs Hg. destruct (first_scan_whole cfg w) as (stage & laser & ->).
  destruct (whole_analysed (G := G) undef cfg w elapsed (fun _ => true) stage laser Hatan Hs Hg) as (r & Hr & Ef & Efl & Hm).
  exists r. split; [done|]. unfold consistent. rewrite Ef, Efl, !length_map. split; [done|].
  destruct (issue (quality r)); [|by rewrite Hm..].
  destruct Hm as (h & Hh & -> & -> & ->). split; [lia|done].
Qed.

Lemma wafer_alarm_kind r cfg id : (wafer_alarm r cfg).1 = Some id -> ~ scan_alarm id.
Proof. unfold wafer_alarm, scan_alarm. intros H. repeat case_match; simplify_eq; naive_solver. Qed.

(** The machine from the accepted start to the last event. *)
Lemma run_wafer_ends cfg run_dir w c disk :
  atan_bounded -> scannable cfg -> usable_grid (map_grid_mm (analysis cfg)) -> scanning c -> current_wafer_id_ c = w ->
  exists r acts out,
    serial_pipeline 1 (pushed (done_ (scan_of cfg w))) cfg = Some r /\ consistent r /\
    output_wafer unspecified fs dump encode mkdir_error cfg run_dir (filename run_dir) analysis_ms w r disk = Some out /\
    run_wafer (G := G) (N := N) undef unspecified elapsed analysis_ms mkdir_error fs dump encode cfg run_dir w c disk =
      Some (acts, out.1, out.2) /\
    ((wafer_alarm r cfg).1 <> None -> forall before, last_alarm (before ++ acts) = (wafer_alarm r cfg).2).
Proof.
  intros Hatan Hs Hg Hc Hw. destruct (first_wafer_analysed cfg w Hatan Hs Hg) as (r & Hr & Hcons).
  destruct (output_wafer_ends unspecified fs dump encode mkdir_error cfg run_dir (filename run_dir) analysis_ms w r disk Hcons)
    as (failures & ok & disk' & Ho & _).
  assert (exists l, done_ (scan_of cfg w) = l ++ [act_lines_complete w] /\ Forall passing l) as (l & El & Hl)
    by (unfold first_scan; destruct (make_simulated_hardware _ _ _); apply scan_ends).
  destruct (passing_run l Hl c) as (a & acts0 & Hrun & Ha).
  pose proof (analysed_run c a (wafer_alarm r cfg).1 (MachineRuntime.out_of_spec (wafer_verdict r cfg))
    (MachineRuntime.stress_mpa (wafer_verdict r cfg)) (wafer_alarm r cfg).2 Hc) as Hend.
  specialize (Hend ltac:(intros id Hid; rewrite Ha by done; by rewrite (proj2 (proj2 Hc))) (wafer_alarm_kind r cfg)).
  rewrite Hw in Hend.
  unfold run_wafer. rewrite Hr, El. unfold scan_inputs in *. rewrite flat_map_app, ctl_run_app, Hrun.
  destruct (ctl_run (flat_map _ [act_lines_complete w]) (set_alarms a c)) as [c1 acts1].
  cbn [mbind option_bind]. unfold wafer_verdict in *. destruct (wafer_alarm r cfg) as [alarm why] eqn:Ew.
  cbn [MachineRuntime.out_of_spec MachineRuntime.stress_mpa raised reason fst snd] in *.
  destruct (ctl_handle _ c1) as [[res c2] acts2]. destruct Hend as (H1 & H2 & H3).
  rewrite bool_decide_false by (by rewrite H1). rewrite bool_decide_false by done. rewrite Ho. cbn [mbind option_bind].
  eexists r, _, (_, _). split_and!; [done|done|exact Ho|reflexivity|].
  rewrite Ew. intros Hne before. rewrite !app_assoc, <- (app_assoc _ acts1). apply H3. by destruct alarm.
Qed.

(** What is printed for a result. *)
Definition verdict_line (cfg : Config) (w : string) (r : PipelineResult) : string :=
  result_line w (last_result (reported_events cfg w r)) (wafer_alarm r cfg).2.

Lemma report_ends cfg w r acts failures dir ok :
  Forall (fun e => exists why, e = ev_log_failed w why) failures ->
  ((wafer_alarm r cfg).1 <> None -> last_alarm acts = (wafer_alarm r cfg).2) ->
  report w acts (reported_events cfg w r ++ failures ++ [ev_written w dir ok]) =
    exits (if ok : bool then kExitOk else kExitRuntimeFault) [verdict_line cfg w r; "results written to " +:+ dir]
      (if ok then [] else ["runtime fault: one or more output files failed to write"]).
Proof.
  intros Hf Hlast.
  assert (Hw : written_event (reported_events cfg w r ++ failures ++ [ev_written w dir ok]) = Some (dir, ok)).
  { unfold written_event. rewrite !omap_app.
    replace (omap _ (reported_events cfg w r)) with (@nil (string * bool))
      by (unfold reported_events; by destruct (wafer_alarm r cfg).1).
    replace (omap _ failures) with (@nil (string * bool)); [done|].
    clear -Hf. induction Hf as [|e failures [why ->] _ IH]; [done|]. simpl. exact IH. }
  assert (Hr : last_result (reported_events cfg w r ++ failures ++ [ev_written w dir ok]) =
               last_result (reported_events cfg w r)).
  { unfold last_result. rewrite !foldl_app. cbn [foldl]. set (x := foldl _ None _). clearbody x.
    clear -Hf. induction Hf as [|e failures [why ->] _ IH]; [done|]. exact IH. }
  unfold report, verdict_line. rewrite Hw, Hr. unfold result_line.
  replace (match last_result (reported_events cfg w r) with Some r0 => _ | None => _ end) with
    (match last_result (reported_events cfg w r) with
     | Some r0 => ": stress = " +:+ shown_bits (Controller.stress_mpa r0) +:+ " MPa (+/- " +:+ shown_bits (stress_unc_mpa r0) +:+
       "), out_of_spec=" +:+ (if Controller.out_of_spec r0 then "true" else "false")
     | None => ": alarm raised, no stress number reported (" +:+ (wafer_alarm r cfg).2 +:+ ")" end)%string;
    [by destruct ok|].
  unfold reported_events, last_result in *. destruct (wafer_alarm r cfg).1; [|done]. cbn [foldl]. by rewrite Hlast.
Qed.

(** One wafer from the command line: either there is no directory for the run, or it ends
    with the result of that wafer. *)
Lemma run_once_ends cfg dirs disk :
  atan_bounded -> scannable cfg -> usable_grid (map_grid_mm (analysis cfg)) ->
  match run_dir_of cfg dirs with
  | (Err e, dirs') => once cfg dirs disk = Some (exits kExitRuntimeFault [] ["runtime fault: " +:+ message e], dirs', disk)
  | (Ok run_dir, dirs') =>
      let dir := path_join run_dir "W001" in
      exists r ok disk', serial_pipeline 1 (pushed (done_ (scan_of cfg "W001"))) cfg = Some r /\
        once cfg dirs disk =
          Some (exits (if ok : bool then kExitOk else kExitRuntimeFault)
                  [verdict_line cfg "W001" r; "results written to " +:+ dir]
                  (if ok then [] else ["runtime fault: one or more output files failed to write"]), dirs', disk') /\
        disk ⊆ disk' /\
        (ok = true <-> mkdir_error dir = None /\
           Forall (creatable dir disk) (files_of cfg run_dir r)) /\
        (ok = true -> Forall (on_disk fs dir disk') (files_of cfg run_dir r))
  end.
Proof.
  intros Hatan Hs Hg. unfold run_once. destruct (run_dir_of cfg dirs) as [[run_dir|e] dirs']; [|done].
  replace (next_wafer_id 0) with "W001"%string by reflexivity. cbv zeta. set (dir := path_join run_dir "W001").
  destruct (started "W001" ltac:(done)) as (api & -> & Hc & Hw).
  destruct (run_wafer_ends cfg run_dir "W001" _ disk Hatan Hs Hg Hc Hw) as (r & acts & out & Hr & Hcons & Ho & -> & Hlast).
  destruct (output_wafer_ends unspecified fs dump encode mkdir_error cfg run_dir (filename run_dir) analysis_ms "W001" r disk Hcons)
    as (failures & ok & disk' & Ho' & Hf & Hsub & Hok & Hfiles). rewrite Ho in Ho'. injection Ho' as ->.
  cbn [mbind option_bind fst snd]. exists r, ok, disk'.
  split; [done|]. split; [|split; [done|by split]].
  rewrite (report_ends cfg "W001" r _ failures _ ok Hf); [done|]. intros Hne. by apply Hlast.
Qed.

(** The service reaches its wait for a signal in the mode that was asked for. *)
Lemma run_serve_ends opts dirs cfg err : build opts = (Some cfg, err) ->
  let '(e, _, api) := run_serve read_file parse_json unspecified now_ns root_error mkdir_error good_address listen_on opts dirs in
  match control_argument (opt_control opts), (create_serving unspecified now_ns root_error mkdir_error good_address listen_on cfg dirs).1 with
  | None, _ => exit_code e = Some kExitConfigError
  | Some _, Err _ => exit_code e = Some kExitRuntimeFault
  | Some mode, Ok _ => exit_code e = Some kExitInterrupted /\
      exists a, api = Some a /\ control_mode_ (MachineApi.controller_ a) = mode /\
        state_ (MachineApi.controller_ a) = kIdle
  end.
Proof.
  intros Hb. unfold run_serve. rewrite Hb. destruct (control_argument (opt_control opts)) as [mode|]; [|done].
  destruct (create_serving _ _ _ _ _ _ _ _) as [[[run_dir port]|e] dirs']; [|done]. cbn [fst].
  assert (exists a, MachineApi.set_control_mode mode kCli new_api = (Ok kIdle, a) /\
    control_mode_ (MachineApi.controller_ a) = mode /\ state_ (MachineApi.controller_ a) = kIdle) as (a & -> & Ha)
    by (destruct mode; by eexists).
  split; [done|]. by exists a.
Qed.


End ending.

(** The files of a consistent result, on a disk without trouble when every picture can be encoded. *)
Lemma all_writable {L : MapLibrary} dump cfg dir w r meta : consistent r ->
  Forall (creatable dir ∅) (wanted_files 0 sound_disk dump (fun _ _ _ => Some EmptyString) cfg dir w r meta).
Proof.
  intros (_ & Hw & Hc). unfold wanted_files. cbv zeta. constructor; [done|]. destruct (bool_decide _); [|done].
  repeat (constructor; [done|]). constructor; [|done]. split; [done|]. cbn [file_can sound_disk opens]. rewrite andb_true_r.
  apply bool_decide_eq_true. unfold picture_text.
  destruct (render_shows 0 (wafer_map r) (edge_exclusion_mm (scan cfg)) Hw Hc) as (pixels & -> & _). by eexists.
Qed.

#[local] Existing Instances two_trig no_noise every_time coarse_library.

Lemma coarse_bounded : atan_bounded (L := coarse_library).
Proof.
  intros y x _ _. cbn [atan2 coarse_library]. unfold coarse_atan2.
  repeat (destruct (SFltb _ _)); apply angle_in_eval; vm_compute; reflexivity.
Qed.

(** The default configuration, with a seed and an output directory from the command line. *)
Definition sample_main (argv : list string) : option (CliEnd * gset string * Disk) :=
  cli_main (json := Value) (G := unit) (N := unit) (fun _ => None) (fun _ => Ok (v_int 0)) 0 0 951827696789000000
    (fun _ _ => double_of_Z 0) 5 None (fun _ => None) sound_disk (fun _ => EmptyString)
    (fun _ _ _ => Some EmptyString) (fun _ => true) (fun _ port => inl port) argv ∅ ∅.


(** ** Where it goes wrong *)

(** The overrides of the command line come after validation: a port of 70000 is taken and the
    server then listens on 4464, and a negative real-time factor passes. *)
Lemma overrides_unchecked :
  let opts := mkOptions None (Some 70000) None (Some (double_of_Z (-1))) None None false true None in
  exists cfg, build_config (json := Value) (fun _ => None) (fun _ => Ok (v_int 0)) opts = (Some cfg, []) /\
    is_Some (validate cfg) /\ server_port (server_config_from 0 (ConfigFile.comm cfg)) = 4464 /\
    SFltb (realtime_factor (scan cfg)) (double_of_Z 0) = true.
Proof. eexists. split; [reflexivity|]. split; [by eexists|]. split; vm_compute; reflexivity. Qed.

(** The setting that asks for no sample file is never read: the output is the same. *)
Lemma save_samples_ignored {L : MapLibrary} fs dump encode mkdir_error cfg save run_dir run_id ms w r disk :
  let o := output cfg in
  let cfg' := mkConfig (machine cfg) (wafer cfg) (scan cfg) (noise cfg) (faults cfg) (analysis cfg) (cassette cfg)
    (ConfigFile.comm cfg) (mkOutput (output_dir o) save (sample_decimation o)) in
  output_wafer 0 fs dump encode mkdir_error cfg' run_dir run_id ms w r disk =
  output_wafer 0 fs dump encode mkdir_error cfg run_dir run_id ms w r disk.
Proof. done. Qed.
