(* ===== verification/PanelMain.v ===== *)
(** * equipment_qt

    src/app_qt/main.cpp: the arguments of the panel, the configuration with its overrides and
    the window, up to Qt's event loop, whose steps are those of Panel. *)

From stdpp Require Import strings gmap.
From S2P Require Import CLibrary WallTime LineFilter Controller MachineApi WaferStress ConfigFile WaferOutput WaferMapWidget SettingsDialog EventBridge Panel CliArguments AppCli Prelude.

(** How [main] ends, or the panel it leaves to the event loop, with the standard error. *)
Inductive PanelEnd (Color : Type) :=
| panel_exits (code : Z) (err : list string)
| panel_terminates (what : string)
| panel_runs (err : list string) (p : Panel Color).
Arguments panel_exits {Color}.
Arguments panel_terminates {Color}.
Arguments panel_runs {Color}.

Definition panel_usage : string := "usage: equipment_qt [--config PATH] [--out DIR] [--rtf X]".

Definition is_flag (arg : string) : bool :=
  String.eqb arg "--config" || String.eqb arg "--out" || String.eqb arg "--rtf".

(** The first loop: pairs of a flag and its value; the path of the configuration. *)
Fixpoint find_config (argv : list string) (config_path : string) : option string :=
  match argv with
  | [] => Some config_path
  | arg :: value :: argv =>
      if is_flag arg then find_config argv (if String.eqb arg "--config" then value else config_path) else None
  | [_] => None
  end.

Definition apply_override (arg value : string) (c : Config) : Converted Config :=
  let c := if String.eqb arg "--out" then override_dir value c else c in
  if String.eqb arg "--rtf" then
    match std_stod value with converted x => converted (override_rtf x c) | threw what => threw what end
  else converted c.

(** The second loop looks at every argument that has one after it. *)
Fixpoint apply_overrides (argv : list string) (c : Config) : Converted Config :=
  match argv with
  | arg :: (value :: _) as rest =>
      match apply_override arg value c with converted c => apply_overrides rest c | threw what => threw what end
  | _ => converted c
  end.

Section main.
Context {T : QtText} {Color : Type} {C : ColorLibrary Color}.
Context {json : Type} {J : Json json} (read_file : string -> option string) (parse_json : string -> Result json).
Context (mkdir_error : string -> option string) (root_error : option string) (now_ns : Z).

Definition panel_config (config_path : string) : Result (Config * list string) :=
  if String.eqb config_path "" then Ok (default_config, [])
  else load_config_file read_file parse_json config_path.

(** [main]; [ds] are the directories that exist. *)
Definition panel_main (argv : list string) (ds : gset string) : PanelEnd Color :=
  match find_config argv EmptyString with
  | None => panel_exits kExitConfigError [panel_usage]
  | Some config_path =>
      match panel_config config_path with
      | Err e => panel_exits kExitConfigError ["config error: " +:+ message e]
      | Ok (config, warnings) =>
          let err := (fun w => "config warning: " +:+ w) <$> warnings in
          match apply_overrides argv config with
          | threw what => panel_terminates what
          | converted config =>
              let '(error, p) := rebuild mkdir_error root_error config now_ns (new_panel ds) in
              if String.eqb error "" then panel_runs err p
              else panel_exits kExitRuntimeFault (err ++ ["runtime fault: " +:+ error])
          end
      end
  end.

(** ** How it ends *)

Lemma try_names_error base root attempts ds : forall e, (try_names mkdir_error root base attempts ds).1 = Err e -> message e <> EmptyString.
Proof.
  induction attempts as [|a attempts IH]; cbn [try_names]; [by intros e [= <-]|]. intros e.
  destruct (mkdir_error _); [by intros [= <-]|]. case_bool_decide; [apply IH|done].
Qed.

Lemma run_dir_error root base ds e : (create_run_dir mkdir_error root base root_error ds).1 = Err e -> message e <> EmptyString.
Proof. unfold create_run_dir. destruct root_error; [by intros [= <-]|apply try_names_error]. Qed.

(** A rebuilt panel, or the reason why not. *)
Lemma rebuild_ends config ds :
  let '(made, ds') := create_run_dir mkdir_error (output_dir (output config)) (make_run_id now_ns) root_error ds in
  let '(error, p) := rebuild (T := T) (Color := Color) mkdir_error root_error config now_ns (new_panel ds) in
  match made with
  | Ok run_dir => error = EmptyString /\ config_ p = config /\ dirs p = ds' /\
      exists m, runtime_ p = Some m /\ run_dir_ m = run_dir /\ api m = new_api
  | Err e => error = message e /\ error <> EmptyString /\ runtime_ p = None
  end.
Proof.
  pose proof (run_dir_error (output_dir (output config)) (make_run_id now_ns) ds) as He.
  unfold rebuild. change (0 <? in_flight_ _) with false. cbv iota. unfold create. cbn [dirs on_window set_window set_runtime set_bridge new_panel refresh].
  destruct (create_run_dir _ _ _ _ ds) as [[run_dir|e] ds']; cbn [result_bind].
  - split_and!; try done. eexists. split; [reflexivity|done].
  - split_and!; try done. by apply He.
Qed.

Lemma override_threw argv : forall c what, apply_overrides argv c = threw what ->
  exists before value after, argv = before ++ "--rtf"%string :: value :: after /\ std_stod value = threw what.
Proof.
  induction argv as [|arg argv IH]; intros c what; [done|]. destruct argv as [|value argv]; [done|]. cbn [apply_overrides].
  unfold apply_override at 1. destruct (String.eqb_spec arg "--rtf") as [->|Hne].
  - destruct (std_stod value) as [x|w] eqn:E.
    + intros H. destruct (IH _ _ H) as (before & v & after & -> & Hv). by exists ("--rtf"%string :: before), v, after.
    + intros [= <-]. by exists [], value, argv.
  - intros H. destruct (IH _ _ H) as (before & v & after & -> & Hv). by exists (arg :: before), v, after.
Qed.

(** Every run of equipment_qt, up to the event loop: it ends with exit code 2 for arguments
    that are not pairs of a flag and a value, or for a configuration that does not load, with
    exit code 3 when no directory for the run can be made, by an exception for an --rtf
    followed by what is no number, and otherwise leaves a panel with a new machine under the
    overridden configuration, in a new directory. *)
Theorem panel_main_ends argv ds :
  match panel_main argv ds with
  | panel_exits code err =>
      code = kExitConfigError /\ find_config argv EmptyString = None /\ err = [panel_usage] \/
      (exists path e, find_config argv EmptyString = Some path /\ panel_config path = Err e /\
         code = kExitConfigError /\ err = ["config error: " +:+ message e]) \/
      (exists path config warnings config' e, find_config argv EmptyString = Some path /\
         panel_config path = Ok (config, warnings) /\ apply_overrides argv config = converted config' /\
         (create_run_dir mkdir_error (output_dir (output config')) (make_run_id now_ns) root_error ds).1 = Err e /\
         code = kExitRuntimeFault /\
         err = ((fun w => "config warning: " +:+ w) <$> warnings) ++ ["runtime fault: " +:+ message e])
  | panel_terminates what =>
      exists before value after, argv = before ++ "--rtf"%string :: value :: after /\ std_stod value = threw what
  | panel_runs err p =>
      exists path config warnings run_dir m, find_config argv EmptyString = Some path /\
        panel_config path = Ok (config, warnings) /\ apply_overrides argv config = converted (config_ p) /\
        create_run_dir mkdir_error (output_dir (output (config_ p))) (make_run_id now_ns) root_error ds = (Ok run_dir, dirs p) /\
        runtime_ p = Some m /\ run_dir_ m = run_dir /\ api m = new_api /\
        err = (fun w => "config warning: " +:+ w) <$> warnings
  end.
Proof.
  unfold panel_main. destruct (find_config argv EmptyString) as [path|] eqn:Ef; [|by left].
  destruct (panel_config path) as [[config warnings]|e] eqn:Ec; [|right; left; by exists path, e].
  destruct (apply_overrides argv config) as [config'|what] eqn:Eo; [|by eapply override_threw].
  pose proof (rebuild_ends config' ds) as Hr.
  destruct (create_run_dir _ _ _ _ ds) as [made ds'] eqn:Ed.
  destruct (rebuild _ _ config' now_ns _) as [error p]. destruct made as [run_dir|e].
  - destruct Hr as (-> & <- & <- & m & Em & Er & Ea). cbn [String.eqb]. by exists path, config, warnings, run_dir, m.
  - destruct Hr as (-> & Hne & _). apply String.eqb_neq in Hne as ->. right. right.
    exists path, config, warnings, config', e. rewrite Ed. by split_and!.
Qed.

End main.

(** ** What the overrides mean *)

Definition arguments (l : list (string * string)) : list string := concat (map (fun '(f, v) => [f; v]) l).

(** As long as no value is itself the name of an overriding flag, the loop over all positions
    does what a loop over the pairs would. *)
Theorem overrides_are_pairs l c :
  Forall (fun '(_, v) => v <> "--out" /\ v <> "--rtf")%string l ->
  apply_overrides (arguments l) c =
    foldl (fun r '(f, v) => match r with converted c => apply_override f v c | threw what => threw what end) (converted c) l.
Proof.
  assert (Ht : forall (l : list (string * string)) what, foldl (fun (r : Converted Config) '(f, v) =>
    match r with converted c => apply_override f v c | threw what => threw what end) (threw what) l = threw what).
  { clear. induction l as [|[f v] l IH]; intros what; [done|]. apply IH. }
  intros Hl. revert c. induction Hl as [|[f v] l [H1 H2] _ IH]; intros c; [done|].
  cbn [arguments map concat app apply_overrides foldl]. destruct (apply_override f v c) as [c'|what]; [|by rewrite Ht].
  rewrite <- IH. fold (arguments l). destruct (arguments l) as [|f' rest]; [done|]. cbn [apply_overrides].
  unfold apply_override at 1. apply String.eqb_neq in H1 as ->. apply String.eqb_neq in H2 as ->. done.
Qed.

Lemma overrides_are_pairs_witness :
  apply_overrides ["--out"; "a"; "--out"; "b"]%string default_config = converted (override_dir "b" default_config).
Proof.
  pose proof (overrides_are_pairs [("--out", "a"); ("--out", "b")]%string default_config) as H.
  unfold arguments in H. cbn [map concat app] in H. rewrite H by (repeat constructor; discriminate). reflexivity.
Defined.

(** A configuration file called --out: the directory becomes the next flag. *)
Lemma override_reads_value :
  find_config ["--config"; "--out"; "--rtf"; "5"]%string EmptyString = Some "--out"%string /\
  match apply_overrides ["--config"; "--out"; "--rtf"; "5"]%string default_config with
  | converted c => output_dir (output c) = "--rtf"%string
  | threw _ => False
  end.
Proof. vm_compute. done. Qed.
