(* ===== verification/HostPattern.v ===== *)
(** * Items and patterns of the host simulator

    include/ssim/host_sim/pattern.hpp and src/host_sim/pattern.cpp: the text of
    SECS-II items in host scripts, its recursive-descent parser and the matching of
    received items. [text_] and [pos_] of the parser are the text still to read. *)

From S2P Require Import Prelude CLibrary Secs2Item.

Definition kErrPatternSyntax : Z := 600.

(** [struct Pattern], by its [kind]: the fields a kind does not use keep their
    defaults in the code. *)
Inductive Pattern :=
| kAnyItem
| kAnyOfFormat (format : Format)
| kAnyList
| kListOf (children : list Pattern)
| kExact (exact : Item).

(** ** Equality of items *)

(** [operator==] of [Item]: formats and storage, in which F4 and F8 elements are
    compared as the floating-point numbers they are. *)
Definition float_eqb (x y : Z) : bool := SFeqb (float_of_bits x) (float_of_bits y).
Definition double_eqb (x y : Z) : bool := SFeqb (double_of_bits x) (double_of_bits y).

Fixpoint vector_eqb {A} (eqb : A -> A -> bool) (x y : list A) : bool :=
  match x, y with
  | [], [] => true
  | a :: x, b :: y => eqb a b && vector_eqb eqb x y
  | _, _ => false
  end.

Fixpoint item_eqb (x y : Item) : bool :=
  match x, y with
  | list_ a, list_ b =>
      (fix go (a b : list Item) : bool :=
         match a, b with
         | [], [] => true
         | x :: a, y :: b => item_eqb x y && go a b
         | _, _ => false
         end) a b
  | ascii_ a, ascii_ b => bool_decide (a = b)
  | binary a, binary b | boolean a, boolean b | i1 a, i1 b | i2 a, i2 b | i4 a, i4 b | i8 a, i8 b
  | u1 a, u1 b | u2 a, u2 b | u4 a, u4 b | u8 a, u8 b => vector_eqb Z.eqb a b
  | f4 a, f4 b => vector_eqb float_eqb a b
  | f8 a, f8 b => vector_eqb double_eqb a b
  | _, _ => false
  end.

(** ** The parser *)

(** What a parsing function makes of the text still to read: a value and the text
    after it, or an error; [None] is a parser out of fuel. *)
Definition Parsed (A : Type) : Type := option (Result (A * string)).

Definition parsed_bind {A B} (r : Parsed A) (k : A -> string -> Parsed B) : Parsed B :=
  match r with
  | Some (Ok (a, s)) => k a s
  | Some (Err e) => Some (Err e)
  | None => None
  end.

Definition rest_of (s : string) : string :=
  match s with String _ s => s | EmptyString => EmptyString end.

Definition format_from_name (n : string) : option Format :=
  if bool_decide (n = "L") then Some kList
  else if bool_decide (n = "B") then Some kBinary
  else if bool_decide (n = "BOOLEAN") || bool_decide (n = "BOOL") then Some kBoolean
  else if bool_decide (n = "A") then Some kAscii
  else if bool_decide (n = "I1") then Some kI1
  else if bool_decide (n = "I2") then Some kI2
  else if bool_decide (n = "I4") then Some kI4
  else if bool_decide (n = "I8") then Some kI8
  else if bool_decide (n = "U1") then Some kU1
  else if bool_decide (n = "U2") then Some kU2
  else if bool_decide (n = "U4") then Some kU4
  else if bool_decide (n = "U8") then Some kU8
  else if bool_decide (n = "F4") then Some kF4
  else if bool_decide (n = "F8") then Some kF8
  else None.

(** The conversions of one word of an array. *)
Definition parse_signed (bits : Z) (w : string) : option Z :=
  match strtoll w with
  | Some (v, false, EmptyString) =>
      if (v <? - 2 ^ (bits - 1)) || (2 ^ (bits - 1) - 1 <? v) then None else Some v
  | _ => None
  end.

Definition parse_unsigned (bits : Z) (w : string) : option Z :=
  if at_char "-" w then None
  else
    match strtoull w with
    | Some (v, false, EmptyString) => if 2 ^ bits - 1 <? v then None else Some v
    | _ => None
    end.

Definition parse_float (w : string) : option double :=
  match strtod w with
  | Some (v, false, EmptyString) => Some v
  | _ => None
  end.

Definition parse_boolean (w : string) : option Z :=
  if bool_decide (w = "true") || bool_decide (w = "1") then Some 1
  else if bool_decide (w = "false") || bool_decide (w = "0") then Some 0
  else None.

(** [collect]: the values of the words, or the first word that is none. *)
Fixpoint collect {A} (parse : string -> option A) (words : list string) : string + list A :=
  match words with
  | [] => inr []
  | w :: words =>
      match parse w with
      | None => inl w
      | Some v => match collect parse words with inl bad => inl bad | inr l => inr (v :: l) end
      end
  end.

Definition is_separator (c : ascii) : bool := isspace c || bool_decide (c = ","%char).
Definition in_word (c : ascii) : bool :=
  negb (bool_decide (c = "]"%char)) && negb (bool_decide (c = ","%char)) && negb (isspace c).

Section parser.
Context (size : nat) (wild_ : bool).

Definition fail {A} (what : string) (s : string) : Result A :=
  Err (mkError kErrPatternSyntax
         (what +:+ " (at character " +:+ pretty (size - String.length s + 1)%nat +:+ ")")).

(** [parse_string], after the opening quote. *)
Fixpoint parse_string (s : string) : Result (string * string) :=
  match s with
  | EmptyString => fail "a string is not closed" s
  | String c s =>
      if bool_decide (c = quote) then Ok (EmptyString, s)
      else if bool_decide (c = "\"%char) then
        match s with
        | EmptyString => fail "a string ends in a backslash" s
        | String e s =>
            if negb (bool_decide (e = quote)) && negb (bool_decide (e = "\"%char))
            then fail ("only \" +:+ String quote " and \\ are escapes") s
            else let? ' (v, s) := parse_string s in Ok (String e v, s)
        end
      else let? ' (v, s) := parse_string s in Ok (String c v, s)
  end.

(** [read_words]: [Ok None] when the text ends before the closing bracket. *)
Fixpoint read_words (fuel : nat) (s : string) : option (option (list string) * string) :=
  match fuel with
  | O => None
  | S fuel =>
      let s := (span is_separator s).2 in
      match s with
      | EmptyString => Some (None, s)
      | String c s' =>
          if bool_decide (c = "]"%char) then Some (Some [], s')
          else
            let '(w, s) := span in_word s in
            match read_words fuel s with
            | Some (Some words, s) => Some (Some (w :: words), s)
            | r => r
            end
      end
  end.

(** The switch of [parse_array]: the item made of the words. *)
Definition array_item (format : Format) (words : list string) : string + Item :=
  let made {A} (make : list A -> Item) (r : string + list A) : string + Item :=
    match r with inl bad => inl bad | inr l => inr (make l) end in
  match format with
  | kBinary => made binary (collect (parse_unsigned 8) words)
  | kBoolean => made boolean (collect parse_boolean words)
  | kI1 => made i1 (collect (parse_signed 8) words)
  | kI2 => made i2 (collect (parse_signed 16) words)
  | kI4 => made i4 (collect (parse_signed 32) words)
  | kI8 => made i8 (collect (parse_signed 64) words)
  | kU1 => made u1 (collect (parse_unsigned 8) words)
  | kU2 => made u2 (collect (parse_unsigned 16) words)
  | kU4 => made u4 (collect (parse_unsigned 32) words)
  | kU8 => made u8 (collect (parse_unsigned 64) words)
  | kF4 => made (fun v => f4 (map (fun x => float_bits (to_float x)) v)) (collect parse_float words)
  | kF8 => made (fun v => f8 (map double_bits v)) (collect parse_float words)
  | kAscii | kList | kJis8 => inr (ascii_ EmptyString)
  end.

Definition parse_array (format : Format) (s : string) : Parsed Pattern :=
  match read_words (S (String.length s)) s with
  | None => None
  | Some (None, s) => Some (fail "an array is not closed" s)
  | Some (Some words, s) =>
      Some
        match format with
        | kAscii =>
            match words with
            | [] => Ok (kExact (ascii_ EmptyString), s)
            | _ => fail ("write a string as A" +:+ String quote ("text" +:+ String quote EmptyString)) s
            end
        | kList | kJis8 => fail "unsupported item type" s
        | _ =>
            match array_item format words with
            | inl bad => fail ("'" +:+ bad +:+ "' is not a valid value for this type") s
            | inr it => Ok (kExact it, s)
            end
        end
  end.

(** [parse_node], with the function that reads a list. *)
Definition node_body (parse_list : string -> Parsed (list Pattern)) (s : string) : Parsed Pattern :=
  let s := skip_space s in
  if bool_decide (s = EmptyString) then Some (fail "an item is missing" s)
  else if at_char "*" s then
    if negb wild_ then Some (fail "wildcards are only allowed in patterns" s)
    else Some (Ok (kAnyItem, rest_of s))
  else
    let '(name, s) := span isalnum s in
    if bool_decide (name = EmptyString) then Some (fail "an item type is expected" s)
    else
      match format_from_name name with
      | None => Some (fail ("unknown item type '" +:+ name +:+ "'") s)
      | Some format =>
          if bool_decide (format = kAscii) && at_char quote s then
            Some (let? ' (v, s) := parse_string (rest_of s) in Ok (kExact (ascii_ v), s))
          else if negb (at_char "[" s) then Some (fail ("'[' is expected after " +:+ name) s)
          else
            let s := skip_space (rest_of s) in
            if at_char "*" s then
              if negb wild_ then Some (fail "wildcards are only allowed in patterns" s)
              else
                let s := skip_space (rest_of s) in
                if negb (at_char "]" s) then Some (fail "']' is expected after '*'" s)
                else Some (Ok (if bool_decide (format = kList) then kAnyList
                               else kAnyOfFormat format, rest_of s))
            else if bool_decide (format = kList) then
              parsed_bind (parse_list s) (fun children s => Some (Ok (kListOf children, s)))
            else parse_array format s
      end.

(** A round of the loop of [parse_list], and the rounds after it. *)
Definition list_body (parse_node : string -> Parsed Pattern)
  (parse_list : string -> Parsed (list Pattern)) (s : string) : Parsed (list Pattern) :=
  let s := skip_space s in
  if bool_decide (s = EmptyString) then Some (fail "a list is not closed" s)
  else if at_char "]" s then Some (Ok ([], rest_of s))
  else
    parsed_bind (parse_node s) (fun child s =>
      parsed_bind (parse_list s) (fun children s => Some (Ok (child :: children, s)))).

Fixpoint parse_node (fuel : nat) (s : string) : Parsed Pattern :=
  match fuel with
  | O => None
  | S fuel => node_body (parse_list fuel) s
  end
with parse_list (fuel : nat) (s : string) : Parsed (list Pattern) :=
  match fuel with
  | O => None
  | S fuel => list_body (parse_node fuel) (parse_list fuel) s
  end.

Lemma parse_node_S fuel s : parse_node (S fuel) s = node_body (parse_list fuel) s.
Proof. reflexivity. Qed.
Lemma parse_list_S fuel s : parse_list (S fuel) s = list_body (parse_node fuel) (parse_list fuel) s.
Proof. reflexivity. Qed.

Definition parse_all (fuel : nat) (s : string) : option (Result Pattern) :=
  match parse_node fuel s with
  | Some (Ok (node, s)) =>
      let s := skip_space s in
      Some (if bool_decide (s = EmptyString) then Ok node else fail "unexpected text after the item" s)
  | Some (Err e) => Some (Err e)
  | None => None
  end.

End parser.

Fixpoint to_item (p : Pattern) : Item :=
  match p with
  | kExact it => it
  | kListOf children => list_ (map to_item children)
  | kAnyItem | kAnyOfFormat _ | kAnyList => list_ []
  end.

(** Enough for any text: every list takes two characters and two levels. *)
Definition parser_fuel (text : string) : nat := 2 * String.length text + 1.

(** The error value stands for a parser out of fuel, which [parser_total] excludes. *)
Definition parse_text (wild : bool) (text : string) : Result Pattern :=
  default (Err (mkError 0 EmptyString)) (parse_all (String.length text) wild (parser_fuel text) text).

Definition parse_item (text : string) : Result Item :=
  match parse_text false text with Ok p => Ok (to_item p) | Err e => Err e end.

Definition parse_pattern (text : string) : Result Pattern := parse_text true text.

Fixpoint matches (pattern : Pattern) (item : Item) : bool :=
  match pattern with
  | kAnyItem => true
  | kAnyOfFormat f => bool_decide (format item = f)
  | kAnyList => is_list item
  | kExact it => item_eqb item it
  | kListOf children =>
      match as_list item with
      | None => false
      | Some items =>
          (fix go (ps : list Pattern) (is_ : list Item) : bool :=
             match ps, is_ with
             | [], [] => true
             | p :: ps, i :: is_ => matches p i && go ps is_
             | _, _ => false
             end) children items
      end
  end.

(** ** The parser ends *)

Lemma rest_of_length c s : at_char c s = true -> String.length s = S (String.length (rest_of s)).
Proof. by destruct s. Qed.

Lemma skip_space_length s : (String.length (skip_space s) <= String.length s)%nat.
Proof. apply span_length. Qed.

Lemma span_progress p s : (span p s).1 <> EmptyString ->
  (String.length (span p s).2 < String.length s)%nat.
Proof.
  destruct (span p s) as [a b] eqn:H. destruct (span_spec _ _ _ _ H) as (-> & _). simpl.
  rewrite string_length_app. destruct a; simpl; [done|lia].
Qed.

Section total.
Context (size : nat) (wild : bool).


Lemma read_words_total fuel s : (String.length s < fuel)%nat ->
  exists r s', read_words fuel s = Some (r, s') /\ (String.length s' <= String.length s)%nat.
Proof.
  revert s. induction fuel as [|fuel IH]; intros s Hs; [lia|]. cbn [read_words].
  destruct (span is_separator s) as [a s1] eqn:H1. destruct (span_spec _ _ _ _ H1) as (-> & _ & Hstop).
  rewrite string_length_app in *. cbn [snd]. destruct s1 as [|c s1]; [eexists _, _; split; [done|simpl; lia]|].
  case_bool_decide as Hc; [eexists _, _; split; [done|simpl; lia]|].
  assert (in_word c = true) as Hw.
  { simpl in Hstop. apply negb_true_iff, orb_false_iff in Hstop as [Hsp Hco]. unfold in_word.
    rewrite Hsp, Hco. by rewrite bool_decide_eq_false_2. }
  pose proof (span_progress in_word (String c s1)) as Hp.
  destruct (span in_word (String c s1)) as [w s2] eqn:H2. cbn [fst snd] in Hp.
  assert (String.length s2 < String.length (String c s1))%nat as Hlen.
  { apply Hp. intros ->. apply span_spec in H2 as (H2 & _ & Hst). simpl in H2. subst s2.
    simpl in Hst. by rewrite Hw in Hst. }
  destruct (IH s2) as (r & s' & -> & Hs'); [simpl in *; lia|].
  destruct r; eexists _, _; (split; [done|simpl in *; lia]).
Qed.

(** A result that consumes the text, or is a syntax error. *)
Definition consumes {A} (s : string) (r : Parsed A) : Prop :=
  match r with
  | Some (Ok (_, s')) => (String.length s' < String.length s)%nat
  | Some (Err e) => code e = kErrPatternSyntax
  | None => False
  end.

Lemma consumes_weaken {A} s t (r : Parsed A) :
  consumes s r -> (String.length s <= String.length t)%nat -> consumes t r.
Proof. destruct r as [[[a s']|]|]; simpl; [lia|done|done]. Qed.

Lemma consumes_bind {A B} s (r : Parsed A) (k : A -> string -> Parsed B) : consumes s r ->
  (forall a s', (String.length s' < String.length s)%nat -> consumes s (k a s')) ->
  consumes s (parsed_bind r k).
Proof. destruct r as [[[a s']|]|]; simpl; auto. Qed.

Lemma parse_string_consumes s : consumes s (Some (parse_string size s)).
Proof.
  induction s as [s IH] using (induction_ltof1 _ String.length). unfold ltof in IH.
  destruct s as [|c s]; [done|]. cbn [parse_string].
  case_match; [simpl; lia|]. case_match; [|].
  - destruct s as [|e s]; [done|]. case_match; [done|]. specialize (IH s).
    destruct (parse_string size s) as [[v s']|]; simpl in *; [lia|apply IH; lia].
  - specialize (IH s). destruct (parse_string size s) as [[v s']|]; simpl in *; [lia|apply IH; lia].
Qed.

Lemma parse_array_consumes format s t : (String.length s < String.length t)%nat ->
  consumes t (parse_array size format s).
Proof.
  intros Hs. unfold parse_array.
  destruct (read_words_total (S (String.length s)) s) as (r & s' & -> & Hs'); [lia|].
  destruct r as [words|]; [|done].
  destruct format; try done; try (destruct words; simpl; [lia|done]); destruct (array_item _ words); simpl; lia || done.
Qed.

Lemma parse_consumes fuel :
  (forall s, (2 * String.length s < fuel)%nat -> consumes s (parse_node size wild fuel s)) /\
  (forall s, (2 * String.length s + 1 < fuel)%nat -> consumes s (parse_list size wild fuel s)).
Proof.
  induction fuel as [|fuel [IHn IHl]]; [split; intros; lia|]. split; intros s Hs.
  - rewrite parse_node_S. unfold node_body. pose proof (skip_space_length s) as H0.
    case_bool_decide; [done|]. destruct (at_char "*" (skip_space s)) eqn:Hstar.
    { apply rest_of_length in Hstar. case_match; simpl; [done|lia]. }
    pose proof (span_progress isalnum (skip_space s)) as H1.
    destruct (span isalnum (skip_space s)) as [name s1]. cbn [fst snd] in H1.
    case_bool_decide as Hname; [done|]. specialize (H1 Hname).
    destruct (format_from_name name) as [f|]; [|done].
    case_match eqn:Hq.
    { apply andb_prop in Hq as [_ Hq%rest_of_length].
      pose proof (parse_string_consumes (rest_of s1)) as Hp.
      destruct (parse_string size (rest_of s1)) as [[v s']|]; simpl in *; [lia|done]. }
    destruct (at_char "[" s1) eqn:Hb; [|done]. apply rest_of_length in Hb. simpl negb.
    pose proof (skip_space_length (rest_of s1)) as H2. cbn iota.
    destruct (at_char "*" (skip_space (rest_of s1))) eqn:Hs2.
    { apply rest_of_length in Hs2. case_match; [done|].
      pose proof (skip_space_length (rest_of (skip_space (rest_of s1)))) as Hr.
      destruct (at_char "]" (skip_space (rest_of (skip_space (rest_of s1))))) eqn:Hs3; [|done]. apply rest_of_length in Hs3. simpl. lia. }
    destruct (bool_decide (f = kList)); [|apply parse_array_consumes; lia].
    apply consumes_bind; [|done]. eapply consumes_weaken; [apply IHl|]; lia.
  - rewrite parse_list_S. unfold list_body. pose proof (skip_space_length s) as H0.
    case_bool_decide; [done|]. destruct (at_char "]" _) eqn:Hb; [apply rest_of_length in Hb; simpl; lia|].
    apply consumes_bind; [eapply consumes_weaken; [apply IHn|]; lia|]. intros p s' Hlt.
    apply consumes_bind; [eapply consumes_weaken; [apply IHl|]; lia|done].
Qed.

End total.

(** The parser of items and patterns ends on every text, without running out of
    the levels the model gives it: whatever a script contains, [parse_item] and
    [parse_pattern] return an item, a pattern or a syntax error. *)
Theorem parser_total wild text : exists r,
  parse_all (String.length text) wild (parser_fuel text) text = Some r /\ parse_text wild text = r /\
  (forall e, r = Err e -> code e = kErrPatternSyntax).
Proof.
  unfold parse_text, parse_all, parser_fuel.
  pose proof (proj1 (parse_consumes (String.length text) wild (2 * String.length text + 1)) text) as H.
  destruct (parse_node _ _ _ _) as [[[p s']|e]|]; simpl in H; [| |destruct (H ltac:(lia))].
  - case_bool_decide; eexists; (split; [done|]); (split; [done|]); intros e He; [done|].
    by injection He as <-.
  - eexists. split; [done|]. split; [done|]. intros e' He. simplify_eq. apply H. lia.
Qed.

(** ** What the parser yields *)

(** An array or string as scripts can write it: elements fit their type, booleans are
    0 or 1, and a NaN is the one bit pattern [strtod] gives. *)
Definition written (it : Item) : Prop :=
  match it with
  | list_ _ => False
  | boolean v => Forall (fun b => b = 0 \/ b = 1) v
  | f4 v => Forall (fun x => uint_ok 32 x /\ float_bits (float_of_bits x) = x) v
  | f8 v => Forall (fun x => uint_ok 64 x /\ double_bits (double_of_bits x) = x) v
  | _ => item_ok it
  end.

(** A pattern the parser can yield; a list cannot begin with a bare [*], which reads
    as the beginning of [L[*]]. *)
Fixpoint pattern_ok (wild : bool) (p : Pattern) : Prop :=
  match p with
  | kAnyItem | kAnyList => wild = true
  | kAnyOfFormat f => wild = true /\ f <> kList /\ f <> kJis8
  | kListOf children =>
      head children <> Some kAnyItem /\ fold_right (fun c acc => pattern_ok wild c /\ acc) True children
  | kExact it => written it
  end.

Section pattern_ind.
  Variable P : Pattern -> Prop.
  Hypothesis Hlist : forall children, Forall P children -> P (kListOf children).
  Hypothesis Hother : forall p, (forall children, p <> kListOf children) -> P p.

Fixpoint pattern_ind' (p : Pattern) : P p.
Proof.
  destruct p as [| | |children|]; try (apply Hother; congruence).
  apply Hlist. induction children; constructor; auto.
Defined.
End pattern_ind.

Lemma pattern_ok_list wild l :
  pattern_ok wild (kListOf l) <-> head l <> Some kAnyItem /\ Forall (pattern_ok wild) l.
Proof.
  simpl. apply and_iff_compat_l.
  induction l as [|p l IH]; simpl; [by split; constructor|]. rewrite Forall_cons. by rewrite IH.
Qed.

Lemma collect_Forall {A} (parse : string -> option A) (Q : A -> Prop) words l :
  (forall w v, parse w = Some v -> Q v) -> collect parse words = inr l -> Forall Q l.
Proof.
  intros HQ. revert l. induction words as [|w words IH]; simpl; intros l H; [by simplify_eq|].
  destruct (parse w) eqn:Hw; [|done]. destruct (collect parse words); simplify_eq. eauto.
Qed.

Lemma parse_unsigned_ok bits w v : 0 <= bits -> parse_unsigned bits w = Some v -> uint_ok bits v.
Proof.
  unfold parse_unsigned. intros Hb H. case_match; [done|].
  destruct (strtoull w) as [[[x []] []]|] eqn:Hw; try done. case_match; [done|]. simplify_eq.
  apply Z.ltb_ge in H1. unfold uint_ok. unfold strtoull in Hw.
  destruct (read_integer w) as [[[neg n] r]|]; [|done]. case_match; simplify_eq.
  pose proof (wrap_range 64 (if neg then - n else n)). int_lia.
Qed.

Lemma parse_signed_ok bits w v : parse_signed bits w = Some v -> sint_ok bits v.
Proof.
  unfold parse_signed. intros H. destruct (strtoll w) as [[[x []] []]|]; try done.
  case_match eqn:Hr; [done|]. simplify_eq. apply orb_false_iff in Hr as [H1%Z.ltb_ge H2%Z.ltb_ge].
  int_lia.
Qed.

Lemma parse_boolean_ok w v : parse_boolean w = Some v -> v = 0 \/ v = 1.
Proof. unfold parse_boolean. intros H. repeat case_match; simplify_eq; auto. Qed.

Lemma parse_float_ok w v : parse_float w = Some v -> valid_binary prec64 emax64 v = true.
Proof.
  unfold parse_float. intros H. destruct (strtod w) as [[[x []] []]|] eqn:Hw; simplify_eq.
  by eapply strtod_valid.
Qed.

Lemma array_item_written format words it : array_item format words = inr it ->
  format <> kList -> written it.
Proof.
  intros H Hl. destruct format; simpl in H; try done; try (by simplify_eq);
    match type of H with context [collect ?f ?w] => destruct (collect f w) as [bad|l] eqn:Hc; [done|] end;
    simplify_eq; simpl;
    try (eapply collect_Forall, Hc; intros; first
      [by eapply parse_boolean_ok | by eapply parse_signed_ok | eapply parse_unsigned_ok; [|done]; lia]).
  - apply Forall_map. eapply collect_Forall, Hc. intros w v Hv%parse_float_ok.
    split; [by apply double_bits_range|]. simpl. by rewrite double_of_double_bits.
  - apply Forall_map. eapply collect_Forall, Hc. intros w v Hv%parse_float_ok. simpl.
    pose proof (to_float_valid v). split; [by apply float_bits_range|]. by rewrite float_of_float_bits.
Qed.

Lemma format_from_name_supported n f : format_from_name n = Some f -> f <> kJis8.
Proof. unfold format_from_name. intros H. repeat case_match; simplify_eq; done. Qed.

(** Everything [parse_node] and [parse_list] return satisfies [Q]. *)
Definition yields {A} (Q : A -> Prop) (r : Parsed A) : Prop :=
  match r with Some (Ok (a, _)) => Q a | _ => True end.

Lemma yields_bind {A B} (Q : A -> Prop) (R : B -> Prop) r (k : A -> string -> Parsed B) :
  yields Q r -> (forall a s, Q a -> yields R (k a s)) -> yields R (parsed_bind r k).
Proof. destruct r as [[[a s]|]|]; simpl; auto. Qed.

Lemma parse_array_yields size format s : format <> kList -> format <> kJis8 ->
  yields (fun p => exists it, p = kExact it /\ written it) (parse_array size format s).
Proof.
  intros Hl Hj. unfold parse_array. destruct (read_words _ s) as [[[words|] s']|]; try done.
  destruct format; try done; try (by destruct words; [by eexists|]); cbv iota;
    match goal with |- context [array_item ?f ?w] => destruct (array_item f w) as [bad|it] eqn:H end;
    try done; eexists; (split; [done|]); by eapply array_item_written.
Qed.

Lemma skip_space_idem s : skip_space (skip_space s) = skip_space s.
Proof.
  apply skip_space_stops. unfold skip_space. destruct (span isspace s) as [a b] eqn:H.
  by apply span_spec in H as (_ & _ & H).
Qed.

Lemma parse_yields size wild fuel :
  (forall s, yields (fun p => pattern_ok wild p /\ (p = kAnyItem -> at_char "*" (skip_space s) = true))
     (parse_node size wild fuel s)) /\
  (forall s, yields (fun l => Forall (pattern_ok wild) l /\
                      (head l = Some kAnyItem -> at_char "*" (skip_space s) = true))
     (parse_list size wild fuel s)).
Proof.
  induction fuel as [|fuel [IHn IHl]]; [done|]. split; intros s.
  - rewrite parse_node_S. unfold node_body.
    destruct (bool_decide (skip_space s = "")); [done|].
    destruct (at_char "*" (skip_space s)) eqn:Hstar; [destruct wild; [by split|done]|].
    destruct (span isalnum (skip_space s)) as [name s1]. case_bool_decide; [done|].
    destruct (format_from_name name) as [f|] eqn:Hf; [|done]. apply format_from_name_supported in Hf.
    destruct (_ && _); [by destruct (parse_string size (rest_of s1)) as [[]|]|].
    destruct (negb (at_char "[" s1)); [done|].
    destruct (at_char "*" (skip_space (rest_of s1))) eqn:Hs2.
    { destruct wild; [|done]. simpl. destruct (negb (at_char "]" _)); [done|].
      by case_bool_decide; split. }
    case_bool_decide.
    + eapply yields_bind; [apply IHl|]. intros l s' [Hl Hh]. split; [|done].
      apply pattern_ok_list. split; [|done]. intros Hh'. apply Hh in Hh'.
      by rewrite skip_space_idem, Hs2 in Hh'.
    + pose proof (parse_array_yields size f (skip_space (rest_of s1))) as Ha.
      destruct (parse_array _ _ _) as [[[p s']|]|]; try done.
      by destruct Ha as (it & -> & Hw).
  - rewrite parse_list_S. unfold list_body. case_bool_decide; [done|].
    destruct (at_char "]" (skip_space s)); [by split; [constructor|]|].
    eapply yields_bind; [apply IHn|]. intros p s1 [Hp Hh].
    eapply yields_bind; [apply IHl|]. intros l s2 [Hl _]. split; [by constructor|].
    simpl. intros [= ->]. rewrite <- skip_space_idem. by apply Hh.
Qed.

Lemma parse_text_ok wild text p : parse_text wild text = Ok p -> pattern_ok wild p.
Proof.
  unfold parse_text, parse_all. intros H.
  pose proof (proj1 (parse_yields (String.length text) wild (parser_fuel text)) text) as Hy.
  destruct (parse_node _ _ _ _) as [[[q s']|]|]; simpl in *; try done.
  case_bool_decide; simplify_eq; by destruct Hy.
Qed.

(** ** Writing items and patterns

    The syntax of the header of pattern.hpp, as a function: [show_pattern] writes a
    pattern in the text that [parse_pattern] reads back. *)

Definition show_words (words : list string) : string :=
  foldr (fun w s => w +:+ String " " s) EmptyString words.

Fixpoint escape (s : string) : string :=
  match s with
  | EmptyString => EmptyString
  | String c s =>
      if bool_decide (c = quote) || bool_decide (c = "\"%char) then String "\" (String c (escape s))
      else String c (escape s)
  end.

Definition array_words (it : Item) : list string :=
  match it with
  | list_ _ | ascii_ _ => []
  | boolean v => map (fun b => if b =? 0 then "false" else "true") v
  | f4 v => map (fun x => show_double (float_of_bits x)) v
  | f8 v => map (fun x => show_double (double_of_bits x)) v
  | binary v | i1 v | i2 v | i4 v | i8 v | u1 v | u2 v | u4 v | u8 v => map pretty v
  end.

Definition bracketed (f : Format) (body : string) : string :=
  format_to_string f +:+ String "[" body +:+ "]".

Definition show_exact (it : Item) : string :=
  match it with
  | ascii_ s => String "A" (String quote (escape s +:+ String quote EmptyString))
  | _ => bracketed (format it) (show_words (array_words it))
  end.

Fixpoint show_pattern (p : Pattern) : string :=
  match p with
  | kAnyItem => "*"
  | kAnyOfFormat f => bracketed f "*"
  | kAnyList => bracketed kList "*"
  | kListOf children => bracketed kList (show_words (map show_pattern children))
  | kExact it => show_exact it
  end.

(** A word an array can hold. *)
Definition good_word (w : string) : Prop :=
  w <> EmptyString /\ string_all in_word w = true /\ at_char "*" w = false.

Lemma read_words_blank fuel s : read_words fuel (String " " s) = read_words fuel s.
Proof. destruct fuel; [done|]. cbn [read_words]. simpl span. by destruct (span is_separator s). Qed.

(** What follows the words of an array, or the items of a list. *)
Abbreviation closed_by s := (String "]" s).

Lemma good_word_head w : good_word w ->
  exists c t, w = String c t /\ in_word c = true /\ is_separator c = false /\ isspace c = false /\
    c <> "]"%char /\ c <> "*"%char.
Proof.
  intros (Hne & Hall & Hstar). destruct w as [|c t]; [done|]. exists c, t. simpl in *.
  apply andb_prop in Hall as [Hc _]. apply bool_decide_eq_false in Hstar. pose proof Hc as Hc'.
  unfold in_word in Hc'. unfold is_separator.
  apply andb_prop in Hc' as [[Hb%negb_true_iff Hco%negb_true_iff]%andb_prop Hs%negb_true_iff].
  apply bool_decide_eq_false in Hb. rewrite Hs, Hco. repeat split; congruence.
Qed.

Lemma read_words_show fuel words s : Forall good_word words -> (length words < fuel)%nat ->
  read_words fuel (show_words words +:+ closed_by s) = Some (Some words, s).
Proof.
  revert fuel. induction words as [|w words IH]; intros [|fuel] Hw Hf; simpl in Hf; try lia; [done|].
  apply Forall_cons in Hw as [Hw Hws].
  pose proof (good_word_head w Hw) as (c & t & -> & Hc & Hsep & _ & Hb & _).
  assert (show_words (String c t :: words) +:+ closed_by s =
    String c t +:+ String " " (show_words words +:+ closed_by s)) as ->.
  { simpl. by rewrite string_app_assoc. }
  destruct Hw as (_ & Hall & _). cbn [read_words].
  rewrite (span_stops is_separator) by (simpl; by rewrite Hsep).
  cbn [snd]. rewrite (span_app in_word (String c t)) by done. simpl String.append at 1. cbv iota.
  rewrite bool_decide_eq_false_2 by done.
  rewrite read_words_blank, IH by (done || lia). done.
Qed.

Lemma digit_in_word c : isdigit c = true -> in_word c = true /\ c <> "*"%char /\ c <> "-"%char.
Proof.
  intros H. pose proof (isdigit_not_space c H) as Hs. apply isdigit_range in H.
  unfold in_word. rewrite Hs, !bool_decide_eq_false_2;
    [|intros ->; vm_compute in H; by destruct H..].
  split; [done|]. by split; intros ->; vm_compute in H; destruct H.
Qed.

Lemma digits_good s : s <> EmptyString -> string_all isdigit s = true -> good_word s.
Proof.
  intros Hne Hs. split; [done|]. split.
  - eapply string_all_impl, Hs. intros c Hc. by apply digit_in_word.
  - destruct s as [|c s]; [done|]. simpl in *. apply andb_prop in Hs as [Hc _].
    apply bool_decide_eq_false. apply digit_in_word in Hc. naive_solver.
Qed.

Lemma pretty_N_nonempty (n : N) : (pretty n : string) <> EmptyString.
Proof.
  destruct (decide (n = 0)%N) as [->|]; [done|]. destruct (pretty_head n) as (d & t & _ & ->); [lia|done].
Qed.

Lemma pretty_N_good (n : N) : good_word (pretty n).
Proof. apply digits_good; [apply pretty_N_nonempty|apply pretty_N_digits]. Qed.

Lemma sign_good s w : good_word w -> good_word (sign_string s +:+ w).
Proof. intros (Hne & Hall & Hstar). destruct s; [|done]. by split; [|split]. Qed.

Lemma good_app a b : good_word a -> string_all in_word b = true -> good_word (a +:+ b).
Proof.
  intros (Hne & Hall & Hstar) Hb. split; [by destruct a|]. split; [by rewrite string_all_app, Hall|].
  by destruct a.
Qed.

Lemma pretty_Z_good (v : Z) : good_word (pretty v).
Proof.
  destruct (Z.lt_ge_cases v 0).
  - rewrite pretty_Z_neg by done. apply (sign_good true), pretty_N_good.
  - rewrite pretty_Z_nonneg by done. apply pretty_N_good.
Qed.

Lemma show_double_good x : good_word (show_double x).
Proof.
  destruct x as [s|s| |s m e]; [by apply sign_good|by apply sign_good|done|].
  apply sign_good, good_app; [apply pretty_N_good|]. destruct (0 <=? e); [done|].
  rewrite string_all_app. apply pretty_N_good.
Qed.

Lemma array_words_good it : Forall good_word (array_words it).
Proof.
  destruct it; simpl; try constructor; apply Forall_map, Forall_true; intros x; simpl;
    try apply pretty_Z_good; try apply show_double_good. by destruct (x =? 0).
Qed.

Lemma parse_unsigned_pretty bits v : bits <= 64 -> uint_ok bits v ->
  parse_unsigned bits (pretty v) = Some v.
Proof.
  intros Hb Hv. assert (uint_ok 64 v) as H64.
  { unfold uint_ok in *. split; [lia|]. apply Z.lt_le_trans with (2 ^ bits); [lia|].
    apply Z.pow_le_mono_r; lia. }
  unfold parse_unsigned. rewrite strtoull_pretty by done. rewrite (proj2 (Z.ltb_ge _ _)) by int_lia.
  replace (at_char "-" (pretty v)) with false; [done|].
  rewrite pretty_Z_nonneg by int_lia. pose proof (pretty_N_digits (Z.to_N v)) as Hd.
  destruct (pretty (Z.to_N v)) as [|c t]; [done|]. simpl in *. apply andb_prop in Hd as [Hc _].
  apply digit_in_word in Hc. symmetry. apply bool_decide_eq_false. naive_solver.
Qed.

Lemma parse_signed_pretty bits v : 1 <= bits <= 64 -> sint_ok bits v ->
  parse_signed bits (pretty v) = Some v.
Proof.
  intros Hb Hv. assert (sint_ok 64 v) as H64.
  { unfold sint_ok in *. assert (2 ^ (bits - 1) <= 2 ^ (64 - 1)) by (apply Z.pow_le_mono_r; lia). lia. }
  unfold parse_signed. rewrite strtoll_pretty by done.
  rewrite !(proj2 (Z.ltb_ge _ _)) by int_lia. done.
Qed.

Lemma collect_map {A} (parse : string -> option A) (show : A -> string) l :
  Forall (fun v => parse (show v) = Some v) l -> collect parse (map show l) = inr l.
Proof. induction 1 as [|v l Hv _ IH]; simpl; [done|]. by rewrite Hv, IH. Qed.

Lemma collect_map_with {A B} (parse : string -> option A) (show : B -> string) (back : A -> B) l :
  Forall (fun v => exists x, parse (show v) = Some x /\ back x = v) l ->
  exists xs, collect parse (map show l) = inr xs /\ map back xs = l.
Proof.
  induction 1 as [|v l (x & Hx & <-) _ (xs & IH & <-)]; simpl; [by exists []|].
  rewrite Hx, IH. by exists (x :: xs).
Qed.

Lemma array_item_show it : written it -> format it <> kAscii ->
  array_item (format it) (array_words it) = inr it.
Proof.
  intros Hw Ha. destruct it; simpl in *; try done;
    try (rewrite collect_map; [done|]; eapply Forall_impl; [exact Hw|]; simpl; intros x Hx;
      first [apply parse_unsigned_pretty; [lia|done] | apply parse_signed_pretty; [lia|done]]).
  - rewrite collect_map; [done|]. eapply Forall_impl; [exact Hw|]. by intros x [-> | ->].
  - edestruct (collect_map_with parse_float (fun x => show_double (float_of_bits x))
      (fun x => float_bits (to_float x)) values) as (xs & -> & Hxs); [|by rewrite Hxs].
    eapply Forall_impl; [exact Hw|]. intros x [Hx Hb].
    destruct (strtod_show_float (float_of_bits x)) as (y & Hy & Hf); [by apply float_of_bits_valid|].
    exists y. unfold parse_float. by rewrite Hy, Hf.
  - edestruct (collect_map_with parse_float (fun x => show_double (double_of_bits x))
      double_bits values) as (xs & -> & Hxs); [|by rewrite Hxs].
    eapply Forall_impl; [exact Hw|]. intros x [Hx Hb].
    exists (double_of_bits x). unfold parse_float. by rewrite strtod_show by by apply double_of_bits_valid.
Qed.

(** ** Reading back *)

Lemma format_name f : f <> kJis8 ->
  format_from_name (format_to_string f) = Some f /\
  string_all isalnum (format_to_string f) = true /\
  exists c t, format_to_string f = String c t /\ isspace c = false /\ c <> "*"%char /\ c <> "]"%char.
Proof. intros Hf. destruct f; try done; (split; [done|]; split; [done|]; by do 2 eexists). Qed.

Lemma length_show_words_in w words : w ∈ words ->
  (String.length w + 1 <= String.length (show_words words))%nat.
Proof.
  induction 1 as [|w w' words Hin IH]; simpl; rewrite string_length_app; simpl; lia.
Qed.

Lemma words_count words : (length words <= String.length (show_words words))%nat.
Proof. induction words; simpl; [done|]. rewrite string_length_app. simpl. lia. Qed.

Section roundtrip.
Context (size : nat) (wild : bool).

Lemma node_bracket pl f b : f <> kJis8 -> stops isspace b = true ->
  node_body size wild pl (format_to_string f +:+ String "[" b) =
    if at_char "*" b then
      if negb wild then Some (fail size "wildcards are only allowed in patterns" b)
      else
        let s := skip_space (rest_of b) in
        if negb (at_char "]" s) then Some (fail size "']' is expected after '*'" s)
        else Some (Ok (if bool_decide (f = kList) then kAnyList else kAnyOfFormat f, rest_of s))
    else if bool_decide (f = kList) then
      parsed_bind (pl b) (fun children s => Some (Ok (kListOf children, s)))
    else parse_array size f b.
Proof.
  intros Hf Hb. destruct (format_name f Hf) as (Hname & Hall & c & t & Heq & Hsp & Hstar & _).
  unfold node_body.
  assert (skip_space (format_to_string f +:+ String "[" b) = format_to_string f +:+ String "[" b) as ->.
  { apply skip_space_stops. rewrite Heq. simpl. by rewrite Hsp. }
  rewrite span_app by done. rewrite Hname.
  assert (at_char "*" (format_to_string f +:+ String "[" b) = false) as ->.
  { rewrite Heq. simpl. apply bool_decide_eq_false. congruence. }
  rewrite !bool_decide_eq_false_2 by (rewrite Heq; done).
  change (at_char quote (String "[" b)) with false. rewrite andb_false_r. simpl rest_of.
  by rewrite skip_space_stops.
Qed.

Lemma parse_string_escape v s :
  parse_string size (escape v +:+ String quote s) = Ok (v, s).
Proof.
  induction v as [|c v IH]; [done|]. simpl escape.
  destruct (bool_decide (c = quote) || bool_decide (c = "\"%char)) eqn:Hc.
  - simpl String.append. cbn [parse_string]. rewrite bool_decide_eq_false_2 by done.
    rewrite bool_decide_eq_true_2 by done. rewrite <- negb_orb, Hc. simpl. by rewrite IH.
  - apply orb_false_iff in Hc as [H1 H2]. simpl String.append. cbn [parse_string].
    rewrite H1, H2. by rewrite IH.
Qed.

Lemma parse_array_show it s : written it -> format it <> kAscii ->
  parse_array size (format it) (show_words (array_words it) +:+ closed_by s) = Some (Ok (kExact it, s)).
Proof.
  intros Hw Ha. unfold parse_array. rewrite read_words_show; [|apply array_words_good|].
  2:{ rewrite string_length_app. simpl. pose proof (words_count (array_words it)). lia. }
  pose proof (array_item_show it Hw Ha) as Hi.
  destruct it; try done; by rewrite Hi.
Qed.

Lemma bracketed_app f body s :
  bracketed f body +:+ s = format_to_string f +:+ String "[" (body +:+ closed_by s).
Proof. unfold bracketed. rewrite string_app_assoc. simpl. by rewrite string_app_assoc. Qed.

Lemma stops_words words s : Forall good_word words ->
  stops isspace (show_words words +:+ closed_by s) = true /\
  at_char "*" (show_words words +:+ closed_by s) = false.
Proof.
  destruct 1 as [|w words Hw _]; [done|].
  destruct (good_word_head w Hw) as (c & t & -> & _ & _ & Hsp & _ & Hstar). simpl.
  rewrite Hsp. split; [done|]. apply bool_decide_eq_false. congruence.
Qed.

(** Every pattern begins with a character a list can be told from. *)
Lemma show_pattern_head p : pattern_ok wild p ->
  exists c t, show_pattern p = String c t /\ isspace c = false /\ c <> "]"%char /\
    (c = "*"%char <-> p = kAnyItem).
Proof.
  assert (forall f b, f <> kJis8 -> exists c t, bracketed f b = String c t /\ isspace c = false /\
    c <> "]"%char /\ c <> "*"%char) as Hb.
  { intros f b Hf. destruct (format_name f Hf) as (_ & _ & c & t & Heq & ? & ? & ?).
    exists c. unfold bracketed. rewrite Heq. by eexists. }
  destruct p as [|f| |l|it]; simpl.
  - by do 2 eexists.
  - intros (_ & _ & Hf). destruct (Hb f "*" Hf) as (c & t & -> & ? & ? & ?). exists c, t. naive_solver.
  - intros _. destruct (Hb kList "*") as (c & t & -> & ? & ? & ?); [done|]. exists c, t. naive_solver.
  - intros _. destruct (Hb kList (show_words (map show_pattern l))) as (c & t & -> & ? & ? & ?); [done|].
    exists c, t. naive_solver.
  - intros Hw. destruct (decide (format it = kAscii)) as [Ha|Ha].
    + destruct it; try done. by do 2 eexists.
    + destruct (Hb (format it) (show_words (array_words it))) as (c & t & Heq & ? & ? & ?); [by destruct it|].
      exists c, t. split; [by destruct it|]. naive_solver.
Qed.

Lemma show_exact_parsed pl it s : written it ->
  node_body size wild pl (show_exact it +:+ s) = Some (Ok (kExact it, s)).
Proof.
  intros Hw. destruct (decide (format it = kAscii)) as [Ha|Ha].
  - destruct it as [| | |v| | | | | | | | | |]; try done. unfold node_body. simpl show_exact.
    simpl String.append. rewrite skip_space_stops by done.
    change (span isalnum _) with (("A" : string, String quote ((escape v +:+ String quote "") +:+ s))).
    simpl. rewrite string_app_assoc. simpl String.append. by rewrite parse_string_escape.
  - assert (show_exact it = bracketed (format it) (show_words (array_words it))) as ->
      by (by destruct it).
    destruct (stops_words (array_words it) s (array_words_good it)) as [Hst Hstar].
    rewrite bracketed_app, node_bracket by (done || by destruct it). rewrite Hstar.
    rewrite bool_decide_eq_false_2 by (by destruct it). by apply parse_array_show.
Qed.

Lemma parse_list_blank fuel s :
  parse_list size wild fuel (String " " s) = parse_list size wild fuel s.
Proof.
  destruct fuel; [done|]. rewrite !parse_list_S. unfold list_body, skip_space. simpl span.
  by destruct (span isspace s).
Qed.

Definition reads_back (p : Pattern) : Prop := forall fuel s,
  (2 * String.length (show_pattern p) < fuel)%nat ->
  parse_node size wild fuel (show_pattern p +:+ s) = Some (Ok (p, s)).

Lemma parse_list_show l fuel s : Forall reads_back l -> Forall (pattern_ok wild) l ->
  (2 * String.length (show_words (map show_pattern l)) + 1 < fuel)%nat ->
  parse_list size wild fuel (show_words (map show_pattern l) +:+ closed_by s) = Some (Ok (l, s)).
Proof.
  intros Hback. revert fuel. induction Hback as [|p l Hp _ IH]; intros [|fuel] Hok Hf; try lia; [done|].
  apply Forall_cons in Hok as [Hpo Hok]. simpl in Hf. rewrite string_length_app in Hf. simpl in Hf.
  change (show_words (map show_pattern (p :: l)))
    with (show_pattern p +:+ String " " (show_words (map show_pattern l))).
  rewrite string_app_assoc. simpl String.append. rewrite parse_list_S. unfold list_body.
  destruct (show_pattern_head p Hpo) as (c & t & Heq & Hsp & Hb & _).
  rewrite skip_space_stops by (rewrite Heq; simpl; by rewrite Hsp).
  rewrite bool_decide_eq_false_2 by (by rewrite Heq).
  assert (at_char "]" (show_pattern p +:+ String " " (show_words (map show_pattern l) +:+ closed_by s))
    = false) as -> by (rewrite Heq; simpl; apply bool_decide_eq_false; congruence).
  rewrite Hp by lia. simpl. rewrite parse_list_blank, IH by (done || lia). done.
Qed.

Lemma stops_patterns l s : pattern_ok wild (kListOf l) ->
  stops isspace (show_words (map show_pattern l) +:+ closed_by s) = true /\
  at_char "*" (show_words (map show_pattern l) +:+ closed_by s) = false.
Proof.
  intros [Hh Hok]%pattern_ok_list. destruct Hok as [|p l Hp _]; [done|]. simpl in Hh |- *.
  destruct (show_pattern_head p Hp) as (c & t & -> & Hsp & _ & Hstar). simpl. rewrite Hsp.
  split; [done|]. apply bool_decide_eq_false. naive_solver.
Qed.

Lemma show_wild f pl s : f <> kJis8 -> wild = true ->
  node_body size wild pl (bracketed f "*" +:+ s) =
    Some (Ok (if bool_decide (f = kList) then kAnyList else kAnyOfFormat f, s)).
Proof. intros Hf Hw. rewrite bracketed_app, node_bracket by done. simpl. by rewrite Hw. Qed.

Lemma parse_show p : pattern_ok wild p -> reads_back p.
Proof.
  induction p as [l IH|p Hp] using pattern_ind'; intros Hok [|fuel] s Hf; try lia;
    rewrite parse_node_S.
  - destruct (stops_patterns l s Hok) as [Hst Hstar]. apply pattern_ok_list in Hok as [_ Hok].
    cbn [show_pattern] in *. rewrite bracketed_app, node_bracket by done. rewrite Hstar.
    rewrite bool_decide_eq_true_2 by done.
    rewrite parse_list_show; [done| |done|].
    + rewrite Forall_forall in IH, Hok |- *. auto.
    + unfold bracketed in Hf. rewrite string_length_app in Hf. simpl in Hf.
      rewrite string_length_app in Hf. simpl in Hf. lia.
  - destruct p as [|f| |l|it]; simpl in Hok.
    + rewrite Hok. unfold node_body. simpl show_pattern. by rewrite skip_space_stops.
    + destruct Hok as (Hw & Hl & Hj). cbn [show_pattern]. rewrite show_wild by done.
      by rewrite bool_decide_eq_false_2.
    + cbn [show_pattern]. by rewrite show_wild.
    + by destruct (Hp l).
    + by apply show_exact_parsed.
Qed.

End roundtrip.

Lemma parse_text_show wild p : pattern_ok wild p -> parse_text wild (show_pattern p) = Ok p.
Proof.
  intros Hok. unfold parse_text, parse_all, parser_fuel.
  pose proof (parse_show (String.length (show_pattern p)) wild p Hok
    (2 * String.length (show_pattern p) + 1)%nat EmptyString) as H.
  rewrite string_app_nil_r in H. rewrite H by lia. done.
Qed.

(** ** Items to send and patterns to expect *)

(** Without wildcards a text reads the same in both modes. *)
Lemma parse_modes size fuel :
  (forall s r, parse_node size false fuel s = Some (Ok r) -> parse_node size true fuel s = Some (Ok r)) /\
  (forall s r, parse_list size false fuel s = Some (Ok r) -> parse_list size true fuel s = Some (Ok r)).
Proof.
  induction fuel as [|fuel [IHn IHl]]; [done|]. split; intros s r.
  - rewrite !parse_node_S. unfold node_body.
    destruct (bool_decide (skip_space s = "")); [done|].
    destruct (at_char "*" (skip_space s)); [done|].
    destruct (span isalnum (skip_space s)) as [name s1]. destruct (bool_decide (name = "")); [done|].
    destruct (format_from_name name) as [f|]; [|done]. destruct (_ && _); [done|].
    destruct (negb (at_char "[" s1)); [done|].
    destruct (at_char "*" (skip_space (rest_of s1))); [done|].
    destruct (bool_decide (f = kList)); [|done].
    destruct (parse_list size false fuel _) as [[[l s2]|]|] eqn:E; try done.
    by rewrite (IHl _ _ E).
  - rewrite !parse_list_S. unfold list_body. destruct (bool_decide (skip_space s = "")); [done|].
    destruct (at_char "]" (skip_space s)); [done|].
    destruct (parse_node size false fuel _) as [[[p s1]|]|] eqn:E; try done.
    rewrite (IHn _ _ E). simpl.
    destruct (parse_list size false fuel s1) as [[[l s2]|]|] eqn:E2; try done.
    by rewrite (IHl _ _ E2).
Qed.

Lemma parse_text_modes text p : parse_text false text = Ok p -> parse_text true text = Ok p.
Proof.
  unfold parse_text, parse_all. intros H.
  destruct (parse_node _ false _ _) as [[[q s']|]|] eqn:E; try done.
  by rewrite (proj1 (parse_modes _ _) _ _ E).
Qed.

Lemma to_item_ok p : pattern_ok false p -> item_ok (to_item p) /\ normalize (to_item p) = to_item p.
Proof.
  induction p as [l IH|p Hp] using pattern_ind'; intros Hok.
  - apply pattern_ok_list in Hok as [_ Hok]. cbn [to_item].
    assert (Forall (fun p => item_ok (to_item p) /\ normalize (to_item p) = to_item p) l) as Hl.
    { rewrite Forall_forall in IH, Hok |- *. auto. }
    split.
    + apply item_ok_list, Forall_map. eapply Forall_impl; [exact Hl|]. by intros p [].
    + cbn [normalize]. f_equal. rewrite map_map. apply map_ext_Forall.
      eapply Forall_impl; [exact Hl|]. by intros p [].
  - destruct p as [|f| |l|it]; simpl in Hok |- *; try done; try (by destruct Hok); [by destruct (Hp l)|].
    destruct it; simpl in *; try done.
    + split.
      * eapply Forall_impl; [exact Hok|]. by intros x [-> | ->].
      * f_equal. clear Hp. induction Hok as [|x l Hx _ IH]; [done|]. simpl. f_equal; [|done].
        by destruct Hx as [-> | ->].
    + split; [|done]. eapply Forall_impl; [exact Hok|]. by intros x [].
    + split; [|done]. eapply Forall_impl; [exact Hok|]. by intros x [].
Qed.

Lemma matches_to_item p : pattern_ok false p -> forall it, matches p it = item_eqb it (to_item p).
Proof.
  induction p as [l IH|p Hp] using pattern_ind'; intros Hok it.
  - apply pattern_ok_list in Hok as [_ Hok]. destruct it as [items| | | | | | | | | | | | |]; try done.
    simpl. revert items. induction l as [|p l IHl]; intros [|i items]; try done. simpl.
    apply Forall_cons in IH as [Hp IH]. apply Forall_cons in Hok as [Hpo Hok].
    rewrite (Hp Hpo). f_equal. by apply IHl.
  - destruct p as [|f| |l|e]; simpl in Hok |- *; try done; try (by destruct Hok). by destruct (Hp l).
Qed.

(** Whatever text a script gives as an item to send, if [parse_item] accepts it the
    item fits its types and is sent as it stands (its booleans are 0 or 1); the same
    text is accepted as a pattern to expect, and that pattern matches exactly the
    received items that are equal to the item, [operator==]. *)
Theorem sent_item_as_pattern text it :
  parse_item text = Ok it ->
  item_ok it /\ normalize it = it /\
  exists p, parse_pattern text = Ok p /\ forall received, matches p received = item_eqb received it.
Proof.
  unfold parse_item, parse_pattern. intros H.
  destruct (parse_text false text) as [p|e] eqn:Hp; simplify_eq.
  pose proof (parse_text_ok _ _ _ Hp) as Hok. destruct (to_item_ok p Hok) as [Hi Hn].
  split; [done|]. split; [done|]. exists p. split; [by apply parse_text_modes|].
  by apply matches_to_item.
Qed.

(** [C35] Patterns survive being written and read: [parse_pattern] reads back what
    [show_pattern] writes, for every pattern it can yield at all, that is nested lists,
    wildcards, strings with quotes and backslashes, integers at the ends of their
    ranges and floating-point numbers to the last bit. *)
Theorem pattern_roundtrip text p :
  parse_pattern text = Ok p ->
  parse_pattern (show_pattern p) = Ok p /\
  (forall q, pattern_ok true q -> parse_pattern (show_pattern q) = Ok q).
Proof.
  intros H%parse_text_ok. split; [by apply parse_text_show|]. intros q. by apply parse_text_show.
Qed.

(** ** Witnesses and examples *)

Lemma sent_item_as_pattern_witness :
  parse_item "L[ U1[0x0A 255] F8[1.5 nan] BOOL[true 0] ]" =
    Ok (list_ [u1 [10; 255]; f8 [4609434218613702656; 9221120237041090560]; boolean [1; 0]]) /\
  exists p, parse_pattern "L[ U1[0x0A 255] F8[1.5 nan] BOOL[true 0] ]" = Ok p /\
    matches p (list_ [u1 [10; 255]; f8 [4609434218613702656; 9221120237041090560]; boolean [1; 0]]) = false.
Proof.
  assert (parse_item "L[ U1[0x0A 255] F8[1.5 nan] BOOL[true 0] ]" =
    Ok (list_ [u1 [10; 255]; f8 [4609434218613702656; 9221120237041090560]; boolean [1; 0]])) as H
    by (vm_compute; reflexivity).
  split; [exact H|].
  destruct (sent_item_as_pattern _ _ H) as (_ & _ & p & Hp & Hm). exists p. split; [exact Hp|].
  rewrite Hm. vm_compute. reflexivity.
Defined.

Definition round_text : string := "L[ L[*] * A[*] I8[-9223372036854775808] F4[0.1 -0] ]".

Lemma pattern_roundtrip_witness :
  parse_pattern (show_pattern (kListOf [kAnyList; kAnyItem; kAnyOfFormat kAscii;
    kExact (i8 [-9223372036854775808]); kExact (f4 [1036831949; 2147483648])])) =
  Ok (kListOf [kAnyList; kAnyItem; kAnyOfFormat kAscii;
    kExact (i8 [-9223372036854775808]); kExact (f4 [1036831949; 2147483648])]).
Proof.
  apply (pattern_roundtrip round_text). vm_compute. reflexivity.
Defined.

(** A bare [*] cannot be the first item of a list, although the pattern is one the type
    has: [L[* U4[1]]] reads as an [L[*]] that is not closed, and [L[*]] itself is the
    wildcard for any list and not a list of one item. *)
Lemma first_wildcard_lost :
  parse_pattern "L[ U4[1] * ]" = Ok (kListOf [kExact (u4 [1]); kAnyItem]) /\
  has_value (parse_pattern "L[ * U4[1] ]") = false /\
  parse_pattern (show_pattern (kListOf [kAnyItem])) = Ok kAnyList.
Proof. split; [|split]; vm_compute; reflexivity. Qed.

(** A leading zero makes a number octal. *)
Lemma octal_numbers : parse_item "U4[010 10 0x10]" = Ok (u4 [8; 10; 16]).
Proof. vm_compute. reflexivity. Qed.
