(* ===== verification/HostScript.v ===== *)
(** * Host scripts

    include/ssim/host_sim/script.hpp and src/host_sim/script.cpp: the script language of
    the host simulator, from the text of a script to its commands. *)

From S2P Require Import CLibrary Prelude Secs2Item HostPattern.

Definition kErrScriptSyntax : Z := 601.

(** ** Commands

    [struct Command] by its kind: a kind carries the fields its branch of the parser
    fills in, the others keep their defaults in the code. Times are milliseconds. *)

Inductive AssertOp := kWithin | kEqual | kNotEqual.

Inductive CommandKind :=
| kConnect (host : string) (port : Z)
| kSelect (status : option Z)
| kDeselect (status : option Z)
| kLinktest
| kSeparate
| kSend (stream function : Z) (w_bit : option bool) (device : option Z) (body : option Item)
| kExpect (stream function : Z) (pattern : option Pattern) (timeout : Z)
| kExpectNo (stream function : Z) (pattern : option Pattern) (timeout : Z)
| kWaitEvent (id : Z) (event_filters : list (string * string)) (timeout : Z)
| kWaitAlarm (id : Z) (alarm_set : bool) (timeout : Z)
| kExpectClosed (timeout : Z)
| kExpectStatus (id : Z) (pattern : Pattern) (timeout : Z)
| kAssert (field : string) (op : AssertOp) (number tolerance : double) (value : string)
    (value_is_number : bool)
| kAutoAck (flag : bool)
| kSleep (duration : Z)
| kRaw (raw : list Z)
| kDisconnect.

Record HostCommand := mkHostCommand { kind : CommandKind; line : Z; text : string }.

(** ** Text *)

Definition syntax {A} (line : Z) (what : string) : Result A :=
  Err (mkError kErrScriptSyntax ("line " +:+ pretty line +:+ ": " +:+ what)).

(** White space removed at the end: the longest suffix of it goes. *)
Fixpoint trim_end (s : string) : string :=
  match s with
  | EmptyString => EmptyString
  | String c s =>
      match trim_end s with
      | EmptyString => if isspace c then EmptyString else String c EmptyString
      | t => String c t
      end
  end.

Definition trim (s : string) : string := trim_end (skip_space s).

Fixpoint strip_comment_from (in_string : bool) (s : string) : string :=
  match s with
  | EmptyString => EmptyString
  | String c s =>
      if bool_decide (c = "\"%char) && in_string then
        match s with
        | String d s => String c (String d (strip_comment_from in_string s))
        | EmptyString => String c EmptyString
        end
      else if bool_decide (c = quote) then String c (strip_comment_from (negb in_string) s)
      else if bool_decide (c = "#"%char) && negb in_string then EmptyString
      else String c (strip_comment_from in_string s)
  end.

Definition strip_comment (s : string) : string := strip_comment_from false s.

Definition name_char (c : ascii) : bool := isalnum c || bool_decide (c = "_"%char).

Fixpoint substitute_from (fuel : nat) (vars : gmap string string) (line_no : Z) (s : string) :
    Result string :=
  match fuel, s with
  | O, _ => Err (mkError 0 EmptyString)
  | _, EmptyString => Ok EmptyString
  | S fuel, String c s =>
      if bool_decide (c <> "$"%char) then
        let? out := substitute_from fuel vars line_no s in Ok (String c out)
      else
        let '(name, s) := span name_char s in
        match vars !! name with
        | Some v =>
            if bool_decide (name = EmptyString) then syntax line_no ("unknown variable $" +:+ name)
            else let? out := substitute_from fuel vars line_no s in Ok (v +:+ out)
        | None => syntax line_no ("unknown variable $" +:+ name)
        end
  end.

Definition substitute (vars : gmap string string) (line_no : Z) (s : string) : Result string :=
  substitute_from (S (String.length s)) vars line_no s.

Definition not_space (c : ascii) : bool := negb (isspace c).

Definition split_word (s : string) : string * string :=
  let '(word, rest) := span not_space s in (word, trim rest).

(** [istream >> word] until the text ends. *)
Fixpoint words_from (fuel : nat) (s : string) : list string :=
  match fuel with
  | O => []
  | S fuel =>
      let '(w, rest) := span not_space (skip_space s) in
      if bool_decide (w = EmptyString) then [] else w :: words_from fuel rest
  end.

Definition words (s : string) : list string := words_from (S (String.length s)) s.

Fixpoint strip_prefix (pat s : string) : option string :=
  match pat, s with
  | EmptyString, _ => Some s
  | String c pat, String d s => if bool_decide (c = d) then strip_prefix pat s else None
  | String _ _, EmptyString => None
  end.

(** Before and after the last [c]. *)
Fixpoint split_last (c : ascii) (s : string) : option (string * string) :=
  match s with
  | EmptyString => None
  | String d s =>
      match split_last c s with
      | Some (a, b) => Some (String d a, b)
      | None => if bool_decide (c = d) then Some (EmptyString, s) else None
      end
  end.

(** Before and after the first character of [p]. *)
Definition split_first (p : ascii -> bool) (s : string) : option (string * string) :=
  match span (fun c => negb (p c)) s with
  | (a, String _ b) => Some (a, b)
  | _ => None
  end.

Definition chop (s : string) : string := String.substring 0 (String.length s - 1) s.

(** The text between quotes. *)
Definition unquote (s : string) : option string :=
  match s with
  | String c t =>
      if bool_decide (c = quote) && bool_decide (String.get (String.length t - 1) t = Some quote)
      then Some (chop t) else None
  | EmptyString => None
  end.

(** ** Numbers

    The conversions look at [*end] only: a text whose first character is NUL converts
    to zero. *)

Definition parse_uint (s : string) : option Z :=
  if bool_decide (s = EmptyString) || at_char "-" s then None
  else
    match strtoull s with
    | Some (v, _, EmptyString) => if 0xFFFFFFFF <? v then None else Some v
    | Some _ => None
    | None => if bool_decide (c_str s = EmptyString) then Some 0 else None
    end.

Definition parse_double (s : string) : option double :=
  if bool_decide (s = EmptyString) then None
  else
    match strtod s with
    | Some (v, _, EmptyString) => Some v
    | Some _ => None
    | None => if bool_decide (c_str s = EmptyString) then Some (S754_zero false) else None
    end.

(** A number up to a limit. *)
Definition parse_upto (limit : Z) (s : string) : option Z :=
  match parse_uint s with
  | Some v => if limit <? v then None else Some v
  | None => None
  end.

(** The message name, "S6F11". *)
Definition parse_sf (word : string) : option (Z * Z) :=
  if (String.length word <? 4)%nat || negb (at_char "S" word || at_char "s" word) then None
  else
    match split_first (fun c => bool_decide (c = "F"%char) || bool_decide (c = "f"%char)) word with
    | Some (String _ (String _ _ as s), fn) =>
        match parse_uint s, parse_uint fn with
        | Some s, Some fn => if (127 <? s) || (255 <? fn) then None else Some (s, fn)
        | _, _ => None
        end
    | _ => None
    end.

(** [static_cast<long long>]: the fraction is dropped. *)
Definition truncate (nan_cast : Z) (x : double) : Z :=
  match x with
  | S754_finite s m e =>
      let v := if 0 <=? e then Zpos m * 2 ^ e else Zpos m / 2 ^ (- e) in if s then - v else v
  | S754_zero _ => 0
  | S754_infinity _ | S754_nan => nan_cast
  end.

Section script.
(** The value the compiled code gives the cast of a NaN, which the language leaves
    undefined. *)
Context (nan_cast : Z).

Definition parse_duration (text : string) : Result Z :=
  let '(unit, s) :=
    match split_last "m" text with
    | Some (a, "s") =>
        if (2 <? String.length text)%nat then (1, a) else (1000, chop text)
    | _ =>
        if bool_decide (String.get (String.length text - 1) text = Some "s"%char)
        then (1000, chop text) else (1000, text)
    end in
  match parse_double s with
  | Some v =>
      if SFltb v (S754_zero false) || SFltb (double_of_Z 3600000) v
      then Err (mkError kErrScriptSyntax ("bad duration '" +:+ text +:+ "'"))
      else Ok (truncate nan_cast (dmul v (double_of_Z unit)))
  | None => Err (mkError kErrScriptSyntax ("bad duration '" +:+ text +:+ "'"))
  end.

Record Options := mkOptions {
  opt_timeout : option Z; opt_device : option Z; opt_status : option Z; opt_w_bit : option bool
}.

Definition no_options : Options := mkOptions None None None None.

(** Consumes leading options; the text rest'. *)
Fixpoint take_options_from (fuel : nat) (rest : string) (opts : Options) (line : Z) :
    Result (string * Options) :=
  match fuel with
  | O => Err (mkError 0 EmptyString)
  | S fuel =>
      let '(word, tail) := split_word rest in
      if bool_decide (word = EmptyString) then Ok (rest, opts)
      else if bool_decide (word = "nowait") then
        take_options_from fuel tail
          (mkOptions (opt_timeout opts) (opt_device opts) (opt_status opts) (Some false)) line
      else if bool_decide (word = "W") then
        take_options_from fuel tail
          (mkOptions (opt_timeout opts) (opt_device opts) (opt_status opts) (Some true)) line
      else
        match strip_prefix "timeout=" word with
        | Some d =>
            match parse_duration d with
            | Ok t =>
                take_options_from fuel tail
                  (mkOptions (Some t) (opt_device opts) (opt_status opts) (opt_w_bit opts)) line
            | Err e => syntax line (message e)
            end
        | None =>
            match strip_prefix "device=" word with
            | Some v =>
                match parse_upto 65535 v with
                | Some v =>
                    take_options_from fuel tail
                      (mkOptions (opt_timeout opts) (Some v) (opt_status opts) (opt_w_bit opts)) line
                | None => syntax line "bad device id"
                end
            | None =>
                match strip_prefix "status=" word with
                | Some v =>
                    match parse_upto 255 v with
                    | Some v =>
                        take_options_from fuel tail
                          (mkOptions (opt_timeout opts) (opt_device opts) (Some v) (opt_w_bit opts)) line
                    | None => syntax line "bad status"
                    end
                | None => Ok (rest, opts)
                end
            end
        end
  end.

Definition take_options (rest : string) (line : Z) : Result (string * Options) :=
  take_options_from (S (String.length rest)) rest no_options line.

Definition timeout_or (default : Z) (opts : Options) : Z :=
  match opt_timeout opts with Some t => t | None => default end.

(** Options and nothing after them; any failure is reported as [what]. *)
Definition only_options (what : string) (rest : string) (line : Z) : Result Options :=
  match take_options rest line with
  | Ok (rest', opts) => if bool_decide (trim rest' = EmptyString) then Ok opts else syntax line what
  | Err _ => syntax line what
  end.

(** ** The commands *)

Definition parse_connect (line : Z) (rest : string) : Result CommandKind :=
  match split_last ":" rest with
  | Some (host, p) =>
      match parse_upto 65535 p with
      | Some port => Ok (kConnect host port)
      | None => syntax line "connect needs HOST:PORT"
      end
  | None => syntax line "connect needs HOST:PORT"
  end.

Definition parse_select (line : Z) (verb rest : string) (make : option Z -> CommandKind) :
    Result CommandKind :=
  let? ' (rest', opts) := take_options rest line in
  if bool_decide (trim rest' = EmptyString) then Ok (make (opt_status opts))
  else syntax line ("unexpected text after " +:+ verb).

(** The item or pattern of a message, when there is one. *)
Definition optional_text {A} (parse : string -> Result A) (line : Z) (text : string) :
    Result (option A) :=
  if bool_decide (text = EmptyString) then Ok None
  else match parse text with Ok a => Ok (Some a) | Err e => syntax line (message e) end.

Definition parse_message (line : Z) (verb rest : string) : Result CommandKind :=
  let '(sf, after) := split_word rest in
  match parse_sf sf with
  | None => syntax line (verb +:+ " needs a message such as S1F13")
  | Some (stream, function) =>
      let? ' (rest', opts) := take_options after line in
      let item_text := trim rest' in
      if bool_decide (verb = "send") then
        let? body := optional_text parse_item line item_text in
        Ok (kSend stream function (opt_w_bit opts) (opt_device opts) body)
      else
        let? pattern := optional_text parse_pattern line item_text in
        if bool_decide (verb = "expect")
        then Ok (kExpect stream function pattern (timeout_or 5000 opts))
        else Ok (kExpectNo stream function pattern (timeout_or 1000 opts))
  end.

Definition parse_filter (line : Z) (word : string) : Result (string * string) :=
  match split_first (fun c => bool_decide (c = "="%char)) word with
  | Some (field, value) =>
      if bool_decide (field = EmptyString) || bool_decide (value = EmptyString)
      then syntax line "wait-event filters look like FIELD=VALUE"
      else Ok (field, match unquote value with
                      | Some v => if (2 <=? String.length value)%nat then v else value
                      | None => value
                      end)
  | None => syntax line "wait-event filters look like FIELD=VALUE"
  end.

Fixpoint map_result {A B} (f : A -> Result B) (l : list A) : Result (list B) :=
  match l with
  | [] => Ok []
  | x :: l => let? y := f x in let? l := map_result f l in Ok (y :: l)
  end.

Definition parse_wait_event (line : Z) (rest : string) : Result CommandKind :=
  let '(id, after) := split_word rest in
  match parse_uint id with
  | None => syntax line "wait-event needs a CEID"
  | Some id =>
      let? ' (rest', opts) := take_options after line in
      let? filters := map_result (parse_filter line) (words rest') in
      Ok (kWaitEvent id filters (timeout_or 5000 opts))
  end.

Definition parse_wait_alarm (line : Z) (rest : string) : Result CommandKind :=
  let '(id, after) := split_word rest in
  let '(state, after2) := split_word after in
  match parse_uint id with
  | None => syntax line "wait-alarm needs ALID and set|clear"
  | Some id =>
      if negb (bool_decide (state = "set") || bool_decide (state = "clear"))
      then syntax line "wait-alarm needs ALID and set|clear"
      else
        let? opts := only_options "bad wait-alarm options" after2 line in
        Ok (kWaitAlarm id (bool_decide (state = "set")) (timeout_or 5000 opts))
  end.

Definition parse_expect_status (line : Z) (rest : string) : Result CommandKind :=
  let '(id, after) := split_word rest in
  match parse_uint id with
  | None => syntax line "expect-status needs an SVID"
  | Some id =>
      let? ' (rest', opts) := take_options after line in
      match parse_pattern (trim rest') with
      | Ok p => Ok (kExpectStatus id p (timeout_or 5000 opts))
      | Err e => syntax line (message e)
      end
  end.

Definition parse_assert (line : Z) (rest : string) : Result CommandKind :=
  let '(field, after) := split_word rest in
  match strip_prefix "event." field, strip_prefix "alarm." field with
  | None, None => syntax line "assert needs event.FIELD or alarm.FIELD"
  | _, _ =>
      let '(op, operand) := split_word after in
      if bool_decide (op = "within") then
        let '(center, tol) := split_word operand in
        match strip_prefix "+-" (trim tol) with
        | None => syntax line "within needs CENTER +-TOLERANCE"
        | Some t =>
            match parse_double center, parse_double (trim t) with
            | Some number, Some tolerance =>
                if SFltb tolerance (S754_zero false) then syntax line "within needs numbers"
                else Ok (kAssert field kWithin number tolerance EmptyString false)
            | _, _ => syntax line "within needs numbers"
            end
        end
      else if bool_decide (op = "==") || bool_decide (op = "!=") then
        let op := if bool_decide (op = "==") then kEqual else kNotEqual in
        if bool_decide (operand = EmptyString) then syntax line "a value is missing"
        else
          Ok match (if (2 <=? String.length operand)%nat then unquote operand else None) with
             | Some v => kAssert field op (S754_zero false) (S754_zero false) v false
             | None =>
                 match parse_double operand with
                 | Some number => kAssert field op number (S754_zero false) operand true
                 | None => kAssert field op (S754_zero false) (S754_zero false) operand false
                 end
             end
      else syntax line "assert supports within, == and !="
  end.

Definition parse_byte (line : Z) (w : string) : Result Z :=
  let hex := match strip_prefix "0x" w with Some _ => w | None => "0x" +:+ w end in
  match parse_upto 255 hex with
  | Some v => Ok v
  | None => syntax line "raw needs hex bytes"
  end.

Definition parse_raw (line : Z) (rest : string) : Result CommandKind :=
  let? raw := map_result (parse_byte line) (words rest) in
  if bool_decide (raw = []) then syntax line "raw needs at least one byte" else Ok (kRaw raw).

Definition parse_command (line : Z) (verb rest : string) : Result CommandKind :=
  if bool_decide (verb = "connect") then parse_connect line rest
  else if bool_decide (verb = "select") then parse_select line verb rest kSelect
  else if bool_decide (verb = "deselect") then parse_select line verb rest kDeselect
  else if bool_decide (verb = "linktest") then Ok kLinktest
  else if bool_decide (verb = "separate") then Ok kSeparate
  else if bool_decide (verb = "disconnect") then Ok kDisconnect
  else if bool_decide (verb = "send") || bool_decide (verb = "expect") ||
          bool_decide (verb = "expect-no") then parse_message line verb rest
  else if bool_decide (verb = "wait-event") then parse_wait_event line rest
  else if bool_decide (verb = "wait-alarm") then parse_wait_alarm line rest
  else if bool_decide (verb = "expect-closed") then
    let? opts := only_options "bad expect-closed options" rest line in
    Ok (kExpectClosed (timeout_or 5000 opts))
  else if bool_decide (verb = "expect-status") then parse_expect_status line rest
  else if bool_decide (verb = "assert") then parse_assert line rest
  else if bool_decide (verb = "auto-ack") then
    if bool_decide (rest = "on") then Ok (kAutoAck true)
    else if bool_decide (rest = "off") then Ok (kAutoAck false)
    else syntax line "auto-ack needs on or off"
  else if bool_decide (verb = "sleep") then
    match parse_duration rest with Ok d => Ok (kSleep d) | Err e => syntax line (message e) end
  else if bool_decide (verb = "raw") then parse_raw line rest
  else syntax line ("unknown command '" +:+ verb +:+ "'").

(** [std::getline] until the text ends. *)
Fixpoint getlines (s : string) : list string :=
  match s with
  | EmptyString => []
  | String c s =>
      if bool_decide (c = "010"%char) then EmptyString :: getlines s
      else match getlines s with
           | [] => [String c EmptyString]
           | l :: ls => String c l :: ls
           end
  end.

(** A round of the loop of [parse_script]: nothing for a blank line. *)
Definition parse_line (vars : gmap string string) (line_no : Z) (raw_line : string) :
    Result (option HostCommand) :=
  let stripped := trim (strip_comment raw_line) in
  if bool_decide (stripped = EmptyString) then Ok None
  else
    let? line := substitute vars line_no stripped in
    let '(verb, rest) := split_word line in
    let? k := parse_command line_no verb rest in
    Ok (Some (mkHostCommand k line_no stripped)).

Fixpoint parse_lines (vars : gmap string string) (line_no : Z) (ls : list string) :
    Result (list HostCommand) :=
  match ls with
  | [] => Ok []
  | raw_line :: ls =>
      let? c := parse_line vars line_no raw_line in
      let? cs := parse_lines vars (line_no + 1) ls in
      Ok (match c with Some c => c :: cs | None => cs end)
  end.

Definition parse_script (text : string) (vars : gmap string string) : Result (list HostCommand) :=
  parse_lines vars 1 (getlines text).

End script.

(** ** Durations *)

(** The longest timeout: 3600000 seconds in milliseconds. *)
Definition max_duration : Z := 3600000000.

Lemma SFltb_zero_sign s m e : SFltb (S754_finite s m e) (S754_zero false) = s.
Proof. by destruct s. Qed.

Lemma limit_value : double_of_Z 3600000 = S754_finite false 7730941132800000 (-31).
Proof. vm_compute. reflexivity. Qed.

Lemma below_limit m e : bounded prec64 emax64 m e = true ->
  SFltb (double_of_Z 3600000) (S754_finite false m e) = false ->
  e <= -31 /\ Zpos m <= 3600000 * 2 ^ (- e).
Proof.
  intros [Hc%Z.eqb_eq _]%andb_prop. rewrite limit_value. cbv beta iota delta [SFltb SFcompare].
  pose proof (digits2_spec m) as [_ Hm]. intros Hlt.
  assert (Zpos m < 2 ^ 53) as H53.
  { unfold fexp, prec64 in Hc. eapply Z.lt_le_trans; [exact Hm|]. apply Z.pow_le_mono_r; lia. }
  destruct (Z.compare_spec (-31) e) as [<-|H|H].
  - split; [lia|]. change (2 ^ - -31) with 2147483648.
    change (Pos.compare_cont Eq 7730941132800000 m) with (7730941132800000 ?= m)%positive in Hlt.
    assert (Zpos m <= 7730941132800000) as Hle; [|lia]. change (m <= 7730941132800000)%positive.
    destruct (7730941132800000 ?= m)%positive eqn:Hcmp; [|discriminate|].
    + apply Pos.compare_eq in Hcmp. rewrite Hcmp. apply Pos.le_refl.
    + apply Pos.compare_gt_iff in Hcmp. by apply Pos.lt_le_incl.
  - done.
  - split; [lia|]. assert (2 ^ 32 <= 2 ^ (- e)) by (apply Z.pow_le_mono_r; lia).
    change (2 ^ 32) with 4294967296 in *. change (2 ^ 53) with 9007199254740992 in *. lia.
Qed.

(** The units as doubles: 53 bits and a negative exponent. *)
Lemma unit_value u : u = 1 \/ u = 1000 -> exists n ey,
  double_of_Z u = S754_finite false n ey /\ Zpos (digits2_pos n) = 53 /\ ey <= 0 /\
  Zpos n = u * 2 ^ (- ey).
Proof.
  intros [-> | ->].
  - exists 4503599627370496%positive, (-52). vm_compute. repeat split; discriminate.
  - exists 8796093022208000%positive, (-43). vm_compute. repeat split; discriminate.
Qed.

Lemma digits2_mul m n : Zpos (digits2_pos m) + Zpos (digits2_pos n) - 1 <= Zdigits2 (Zpos (m * n)).
Proof.
  pose proof (digits2_spec m) as [Hm _]. pose proof (digits2_spec n) as [Hn _].
  pose proof (Zdigits2_bounds (Zpos (m * n)) ltac:(lia)) as [_ Hmn].
  enough (Zpos (digits2_pos m) - 1 + (Zpos (digits2_pos n) - 1) < Zdigits2 (Zpos (m * n))) by lia.
  apply (Z.pow_lt_mono_r_iff 2); [lia|apply Zdigits2_nonneg|].
  rewrite Z.pow_add_r by lia. eapply Z.le_lt_trans; [|exact Hmn].
  rewrite Pos2Z.inj_mul. apply Z.mul_le_mono_nonneg; lia.
Qed.

Lemma product_truncated nan_cast m e u : u = 1 \/ u = 1000 ->
  bounded prec64 emax64 m e = true -> e <= -31 -> Zpos m <= 3600000 * 2 ^ (- e) ->
  0 <= truncate nan_cast (dmul (S754_finite false m e) (double_of_Z u)) <= max_duration.
Proof.
  intros Hu Hb He Hm.
  destruct (unit_value u Hu) as (n & ey & Hdu & Hd & Hey & Hn). rewrite Hdu.
  assert (3600000 * u <= max_duration) as HB by (unfold max_duration; lia).
  assert (0 <= 3600000 * u < 2 ^ prec64) as HB2 by (destruct Hu as [-> | ->]; by vm_compute).
  assert (Zpos (m * n) <= 3600000 * u * 2 ^ (- (e + ey))) as Hle.
  { replace (- (e + ey)) with (- e + - ey) by lia. rewrite Z.pow_add_r by lia.
    rewrite Pos2Z.inj_mul, Hn. assert (0 < 2 ^ (- ey)) by lia. nia. }
  assert (e + ey <= fexp prec64 emax64 (Zdigits2 (Zpos (m * n)) + (e + ey))) as Hf.
  { pose proof (digits2_mul m n). apply andb_prop in Hb as [Hc%Z.eqb_eq _].
    unfold fexp, prec64 in *. lia. }
  pose proof (binary_round_aux_le prec64 emax64 eq_refl eq_refl false (Zpos (m * n)) (e + ey)
    (3600000 * u) eq_refl ltac:(lia) HB2 Hle Hf) as Hr.
  unfold dmul. cbn [SFmul xorb].
  destruct (binary_round_aux _ _ _ _ _ _) as [s'|s'| |s' p e2]; [|done|done|].
  - simpl. unfold max_duration. lia.
  - destruct Hr as (-> & He2 & Hp). cbn [truncate]. destruct (Z.leb_spec 0 e2).
    + assert (e2 = 0) as -> by lia. rewrite Z.pow_0_r in *. lia.
    + assert (0 < 2 ^ (- e2)) by lia. split; [apply Z.div_pos; lia|].
      etrans; [|exact HB]. apply Z.div_le_upper_bound; lia.
Qed.

Section wellformed.
Context (nan_cast : Z).

(** What a parsed duration can be: up to a thousand hours, or the cast of a NaN. *)
Definition duration_ok (d : Z) : Prop := 0 <= d <= max_duration \/ d = nan_cast.

Lemma parse_double_valid s v : parse_double s = Some v -> valid_binary prec64 emax64 v = true.
Proof.
  unfold parse_double. intros H. case_match; [done|].
  destruct (strtod s) as [[[x er] rest]|] eqn:E.
  - destruct rest; simplify_eq. by eapply strtod_valid.
  - case_match; by simplify_eq.
Qed.

Lemma duration_of_double v u : u = 1 \/ u = 1000 -> valid_binary prec64 emax64 v = true ->
  SFltb v (S754_zero false) || SFltb (double_of_Z 3600000) v = false ->
  duration_ok (truncate nan_cast (dmul v (double_of_Z u))).
Proof.
  intros Hu Hv [H1 H2]%orb_false_iff.
  destruct (unit_value u Hu) as (n & ey & Hdu & _).
  destruct v as [s|[]| |s m e]; try done.
  - left. rewrite Hdu. simpl. unfold max_duration. lia.
  - by right.
  - rewrite SFltb_zero_sign in H1. subst s. left. apply (below_limit m e Hv) in H2 as [He Hm].
    by apply product_truncated.
Qed.

Lemma parse_duration_ok text d : parse_duration nan_cast text = Ok d -> duration_ok d.
Proof.
  unfold parse_duration. intros H.
  set (us := match split_last "m" text with Some _ => _ | None => _ end) in H.
  assert (us.1 = 1 \/ us.1 = 1000) as Hu.
  { unfold us. destruct (split_last _ _) as [[a b]|]; [|case_bool_decide; auto].
    repeat (case_match; simpl; auto). }
  destruct us as [u s]. simpl in Hu. destruct (parse_double s) as [v|] eqn:Hs; [|done].
  case_match eqn:Hr; [done|]. simplify_eq. apply duration_of_double; [done| |done].
  by eapply parse_double_valid.
Qed.

(** ** Well-formed commands *)

Definition option_all {A} (P : A -> Prop) (o : option A) : Prop :=
  match o with Some a => P a | None => True end.

Definition message_name_ok (stream function : Z) : Prop := 0 <= stream <= 127 /\ 0 <= function <= 255.

Definition field_ok (field : string) : Prop :=
  is_Some (strip_prefix "event." field) \/ is_Some (strip_prefix "alarm." field).

Definition command_ok (k : CommandKind) : Prop :=
  match k with
  | kConnect _ port => uint_ok 16 port
  | kSelect status | kDeselect status => option_all (uint_ok 8) status
  | kSend stream function _ device body =>
      message_name_ok stream function /\ option_all (uint_ok 16) device /\
      option_all (fun it => item_ok it /\ normalize it = it) body
  | kExpect stream function pattern timeout | kExpectNo stream function pattern timeout =>
      message_name_ok stream function /\ option_all (pattern_ok true) pattern /\ duration_ok timeout
  | kWaitEvent id filters timeout =>
      uint_ok 32 id /\ Forall (fun f => f.1 <> EmptyString) filters /\ duration_ok timeout
  | kWaitAlarm id _ timeout => uint_ok 32 id /\ duration_ok timeout
  | kExpectClosed timeout => duration_ok timeout
  | kExpectStatus id pattern timeout => uint_ok 32 id /\ pattern_ok true pattern /\ duration_ok timeout
  | kAssert field op _ tolerance value _ =>
      field_ok field /\ (op = kWithin -> SFltb tolerance (S754_zero false) = false)
  | kSleep duration => duration_ok duration
  | kRaw raw => raw <> [] /\ bytes_ok raw
  | kLinktest | kSeparate | kAutoAck _ | kDisconnect => True
  end.

(** A value that satisfies [Q], or a syntax error of the line. *)
Definition checked {A} (line : Z) (Q : A -> Prop) (r : Result A) : Prop :=
  match r with
  | Ok a => Q a
  | Err e => exists what, Err e = @syntax A line what
  end.

Lemma checked_syntax {A} line (Q : A -> Prop) what : checked line Q (syntax line what).
Proof. by exists what. Qed.

Lemma checked_bind {A B} line (Q : A -> Prop) (R : B -> Prop) r (k : A -> Result B) :
  checked line Q r -> (forall a, Q a -> checked line R (k a)) -> checked line R (result_bind r k).
Proof.
  destruct r as [a|e]; simpl; [auto|]. intros [what H] _. exists what. unfold syntax in *. congruence.
Qed.

Lemma trim_end_length s : (String.length (trim_end s) <= String.length s)%nat.
Proof.
  induction s as [|c s IH]; [done|]. simpl. destruct (trim_end s); simpl in *; [|lia].
  destruct (isspace c); simpl; lia.
Qed.

Lemma trim_length s : (String.length (trim s) <= String.length s)%nat.
Proof. unfold trim. pose proof (trim_end_length (skip_space s)). pose proof (skip_space_length s). lia. Qed.

Lemma split_word_length s : (split_word s).1 <> EmptyString ->
  (String.length (split_word s).2 < String.length s)%nat.
Proof.
  unfold split_word. pose proof (span_progress not_space s) as H.
  destruct (span not_space s) as [w r]. simpl in *. intros Hw. specialize (H Hw).
  pose proof (trim_length r). lia.
Qed.

Lemma parse_uint_ok s v : parse_uint s = Some v -> uint_ok 32 v.
Proof.
  unfold parse_uint. intros H. case_match; [done|].
  destruct (strtoull s) as [[[x er] rest]|] eqn:E.
  - destruct rest; [|done]. case_match eqn:Hx; simplify_eq. apply Z.ltb_ge in Hx.
    unfold strtoull in E. destruct (read_integer s) as [[[neg n] r]|]; [|done].
    case_match; simplify_eq; [int_lia|].
    pose proof (wrap_range 64 (if neg then - n else n)). int_lia.
  - case_match; simplify_eq. int_lia.
Qed.

Lemma parse_upto_ok limit s v : parse_upto limit s = Some v -> 0 <= v <= limit.
Proof.
  unfold parse_upto. intros H. destruct (parse_uint s) as [x|] eqn:E; [|done].
  apply parse_uint_ok in E. case_match eqn:Hx; simplify_eq. apply Z.ltb_ge in Hx. int_lia.
Qed.

Lemma parse_sf_ok w s f : parse_sf w = Some (s, f) -> message_name_ok s f.
Proof.
  unfold parse_sf. intros H. repeat (case_match; try done). simplify_eq.
  repeat match goal with H : parse_uint _ = Some _ |- _ => apply parse_uint_ok in H end.
  match goal with H : _ || _ = false |- _ => apply orb_false_iff in H as [?%Z.ltb_ge ?%Z.ltb_ge] end.
  unfold message_name_ok. int_lia.
Qed.

Lemma substitute_checked vars line s : checked line (fun _ => True) (substitute vars line s).
Proof.
  unfold substitute. generalize (Nat.lt_succ_diag_r (String.length s)).
  generalize (S (String.length s)) as fuel. intros fuel. revert s.
  induction fuel as [|fuel IH]; intros s Hs; [lia|]. destruct s as [|c s]; [done|]. simpl in Hs.
  cbn [substitute_from]. case_bool_decide.
  { eapply checked_bind; [apply IH; lia|done]. }
  pose proof (span_length name_char s). destruct (span name_char s) as [name r]. simpl in *.
  destruct (vars !! name); [|apply checked_syntax]. case_bool_decide; [apply checked_syntax|].
  eapply checked_bind; [apply IH; lia|done].
Qed.

Definition options_ok (o : Options) : Prop :=
  option_all duration_ok (opt_timeout o) /\ option_all (uint_ok 16) (opt_device o) /\
  option_all (uint_ok 8) (opt_status o).

Lemma take_options_checked rest line :
  checked line (fun p => options_ok p.2) (take_options nan_cast rest line).
Proof.
  unfold take_options. assert (options_ok no_options) as H0 by done. revert H0.
  generalize no_options as opts. generalize (Nat.lt_succ_diag_r (String.length rest)).
  generalize (S (String.length rest)) as fuel. intros fuel. revert rest.
  induction fuel as [|fuel IH]; intros rest Hs opts Hopts; [lia|]. cbn [take_options_from].
  pose proof (split_word_length rest) as Hl. destruct (split_word rest) as [word tail]. simpl in Hl.
  case_bool_decide as Hw; [done|]. specialize (Hl Hw). destruct Hopts as (Ht & Hd & Hst).
  case_bool_decide; [apply IH; [lia|done]|]. case_bool_decide; [apply IH; [lia|done]|].
  destruct (strip_prefix "timeout=" word) as [d|].
  { destruct (parse_duration nan_cast d) as [t|e] eqn:E; [|apply checked_syntax].
    apply parse_duration_ok in E. apply IH; [lia|done]. }
  destruct (strip_prefix "device=" word) as [d|].
  { destruct (parse_upto 65535 d) as [t|] eqn:E; [|apply checked_syntax].
    apply parse_upto_ok in E. apply IH; [lia|]. split; [done|]. split; [|done]. simpl. int_lia. }
  destruct (strip_prefix "status=" word) as [d|]; [|done].
  destruct (parse_upto 255 d) as [t|] eqn:E; [|apply checked_syntax].
  apply parse_upto_ok in E. apply IH; [lia|]. split; [done|]. split; [done|]. simpl. int_lia.
Qed.

Lemma timeout_or_ok d opts : options_ok opts -> 0 <= d <= max_duration ->
  duration_ok (timeout_or d opts).
Proof. intros [Ht _] Hd. unfold timeout_or. destruct (opt_timeout opts); [done|by left]. Qed.

Lemma only_options_checked what rest line :
  checked line options_ok (only_options nan_cast what rest line).
Proof.
  unfold only_options. pose proof (take_options_checked rest line) as H.
  destruct (take_options nan_cast rest line) as [[r o]|e]; [|apply checked_syntax].
  case_bool_decide; [done|apply checked_syntax].
Qed.

Lemma optional_text_checked {A} (parse : string -> Result A) (Q : A -> Prop) line t :
  (forall a, parse t = Ok a -> Q a) -> checked line (option_all Q) (optional_text parse line t).
Proof.
  intros HQ. unfold optional_text. case_bool_decide; [done|].
  destruct (parse t) eqn:E; [by apply HQ|apply checked_syntax].
Qed.

Lemma map_result_checked {A B} line (Q : B -> Prop) (f : A -> Result B) l :
  (forall x, checked line Q (f x)) -> checked line (Forall Q) (map_result f l).
Proof.
  intros Hf. induction l as [|x l IH]; [by constructor|]. simpl.
  eapply checked_bind; [apply Hf|]. intros y Hy. eapply checked_bind; [exact IH|].
  intros ys Hys. by constructor.
Qed.

(** Applies the rule of the operation at the head of the goal. *)
Ltac checked_step :=
  match goal with
  | |- checked _ _ (Ok _) => fail 1
  | |- checked _ _ (syntax _ _) => apply checked_syntax
  | |- checked _ _ (result_bind (take_options _ _ _) _) =>
      eapply checked_bind; [apply take_options_checked|]; intros [? ?] ?; simpl in *
  | |- checked _ _ (result_bind (only_options _ _ _ _) _) =>
      eapply checked_bind; [apply only_options_checked|]; intros ? ?
  | |- checked _ _ (if bool_decide ?P then _ else _) => case_bool_decide
  | |- checked _ _ (if ?b then _ else _) => destruct b eqn:?
  | |- checked _ _ (let '(_, _) := ?p in _) => destruct p
  | |- checked _ _ (match ?x with _ => _ end) => destruct x eqn:?
  end.

Lemma parse_item_ok text it : parse_item text = Ok it -> item_ok it /\ normalize it = it.
Proof.
  unfold parse_item. intros H. destruct (parse_text false text) as [p|] eqn:E; simplify_eq.
  by eapply to_item_ok, parse_text_ok.
Qed.

Lemma parse_message_checked line verb rest :
  checked line command_ok (parse_message nan_cast line verb rest).
Proof.
  unfold parse_message. repeat checked_step.
  - eapply checked_bind; [eapply optional_text_checked; apply parse_item_ok|]. intros b Hb.
    destruct H as (_ & Hd & _). split; [by eapply parse_sf_ok|]. done.
  - eapply checked_bind; [eapply (optional_text_checked _ (pattern_ok true)); apply parse_text_ok|].
    intros b Hb. checked_step; (split; [by eapply parse_sf_ok|]; split; [done|]);
      by apply timeout_or_ok.
Qed.

Lemma parse_connect_checked line rest : checked line command_ok (parse_connect line rest).
Proof.
  unfold parse_connect. repeat checked_step. simpl.
  match goal with H : parse_upto _ _ = _ |- _ => apply parse_upto_ok in H end. int_lia.
Qed.

Lemma parse_select_checked line verb rest make :
  (forall status, option_all (uint_ok 8) status -> command_ok (make status)) ->
  checked line command_ok (parse_select nan_cast line verb rest make).
Proof. intros Hm. unfold parse_select. repeat checked_step. by apply Hm, H. Qed.

Lemma parse_wait_event_checked line rest : checked line command_ok (parse_wait_event nan_cast line rest).
Proof.
  unfold parse_wait_event. repeat checked_step.
  eapply checked_bind; [eapply (map_result_checked _ (fun f => f.1 <> EmptyString))|].
  - intros w. unfold parse_filter. repeat checked_step; simpl;
      match goal with H : _ || _ = false |- _ => apply orb_false_iff in H as [Hf _] end;
      by apply bool_decide_eq_false in Hf.
  - intros fs Hfs. split; [by eapply parse_uint_ok|]. split; [done|]. by apply timeout_or_ok.
Qed.

Lemma parse_wait_alarm_checked line rest : checked line command_ok (parse_wait_alarm nan_cast line rest).
Proof.
  unfold parse_wait_alarm. repeat checked_step. split; [by eapply parse_uint_ok|]. by apply timeout_or_ok.
Qed.

Lemma parse_expect_status_checked line rest :
  checked line command_ok (parse_expect_status nan_cast line rest).
Proof.
  unfold parse_expect_status. repeat checked_step. split; [by eapply parse_uint_ok|].
  split; [by eapply parse_text_ok|]. by apply timeout_or_ok.
Qed.

Lemma parse_assert_checked line rest : checked line command_ok (parse_assert line rest).
Proof.
  assert (forall f, strip_prefix "event." f <> None \/ strip_prefix "alarm." f <> None -> field_ok f) as Hf.
  { intros f [H|H]; [left|right]; by apply not_eq_None_Some. }
  unfold parse_assert. repeat checked_step; simpl;
    repeat case_match; (split; [apply Hf; first [left; congruence | right; congruence]|done]).
Qed.

Lemma parse_raw_checked line rest : checked line command_ok (parse_raw line rest).
Proof.
  unfold parse_raw. eapply checked_bind; [eapply (map_result_checked _ byte_ok)|].
  - intros w. unfold parse_byte. repeat checked_step; simpl;
      match goal with H : parse_upto _ _ = _ |- _ => apply parse_upto_ok in H end; int_lia.
  - intros l Hl. repeat checked_step. done.
Qed.

Lemma parse_command_checked line verb rest :
  checked line command_ok (parse_command nan_cast line verb rest).
Proof.
  unfold parse_command.
  repeat (checked_step; [first [done | apply parse_connect_checked | by apply parse_select_checked
    | apply parse_message_checked | apply parse_wait_event_checked | apply parse_wait_alarm_checked
    | apply parse_expect_status_checked | apply parse_assert_checked | apply parse_raw_checked
    | repeat checked_step; by apply timeout_or_ok | by repeat checked_step | repeat checked_step; by eapply parse_duration_ok]|]).
  apply checked_syntax.
Qed.

(** ** Scripts *)

Lemma parse_line_checked vars line raw :
  checked line (option_all (fun c => command_ok (kind c) /\ HostScript.line c = line))
    (parse_line nan_cast vars line raw).
Proof.
  unfold parse_line. case_bool_decide; [done|].
  eapply checked_bind; [apply substitute_checked|]. intros l _.
  destruct (split_word l) as [verb rest].
  eapply checked_bind; [apply parse_command_checked|]. intros k Hk. by split.
Qed.

(** The commands are those of the lines, in their order; a line that fails is the first. *)
Definition lines_parsed (vars : gmap string string) (n : Z) (ls : list string)
  (r : Result (list HostCommand)) : Prop :=
  match r with
  | Ok cmds =>
      (forall i raw, ls !! i = Some raw -> exists o,
         parse_line nan_cast vars (n + Z.of_nat i) raw = Ok o /\ forall c, o = Some c -> c ∈ cmds) /\
      Forall (fun c => exists i raw, ls !! i = Some raw /\ line c = n + Z.of_nat i /\
                parse_line nan_cast vars (line c) raw = Ok (Some c) /\ command_ok (kind c)) cmds /\
      StronglySorted Z.lt (map line cmds)
  | Err e =>
      exists i raw what, ls !! i = Some raw /\
        parse_line nan_cast vars (n + Z.of_nat i) raw = Err e /\
        e = mkError kErrScriptSyntax ("line " +:+ pretty (n + Z.of_nat i) +:+ ": " +:+ what) /\
        has_value (parse_lines nan_cast vars n (take i ls)) = true
  end.

Lemma parse_lines_parsed vars n ls : lines_parsed vars n ls (parse_lines nan_cast vars n ls).
Proof.
  revert n. induction ls as [|raw ls IH]; intros n.
  { split; [by intros i raw Hl|]. split; constructor. }
  pose proof (parse_line_checked vars n raw) as Hline. simpl.
  destruct (parse_line nan_cast vars n raw) as [o|e] eqn:E; simpl in Hline |- *.
  2:{ destruct Hline as [what He]. exists 0%nat, raw, what. rewrite Z.add_0_r.
      split; [done|]. split; [done|]. split; [|done]. unfold syntax in He. by injection He. }
  specialize (IH (n + 1)).
  assert (forall i, n + Z.of_nat (S i) = n + 1 + Z.of_nat i) as Hi by lia.
  destruct (parse_lines nan_cast vars (n + 1) ls) as [cs|e] eqn:Ecs; simpl in *.
  - destruct IH as (Hall & Hcs & Hsort).
    assert (Forall (fun c => exists i raw', (raw :: ls) !! i = Some raw' /\ line c = n + Z.of_nat i /\
      parse_line nan_cast vars (line c) raw' = Ok (Some c) /\ command_ok (kind c)) cs) as Hcs'.
    { eapply Forall_impl; [exact Hcs|]. intros c (i & raw' & ? & ? & ?). exists (S i), raw'.
      by rewrite Hi. }
    assert (forall i raw', (raw :: ls) !! i = Some raw' -> exists o',
      parse_line nan_cast vars (n + Z.of_nat i) raw' = Ok o' /\
      forall c, o' = Some c -> c ∈ match o with Some c => c :: cs | None => cs end) as Hall'.
    { intros [|i] raw' Hl; simpl in Hl.
      - simplify_eq. exists o. rewrite Z.add_0_r. split; [done|]. intros c ->. left.
      - rewrite Hi. destruct (Hall i raw' Hl) as (o' & Ho' & Hc). exists o'. split; [done|].
        intros c Hc'. destruct o; [right|]; auto. }
    destruct o as [c|]; [|done]. destruct Hline as [Hok Hn]. split; [done|]. split.
    + constructor; [|done]. exists 0%nat, raw. rewrite Z.add_0_r. by rewrite Hn.
    + simpl. constructor; [done|]. apply Forall_map. eapply Forall_impl; [exact Hcs|].
      intros c' (i & raw' & _ & Hc' & _). lia.
  - destruct IH as (i & raw' & what & Hl & Hp & He & Hv). exists (S i), raw', what.
    rewrite Hi. split; [done|]. split; [done|]. split; [done|]. simpl. rewrite E.
    destruct (parse_lines nan_cast vars (n + 1) (take i ls)); [by destruct o|done].
Qed.

End wellformed.

(** [C36] Parsing a script ends with the commands of its lines in their order, each with
    the number of its line and well formed: ports, streams, functions, device ids,
    identifiers and bytes in the ranges of their types, items that can be encoded; durations
    between 0 and a thousand hours, or, for a text that is a NaN, which the check lets
    through, the undefined cast of it; tolerances not below 0, but possibly a NaN
    ([nan_accepted]). Or it ends with the error of the first line that does not parse, and
    nothing else. *)
Theorem parse_script_wellformed nan_cast text vars :
  lines_parsed nan_cast vars 1 (getlines text) (parse_script nan_cast text vars).
Proof. apply parse_lines_parsed. Qed.

(** [words] finds all the words of a text. *)
Lemma words_enough fuel s : (String.length s < fuel)%nat -> words_from fuel s = words s.
Proof.
  unfold words. enough (forall n fuel s, (String.length s < n)%nat -> (n <= fuel)%nat ->
    words_from fuel s = words_from n s) as H by (intros; apply H; lia). clear.
  intros n. induction n as [|n IH]; intros [|fuel] s Hs Hn; try lia. simpl.
  pose proof (span_progress not_space (skip_space s)) as Hp. pose proof (skip_space_length s).
  destruct (span not_space (skip_space s)) as [w rest]. simpl in *. case_bool_decide; [done|].
  rewrite (IH fuel) by (try lia; specialize (Hp H0); lia). done.
Qed.

(** ** Examples *)

Definition two_lines : string :=
  "select status=1 # comment" +:+ String "010" "sleep 1h".

Lemma parse_script_wellformed_witness :
  exists cmds, parse_script 0 ("connect 127.0.0.1:5000" +:+ String "010" "sleep 5s") ∅ = Ok cmds /\
    map line cmds = [1; 2] /\ Forall (fun c => command_ok 0 (kind c)) cmds.
Proof.
  pose proof (parse_script_wellformed 0 ("connect 127.0.0.1:5000" +:+ String "010" "sleep 5s") ∅) as H.
  destruct (parse_script 0 ("connect 127.0.0.1:5000" +:+ String "010" "sleep 5s") ∅) as [cmds|e] eqn:E.
  - exists cmds. split; [reflexivity|]. split.
    + vm_compute in E. injection E as <-. reflexivity.
    + destruct H as (_ & H & _). eapply Forall_impl; [exact H|]. intros c (i & raw & _ & _ & _ & Hc). exact Hc.
  - vm_compute in E. discriminate E.
Defined.

Lemma second_line_fails :
  parse_script 0 two_lines ∅ = Err (mkError 601 "line 2: bad duration '1h'").
Proof. vm_compute. reflexivity. Qed.

(** NaN passes the checks of durations and tolerances: the timeout is then whatever the
    undefined cast gives, and the assertion holds for every value. *)
Lemma nan_accepted nan_cast :
  parse_script nan_cast "sleep nan" ∅ = Ok [mkHostCommand (kSleep nan_cast) 1 "sleep nan"] /\
  parse_script nan_cast "assert event.STRESS_MPA within 0 +-nan" ∅ =
    Ok [mkHostCommand (kAssert "event.STRESS_MPA" kWithin (S754_zero false) S754_nan "" false) 1
          "assert event.STRESS_MPA within 0 +-nan"].
Proof. split; reflexivity. Qed.
