(* ===== verification/HostRunner.v ===== *)
(** * The script runner of the host simulator

    src/host_sim/host_client.cpp and src/host_sim/runner.cpp: a script run against a
    machine. The network is a list of what arrives and when, and the answers of the
    operating system to connection attempts and writes, all arbitrary; [written] is
    what reached the socket and [trace] the lines given to [RunOptions::log]. The clock
    counts whole milliseconds and stands still while the runner computes: time passes
    in [read] and in sleeps. *)

From S2P Require Import CLibrary Prelude Secs2Item Secs2Codec Secs2Message TextDump HsmsFrame GemMessages HostPattern HostScript.

(** ** The connection *)

(** What the next bytes from the machine are: some bytes, or an error or end of file. *)
Inductive Arrival := arrives (at_ : Z) (bytes : list Z) | breaks (at_ : Z).

Definition arrival_time (a : Arrival) : Z :=
  match a with arrives t _ | breaks t => t end.

(** [HostClient::Impl]. *)
Record HostClient := mkClient { socket_open : bool; client_closed : bool; decoder : FrameDecoder }.

Inductive ReadStatus := kFrames | kTimeout | kClosed.

#[global] Instance ReadStatus_eq_dec : EqDecision ReadStatus.
Proof. solve_decision. Defined.

Record Received := mkReceived { rx_frame : Frame; rx_message : Message }.

(** [Runner], with the environment: the clock, what arrives, and the errors of coming
    connection attempts and writes ([None], or the end of the list, is success). *)
Record Runner := mkRunner {
  client_ : HostClient;
  queue_ : list Received;
  control_ : list Frame;
  auto_ack_ : bool;
  closed_ : bool;
  next_sys_ : Z;
  last_event_ : option EventReport;
  last_alarm_ : option AlarmReport;
  message_ : string;
  now : Z;
  arrivals : list Arrival;
  connect_errors : list (option string);
  write_errors : list (option string);
  written : list (list Z);
  trace : list string
}.

Definition set_client v r := mkRunner v (queue_ r) (control_ r) (auto_ack_ r) (closed_ r) (next_sys_ r)
  (last_event_ r) (last_alarm_ r) (message_ r) (now r) (arrivals r) (connect_errors r) (write_errors r)
  (written r) (trace r).
Definition set_queue v r := mkRunner (client_ r) v (control_ r) (auto_ack_ r) (closed_ r) (next_sys_ r)
  (last_event_ r) (last_alarm_ r) (message_ r) (now r) (arrivals r) (connect_errors r) (write_errors r)
  (written r) (trace r).
Definition set_control v r := mkRunner (client_ r) (queue_ r) v (auto_ack_ r) (closed_ r) (next_sys_ r)
  (last_event_ r) (last_alarm_ r) (message_ r) (now r) (arrivals r) (connect_errors r) (write_errors r)
  (written r) (trace r).
Definition set_auto_ack v r := mkRunner (client_ r) (queue_ r) (control_ r) v (closed_ r) (next_sys_ r)
  (last_event_ r) (last_alarm_ r) (message_ r) (now r) (arrivals r) (connect_errors r) (write_errors r)
  (written r) (trace r).
Definition set_closed v r := mkRunner (client_ r) (queue_ r) (control_ r) (auto_ack_ r) v (next_sys_ r)
  (last_event_ r) (last_alarm_ r) (message_ r) (now r) (arrivals r) (connect_errors r) (write_errors r)
  (written r) (trace r).
Definition set_next_sys v r := mkRunner (client_ r) (queue_ r) (control_ r) (auto_ack_ r) (closed_ r) v
  (last_event_ r) (last_alarm_ r) (message_ r) (now r) (arrivals r) (connect_errors r) (write_errors r)
  (written r) (trace r).
Definition set_event v r := mkRunner (client_ r) (queue_ r) (control_ r) (auto_ack_ r) (closed_ r)
  (next_sys_ r) v (last_alarm_ r) (message_ r) (now r) (arrivals r) (connect_errors r) (write_errors r)
  (written r) (trace r).
Definition set_alarm v r := mkRunner (client_ r) (queue_ r) (control_ r) (auto_ack_ r) (closed_ r)
  (next_sys_ r) (last_event_ r) v (message_ r) (now r) (arrivals r) (connect_errors r) (write_errors r)
  (written r) (trace r).
Definition set_message v r := mkRunner (client_ r) (queue_ r) (control_ r) (auto_ack_ r) (closed_ r)
  (next_sys_ r) (last_event_ r) (last_alarm_ r) v (now r) (arrivals r) (connect_errors r) (write_errors r)
  (written r) (trace r).
Definition set_now v r := mkRunner (client_ r) (queue_ r) (control_ r) (auto_ack_ r) (closed_ r)
  (next_sys_ r) (last_event_ r) (last_alarm_ r) (message_ r) v (arrivals r) (connect_errors r)
  (write_errors r) (written r) (trace r).
Definition set_arrivals v r := mkRunner (client_ r) (queue_ r) (control_ r) (auto_ack_ r) (closed_ r)
  (next_sys_ r) (last_event_ r) (last_alarm_ r) (message_ r) (now r) v (connect_errors r)
  (write_errors r) (written r) (trace r).
Definition set_connect_errors v r := mkRunner (client_ r) (queue_ r) (control_ r) (auto_ack_ r)
  (closed_ r) (next_sys_ r) (last_event_ r) (last_alarm_ r) (message_ r) (now r) (arrivals r) v
  (write_errors r) (written r) (trace r).
Definition set_write_errors v r := mkRunner (client_ r) (queue_ r) (control_ r) (auto_ack_ r)
  (closed_ r) (next_sys_ r) (last_event_ r) (last_alarm_ r) (message_ r) (now r) (arrivals r)
  (connect_errors r) v (written r) (trace r).
Definition add_written bytes r := mkRunner (client_ r) (queue_ r) (control_ r) (auto_ack_ r)
  (closed_ r) (next_sys_ r) (last_event_ r) (last_alarm_ r) (message_ r) (now r) (arrivals r)
  (connect_errors r) (write_errors r) (written r ++ [bytes]) (trace r).
Definition log text r := mkRunner (client_ r) (queue_ r) (control_ r) (auto_ack_ r)
  (closed_ r) (next_sys_ r) (last_event_ r) (last_alarm_ r) (message_ r) (now r) (arrivals r)
  (connect_errors r) (write_errors r) (written r) (trace r ++ [text]).

Definition kMaxFrame : Z := 16 * 1024 * 1024.

Definition new_client : HostClient := mkClient false false (new_decoder kMaxFrame).

Definition new_runner (now : Z) (arrivals : list Arrival) (connect_errors write_errors : list (option string)) :=
  mkRunner new_client [] [] true true 1 None None EmptyString now arrivals connect_errors write_errors [] [].

(** [HostClient::close]. *)
Definition client_close (r : Runner) : Runner :=
  set_client (mkClient false (client_closed (client_ r)) (decoder (client_ r))) r.

Definition is_open (r : Runner) : bool := socket_open (client_ r) && negb (client_closed (client_ r)).

(** [HostClient::connect]: an error, or nothing; [make_address] is Asio's. *)
Definition client_connect (make_address : string -> bool) (host : string) (port : Z) (r : Runner) :
    option string * Runner :=
  if negb (make_address host) then
    (Some ("bad host address '" +:+ host +:+ "'"), set_client new_client r)
  else
    let r := set_client (mkClient true false (new_decoder kMaxFrame)) r in
    let '(e, errors) := match connect_errors r with [] => (None, []) | e :: es => (e, es) end in
    let r := set_connect_errors errors r in
    match e with
    | Some what =>
        (Some ("cannot connect to " +:+ host +:+ ":" +:+ pretty port +:+ ": " +:+ what), r)
    | None => (None, r)
    end.

(** [HostClient::send_bytes]: an error, or nothing. *)
Definition send_bytes (bytes : list Z) (r : Runner) : option string * Runner :=
  if negb (socket_open (client_ r)) then (Some "not connected", r)
  else
    match write_errors r with
    | Some what :: errors => (Some ("send failed: " +:+ what), set_write_errors errors r)
    | None :: errors => (None, add_written bytes (set_write_errors errors r))
    | [] => (None, add_written bytes r)
    end.

(** [HostClient::read]: the status and the frames completed. *)
Definition client_read (timeout : Z) (r : Runner) : ReadStatus * list Frame * Runner :=
  let d := client_ r in
  let shut r := set_client (mkClient (socket_open d) true (decoder (client_ r))) r in
  if negb (is_open r) then (kClosed, [], r)
  else
    match arrivals r with
    | a :: rest =>
        if arrival_time a <=? now r + timeout then
          let r := set_arrivals rest (set_now (Z.max (now r) (arrival_time a)) r) in
          match a with
          | breaks _ => (kClosed, [], shut r)
          | arrives _ bytes =>
              let '(frames, dec) := feed (decoder d) bytes in
              let r := set_client (mkClient (socket_open d) (client_closed d) dec) r in
              match frames with
              | Ok frames => (kFrames, frames, r)
              | Err _ => (kClosed, [], shut r)
              end
          end
        else (kTimeout, [], set_now (now r + timeout) r)
    | [] => (kTimeout, [], set_now (now r + timeout) r)
    end.

(** ** Values *)

Definition sf_name (stream function : Z) : string := "S" +:+ pretty stream +:+ "F" +:+ pretty function.

Definition as_number (it : Item) : option double :=
  match it with
  | binary (v :: _) | boolean (v :: _) | i1 (v :: _) | i2 (v :: _) | i4 (v :: _) | i8 (v :: _)
  | u1 (v :: _) | u2 (v :: _) | u4 (v :: _) | u8 (v :: _) => Some (double_of_Z v)
  | f4 (v :: _) => Some (to_double (float_of_bits v))
  | f8 (v :: _) => Some (double_of_bits v)
  | _ => None
  end.

Fixpoint find_index (name : string) (fields : list string) : option nat :=
  match fields with
  | [] => None
  | f :: fields => if bool_decide (f = name) then Some O else S <$> find_index name fields
  end.

Fixpoint find_field (reports : list Report) (name : string) : option Item :=
  match reports with
  | [] => None
  | rpt :: rpts =>
      match find_index name (report_fields (rptid rpt)) with
      | Some i => report_values rpt !! i
      | None => find_field rpts name
      end
  end.

Definition find_event_field (event : EventReport) (name : string) : option Item :=
  find_field (reports event) name.

Definition is_true (x : double) : bool := negb (SFeqb x (S754_zero false)).

(** The literal 1e-9. *)
Definition tiny : double := S754_finite false 4835703278458517 (-82).

Definition close_to (x y : double) : bool := SFltb (SFabs (dsub x y)) tiny.

Definition item_equals_text (it : Item) (text : string) : bool :=
  match it with
  | ascii_ s => bool_decide (s = text)
  | _ =>
      match as_number it with
      | None => false
      | Some number =>
          if bool_decide (format it = kBoolean) then
            Bool.eqb (is_true number) (bool_decide (text = "true"))
          else
            match strtod text with
            | Some (wanted, _, EmptyString) => close_to number wanted
            | _ => false
            end
      end
  end.

(** [kAckAccepted] of identifiers.hpp: ACKC5 and ACKC6. *)
Definition kAckAccepted : Z := 0.

(** ** The runner

    A step that can wait takes fuel; [None] is a step out of fuel. *)

Definition fail (why : string) (r : Runner) : bool * Runner := (false, set_message why r).

Definition send_frame (f : Frame) (what : string) (r : Runner) : bool * Runner :=
  match encode_frame f with
  | Err e => fail (message e) r
  | Ok bytes =>
      let '(e, r) := send_bytes bytes (log (">> " +:+ what) r) in
      match e with Some why => fail why r | None => (true, r) end
  end.

Definition send_control (t : SType) (sys byte3 : Z) (r : Runner) : bool * Runner :=
  send_frame (make_control_frame t sys 0 byte3) (stype_to_string t +:+ " sys=" +:+ pretty sys) r.

(** [secs2::encode( *m.body).value()], for the bodies the runner makes itself: they
    always encode. *)
Definition encoded_body (m : Message) : list Z :=
  match body m with
  | Some b => match encode b with Ok bs => bs | Err _ => [] end
  | None => []
  end.

(** [reply]. *)
Definition reply_frame (request : Frame) (m : Message) : Frame :=
  make_data_frame (session_id (header request)) (stream m) (function m) false
    (system_bytes (header request)) (encoded_body m).

Definition reply (request : Frame) (m : Message) (r : Runner) : Runner :=
  (send_frame (reply_frame request m) (message_text m +:+ " (auto-ack)") r).2.

Definition on_frame (f : Frame) (r : Runner) : Runner :=
  let h := header f in
  let t := stype_from_byte (stype h) in
  if negb (stype h =? 0) then
    let name := match t with Some t => stype_to_string t | None => "SType " +:+ pretty (stype h) end in
    let r := log ("<< " +:+ name +:+ " sys=" +:+ pretty (system_bytes h) +:+ " byte2=" +:+
                  pretty (byte2 h) +:+ " byte3=" +:+ pretty (byte3 h)) r in
    let r := if bool_decide (t = Some kLinktestReq)
             then (send_control kLinktestRsp (system_bytes h) 0 r).2 else r in
    set_control (control_ r ++ [f]) r
  else
    match to_message f with
    | Err e =>
        log ("<< (undecodable data message S" +:+ pretty (header_stream h) +:+ "F" +:+
             pretty (header_function h) +:+ ": " +:+ message e +:+ ")") r
    | Ok m =>
        let r := log ("<< " +:+ message_text m) r in
        let r :=
          if auto_ack_ r && w_bit m then
            if (stream m =? 6) && (function m =? 11) then reply f (make_s6f12 kAckAccepted) r
            else if (stream m =? 5) && (function m =? 1) then reply f (make_s5f2 kAckAccepted) r
            else r
          else r in
        set_queue (queue_ r ++ [mkReceived f m]) r
    end.

Definition pump (timeout : Z) (r : Runner) : ReadStatus * Runner :=
  let '(status, frames, r) := client_read timeout r in
  let r := foldl (fun r f => on_frame f r) r frames in
  (status, if bool_decide (status = kClosed) then set_closed true r else r).

(** The first element that satisfies [p], and the others. *)
Fixpoint take_first {A} (p : A -> bool) (l : list A) : option (A * list A) :=
  match l with
  | [] => None
  | x :: l =>
      if p x then Some (x, l)
      else match take_first p l with Some (y, l) => Some (y, x :: l) | None => None end
  end.

(** [wait_message]: the message, or nothing and the reason in [message_]. *)
Fixpoint wait_message_until (fuel : nat) (deadline : Z) (pred : Received -> bool) (timeout : Z)
    (what : string) (r : Runner) : option (option Received * Runner) :=
  match fuel with
  | O => None
  | S fuel =>
      match take_first pred (queue_ r) with
      | Some (x, queue) => Some (Some x, set_queue queue r)
      | None =>
          if closed_ r then
            Some (None, set_message ("the connection closed while waiting for " +:+ what) r)
          else
            let left_ := deadline - now r in
            if left_ <=? 0 then
              Some (None, set_message ("timed out after " +:+ pretty timeout +:+ " ms waiting for "
                                       +:+ what) r)
            else wait_message_until fuel deadline pred timeout what (pump left_ r).2
      end
  end.

(** Every round reads something or reaches the deadline. *)
Definition wait_fuel (r : Runner) : nat := length (arrivals r) + 2.

Definition wait_message (pred : Received -> bool) (timeout : Z) (what : string) (r : Runner) :
    option (option Received * Runner) :=
  wait_message_until (wait_fuel r) (now r + timeout) pred timeout what r.

Fixpoint wait_control_until (fuel : nat) (deadline : Z) (t : SType) (sys : Z) (r : Runner) :
    option (option Frame * Runner) :=
  match fuel with
  | O => None
  | S fuel =>
      match take_first (fun f => (stype (header f) =? stype_code t) && (system_bytes (header f) =? sys))
              (control_ r) with
      | Some (x, control) => Some (Some x, set_control control r)
      | None =>
          if closed_ r then
            Some (None, set_message ("the connection closed while waiting for "
                                     +:+ stype_to_string t) r)
          else
            let left_ := deadline - now r in
            if left_ <=? 0 then
              Some (None, set_message ("timed out waiting for " +:+ stype_to_string t) r)
            else wait_control_until fuel deadline t sys (pump left_ r).2
      end
  end.

Definition wait_control (t : SType) (sys timeout : Z) (r : Runner) : option (option Frame * Runner) :=
  wait_control_until (wait_fuel r) (now r + timeout) t sys r.

(** [do_sleep]: reading goes on in slices of 50 ms. *)
Fixpoint sleep_until (fuel : nat) (end_ : Z) (r : Runner) : option Runner :=
  match fuel with
  | O => None
  | S fuel =>
      if now r <? end_ then
        let slice := Z.min (end_ - now r) 50 in
        sleep_until fuel end_
          (if is_open r && negb (closed_ r) then (pump slice r).2 else set_now (now r + slice) r)
      else Some r
  end.

Definition do_sleep (duration : Z) (r : Runner) : option Runner :=
  sleep_until (length (arrivals r) + Z.to_nat (duration / 50) + 2) (now r + duration) r.

Definition matches_body (pattern : option Pattern) (m : Message) : bool :=
  match pattern, body m with
  | None, _ => true
  | Some p, None => match p with kAnyItem => true | _ => false end
  | Some p, Some it => matches p it
  end.

Definition body_text (m : Message) : string :=
  match body m with Some it => to_text it | None => "(no body)" end.

(** Runs [k] on the value of a step that succeeded; the step's failure is its own. *)
Definition found {A} (w : option (option A * Runner)) (k : A -> Runner -> option (bool * Runner)) :
    option (bool * Runner) :=
  match w with
  | Some (Some a, r) => k a r
  | Some (None, r) => Some (false, r)
  | None => None
  end.

(** [next_sys_++]. *)
Definition take_sys (r : Runner) : Z * Runner :=
  (next_sys_ r, set_next_sys (wrap 32 (next_sys_ r + 1)) r).

Definition is_message (stream_ function_ : Z) (x : Received) : bool :=
  (stream (rx_message x) =? stream_) && (function (rx_message x) =? function_).

Section commands.
Context (make_address : string -> bool) (device_id : Z).

Definition do_connect (host : string) (port : Z) (r : Runner) : bool * Runner :=
  let '(e, r) := client_connect make_address host port (client_close r) in
  match e with
  | Some why => fail why r
  | None =>
      (true, log ("connected to " +:+ host +:+ ":" +:+ pretty port)
               (set_control [] (set_queue [] (set_closed false r))))
  end.

Definition do_handshake (request response : SType) (expected_status : Z) (r : Runner) :
    option (bool * Runner) :=
  let '(sys, r) := take_sys r in
  let '(sent, r) := send_control request sys 0 r in
  if negb sent then Some (false, r)
  else
    found (wait_control response sys 5000 r) (fun rsp r =>
      if bool_decide (response <> kLinktestRsp) && negb (byte3 (header rsp) =? expected_status) then
        Some (fail (stype_to_string response +:+ " status " +:+ pretty (byte3 (header rsp)) +:+
                    ", expected " +:+ pretty expected_status) r)
      else Some (true, r)).

Definition do_send (stream function : Z) (w : option bool) (device : option Z) (it : option Item)
    (r : Runner) : bool * Runner :=
  let m := mkMessage stream function (default (function mod 2 =? 1) w) it in
  let send bytes r :=
    let '(sys, r) := take_sys r in
    send_frame (make_data_frame (wrap 16 (default device_id device)) stream function
                  (w_bit m) sys bytes)
      (message_text m +:+ " sys=" +:+ pretty sys) r in
  match it with
  | None => send [] r
  | Some it => match encode it with Ok bytes => send bytes r | Err e => fail (message e) r end
  end.

Definition do_expect (stream function : Z) (pattern : option Pattern) (timeout : Z) (r : Runner) :
    option (bool * Runner) :=
  let what := sf_name stream function in
  found (wait_message (is_message stream function) timeout what r) (fun x r =>
    if matches_body pattern (rx_message x) then Some (true, r)
    else Some (fail (what +:+ " arrived but its body " +:+ body_text (rx_message x) +:+
                     " does not match the pattern") r)).

Definition do_expect_no (stream function : Z) (timeout : Z) (r : Runner) : option (bool * Runner) :=
  match wait_message (is_message stream function) timeout (sf_name stream function) r with
  | Some (Some x, r) =>
      Some (fail ("unexpected " +:+ message_text (rx_message x)) (set_message EmptyString r))
  | Some (None, r) => Some (true, set_message EmptyString r)
  | None => None
  end.

Definition event_matches (id : Z) (filters : list (string * string)) (x : Received) : bool :=
  if is_message 6 11 x then
    match parse_s6f11 (rx_message x) with
    | Ok e =>
        (ceid e =? id) &&
        forallb (fun f => match find_event_field e f.1 with
                          | Some v => item_equals_text v f.2
                          | None => false
                          end) filters
    | Err _ => false
    end
  else false.

Definition do_wait_event (id : Z) (filters : list (string * string)) (timeout : Z) (r : Runner) :
    option (bool * Runner) :=
  let what := "event " +:+ pretty id +:+ " " +:+ ceid_name id +:+
              concat_map (fun f => " " +:+ f.1 +:+ "=" +:+ f.2) filters in
  found (wait_message (event_matches id filters) timeout what r) (fun x r =>
    Some (true, set_event (match parse_s6f11 (rx_message x) with Ok e => Some e | Err _ => None end) r)).

Definition alarm_matches (id : Z) (set_ : bool) (x : Received) : bool :=
  if is_message 5 1 x then
    match parse_s5f1 (rx_message x) with
    | Ok a => (alid a =? id) && Bool.eqb (negb (Z.land (alcd a) kAlcdSetBit =? 0)) set_
    | Err _ => false
    end
  else false.

Definition do_wait_alarm (id : Z) (set_ : bool) (timeout : Z) (r : Runner) : option (bool * Runner) :=
  let what := "alarm " +:+ pretty id +:+ (if set_ then " set" else " clear") in
  found (wait_message (alarm_matches id set_) timeout what r) (fun x r =>
    Some (true, set_alarm (match parse_s5f1 (rx_message x) with Ok a => Some a | Err _ => None end) r)).

Fixpoint expect_closed_until (fuel : nat) (deadline : Z) (r : Runner) : option (bool * Runner) :=
  match fuel with
  | O => None
  | S fuel =>
      if closed_ r then Some (true, r)
      else
        let left_ := deadline - now r in
        if left_ <=? 0 then Some (fail "the machine did not close the connection" r)
        else expect_closed_until fuel deadline (pump left_ r).2
  end.

Definition do_expect_closed (timeout : Z) (r : Runner) : option (bool * Runner) :=
  expect_closed_until (wait_fuel r) (now r + timeout) r.

(** What [do_expect_status] shows of an S1F4: its single value. *)
Definition status_answer (m : Message) : option Item :=
  match body m with Some (list_ [it]) => Some it | _ => None end.

Fixpoint expect_status_until (fuel : nat) (deadline id : Z) (pattern : Pattern) (last : string)
    (r : Runner) : option (bool * Runner) :=
  match fuel with
  | O => None
  | S fuel =>
      let '(sys, r) := take_sys r in
      let ask := make_s1f3 [id] in
      let '(sent, r) := send_frame (make_data_frame (wrap 16 device_id) 1 3 true sys (encoded_body ask))
                          (message_text ask +:+ " sys=" +:+ pretty sys) r in
      if negb sent then Some (false, r)
      else
        found (wait_message (fun x => (system_bytes (header (rx_frame x)) =? sys) && is_message 1 4 x)
                 5000 "S1F4" r) (fun x r =>
          let answer := status_answer (rx_message x) in
          let last := match answer with Some it => to_text it | None => last end in
          if match answer with Some it => matches pattern it | None => false end then Some (true, r)
          else if deadline <=? now r then
            Some (fail ("status variable " +:+ pretty id +:+ " was " +:+ last +:+
                        ", never matched the pattern") r)
          else
            match do_sleep 200 r with
            | Some r => expect_status_until fuel deadline id pattern last r
            | None => None
            end)
  end.

Definition do_expect_status (id : Z) (pattern : Pattern) (timeout : Z) (r : Runner) :
    option (bool * Runner) :=
  expect_status_until (Z.to_nat (timeout / 200) + 2) (now r + timeout) id pattern "(no answer)" r.

(** The value an assertion is about, or why there is none. [parse_assert] only lets
    fields through that start with one of the two prefixes, both of length 6. *)
Definition asserted_value (field : string) (r : Runner) : string + Item :=
  let name := String.substring 6 (String.length field) field in
  if String.prefix "event." field then
    match last_event_ r with
    | None => inl "no event yet: use wait-event before asserting on event.*"
    | Some e =>
        match find_event_field e name with
        | Some it => inr it
        | None => inl ("the last event has no field " +:+ name)
        end
    end
  else
    match last_alarm_ r with
    | None => inl "no alarm yet: use wait-alarm before asserting on alarm.*"
    | Some a =>
        if bool_decide (name = "ALID") then inr (u4 [alid a])
        else if bool_decide (name = "ALCD") then inr (u1 [alcd a])
        else if bool_decide (name = "ALTX") then inr (ascii_ (altx a))
        else inl ("unknown alarm field " +:+ name +:+ " (ALID, ALCD, ALTX)")
    end.

Definition do_assert (field : string) (op : AssertOp) (number tolerance : double) (value : string)
    (value_is_number : bool) (r : Runner) : bool * Runner :=
  match asserted_value field r with
  | inl why => fail why r
  | inr it =>
      let shown := to_text it in
      match op with
      | kWithin =>
          match as_number it with
          | None => fail (field +:+ " is " +:+ shown +:+ ", not a number") r
          | Some x =>
              if SFltb tolerance (SFabs (dsub x number)) then
                fail (field +:+ " is " +:+ shown +:+ ", outside " +:+ format_f number +:+ " +- " +:+
                      format_f tolerance) r
              else (true, r)
          end
      | _ =>
          let equal :=
            if value_is_number then
              match as_number it with Some x => close_to x number | None => false end
            else
              match it with
              | ascii_ s => bool_decide (s = value)
              | boolean _ =>
                  Bool.eqb (match as_number it with Some x => is_true x | None => false end)
                    (bool_decide (value = "true"))
              | _ => false
              end in
          let want_equal := match op with kEqual => true | _ => false end in
          if Bool.eqb equal want_equal then (true, r)
          else
            fail (field +:+ " is " +:+ shown +:+
                  (if want_equal then ", expected " else ", expected not ") +:+
                  (if value_is_number then format_f number else value)) r
      end
  end.

Definition do_raw (raw : list Z) (r : Runner) : bool * Runner :=
  let '(e, r) := send_bytes raw
                   (log (">> raw " +:+ pretty (Z.of_nat (length raw)) +:+ " byte(s)") r) in
  match e with Some why => fail why r | None => (true, r) end.

Definition execute (c : HostCommand) (r : Runner) : option (bool * Runner) :=
  match kind c with
  | kConnect host port => Some (do_connect host port r)
  | kSelect status => do_handshake kSelectReq kSelectRsp (default 0 status) r
  | kDeselect status => do_handshake kDeselectReq kDeselectRsp (default 0 status) r
  | kLinktest => do_handshake kLinktestReq kLinktestRsp 0 r
  | kSeparate => let '(sys, r) := take_sys r in Some (send_control kSeparateReq sys 0 r)
  | kSend stream function w device it => Some (do_send stream function w device it r)
  | kExpect stream function pattern timeout => do_expect stream function pattern timeout r
  | kExpectNo stream function _ timeout => do_expect_no stream function timeout r
  | kWaitEvent id filters timeout => do_wait_event id filters timeout r
  | kWaitAlarm id set_ timeout => do_wait_alarm id set_ timeout r
  | kExpectClosed timeout => do_expect_closed timeout r
  | kExpectStatus id pattern timeout => do_expect_status id pattern timeout r
  | kAssert field op number tolerance value value_is_number =>
      Some (do_assert field op number tolerance value value_is_number r)
  | kAutoAck flag => Some (true, set_auto_ack flag r)
  | kSleep duration => (fun r => (true, r)) <$> do_sleep duration r
  | kRaw raw => Some (do_raw raw r)
  | kDisconnect => Some (true, set_closed true (client_close r))
  end.

Record RunResult := mkRunResult { ok : bool; failed_line : Z; run_message : string }.

(** [Runner::run]. *)
Fixpoint run (commands : list HostCommand) (r : Runner) : option (RunResult * Runner) :=
  match commands with
  | [] =>
      let r := if bool_decide (queue_ r = []) then r
               else log ("(" +:+ pretty (Z.of_nat (length (queue_ r))) +:+
                         " received message(s) were never consumed by the script)") r in
      Some (mkRunResult true 0 EmptyString, client_close r)
  | c :: commands =>
      match execute c (set_message EmptyString r) with
      | Some (true, r) => run commands r
      | Some (false, r) =>
          Some (mkRunResult false (line c) (text c +:+ ": " +:+ message_ r), client_close r)
      | None => None
      end
  end.

(** [run_script]. *)
Definition run_script (commands : list HostCommand) (now : Z) (arrivals : list Arrival)
    (connect_errors write_errors : list (option string)) : option (RunResult * Runner) :=
  run commands (new_runner now arrivals connect_errors write_errors).

End commands.

(** ** What a read brings *)

(** The control frames, and the data messages, among some frames. *)
Definition control_frames (fs : list Frame) : list Frame :=
  base.filter (fun f => stype (header f) <> 0) fs.

Definition data_messages (fs : list Frame) : list Received :=
  omap (fun f => if stype (header f) =? 0
                 then match to_message f with Ok m => Some (mkReceived f m) | Err _ => None end
                 else None) fs.

(** The frames a client reads from what arrives. *)
Fixpoint frames_read (d : FrameDecoder) (l : list Arrival) : list Frame :=
  match l with
  | arrives _ bytes :: l =>
      let '(fs, d) := feed d bytes in
      match fs with Ok fs => fs ++ frames_read d l | Err _ => [] end
  | _ => []
  end.

(** What sending leaves alone. *)
Record quiet (r r' : Runner) : Prop := mkQuiet {
  quiet_client : client_ r' = client_ r;
  quiet_queue : queue_ r' = queue_ r;
  quiet_control : control_ r' = control_ r;
  quiet_ack : auto_ack_ r' = auto_ack_ r;
  quiet_closed : closed_ r' = closed_ r;
  quiet_now : now r' = now r;
  quiet_arrivals : arrivals r' = arrivals r
}.

#[global] Instance quiet_preorder : PreOrder quiet.
Proof. split; [by intros []|intros r1 r2 r3 [] []; constructor; congruence]. Qed.

Lemma log_quiet line r : quiet r (log line r).
Proof. by constructor. Qed.
Lemma set_message_quiet why r : quiet r (set_message why r).
Proof. by constructor. Qed.

Lemma send_bytes_quiet bytes r : quiet r (send_bytes bytes r).2.
Proof. unfold send_bytes. by repeat case_match. Qed.

#[export] Hint Resolve log_quiet set_message_quiet send_bytes_quiet : ssim.

Lemma send_frame_quiet f what r : quiet r (send_frame f what r).2.
Proof.
  unfold send_frame. destruct (encode_frame f) as [bytes|e]; [|by apply set_message_quiet].
  pose proof (send_bytes_quiet bytes (log (">> " +:+ what) r)) as Hb.
  destruct (send_bytes bytes _) as [[] r']; simpl in *;
    (etransitivity; [apply log_quiet|]); [|done].
  by etransitivity; [|apply set_message_quiet].
Qed.

(** What some frames change, besides what sending changes. *)
Record takes_in (fs : list Frame) (r r' : Runner) : Prop := mkTakesIn {
  in_client : client_ r' = client_ r;
  in_queue : queue_ r' = queue_ r ++ data_messages fs;
  in_control : control_ r' = control_ r ++ control_frames fs;
  in_ack : auto_ack_ r' = auto_ack_ r;
  in_closed : closed_ r' = closed_ r;
  in_now : now r' = now r;
  in_arrivals : arrivals r' = arrivals r
}.

Lemma reply_quiet request m r : quiet r (reply request m r).
Proof. apply send_frame_quiet. Qed.

Lemma on_frame_quiet f r :
  exists r0, quiet r r0 /\
    on_frame f r =
      if stype (header f) =? 0 then
        match to_message f with
        | Ok m => set_queue (queue_ r ++ [mkReceived f m]) r0
        | Err _ => r0
        end
      else set_control (control_ r ++ [f]) r0.
Proof.
  unfold on_frame. destruct (stype (header f) =? 0); cbn [negb].
  - destruct (to_message f) as [m|e]; [|by eexists; split; [apply log_quiet|]].
    set (r1 := if auto_ack_ _ && _ then _ else _).
    assert (H : quiet r r1).
    { etransitivity; [apply log_quiet|]. subst r1.
      repeat (case_match; try apply reply_quiet; try done). }
    exists r1. by rewrite (quiet_queue _ _ H).
  - set (r1 := if bool_decide _ then _ else _).
    assert (H : quiet r r1).
    { etransitivity; [apply log_quiet|]. subst r1. case_match; [apply send_frame_quiet|done]. }
    exists r1. by rewrite (quiet_control _ _ H).
Qed.

Lemma control_frames_one f : control_frames [f] = if stype (header f) =? 0 then [] else [f].
Proof.
  unfold control_frames. destruct (Z.eqb_spec (stype (header f)) 0) as [E|E].
  - by rewrite filter_cons_False, filter_nil by (by intros []).
  - by rewrite filter_cons_True, filter_nil by done.
Qed.

Lemma data_messages_one f :
  data_messages [f] =
    if stype (header f) =? 0
    then match to_message f with Ok m => [mkReceived f m] | Err _ => [] end else [].
Proof. unfold data_messages. simpl. destruct (stype _ =? 0); [destruct (to_message f)|]; done. Qed.

Lemma data_messages_app fs gs : data_messages (fs ++ gs) = data_messages fs ++ data_messages gs.
Proof. apply omap_app. Qed.
Lemma control_frames_app fs gs : control_frames (fs ++ gs) = control_frames fs ++ control_frames gs.
Proof. apply filter_app. Qed.

Lemma on_frame_takes_in f r : takes_in [f] r (on_frame f r).
Proof.
  destruct (on_frame_quiet f r) as (r0 & [] & ->).
  pose proof (control_frames_one f) as Hc. pose proof (data_messages_one f) as Hm.
  destruct (stype (header f) =? 0); [destruct (to_message f)|];
    constructor; rewrite ?Hc, ?Hm, ?app_nil_r; cbn; congruence.
Qed.

Lemma on_frames_take_in fs r : takes_in fs r (foldl (fun r f => on_frame f r) r fs).
Proof.
  revert r. induction fs as [|f fs IH]; intros r; cbn [foldl].
  - unfold data_messages, control_frames. by constructor; rewrite ?app_nil_r.
  - destruct (on_frame_takes_in f r), (IH (on_frame f r)).
    pose proof (data_messages_app [f] fs). pose proof (control_frames_app [f] fs).
    cbn [app] in *. constructor; try congruence.
    + rewrite H, app_assoc. congruence.
    + rewrite H0, app_assoc. congruence.
Qed.

(** ** One read

    [pump] for at most [d] ms: nothing arrives and the time passes, or one arrival is
    taken, or the connection is found closed. *)
Record pumped (used : list Arrival) (r r' : Runner) : Prop := mkPumped {
  pump_arrivals : arrivals r = used ++ arrivals r';
  pump_queue : queue_ r' = queue_ r ++ data_messages (frames_read (decoder (client_ r)) used);
  pump_control : control_ r' = control_ r ++ control_frames (frames_read (decoder (client_ r)) used);
  pump_ack : auto_ack_ r' = auto_ack_ r;
  pump_later : closed_ r' = false -> forall l,
    frames_read (decoder (client_ r)) (used ++ l) =
    frames_read (decoder (client_ r)) used ++ frames_read (decoder (client_ r')) l
}.

(** Resolves the test for [kClosed] of a known status. *)
Ltac know_status :=
  cbn; first [rewrite bool_decide_eq_true_2 by done | rewrite bool_decide_eq_false_2 by done]; cbn.

Lemma pump_effect d r :
  0 < d ->
  exists used, pumped used r (pump d r).2 /\
    now r <= now (pump d r).2 <= now r + d /\
    (closed_ r = true -> closed_ (pump d r).2 = true) /\
    (closed_ (pump d r).2 = true \/ used <> [] \/ now (pump d r).2 = now r + d) /\
    (is_open r = true -> used <> [] \/ now (pump d r).2 = now r + d).
Proof.
  intros Hd. unfold pump, client_read.
  assert (Hidle : forall r', client_ r' = client_ r -> queue_ r' = queue_ r ->
            control_ r' = control_ r -> auto_ack_ r' = auto_ack_ r -> arrivals r' = arrivals r ->
            pumped [] r r').
  { intros r' Hc Hq Hk Ha Hl. constructor; cbn [frames_read app]; rewrite ?app_nil_r; congruence. }
  destruct (is_open r) eqn:Eo; cbn [negb].
  2: { exists []. know_status.
       split_and!; [by apply Hidle|lia|lia|done|by left|done]. }
  destruct (arrivals r) as [|a rest] eqn:Ea.
  { exists []. know_status. split_and!; [by apply Hidle|lia|lia|done|auto|auto]. }
  destruct (Z.leb_spec (arrival_time a) (now r + d)) as [Et|Et].
  2: { exists []. know_status. split_and!; [by apply Hidle|lia|lia|done|auto|auto]. }
  exists [a]. destruct a as [t bytes|t]; cbn in Et.
  2: { know_status. split_and!; [constructor; cbn; rewrite ?app_nil_r; done|lia|lia|done|by left|by left]. }
  destruct (feed (decoder (client_ r)) bytes) as [[fs|e] dec] eqn:Ef.
  - set (r1 := set_client _ _).
    destruct (on_frames_take_in fs r1) as [Hc Hq Hk Ha Hcl Hn Hr]. know_status.
    split_and!; rewrite ?Hcl, ?Hn; [|cbn; lia|cbn; lia|done|auto|auto].
    constructor; rewrite ?Hq, ?Hk, ?Ha, ?Hr, ?Hc; cbn; rewrite ?Ef, ?app_nil_r; try done.
  - know_status. split_and!; [|lia|lia|done|by left|by left].
    constructor; cbn; rewrite ?Ef, ?app_nil_r; done.
Qed.

(** ** Waiting *)

Lemma take_first_spec {A} (p : A -> bool) l :
  match take_first p l with
  | Some (x, rest) =>
      exists before after, l = before ++ x :: after /\ p x = true /\
        Forall (fun y => p y = false) before /\ rest = before ++ after
  | None => Forall (fun y => p y = false) l
  end.
Proof.
  induction l as [|y l IH]; simpl; [done|].
  destruct (p y) eqn:Ey; [by exists [], l|].
  destruct (take_first p l) as [[x rest]|]; [|by constructor].
  destruct IH as (before & after & -> & Hx & Hb & ->). exists (y :: before), after.
  split_and!; try done. by constructor.
Qed.

(** The rounds a wait for [deadline] may still make. *)
Definition rounds (deadline : Z) (r : Runner) : nat :=
  length (arrivals r) + (if closed_ r then 0 else if now r <? deadline then 1 else 0).

Lemma rounds_fuel deadline r : (rounds deadline r < wait_fuel r)%nat.
Proof. unfold rounds, wait_fuel. repeat case_match; lia. Qed.

Lemma pump_rounds deadline r :
  closed_ r = false -> 0 < deadline - now r ->
  (rounds deadline (pump (deadline - now r) r).2 < rounds deadline r)%nat.
Proof.
  intros Hc Hd. destruct (pump_effect (deadline - now r) r Hd) as (used & [Ha _ _ _ _] & Hn & _ & Hp & _).
  unfold rounds. rewrite Ha, Hc, length_app. rewrite (proj2 (Z.ltb_lt (now r) deadline)) by lia.
  destruct Hp as [E|[Hu|E]]; rewrite ?E; [lia| |rewrite (proj2 (Z.ltb_ge _ _)) by lia; case_match; lia].
  destruct used; [done|]. simpl. set (r1 := (pump _ r).2) in *. destruct (closed_ r1), (now r1 <? deadline); lia.
Qed.

(** [r'] follows [r] after taking in the arrivals [used], messages aside. *)
Record waited (used : list Arrival) (deadline : Z) (r r' : Runner) : Prop := mkWaited {
  waited_arrivals : arrivals r = used ++ arrivals r';
  waited_now : now r <= now r' <= Z.max (now r) deadline;
  waited_ack : auto_ack_ r' = auto_ack_ r
}.

Lemma waited_pump used1 used2 deadline r r1 r2 :
  pumped used1 r r1 -> now r <= now r1 <= deadline -> waited used2 deadline r1 r2 ->
  waited (used1 ++ used2) deadline r r2.
Proof.
  intros [Ha _ _ Hk _] Hn [Ha2 Hn2 Hk2]. constructor; [|lia|congruence].
  by rewrite Ha, Ha2, app_assoc.
Qed.

Lemma wait_message_until_spec fuel deadline pred timeout what r :
  (rounds deadline r < fuel)%nat ->
  exists out r' used,
    wait_message_until fuel deadline pred timeout what r = Some (out, r') /\
    waited used deadline r r' /\ (closed_ r = true -> used = []) /\
    let available := queue_ r ++ data_messages (frames_read (decoder (client_ r)) used) in
    match out with
    | Some x => exists before after, available = before ++ x :: after /\ pred x = true /\
        Forall (fun y => pred y = false) before /\ queue_ r' = before ++ after
    | None => Forall (fun y => pred y = false) available /\ queue_ r' = available /\
        (closed_ r' = true \/ deadline <= now r')
    end.
Proof.
  revert r. induction fuel as [|fuel IH]; intros r Hf; [lia|]. cbn [wait_message_until].
  assert (Hstay : forall r', now r' = now r -> arrivals r' = arrivals r ->
                    auto_ack_ r' = auto_ack_ r -> waited [] deadline r r').
  { intros. constructor; [by cbn|lia|done]. }
  pose proof (take_first_spec pred (queue_ r)) as Hq.
  destruct (take_first pred (queue_ r)) as [[x rest]|].
  { do 2 eexists. exists []. cbn. rewrite app_nil_r. split_and!; [done|by apply Hstay|done|].
    destruct Hq as (before & after & ? & ? & ? & ->). eauto 6. }
  destruct (closed_ r) eqn:Ec.
  { do 2 eexists. exists []. cbn. rewrite app_nil_r.
    split; [done|]. split; [by apply Hstay|]. cbn. eauto. }
  destruct (Z.leb_spec (deadline - now r) 0) as [El|El].
  { do 2 eexists. exists []. cbn. rewrite app_nil_r.
    split; [done|]. split; [by apply Hstay|]. cbn.
    split_and!; [done..|right; lia]. }
  pose proof (pump_rounds deadline r Ec El) as Hr.
  destruct (pump_effect _ r El) as (used & Hp & Hn & _ & _ & _).
  set (r1 := (pump _ r).2) in *.
  destruct (IH r1 ltac:(lia)) as (out & r' & used2 & Ew & Hw & Hc & Hout).
  exists out, r', (used ++ used2). split_and!; [done|eapply waited_pump; [done|lia|done]|done|].
  assert (Heq : queue_ r ++ data_messages (frames_read (decoder (client_ r)) (used ++ used2)) =
                queue_ r1 ++ data_messages (frames_read (decoder (client_ r1)) used2)).
  { destruct (closed_ r1) eqn:Ec1.
    - rewrite Hc, app_nil_r by done. cbn. by rewrite app_nil_r, (pump_queue _ _ _ Hp).
    - by rewrite (pump_later _ _ _ Hp), data_messages_app, app_assoc, (pump_queue _ _ _ Hp). }
  by rewrite Heq.
Qed.

(** Waiting: a wait takes the first message that matches, among those queued and
    then those that arrive, and leaves all the others queued in their order; it gives up
    only when no message so far matches and the connection is closed or the time is
    over, never before and never more than the timeout later. It always returns. *)
Theorem wait_message_spec pred timeout what r :
  exists out r' used,
    wait_message pred timeout what r = Some (out, r') /\
    arrivals r = used ++ arrivals r' /\ now r <= now r' <= Z.max (now r) (now r + timeout) /\
    let available := queue_ r ++ data_messages (frames_read (decoder (client_ r)) used) in
    match out with
    | Some x => exists before after, available = before ++ x :: after /\ pred x = true /\
        Forall (fun y => pred y = false) before /\ queue_ r' = before ++ after
    | None => Forall (fun y => pred y = false) available /\ queue_ r' = available /\
        (closed_ r' = true \/ now r + timeout <= now r')
    end.
Proof.
  destruct (wait_message_until_spec (wait_fuel r) (now r + timeout) pred timeout what r)
    as (out & r' & used & Hw & [Ha Hn _] & _ & Hout); [apply rounds_fuel|].
  by exists out, r', used.
Qed.

(** ** Every script ends

    The clock never goes back. *)
Definition ends {A} (r : Runner) (w : option (A * Runner)) : Prop :=
  exists a r', w = Some (a, r') /\ now r <= now r'.

Lemma ends_now {A} r (a : A) r' : now r <= now r' -> ends r (Some (a, r')).
Proof. unfold ends. eauto. Qed.

Lemma ends_from {A} r r1 (w : option (A * Runner)) : now r <= now r1 -> ends r1 w -> ends r w.
Proof. intros H (a & r' & -> & Hn). exists a, r'. split; [done|lia]. Qed.

Lemma found_ends {A} r (w : option (option A * Runner)) k :
  ends r w -> (forall a r', now r <= now r' -> ends r (k a r')) -> ends r (found w k).
Proof.
  intros (a & r' & -> & Hn) Hk. destruct a as [a|]; [by apply Hk|by apply ends_now].
Qed.

Lemma wait_message_ends pred timeout what r : ends r (wait_message pred timeout what r).
Proof.
  destruct (wait_message_until_spec (wait_fuel r) (now r + timeout) pred timeout what r)
    as (out & r' & used & Hw & [Ha Hn _] & _); [apply rounds_fuel|].
  exists out, r'. split; [done|lia].
Qed.

Lemma wait_control_until_ends fuel deadline t sys r :
  (rounds deadline r < fuel)%nat -> ends r (wait_control_until fuel deadline t sys r).
Proof.
  revert r. induction fuel as [|fuel IH]; intros r Hf; [lia|]. cbn [wait_control_until].
  destruct (take_first _ (control_ r)) as [[x rest]|]; [apply ends_now; simpl; lia|].
  destruct (closed_ r) eqn:Ec; [apply ends_now; simpl; lia|].
  destruct (Z.leb_spec (deadline - now r) 0) as [El|El]; [apply ends_now; simpl; lia|].
  pose proof (pump_rounds deadline r Ec El).
  destruct (pump_effect _ r El) as (used & _ & Hn & _).
  eapply ends_from; [|apply IH; lia]. lia.
Qed.

Lemma expect_closed_until_ends fuel deadline r :
  (rounds deadline r < fuel)%nat -> ends r (expect_closed_until fuel deadline r).
Proof.
  revert r. induction fuel as [|fuel IH]; intros r Hf; [lia|]. cbn [expect_closed_until].
  destruct (closed_ r) eqn:Ec; [apply ends_now; lia|].
  destruct (Z.leb_spec (deadline - now r) 0) as [El|El]; [apply ends_now; simpl; lia|].
  pose proof (pump_rounds deadline r Ec El).
  destruct (pump_effect _ r El) as (used & _ & Hn & _).
  eapply ends_from; [|apply IH; lia]. lia.
Qed.

(** A sleep lasts at least as long as asked. *)
Lemma sleep_until_ends fuel end_ r :
  Z.of_nat (length (arrivals r)) + Z.max 0 ((end_ - now r + 49) / 50) < Z.of_nat fuel ->
  exists r', sleep_until fuel end_ r = Some r' /\ now r <= now r' /\ end_ <= now r'.
Proof.
  revert r. induction fuel as [|fuel IH]; intros r Hf; [lia|]. cbn [sleep_until].
  destruct (Z.ltb_spec (now r) end_) as [El|El]; [|exists r; split_and!; [done|lia..]].
  set (slice := Z.min (end_ - now r) 50). assert (Hs : 0 < slice) by lia.
  set (r1 := if is_open r && _ then _ else _).
  assert (H : now r <= now r1 /\ Z.of_nat (length (arrivals r1)) +
            Z.max 0 ((end_ - now r1 + 49) / 50) <
            Z.of_nat (length (arrivals r)) + Z.max 0 ((end_ - now r + 49) / 50)).
  { assert (Hpass : now r1 = now r + slice -> (length (arrivals r1) <= length (arrivals r))%nat ->
              Z.of_nat (length (arrivals r1)) + Z.max 0 ((end_ - now r1 + 49) / 50) <
              Z.of_nat (length (arrivals r)) + Z.max 0 ((end_ - now r + 49) / 50)).
    { intros -> Hl. subst slice. Z.to_euclidean_division_equations. lia. }
    subst r1. destruct (is_open r && _) eqn:Eo; [|split; [simpl; lia|by apply Hpass]].
    apply andb_true_iff in Eo as [Eo _].
    destruct (pump_effect slice r Hs) as (used & [Ha _ _ _ _] & Hn & _ & _ & Hp).
    apply (f_equal length) in Ha. rewrite length_app in Ha. split; [lia|].
    destruct (Hp Eo) as [Hu|Hu]; [|apply Hpass; lia].
    destruct used; [done|]. simpl in Ha. Z.to_euclidean_division_equations. lia. }
  destruct (IH r1 ltac:(lia)) as (r' & Hr & Hn & He). exists r'. split_and!; [done|lia..].
Qed.

Lemma do_sleep_ends duration r :
  exists r', do_sleep duration r = Some r' /\ now r <= now r' /\ now r + duration <= now r'.
Proof.
  apply sleep_until_ends.
  destruct (Z.le_gt_cases 0 duration).
  - Z.to_euclidean_division_equations. lia.
  - rewrite Z.max_l by (Z.to_euclidean_division_equations; lia). lia.
Qed.

Section totality.
Context (make_address : string -> bool) (device_id : Z).

Lemma expect_status_until_ends fuel deadline id pattern last r :
  (0 < fuel)%nat -> deadline - now r < 200 * (Z.of_nat fuel - 1) ->
  ends r (expect_status_until device_id fuel deadline id pattern last r).
Proof.
  revert last r. induction fuel as [|fuel IH]; intros last r H0 Hf; [lia|].
  cbn [expect_status_until]. unfold take_sys.
  set (r1 := set_next_sys _ r). set (text := message_text _ +:+ _).
  pose proof (send_frame_quiet (make_data_frame (wrap 16 device_id) 1 3 true (next_sys_ r)
    (encoded_body (make_s1f3 [id]))) text r1) as Hq.
  destruct (send_frame _ text r1) as [[] r2]; apply quiet_now in Hq; simpl in Hq;
    [|apply ends_now; lia]. cbn [negb].
  apply found_ends; [eapply ends_from; [|apply wait_message_ends]; lia|].
  intros x r3 Hn. set (last' := match status_answer _ with Some it => to_text it | None => _ end).
  set (good := match status_answer _ with Some it => matches pattern it | None => false end).
  destruct good; [apply ends_now; lia|].
  destruct (Z.leb_spec deadline (now r3)) as [Hd|Hd]; [apply ends_now; simpl; lia|].
  destruct (do_sleep_ends 200 r3) as (r4 & -> & Hn4 & Hn4').
  eapply ends_from; [|apply IH; lia]. lia.
Qed.

Lemma do_handshake_ends request response status r : ends r (do_handshake request response status r).
Proof.
  unfold do_handshake, take_sys, send_control. set (r1 := set_next_sys _ r).
  set (f := make_control_frame _ _ _ _). set (text := stype_to_string request +:+ _).
  pose proof (send_frame_quiet f text r1) as Hq.
  destruct (send_frame f text r1) as [[] r2]; apply quiet_now in Hq; simpl in Hq;
    [|apply ends_now; lia]. cbn [negb].
  apply found_ends.
  - eapply ends_from; [|apply wait_control_until_ends, rounds_fuel]. lia.
  - intros x r3 Hn. case_match; apply ends_now; simpl; lia.
Qed.

Lemma execute_ends c r :
  exists success r', execute make_address device_id c r = Some (success, r').
Proof.
  assert (Hends : forall w, ends r w -> exists success r', w = Some (success : bool, r')).
  { intros w (a & r' & -> & _). by exists a, r'. }
  unfold execute, take_sys. destruct (kind c);
    try (apply Hends, do_handshake_ends);
    try (match goal with |- exists _ _, Some ?p = _ => destruct p; by do 2 eexists end).
  - apply Hends, found_ends; [apply wait_message_ends|].
    intros. case_match; apply ends_now; simpl; lia.
  - unfold do_expect_no. destruct (wait_message_ends (is_message stream function) timeout
      (sf_name stream function) r) as ([x|] & r' & -> & _); by do 2 eexists.
  - apply Hends, found_ends; [apply wait_message_ends|]. intros. by apply ends_now.
  - apply Hends, found_ends; [apply wait_message_ends|]. intros. by apply ends_now.
  - apply Hends, expect_closed_until_ends, rounds_fuel.
  - apply Hends, expect_status_until_ends; [lia|]. Z.to_euclidean_division_equations. lia.
  - destruct (do_sleep_ends duration r) as (r' & -> & _). by do 2 eexists.
Qed.

Lemma run_ends commands : forall r,
  exists res r', run make_address device_id commands r = Some (res, r') /\
    socket_open (client_ r') = false /\
    (if ok res then failed_line res = 0 /\ run_message res = EmptyString
     else exists c, c ∈ commands /\ failed_line res = line c /\
            exists why, run_message res = text c +:+ ": " +:+ why).
Proof.
  induction commands as [|c commands IH]; intros r; cbn [run].
  { do 2 eexists. split; [done|]. by split. }
  destruct (execute_ends c (set_message EmptyString r)) as ([] & r' & ->).
  - destruct (IH r') as (res & r2 & -> & Hc & Hv). exists res, r2. split_and!; [done..|].
    destruct (ok res); [done|]. destruct Hv as (c' & Hin & Hl & Hw). exists c'.
    by split; [apply list_elem_of_further|].
  - do 2 eexists. split; [done|]. split; [done|]. exists c.
    split; [apply list_elem_of_here|]. by split; [|eexists].
Qed.

(** Every run of every script ends with a verdict, whatever arrives and however
    connecting and writing fail; the verdict names line 0 or the line of one of the
    commands, and the connection is closed. *)
Theorem run_total commands t arrivals connect_errors write_errors :
  exists res r,
    run_script make_address device_id commands t arrivals connect_errors write_errors =
      Some (res, r) /\
    socket_open (client_ r) = false /\
    (if ok res then failed_line res = 0 /\ run_message res = EmptyString
     else exists c, c ∈ commands /\ failed_line res = line c /\
            exists why, run_message res = text c +:+ ": " +:+ why).
Proof. apply run_ends. Qed.

End totality.
