(* ===== verification/HostMachine.v ===== *)
(** * The host simulator against the machine's session

    The runner of src/host_sim/runner.cpp at one end of the wire and the HSMS session of
    src/secsgem/hsms/session.cpp at the other: what each writes is what the other reads.
    There is no code of its own here, only how the two components fit together. *)

From S2P Require Import CLibrary Prelude Secs2Item Secs2Codec Secs2Message TextDump HsmsFrame HsmsConn HsmsSession GemMessages HostPattern HostScript HostRunner.

(** A runner whose connection is up and between two frames, as [do_connect] leaves it. *)
Record connected (r : Runner) : Prop := mkConnected {
  conn_open : HostRunner.is_open r = true;
  conn_closed : closed_ r = false;
  conn_failed : failed (decoder (client_ r)) = false;
  conn_buffer : buffer (decoder (client_ r)) = [];
  conn_max : max_frame_bytes (decoder (client_ r)) = kMaxFrame;
  conn_writes : write_errors r = []
}.

Lemma do_connect_connected make_address host port r r' :
  write_errors r = [] -> do_connect make_address host port r = (true, r') -> connected r'.
Proof.
  intros Hw H. unfold do_connect, client_connect, client_close in H.
  destruct (negb (make_address host)); [by simplify_eq/=|].
  destruct (connect_errors _) as [|[e|] es] in H; simplify_eq/=; by constructor.
Qed.

(** Writing one frame: the bytes reach the socket, nothing fails. *)
Lemma send_frame_written f what r :
  connected r -> frame_length f < 2 ^ 32 ->
  send_frame f what r = (true, add_written (wire [f]) (log (">> " +:+ what) r)).
Proof.
  intros [Ho _ _ _ _ Hw] Hl. unfold send_frame. rewrite encode_frame_fits by done.
  unfold send_bytes. apply andb_true_iff in Ho as [Ho _]. simpl. rewrite Ho, Hw. simpl.
  unfold wire. simpl. by rewrite app_nil_r.
Qed.

(** Reading the frames a peer has written. *)
Lemma pump_wire d r t fs rest :
  connected r -> frames_fit kMaxFrame fs -> arrivals r = arrives t (wire fs) :: rest ->
  t <= now r + d ->
  (pump d r).2 =
    foldl (fun r f => on_frame f r) (set_arrivals rest (set_now (Z.max (now r) t) r)) fs.
Proof.
  intros [Ho Hc Hf Hb Hm _] Hfs Ha Ht. unfold pump, client_read.
  rewrite Ho, Ha. cbn [negb arrival_time]. rewrite (proj2 (Z.leb_le _ _)) by done.
  rewrite feed_wire by (done || by rewrite Hm). know_status. f_equal.
  destruct r as [[]]. done.
Qed.

(** ** Acknowledging events *)

(** What the runner answers to an event report or an alarm report. *)
Definition ack_of (m : Message) : Message :=
  if stream m =? 6 then make_s6f12 kAckAccepted else make_s5f2 kAckAccepted.

Definition wants_ack (m : Message) : Prop :=
  w_bit m = true /\ ((stream m = 6 /\ function m = 11) \/ (stream m = 5 /\ function m = 1)).

Lemma ack_of_ok m : message_ok (ack_of m) /\ function (ack_of m) mod 2 = 0 /\
  w_bit (ack_of m) = false /\ body (ack_of m) = Some (binary [0]) /\
  normalize_message (ack_of m) = ack_of m.
Proof.
  unfold ack_of, message_ok. case_match; simpl; split_and!; try done;
    by apply (bool_decide_unpack (item_ok (binary [0]))).
Qed.

(** The runner takes in one frame that wants an acknowledgement. *)
Lemma on_frame_acks f m r :
  connected r -> auto_ack_ r = true -> stype (header f) = 0 -> to_message f = Ok m -> wants_ack m ->
  written (on_frame f r) = written r ++ [wire [reply_frame f (ack_of m)]] /\
  queue_ (on_frame f r) = queue_ r ++ [mkReceived f m].
Proof.
  intros Hr Ha Hs Hm [Hw Hsf]. unfold on_frame. rewrite Hs, Hm. cbn [negb Z.eqb].
  cbn [auto_ack_ log]. rewrite Ha, Hw. cbn [andb].
  set (r1 := log _ r). assert (Hr1 : connected r1) by by destruct Hr.
  assert (Hreply : forall k, frame_length (reply_frame f k) < 2 ^ 32 ->
    reply f k r1 = add_written (wire [reply_frame f k])
                     (log (">> " +:+ message_text k +:+ " (auto-ack)") r1)).
  { intros k Hl. unfold reply. by rewrite send_frame_written. }
  destruct Hsf as [[Es Ef]|[Es Ef]]; rewrite Es, Ef; cbn [Z.eqb Pos.eqb andb]; unfold ack_of;
    rewrite Es; cbn [Z.eqb Pos.eqb]; rewrite Hreply; done.
Qed.

(** [C34] Event reports and alarm reports are acknowledged, end to end: when the
    machine's session sends one that asks for a reply, the runner that reads it answers
    at once with one frame, queues the message for the script, and the session receives
    that frame as the acknowledgement of that very request, code 0, and closes its
    transaction and no other. *)
Theorem event_acknowledged c a a' outa m sys ta tc t d r rest :
  session_config_ok c -> 13 <= cfg_max_frame_bytes c <= kMaxFrame -> uint_ok 16 (device_id c) ->
  session_reachable c a -> has_partial (decoder_ a) = false ->
  message_ok m -> wants_ack m ->
  send_request ta m a no_output = (Ok sys, a', outa) ->
  connected r -> auto_ack_ r = true ->
  arrivals r = arrives t (concat (to_send outa)) :: rest -> t <= now r + d ->
  exists bytes f g a'',
    written (pump d r).2 = written r ++ [bytes] /\
    queue_ (pump d r).2 = queue_ r ++ [mkReceived f (normalize_message m)] /\
    on_bytes tc bytes a' = (a'', mkOutput [] [mkDelivery g (Some sys)] [] false "") /\
    to_message g = Ok (ack_of m) /\ transactions_ a'' = transactions_ a.
Proof.
  intros Hc Hmax Hdev Ha Hpart Hm Hack Hreq Hr Hauto Harr Ht.
  apply session_reachable_ok in Ha; [|done].
  destruct (send_request_Ok c ta m a no_output _ _ _ Hc Ha Hreq)
    as (_ & Hsel & Hdec & Ha' & H0 & Hu & Hnew & Htr & bd & Hbd & Hlen & ->).
  cbn [to_send push_send no_output app] in Harr. rewrite concat_cons, app_nil_r in Harr.
  set (f := message_frame c m sys bd) in *.
  assert (Hm' : to_message f = Ok (normalize_message m)).
  { destruct Hm as (Hst & _ & Hit). apply to_message_make_data_frame; [done|].
    destruct (body m); done. }
  assert (Hfit : frames_fit kMaxFrame [f]).
  { apply Forall_cons_2; [|done]. split; [|lia]. apply message_frame_ok; try done.
    destruct Hm as (_ & _ & Hm). destruct (body m); [by eapply encode_bytes_ok|by subst]. }
  rewrite (pump_wire d r t [f] rest Hr Hfit Harr Ht). cbn [foldl].
  set (r1 := set_arrivals _ _). assert (Hr1 : connected r1) by by destruct Hr.
  destruct (on_frame_acks f (normalize_message m) r1 Hr1 Hauto eq_refl Hm' Hack) as [-> ->].
  change (ack_of (normalize_message m)) with (ack_of m).
  destruct (ack_of_ok m) as (Hok & Hev & Hwb & Hb & Hn).
  assert (Hg : reply_frame f (ack_of m) = message_frame c (ack_of m) sys [33; 1; 0]).
  { unfold reply_frame, message_frame, encoded_body. by rewrite Hb, Hwb. }
  destruct (message_received c c tc (ack_of m) sys [33; 1; 0] a')
    as (g & a'' & Hon & Hgm & _ & _ & _ & _ & _ & Htr'); try done;
    [by rewrite Hb|change (13 <= cfg_max_frame_bytes c); lia|unfold kMaxFrame in *; lia|by rewrite Hdec|].
  rewrite Hev in Hon, Htr'. cbn [Z.eqb andb] in Hon, Htr'. destruct Hack as [Hw _].
  rewrite Htr, Hw in Hon, Htr'. rewrite bool_decide_eq_true_2 in Hon by (rewrite lookup_insert_eq; eauto).
  exists (wire [reply_frame f (ack_of m)]), f, g, a''. rewrite Hg.
  split_and!; [done..|by rewrite Hgm, Hn|]. rewrite Htr'. by apply delete_insert_id.
Qed.

(** A runner that has just connected, and the machine's event on its way to it. *)
Definition host_after_connect (arrivals : list Arrival) : Runner :=
  (do_connect (fun _ => true) "127.0.0.1" 5000 (new_runner 0 arrivals [] [])).2.

Lemma host_after_connect_connected l : connected (host_after_connect l).
Proof. by constructor. Qed.

Lemma event_acknowledged_witness :
  let '((a', outa), _) := sample_exchange in
  exists bytes f g a'',
    written (pump 50 (host_after_connect [arrives 20 (concat (to_send outa))])).2 = [bytes] /\
    queue_ (pump 50 (host_after_connect [arrives 20 (concat (to_send outa))])).2 =
      [mkReceived f (normalize_message sample_request)] /\
    on_bytes 30 bytes a' = (a'', mkOutput [] [mkDelivery g (Some 1)] [] false "") /\
    to_message g = Ok (make_s6f12 0) /\ transactions_ a'' = ∅.
Proof.
  destruct sample_exchange as [[a' outa] rx] eqn:E.
  assert (Ha : send_request 10 sample_request (selected_session default_session_config) no_output
    = (Ok 1, a', outa)).
  { transitivity (Ok 1, sample_exchange.1.1, sample_exchange.1.2);
      [vm_compute; reflexivity|by rewrite E]. }
  apply (event_acknowledged default_session_config (selected_session default_session_config)
    a' outa sample_request 1 10 30 20 50 _ [] default_session_config_ok ltac:(split; vm_compute; congruence)
    ltac:(split; vm_compute; congruence) (selected_session_reachable _) ltac:(vm_compute; reflexivity)
    sample_request_ok ltac:(by split; [|left]) Ha (host_after_connect_connected _) eq_refl eq_refl).
  vm_compute. congruence.
Defined.

(** ** Selecting *)

(** Nothing the runner holds answers the handshake it is about to start. *)
Definition no_answer_yet (t : SType) (r : Runner) : Prop :=
  Forall (fun f => stype (header f) = stype_code t -> system_bytes (header f) <> next_sys_ r)
    (control_ r).

(** The machine's side: one Select.req on a link that is up. *)
Lemma on_bytes_select c ts sys s :
  session_ok c s -> 10 <= cfg_max_frame_bytes c < 2 ^ 32 -> uint_ok 32 sys ->
  has_partial (decoder_ s) = false -> fsm_ s <> kNotConnected ->
  exists s',
    on_bytes ts (wire [make_control_frame kSelectReq sys 0 0]) s =
      (s', push_send (wire [make_control_frame kSelectRsp sys 0
             (if bool_decide (fsm_ s = kSelected) then 1 else 0)]) no_output) /\
    fsm_ s' = kSelected.
Proof.
  intros [Hs _] Hmax Hsys Hp Hf. destruct (link_decoder _ _ Hs) as (_ & Hd2 & Hd3).
  assert (Hfeed : feed (decoder_ s) (wire [make_control_frame kSelectReq sys 0 0]) =
                  (Ok [make_control_frame kSelectReq sys 0 0], decoder_ s)).
  { apply feed_wire; [done| |lia|].
    - by apply bool_decide_eq_false, dec_stable in Hp.
    - apply Forall_cons_2; [|done]. split; [by repeat split; try apply Hsys|].
      change (10 <= max_frame_bytes (decoder_ s)). lia. }
  unfold on_bytes. rewrite bool_decide_eq_false_2 by done. cbv zeta.
  cbn [decoder_ set_last_activity]. rewrite Hfeed. cbn [handle_frames].
  assert (Hrsp : forall b3, HsmsSession.send_control kSelectRsp sys 0 b3 no_output =
                   push_send (wire [make_control_frame kSelectRsp sys 0 b3]) no_output).
  { intros b3. unfold HsmsSession.send_control. rewrite encode_frame_fits by done.
    unfold wire. simpl concat. by rewrite app_nil_r. }
  unfold handle_frame. cbn [header make_control_frame ptype stype stype_code Z.eqb negb system_bytes].
  cbn [stype_from_byte Z.eqb Pos.eqb fsm_ set_decoder set_last_activity]. rewrite !Hrsp.
  unfold fsm_apply. cbn [fsm_ set_decoder set_last_activity].
  destruct (fsm_ s) eqn:Es; [done|..]; simpl; rewrite Hp; by eexists.
Qed.

Lemma take_first_last {A} (p : A -> bool) l x :
  Forall (fun y => p y = false) l -> p x = true -> take_first p (l ++ [x]) = Some (x, l).
Proof.
  intros Hl Hx. induction Hl as [|y l Hy _ IH]; simpl; [by rewrite Hx|]. by rewrite Hy, IH.
Qed.

Lemma take_first_none {A} (p : A -> bool) l :
  Forall (fun y => p y = false) l -> take_first p l = None.
Proof. intros Hl. induction Hl as [|y l Hy _ IH]; simpl; [done|]. by rewrite Hy, IH. Qed.

(** The runner's side: waiting for a control frame that is on its way. *)
Lemma wait_control_arrives t sys timeout f at_ rest r :
  connected r -> 0 < timeout -> frame_ok f -> frame_body f = [] ->
  stype (header f) = stype_code t -> stype_code t <> 0 -> t <> kLinktestReq ->
  system_bytes (header f) = sys ->
  Forall (fun f => stype (header f) = stype_code t -> system_bytes (header f) <> sys) (control_ r) ->
  arrivals r = arrives at_ (wire [f]) :: rest -> at_ <= now r + timeout ->
  exists r', wait_control t sys timeout r = Some (Some f, r') /\ arrivals r' = rest /\
    queue_ r' = queue_ r /\ control_ r' = control_ r /\ written r' = written r.
Proof.
  intros Hr Ht Hok Hb Hst Hst0 Hlt Hsys Hno Harr Hat.
  assert (Hno' : Forall (fun f => (stype (header f) =? stype_code t) &&
                                  (system_bytes (header f) =? sys) = false) (control_ r)).
  { eapply Forall_impl; [exact Hno|]. intros g Hg. simpl in Hg. lia. }
  unfold wait_control, wait_fuel. rewrite Harr. simpl length. cbn [wait_control_until Nat.add].
  rewrite (take_first_none _ _ Hno'), (conn_closed _ Hr).
  rewrite (proj2 (Z.leb_gt _ _)) by lia.
  assert (Hfit : frames_fit kMaxFrame [f]).
  { apply Forall_cons_2; [|done]. split; [done|]. unfold frame_length. rewrite Hb. vm_compute. congruence. }
  rewrite (pump_wire _ r at_ [f] rest Hr Hfit Harr) by lia.
  cbn [foldl]. set (r1 := set_arrivals _ _).
  assert (Hon : exists r2, on_frame f r1 = set_control (control_ r ++ [f]) r2 /\ arrivals r2 = rest /\
                  queue_ r2 = queue_ r /\ written r2 = written r /\ closed_ r2 = false).
  { unfold on_frame. rewrite Hst. rewrite (proj2 (Z.eqb_neq _ 0)) by done. cbn [negb].
    rewrite bool_decide_eq_false_2 by (by destruct t). eexists.
    split; [done|]. by rewrite <- (conn_closed _ Hr). }
  destruct Hon as (r2 & -> & Ha & Hq & Hw & Hcl). exists (set_control (control_ r) r2).
  rewrite Nat.add_comm. cbn [Nat.add wait_control_until control_ set_control].
  rewrite take_first_last; [by simpl|done|]. rewrite Hst, Hsys, !Z.eqb_refl. done.
Qed.

(** The select handshake: the script's [select] writes one Select.req; the
    machine answers it with one Select.rsp and is selected afterwards; when that answer
    arrives in time the command succeeds exactly when the status the script expects is
    the machine's, 0 when it was not selected before and 1 when it was, and nothing else
    the runner had received is lost. *)
Theorem select_handshake c s s' out r ts t rest expected :
  session_config_ok c -> 10 <= cfg_max_frame_bytes c < 2 ^ 32 ->
  session_reachable c s -> has_partial (decoder_ s) = false -> fsm_ s <> kNotConnected ->
  connected r -> uint_ok 32 (next_sys_ r) -> no_answer_yet kSelectRsp r ->
  on_bytes ts (wire [make_control_frame kSelectReq (next_sys_ r) 0 0]) s = (s', out) ->
  arrivals r = arrives t (concat (to_send out)) :: rest -> t <= now r + 5000 ->
  exists r',
    do_handshake kSelectReq kSelectRsp expected r =
      Some (expected =? (if bool_decide (fsm_ s = kSelected) then 1 else 0), r') /\
    written r' = written r ++ [wire [make_control_frame kSelectReq (next_sys_ r) 0 0]] /\
    fsm_ s' = kSelected /\ arrivals r' = rest /\
    queue_ r' = queue_ r /\ control_ r' = control_ r.
Proof.
  intros Hc Hmax Hs Hpart Hf Hr Hsys Hno Hon Harr Ht.
  apply session_reachable_ok in Hs; [|done].
  destruct (on_bytes_select c ts (next_sys_ r) s Hs Hmax Hsys Hpart Hf) as (s1 & Hon' & Hsel).
  rewrite Hon in Hon'. simplify_eq.
  cbn [to_send push_send no_output app] in Harr. rewrite concat_cons, app_nil_r in Harr.
  set (status := if bool_decide _ then 1 else 0) in *.
  unfold do_handshake, take_sys, HostRunner.send_control. cbn [negb].
  set (r1 := set_next_sys _ r). assert (Hr1 : connected r1) by by destruct Hr.
  rewrite send_frame_written by done. cbn [negb]. set (r2 := add_written _ _).
  assert (Hr2 : connected r2) by by destruct Hr.
  destruct (wait_control_arrives kSelectRsp (next_sys_ r) 5000
              (make_control_frame kSelectRsp (next_sys_ r) 0 status) t rest r2)
    as (r3 & -> & Ha & Hq & Hk & Hw); try done.
  { split; [|done]. unfold header_ok. simpl. split_and!; try done; subst status; by case_bool_decide. }
  cbn [found]. rewrite bool_decide_eq_true_2 by done. cbn [andb byte3 make_control_frame header].
  rewrite Z.eqb_sym. exists (if expected =? status then r3 else (HostRunner.fail
    (stype_to_string kSelectRsp +:+ " status " +:+ pretty status +:+ ", expected " +:+
     pretty expected) r3).2).
  destruct (expected =? status); by split_and!.
Qed.

Lemma select_handshake_witness :
  let rsp := wire [make_control_frame kSelectRsp 1 0 0] in
  exists r',
    do_handshake kSelectReq kSelectRsp 0 (host_after_connect [arrives 30 rsp]) = Some (true, r') /\
    written r' = [wire [make_control_frame kSelectReq 1 0 0]] /\ arrivals r' = [].
Proof.
  cbv zeta. set (s := (on_connect 0 (new_session default_session_config)).1). set (rsp := wire _).
  destruct (select_handshake default_session_config s (on_bytes 10 (wire [make_control_frame kSelectReq 1 0 0]) s).1
    (on_bytes 10 (wire [make_control_frame kSelectReq 1 0 0]) s).2 (host_after_connect [arrives 30 rsp]) 10 30 [] 0
    default_session_config_ok ltac:(split; vm_compute; congruence)
    (reach_step _ (ev_connect 0) _ (reach_new _)) ltac:(vm_compute; reflexivity)
    ltac:(vm_compute; congruence) (host_after_connect_connected _) ltac:(by split) ltac:(by constructor)
    (surjective_pairing _) ltac:(vm_compute; reflexivity) ltac:(vm_compute; congruence))
    as (r' & Hr & Hw & _ & Ha & _).
  exists r'. split_and!; [|done..]. rewrite Hr. vm_compute. reflexivity.
Defined.
