(* ===== verification/HostMain.v ===== *)
(** * The program host_sim

    src/host_sim/main.cpp: its arguments, the script file, and the exit code of a run. What
    files hold and the network are parameters. *)

From stdpp Require Import gmap strings.
From S2P Require Import CLibrary NumberText CliArguments Secs2Item GemMessages HostPattern HostScript HostRunner Prelude.

(** What the arguments have set so far. *)
Record HostOptions := mkHostOptions {
  script_path : string;
  vars : gmap string string;
  device_option : Z;
  quiet : bool
}.

Definition no_host_options : HostOptions := mkHostOptions EmptyString ∅ 0 false.

(** One argument, with its value. *)
Inductive HostSetting :=
| host_script (path : string)
| host_connect (host port : string)
| host_var (name value : string)
| host_device (id : Z)
| host_quiet.

Definition apply_host_setting (o : HostOptions) (s : HostSetting) : HostOptions :=
  let '(mkHostOptions path vars device quiet) := o in
  match s with
  | host_script path => mkHostOptions path vars device quiet
  | host_connect host port =>
      mkHostOptions path (<["PORT"%string := port]> (<["HOST"%string := host]> vars)) device quiet
  | host_var name value => mkHostOptions path (<[name := value]> vars) device quiet
  | host_device id => mkHostOptions path vars (wrap 16 id) quiet
  | host_quiet => mkHostOptions path vars device true
  end.

(** A value a flag cannot use is a usage error; a device that is no number throws. *)
Definition host_value (arg value : string) : option (option (Converted HostSetting)) :=
  if String.eqb arg "--script" then Some (Some (converted (host_script value)))
  else if String.eqb arg "--connect" then
    Some (match split_last ":" value with
          | Some (host, port) => Some (converted (host_connect host port))
          | None => None
          end)
  else if String.eqb arg "--var" then
    Some (match split_first (fun c => bool_decide (c = "="%char)) value with
          | Some (name, value) => Some (converted (host_var name value))
          | None => None
          end)
  else if String.eqb arg "--device" then
    Some (Some (match std_stoi value with
                | converted id => converted (host_device id)
                | threw what => threw what
                end))
  else None.

Inductive HostParsed := host_parsed (o : HostOptions) | host_usage | host_uncaught (what : string).

(** The loop over the arguments. *)
Fixpoint host_parse_from (args : list string) (o : HostOptions) : HostParsed :=
  match args with
  | [] => host_parsed o
  | arg :: args =>
      if String.eqb arg "--quiet" then host_parse_from args (apply_host_setting o host_quiet)
      else
        match args with
        | [] => host_usage
        | value :: args =>
            match host_value arg value with
            | Some (Some (converted s)) => host_parse_from args (apply_host_setting o s)
            | Some (Some (threw what)) => host_uncaught what
            | _ => host_usage
            end
        end
  end.

Inductive HostEnd := host_exits (code : Z) (out err : list string) | host_terminates (what : string).

Definition host_usage_line : string :=
  "usage: host_sim --script FILE [--connect HOST:PORT] [--var NAME=VALUE]... [--device N] [--quiet]".

Section main.
Context (nan_cast : Z) (make_address : string -> bool) (read_file : string -> option string).
Context (now : Z) (arrivals : list Arrival) (connect_errors write_errors : list (option string)).

Definition host_main (argv : list string) : option HostEnd :=
  match host_parse_from argv no_host_options with
  | host_usage => Some (host_exits 2 [] [host_usage_line])
  | host_uncaught what => Some (host_terminates what)
  | host_parsed o =>
      let path := script_path o in
      if bool_decide (path = EmptyString) then Some (host_exits 2 [] [host_usage_line])
      else
        match read_file path with
        | None => Some (host_exits 2 [] ["cannot read " +:+ path])
        | Some script =>
            match parse_script nan_cast script (vars o) with
            | Err e => Some (host_exits 2 [] [path +:+ ": " +:+ message e])
            | Ok commands =>
                '(result, r) ← run_script make_address (device_option o) commands now arrivals connect_errors write_errors;
                let log := if quiet o then [] else trace r in
                if ok result then Some (host_exits 0 (log ++ ["PASS " +:+ path]) [])
                else Some (host_exits 1 log
                       ["FAIL " +:+ path +:+ ":" +:+ pretty (failed_line result) +:+ ": " +:+ run_message result])
            end
        end
  end.

(** ** What the arguments say *)

(** The arguments that ask for a setting. *)
Definition host_words (s : HostSetting) : list string :=
  match s with
  | host_script path => ["--script"; path]
  | host_connect host port => ["--connect"; host +:+ ":" +:+ port]
  | host_var name value => ["--var"; name +:+ "=" +:+ value]
  | host_device id => ["--device"; pretty id]
  | host_quiet => ["--quiet"]
  end.

Definition host_setting_ok (s : HostSetting) : Prop :=
  match s with
  | host_connect _ port => string_all (fun c => negb (bool_decide (c = ":"%char))) port = true
  | host_var name _ => string_all (fun c => negb (bool_decide (c = "="%char))) name = true
  | host_device id => sint_ok 32 id
  | _ => True
  end.

Lemma split_last_none c s : string_all (fun d => negb (bool_decide (d = c))) s = true -> split_last c s = None.
Proof.
  induction s as [|d s IH]; [done|]. simpl. intros [Hd Hs]%andb_prop. rewrite (IH Hs).
  rewrite bool_decide_false; [done|]. intros ->. by rewrite bool_decide_true in Hd.
Qed.

Lemma split_last_app c a b : string_all (fun d => negb (bool_decide (d = c))) b = true ->
  split_last c (a +:+ String c b) = Some (a, b).
Proof.
  intros Hb. induction a as [|d a IH]; simpl; [by rewrite split_last_none, bool_decide_true|by rewrite IH].
Qed.

Lemma split_first_app c a b : string_all (fun d => negb (bool_decide (d = c))) a = true ->
  split_first (fun d => bool_decide (d = c)) (a +:+ String c b) = Some (a, b).
Proof.
  intros Ha. unfold split_first.
  enough (span (fun d => negb (bool_decide (d = c))) (a +:+ String c b) = (a, String c b)) as -> by done.
  induction a as [|d a IH]; simpl; [by rewrite bool_decide_true|].
  simpl in Ha. apply andb_prop in Ha as [Hd Ha]. rewrite Hd, (IH Ha). done.
Qed.

Lemma parse_host_words s rest o : host_setting_ok s ->
  host_parse_from (host_words s ++ rest) o = host_parse_from rest (apply_host_setting o s).
Proof.
  intros Hs. destruct s as [path|host port|name value|id|]; cbn [host_words app]; try done;
    cbn [host_parse_from String.eqb Ascii.eqb Bool.eqb]; unfold host_value; cbn [String.eqb Ascii.eqb Bool.eqb].
  - change (host +:+ ":" +:+ port) with (host +:+ String ":" port). by rewrite split_last_app.
  - change (name +:+ "=" +:+ value) with (name +:+ String "=" value). by rewrite split_first_app.
  - by rewrite stoi_pretty.
Qed.

Lemma parse_host_settings settings o : Forall host_setting_ok settings ->
  host_parse_from (concat (map host_words settings)) o = host_parsed (foldl apply_host_setting o settings).
Proof.
  intros Hall. revert o. induction Hall as [|s l Hs _ IH]; intros o; [done|].
  cbn [map concat foldl]. by rewrite parse_host_words.
Qed.

(** The only exception is that of a device that is no number. *)
Lemma uncaught_device n : forall args o what, (length args < n)%nat -> host_parse_from args o = host_uncaught what ->
  exists before value after, args = before ++ "--device"%string :: value :: after /\ std_stoi value = threw what.
Proof.
  induction n as [|n IH]; intros args o what Hn; [lia|]. destruct args as [|arg args]; [done|]. cbn [host_parse_from length] in *.
  destruct (String.eqb arg "--quiet").
  { intros H. destruct (IH args _ _ ltac:(lia) H) as (before & value & after & -> & Hv). by exists (arg :: before), value, after. }
  destruct args as [|value args]; [done|]. cbn [length] in *.
  destruct (host_value arg value) as [[[s|what']|]|] eqn:Ev; try done.
  - intros H. destruct (IH args _ _ ltac:(lia) H) as (before & value' & after & -> & Hv).
    by exists (arg :: value :: before), value', after.
  - intros [= ->]. unfold host_value in Ev. repeat case_match; simplify_eq.
    exists [], value, args. split; [|done].
    match goal with H : String.eqb arg "--device" = true |- _ => apply String.eqb_eq in H; by rewrite H end.
Qed.


End main.


(** The comment on top of [main] has 2 for bad arguments; a device that is no number terminates
    the program instead. *)
Lemma device_uncaught nan_cast make_address read_file now arrivals cs ws :
  host_main nan_cast make_address read_file now arrivals cs ws ["--device"; "abc"] =
    Some (host_terminates "std::invalid_argument: stoi").
Proof. reflexivity. Qed.
